(* ===== verification/_CoqProject ===== *)
-Q . S2P
Prelude.v
Message.v
EncapST.v
Gpb.v
Codec.v
Tcp.v
TcpServer.v
Udp.v
Tap.v
Replay.v
Metrics.v
GpbMetrics.v
GpbCompact.v
Router.v
Crypt.v
Influx.v
Prom.v
MetricsModule.v
Gnmi.v
GnmiRun.v
Kafka.v
Block.v
Grpc.v
GrpcOut.v
Conductor.v
Pipeline.v
Json.v
JsonTree.v
Jsonpb.v
JsonpbFacts.v
JsonSeq.v
JsonpbText.v
JsonpbOrder.v
JsonpbFuel.v
JsonpbTimes.v
Unmarshal.v
JsonpbRound.v
JsonpbFields.v
JsonpbRequired.v
JsonpbValues.v
JsonpbKnown.v
JsonpbBack.v
UnmarshalSafe.v
Render.v
Samples.v
MetaMon.v
Relay.v
Witnesses.v
NodeWitnesses.v
JsonWitnesses.v
