(* ===== verification/Prelude.v ===== *)
(** * pipeline-gnmi: a verification development

    ** The program

    [pipeline] moves router telemetry from inputs to outputs.  The conductor ([pipeline.go])
    reads a configuration, starts one node per section and gives every input the data
    channels of all outputs.  An input (TCP, UDP, gRPC, gNMI, Kafka, replay) takes bytes from
    its transport; the framing layer ([encap_st.go]) cuts them into payloads; a codec
    ([codec_gpb.go], [codec_json.go], [codec_gnmi.go]) turns a payload into messages, values
    of the interface [dataMsg] ([message.go]).  An output (tap, Kafka, metrics, gRPC) renders
    messages to byte streams, or extracts metrics from them under the operator's
    specification ([metrics.go]) for InfluxDB ([metrics_influx.go], behind the router of
    [message_router.go]) or the Prometheus push gateway ([metrics_prometheus.go]).
    Every node also serves a control channel (report, shutdown).

    ** The files, in the order in which they depend on each other

    - [Prelude] (this file): the result type of Go functions, machine integers, bytes and
      big-endian encoding, the string functions the code uses, counters as events, bounded
      channels, the lemmas on them, the hint databases and tactics.
    - [Message]: encodings, stream types and their configuration; the interfaces [dataMsg] and
      [codec] as the classes [DataMsg] and [Codec], each with a class of laws; dynamic
      values ([goval], for [interface{}]).
    - [EncapST]: the 12-byte header, the parser of [encap_st.go] with its three states and its
      codec cache, proved safe for any codec that obeys [CodecLaws].
    - [Gpb], [Codec]: the GPB codec (telemetry fields, filters, rendering, the current and the
      legacy wire format), the JSON codec, and the factory; [Codec] discharges
      [CodecLaws] and [DataMsgLaws].
    - [Tcp], [TcpServer]: a connection handler as a function of the peer's bytes; the
      goroutines around the handlers as a machine of steps.
    - [Udp]: the reader of datagrams as a function of what it reads and finds; its keeper as a
      machine of steps.
    - [Tap], [Replay]: the file dump and its playback, tick by tick and as a node.
    - [Metrics], [GpbMetrics], [GpbCompact]: the specification tree, the table of statistics
      with its eviction, and the two walks that extract metrics, as the operations they
      perform on a handler (class [MetricsOutputHandler]); class [MetricsSource] is what a
      message promises to the outputs, and its laws say that the operations come in batches.
    - [Router]: the message router, its feeders, workers and timer as a machine of steps.
    - [Crypt]: credentials, typed or read, encrypted or not.
    - [Influx], [Prom]: the two handlers, the InfluxDB workers and routing, the exchange with
      the push gateway, and their configuration.
    - [MetricsModule]: [configure] of the metrics output and its control loop, with the timer of
      evictions and the workers, as a machine of steps over the shared table.
    - [Gnmi]: sensor paths, subscriptions, the stream of notifications and its prefilter,
      messages and metrics.  [GnmiRun]: the goroutine that reconnects and serves the control
      channel, as a machine of steps with the worker it starts.
    - [Kafka]: topics and keys, the feeder, the consumer with its checkpoints, one send at a time,
      with what it does as a trace of actions.
    - [Block], [Grpc], [GrpcOut]: the loop that restarts gRPC workers; dialin and dialout; the
      output's clients, its table of them and the feed, as a machine of steps.
    - [Conductor]: the sections of a configuration and stopping the nodes.  [Pipeline]: the
      configuration with its environment, the table of modules with the [configure] of each,
      the gauges, and [main].
    - [Json]: the grammar of JSON texts.  [JsonTree]: a text as a tree, the library's parser, and
      that it reads every text of a tree.  [Jsonpb]: the marshaler of [jsonpb.go], over values
      as reflection shows them, as the writes it makes.  [JsonpbFacts], [JsonSeq], [JsonpbText],
      [JsonpbOrder], [JsonpbFuel], [JsonpbTimes]: its theorems.
    - [Unmarshal]: the unmarshaler of [jsonpb.go], from a tree to a value of a type.
      [JsonpbRound] (values of a type, and when two are not told apart; scalars),
      [JsonpbFields] (members and fields, entries of maps), [JsonpbRequired] (required fields),
      [JsonpbValues] (slices and maps), [JsonpbKnown] (well-known types) and [JsonpbBack] prove
      that it reads back what the marshaler writes; [UnmarshalSafe]
      says on which documents it does not panic.  [Render]: the GPB codec with that marshaler,
      and what a consumer of its JSON streams reads.
    - [Samples]: the table of sample messages, its loading and iteration.
    - [Relay]: parts in sequence: a connection, a raw tap and a replay; a feeder and a consumer
      of Kafka.
    - [MetaMon]: the counters the [init] functions register, and the calls on them.
    - [Witnesses], [NodeWitnesses], [JsonWitnesses]: environments to compute with, and the
      theorems with hypotheses applied there.

    Definitions keep the names of the code; an operation of an interface gets a prefix for the
    type that implements it ([json_produceMetrics], [prom_flushMetric]).

    ** How code becomes definitions

    A function that returns an error and a value returns a [res]: [Ok], [Err], or [Panic] for a
    run-time panic.  A method that changes its receiver takes and returns a record.
    Prometheus counters are write-only for the program and appear as a list of events,
    in order.  A goroutine that only it and its inputs determine is a function
    of what it reads; goroutines that interleave are a machine whose step function
    ([rexec], [tcp_step], [keeper_step], [replay_node_step], [block_step], [go_step], [mm_step],
    [gn_step]) is partial: a label that yields [None] cannot happen in that state.  Integers
    that the code keeps at a width wrap ([u32], [u64], [i64]); other counts are [nat].  What a [range] over a
    map visits first is an argument.
    Channels are bounded queues; in the machine of the router, whose channels the owner makes, a
    send on one without a buffer and its receive are one step.

    Third-party code is a parameter: [Env] (templates and files), [GpbEnv] (protobuf and JSON
    marshalling, compiled models), [ReflectEnv], [FmtEnv], [InfluxEnv], [GnmiEnv], [KafkaEnv],
    [TapEnv], [CryptEnv], [SpecEnv] (the operator's file as parsed), [HostEnv] (the
    host: its environment and name, the template and the parser of the configuration),
    [JsonpbEnv] (the texts of finite floats, the member added to a raw object, the registry of
    message types), [UnmarshalEnv] (the generated structs and enumerations by name, the reading of
    floats and times, the order of a range over decoded members), and the events of the loops for what clients and sockets return.
    Laws of these are separate classes ([GpbEnvLaws]: an unmarshalling that fails does so with
    an error; [CryptLaws]: decryption inverts encryption, base64 decoding encoding), and
    [Witnesses] has instances.

    ** What the theorems show

    - The wire: header round trip; parser invariant and absence of panics on any bytes;
      transparency of the codec cache; the TCP handler refines a stateless reader of
      frames, delivers good streams whole and in order, and terminates.
    - Datagrams: isolation of the outputs from each other's congestion; the effect of a datagram
      that does not decode.
    - Recording and playback: what the tap appends to its file; that a replay gives it back; that
      the archive of a connection is the stream it received.  Messages pass through Kafka unchanged.
    - The router: conservation and order under every interleaving; what a shutdown drains, and
      that the router can return; the search for an InfluxDB worker with room.
    - Metrics: the K/V walk exports exactly the metrics the specification selects, with their
      tags and timestamps; the calls on a handler are batches; the tree of the specification is the
      operator's file; statistics and eviction; points and posts.
    - gNMI: paths round trip; which paths the parser takes; the in-place prefilter is a filter;
      agreement of selectors and exported names.
    - Kafka: accounting of the feeder; an offset is marked only when its record and those before
      it were handed over; keys; topics; sends lost to control messages.
    - JSON: what the marshaler writes for a message of a generated type, well-known types and
      dynamic values included, the unmarshaler reads back, whatever the options, and so a consumer of a JSON stream gets the telemetry message and its
      rows; every text the marshaler returns is one of the grammar; it does not depend on the
      order in which maps are visited; it ends for every message; on a writer that
      fails it stops writing at the first failure; the text of times and durations.  Unmarshalling
      panics only on two kinds of documents.
    - The node of the metrics output: the statistics are those of the sequential table in the
      order of the critical sections, their number is bounded, and a shutdown is answered when the
      workers have left.  The gNMI node delivers what it received through reconnections.
    - The whole program: when [main] returns on a signal and when it blocks; the gauges of
      channel occupancy; every call on a counter fits its registration.
    - gRPC: streams deliver whole and in order; the table of the output's clients is safe under
      every interleaving, and a message is offered to each client on its own account.
    - Life of the nodes: loading configures every input with the channels of every output; the
      order of stopping;
      how the TCP, UDP, gRPC and replay nodes behave when they are stopped or have failed.

    Some of these state what the code does where that is not what its comments say; the
    lemmas that are not about good behaviour say so in their comments.

    ** Fuel

    Some recursions take fuel.  [conn_loop] and [ref_loop] read at least one byte per turn: more
    fuel than bytes is enough, as [tcp_terminates] proves.  [replay_read] does the same when it
    does not loop ([replay_read_ends]; two units read a good frame); when it loops it may
    not end, which [replay_loop_hangs] proves.  [attempts], the search for a worker of the
    InfluxDB router with nothing else happening, ends within one more than the number of
    workers ([influx_hunt]).  [marshal] and its companions take fuel for the nesting of [Any]
    messages, whose content is decoded on the way: the length of their type URL and bytes bounds
    it ([jsonpb_returns]), and is the fuel of [marshal_reflected].  The parser [jp_value] is given
    the length of the text, which is enough for every text of a tree ([json_reads]).  The rest
    recurse on data or on an explicit list of steps.

    ** Not modelled

    Serving HTTP in [metamonitoring.go] and the descriptions of gauges, which are calls of a
    library; generated code ([xport_grpc_out.pb.go]).  Of the unmarshaler, which the
    program itself never calls, what a target holds after an error; and the round trip is not proved
    for [Any] messages and extensions.  Logging is left out throughout. *)
From Stdlib Require Export ZArith Lia.
From Stdlib Require Strings.Byte.
From Stdlib Require Export Floats.SpecFloat.
From stdpp Require Export base list strings gmap fin_maps relations pretty option.


Declare Scope go_scope.
Delimit Scope go_scope with go.
Open Scope go_scope.

#[global] Arguments String.append : simpl nomatch.

(** ** Go results

    A Go function of type [(error, T)] is modelled by [res T]; a run-time
    panic (nil dereference, index out of range, failed type assertion, write to
    a nil map, send on a closed channel) is the third constructor.  An error
    made by [fmt.Errorf] carries its format string, without the arguments. *)

Inductive goerr : Type :=
| EOF
| ErrUnexpectedEOF
| Errorf (format : string)
| External (what : string).

Inductive res (A : Type) : Type :=
| Ok (a : A)
| Err (e : goerr)
| Panic.
Arguments Ok {A} a.
Arguments Err {A} e.
Arguments Panic {A}.

#[export] Instance goerr_eq_dec : EqDecision goerr.
Proof. solve_decision. Defined.

#[export] Instance res_eq_dec {A} `{EqDecision A} : EqDecision (res A).
Proof. solve_decision. Defined.

Definition res_bind {A B} (c : res A) (k : A -> res B) : res B :=
  match c with
  | Ok a => k a
  | Err e => Err e
  | Panic => Panic
  end.

Notation "'let!' x := c 'in' k" := (res_bind c (fun x => k))
  (at level 10, x name, c at level 100, k at level 200) : go_scope.

Definition is_ok {A} (c : res A) : bool :=
  match c with Ok _ => true | _ => false end.

Definition is_panic {A} (c : res A) : bool :=
  match c with Panic => true | _ => false end.

(** The value of an [(error, T)] pair when the caller ignores the error:
    the zero value [d] unless the call succeeded. *)
Definition ok_or {A} (d : A) (c : res A) : A :=
  match c with Ok a => a | _ => d end.

(** ** Machine integers *)

Definition u16 (z : Z) : Z := (z mod 2 ^ 16)%Z.
Definition u32 (z : Z) : Z := (z mod 2 ^ 32)%Z.
Definition u64 (z : Z) : Z := (z mod 2 ^ 64)%Z.
(** conversion of an unsigned or wide value to a signed 64-bit one *)
Definition i64 (z : Z) : Z :=
  ((z + 2 ^ 63) mod 2 ^ 64 - 2 ^ 63)%Z.

(** ** Bytes and byte slices

    A byte is [Byte.byte]; a non-nil [[]byte] is a list of bytes; where the
    code distinguishes nil from empty, a slice is an [option]. *)

Abbreviation byte := Byte.byte.
Abbreviation bytes := (list Byte.byte).
Abbreviation slice := (option (list Byte.byte)).

Definition slice_bytes (s : slice) : bytes := default [] s.
Definition slice_len (s : slice) : nat := length (slice_bytes s).

Definition b2z (b : byte) : Z := Z.of_N (Byte.to_N b).
Definition z2b (z : Z) : byte :=
  default Byte.x00 (Byte.of_N (Z.to_N (z mod 256))).

#[export] Instance byte_eq_dec : EqDecision byte := Byte.byte_eq_dec.

(** Big-endian encoding of the [n] low-order bytes of [z], and back
    ([encoding/binary]'s [BigEndian] on fixed-width unsigned integers). *)
Fixpoint be_bytes (n : nat) (z : Z) : bytes :=
  match n with
  | O => []
  | S m => z2b (z / 256 ^ Z.of_nat m) :: be_bytes m z
  end.

Fixpoint be_val_acc (acc : Z) (l : bytes) : Z :=
  match l with
  | [] => acc
  | b :: l' => be_val_acc (acc * 256 + b2z b) l'
  end.
Definition be_val (l : bytes) : Z := be_val_acc 0 l.

(** [io.ReadFull(r, buf)] with [len(buf) = n] on a reader holding [l]. *)
Definition read_full (n : nat) (l : bytes) : res (bytes * bytes) :=
  if decide (n = 0) then Ok ([], l)
  else match l with
       | [] => Err EOF
       | _ => if decide (length l < n) then Err ErrUnexpectedEOF
              else Ok (take n l, drop n l)
       end.

Definition bytes_of_string (s : string) : bytes := String.list_byte_of_string s.
Definition string_of_bytes (l : bytes) : string := String.string_of_list_byte l.

(** ** Strings: what the code uses of package [strings] *)

Abbreviation char := Ascii.ascii.

Definition char_of (s : string) : char :=
  match s with String c _ => c | EmptyString => Ascii.zero end.

Definition colon : char := char_of ":".
Definition slash : char := char_of "/".
Definition at_sign : char := char_of "@".
Definition lbracket : char := char_of "[".
Definition comma : char := char_of ",".

Fixpoint str_forall (p : char -> bool) (s : string) : bool :=
  match s with
  | EmptyString => true
  | String c s' => p c && str_forall p s'
  end.

Definition str_free (c : char) (s : string) : bool :=
  str_forall (fun d => negb (Ascii.eqb c d)) s.

(** [strings.Split(s, sep)] for a one-character [sep]. *)
Fixpoint split_on (sep : char) (s : string) : list string :=
  match s with
  | EmptyString => [EmptyString]
  | String c s' =>
      if Ascii.eqb sep c then EmptyString :: split_on sep s'
      else match split_on sep s' with
           | [] => [String c EmptyString]
           | w :: ws => String c w :: ws
           end
  end.

(** [strings.SplitN(s, sep, 2)]: the part before the first separator and, when
    there is one, the rest. *)
Fixpoint splitn2 (sep : char) (s : string) : string * option string :=
  match s with
  | EmptyString => (EmptyString, None)
  | String c s' =>
      if Ascii.eqb sep c then (EmptyString, Some s')
      else let '(a, b) := splitn2 sep s' in (String c a, b)
  end.

(** [strings.Join(l, sep)] *)
Fixpoint join (sep : string) (l : list string) : string :=
  match l with
  | [] => ""
  | [w] => w
  | w :: ws => w +:+ sep +:+ join sep ws
  end.

(** [strings.Count(s, sep)] for a one-character [sep]. *)
Fixpoint count_char (sep : char) (s : string) : nat :=
  match s with
  | EmptyString => 0
  | String c s' => (if Ascii.eqb sep c then 1 else 0) + count_char sep s'
  end.

(** [strings.HasPrefix] *)
Definition has_prefix (p s : string) : bool := String.prefix p s.

Definition str_empty (s : string) : bool :=
  match s with EmptyString => true | _ => false end.

(** [s[:n]] for [n <= len(s)] *)
Fixpoint str_take (n : nat) (s : string) : string :=
  match n, s with
  | S m, String c s' => String c (str_take m s')
  | _, _ => EmptyString
  end.

(** white space of [strings.TrimSpace], on single-byte characters *)
Definition is_space (c : char) : bool :=
  let n := Ascii.nat_of_ascii c in
  bool_decide (n = 32 \/ 9 <= n <= 13).

Fixpoint trim_left (s : string) : string :=
  match s with
  | String c s' => if is_space c then trim_left s' else s
  | EmptyString => EmptyString
  end.

Fixpoint trim_right (s : string) : string :=
  match s with
  | EmptyString => EmptyString
  | String c s' =>
      match trim_right s' with
      | EmptyString => if is_space c then EmptyString else String c EmptyString
      | t => String c t
      end
  end.

Definition trim_space (s : string) : string := trim_right (trim_left s).

(** [regexp.MustCompile("[^class]+").ReplaceAllString(s, rep)]: each maximal run
    of characters outside the class is replaced by [rep].  [inrun] tells
    that the previous character was outside the class. *)
Fixpoint replace_runs_aux (ok : char -> bool) (rep : string) (inrun : bool)
    (s : string) : string :=
  match s with
  | EmptyString => EmptyString
  | String c s' =>
      if ok c then String c (replace_runs_aux ok rep false s')
      else if inrun then replace_runs_aux ok rep true s'
      else rep +:+ replace_runs_aux ok rep true s'
  end.
Definition replace_runs ok rep s := replace_runs_aux ok rep false s.

Definition char_between (lo hi c : char) : bool :=
  bool_decide (Ascii.nat_of_ascii lo <= Ascii.nat_of_ascii c
               <= Ascii.nat_of_ascii hi).

Definition is_alnum (c : char) : bool :=
  char_between (char_of "a") (char_of "z") c
  || char_between (char_of "A") (char_of "Z") c
  || char_between (char_of "0") (char_of "9") c.

Definition char_in (s : string) (c : char) : bool :=
  negb (str_forall (fun d => negb (Ascii.eqb c d)) s).

(** [strconv.Atoi] on a machine with 64-bit integers *)
Definition digit (c : char) : option Z :=
  let n := Ascii.nat_of_ascii c in
  if bool_decide (48 <= n <= 57) then Some (Z.of_nat n - 48)%Z else None.

Fixpoint digits_val (acc : Z) (s : string) : option Z :=
  match s with
  | EmptyString => Some acc
  | String c s' => d ← digit c; digits_val (acc * 10 + d)%Z s'
  end.

Definition in_i64 (z : Z) : bool := bool_decide (- 2 ^ 63 <= z < 2 ^ 63)%Z.

Definition atoi (s : string) : option Z :=
  let '(neg, ds) :=
    match s with
    | String c s' =>
        if Ascii.eqb c (char_of "-") then (true, s')
        else if Ascii.eqb c (char_of "+") then (false, s') else (false, s)
    | EmptyString => (false, s)
    end in
  if str_empty ds then None
  else v ← digits_val 0 ds;
       let z := if neg then (- v)%Z else v in
       if in_i64 z then Some z else None.

(** ** Metamonitoring

    Prometheus counters and summaries are write-only for the program: a call on one
    is an event, in the order the code makes them. *)
Inductive meta : Type :=
| Inc (counter : string) (labels : list string)
| AddN (counter : string) (labels : list string) (amount : Z)
| Observe (summary : string) (labels : list string) (value : Z).

#[export] Instance meta_eq_dec : EqDecision meta.
Proof. solve_decision. Defined.

(** ** Bounded channels *)

Record chan (A : Type) : Type := Chan {
  ch_cap : nat;
  ch_buf : list A;
  ch_closed : bool;
}.
Arguments Chan {A} ch_cap ch_buf ch_closed.
Arguments ch_cap {A} c.
Arguments ch_buf {A} c.
Arguments ch_closed {A} c.

Definition make_chan {A} (n : nat) : chan A := Chan n [] false.

(** the capacity of [make(chan T, depth)]: a negative one panics *)
Definition make_depth (depth : Z) : res nat :=
  if bool_decide (depth < 0)%Z then Panic else Ok (Z.to_nat depth).

(** [len(c) < cap(c)] *)
Definition ch_room {A} (c : chan A) : bool :=
  bool_decide (length (ch_buf c) < ch_cap c).

Definition ch_push {A} (c : chan A) (x : A) : chan A :=
  Chan (ch_cap c) (ch_buf c ++ [x]) (ch_closed c).

Definition ch_close {A} (c : chan A) : chan A :=
  Chan (ch_cap c) (ch_buf c) true.

Definition ch_wf {A} (c : chan A) : Prop := length (ch_buf c) <= ch_cap c.

(** ** Lemmas: results *)

Lemma res_bind_ok {A B} (c : res A) (k : A -> res B) b :
  res_bind c k = Ok b <-> exists a, c = Ok a /\ k a = Ok b.
Proof.
  destruct c as [a|e|]; simpl; [|split; [done|by intros (? & ? & ?)]..].
  split; [eauto|]. by intros (? & [= ->] & ?).
Qed.

Lemma res_bind_not_panic {A B} (c : res A) (k : A -> res B) :
  is_panic c = false -> (forall a, c = Ok a -> is_panic (k a) = false) ->
  is_panic (res_bind c k) = false.
Proof. destruct c; simpl; auto. Qed.

(** ** Lemmas: lists *)

Lemma elem_of_flat_map {A B} (f : A -> list B) (l : list A) (b : B) :
  b ∈ flat_map f l <-> exists a, a ∈ l /\ b ∈ f a.
Proof.
  rewrite list_elem_of_In, in_flat_map. by setoid_rewrite list_elem_of_In.
Qed.

(** ** Lemmas: search *)

(** the first index below [n] at which [f] holds, or none *)
Lemma first_below (f : nat -> bool) n :
  (forall j, j < n -> f j = false)
  \/ exists d, d < n /\ f d = true /\ forall j, j < d -> f j = false.
Proof.
  induction n as [|n [IH|(d & ? & ? & ?)]]; [left; lia| |right; exists d; auto with lia].
  destruct (f n) eqn:E; [right; exists n; auto with lia|]. left. intros j Hj.
  destruct (decide (j = n)) as [->|]; [done|]. apply IH. lia.
Qed.

(** starting anywhere and going round visits every index below [n] *)
Lemma cyclic_all (f : nat -> bool) n r :
  r < n -> (forall j, j < n -> f ((r + 1 + j) mod n) = false) ->
  forall w, w < n -> f w = false.
Proof.
  intros Hr Hall w Hw.
  specialize (Hall ((w + n - (r + 1)) mod n) (Nat.mod_upper_bound _ n ltac:(lia))).
  rewrite Nat.Div0.add_mod_idemp_r in Hall.
  replace (r + 1 + (w + n - (r + 1))) with (w + 1 * n) in Hall by lia.
  by rewrite Nat.Div0.mod_add, Nat.mod_small in Hall.
Qed.

(** ** Lemmas: bytes *)

Lemma b2z_bound b : (0 <= b2z b < 256)%Z.
Proof.
  unfold b2z. pose proof (Byte.to_N_bounded b). lia.
Qed.

Lemma z2b_b2z b : z2b (b2z b) = b.
Proof.
  unfold z2b. pose proof (b2z_bound b). rewrite Z.mod_small by lia.
  unfold b2z. rewrite N2Z.id, Byte.of_to_N. reflexivity.
Qed.

Lemma b2z_z2b z : b2z (z2b z) = (z mod 256)%Z.
Proof.
  unfold z2b. pose proof (Z.mod_pos_bound z 256 ltac:(lia)).
  destruct (Byte.of_N (Z.to_N (z mod 256))) as [b|] eqn:E.
  - apply Byte.to_of_N in E. simpl. unfold b2z. rewrite E. lia.
  - apply Byte.of_N_None_iff in E. lia.
Qed.

Lemma length_be_bytes n z : length (be_bytes n z) = n.
Proof. induction n; simpl; congruence. Qed.

Lemma be_val_acc_app l1 : forall acc l2,
  be_val_acc acc (l1 ++ l2) = be_val_acc (be_val_acc acc l1) l2.
Proof. induction l1; simpl; auto. Qed.

Lemma be_val_acc_bytes n : forall acc z,
  be_val_acc acc (be_bytes n z)
  = (acc * 256 ^ Z.of_nat n + z mod 256 ^ Z.of_nat n)%Z.
Proof.
  induction n as [|n IH]; intros acc z; simpl be_bytes; simpl be_val_acc.
  { rewrite Z.mod_1_r. lia. }
  rewrite IH, b2z_z2b.
  replace (Z.of_nat (S n)) with (Z.of_nat n + 1)%Z by lia.
  rewrite Z.pow_add_r, Z.pow_1_r by lia.
  pose proof (Z.pow_pos_nonneg 256 (Z.of_nat n) ltac:(lia) ltac:(lia)).
  rewrite (Z.rem_mul_r z) by lia. lia.
Qed.

Lemma be_val_be_bytes n z : be_val (be_bytes n z) = (z mod 256 ^ Z.of_nat n)%Z.
Proof. unfold be_val. rewrite be_val_acc_bytes. lia. Qed.

Lemma be_val_acc_bound l : forall acc, (0 <= acc)%Z ->
  (acc * 256 ^ Z.of_nat (length l) <= be_val_acc acc l
   < (acc + 1) * 256 ^ Z.of_nat (length l))%Z.
Proof.
  induction l as [|b l IH]; intros acc Hacc; simpl be_val_acc.
  { simpl. lia. }
  pose proof (b2z_bound b). specialize (IH (acc * 256 + b2z b)%Z ltac:(lia)).
  simpl length. replace (Z.of_nat (S (length l))) with (Z.of_nat (length l) + 1)%Z by lia.
  rewrite Z.pow_add_r, Z.pow_1_r by lia.
  pose proof (Z.pow_pos_nonneg 256 (Z.of_nat (length l)) ltac:(lia) ltac:(lia)).
  nia.
Qed.

Lemma be_val_bound l : (0 <= be_val l < 256 ^ Z.of_nat (length l))%Z.
Proof. pose proof (be_val_acc_bound l 0 ltac:(lia)). unfold be_val. lia. Qed.

Lemma be_bytes_be_val_acc l : forall acc, (0 <= acc)%Z ->
  be_bytes (length l) (be_val_acc acc l) = l.
Proof.
  induction l as [|b l IH]; intros acc Hacc; [reflexivity|].
  pose proof (b2z_bound b) as Hb. simpl. f_equal; [|apply IH; lia].
  pose proof (be_val_acc_bound l (acc * 256 + b2z b)%Z ltac:(lia)).
  pose proof (Z.pow_pos_nonneg 256 (Z.of_nat (length l)) ltac:(lia) ltac:(lia)).
  assert (be_val_acc (acc * 256 + b2z b) l / 256 ^ Z.of_nat (length l)
          = acc * 256 + b2z b)%Z as ->.
  { symmetry. apply Z.div_unique_pos with
      (be_val_acc (acc * 256 + b2z b) l
       - 256 ^ Z.of_nat (length l) * (acc * 256 + b2z b))%Z; nia. }
  transitivity (z2b (b2z b)); [|apply z2b_b2z]. unfold z2b. do 3 f_equal.
  rewrite Z.add_comm, Z.mod_add by lia. reflexivity.
Qed.

Lemma be_bytes_be_val l n : length l = n -> be_bytes n (be_val l) = l.
Proof. intros <-. apply be_bytes_be_val_acc. lia. Qed.

Lemma read_full_app n l rest :
  length l = n -> n <> 0 -> read_full n (l ++ rest) = Ok (l, rest).
Proof.
  intros <- Hn. unfold read_full. rewrite decide_False by done.
  destruct (l ++ rest) as [|b l'] eqn:E.
  { apply app_eq_nil in E as [-> _]. simpl in Hn. lia. }
  rewrite <- E. rewrite decide_False by (rewrite length_app; lia).
  by rewrite take_app_length, drop_app_length.
Qed.

Lemma read_full_inv n l a b :
  read_full n l = Ok (a, b) -> l = a ++ b /\ length a = n.
Proof.
  unfold read_full. case_decide; [intros [= <- <-]; done|].
  destruct l as [|x l']; [discriminate|]. case_decide; [discriminate|].
  intros [= <- <-]. rewrite take_drop, length_take. split; [done|lia].
Qed.

Lemma read_full_total n l : is_panic (read_full n l) = false.
Proof. unfold read_full. repeat case_match; done. Qed.

(** ** Lemmas: strings *)

Lemma str_app_nil_r s : s +:+ "" = s.
Proof. induction s; simpl; congruence. Qed.

Lemma str_app_assoc a b c : (a +:+ b) +:+ c = a +:+ b +:+ c.
Proof. induction a; simpl; congruence. Qed.

Lemma str_length_app a b :
  String.length (a +:+ b) = String.length a + String.length b.
Proof. induction a; simpl; congruence. Qed.

Lemma str_forall_app p a b :
  str_forall p (a +:+ b) = str_forall p a && str_forall p b.
Proof. induction a; simpl; [done|]. rewrite IHa. by destruct (p a). Qed.

Lemma str_forall_impl (p q : char -> bool) s :
  (forall c, p c = true -> q c = true) -> str_forall p s = true -> str_forall q s = true.
Proof.
  intros Hpq. induction s as [|c s IH]; simpl; [done|].
  intros [Hc Hs]%andb_true_iff. by rewrite (Hpq c Hc), IH.
Qed.

Lemma split_on_free sep w :
  str_free sep w = true -> split_on sep w = [w].
Proof.
  induction w as [|c w IH]; [done|]. unfold str_free. simpl.
  intros [Hc Hw]%andb_true_iff. rewrite (IH Hw).
  destruct (Ascii.eqb sep c); [done|reflexivity].
Qed.

Lemma split_on_app sep w rest :
  str_free sep w = true ->
  split_on sep (w +:+ String sep rest) = w :: split_on sep rest.
Proof.
  induction w as [|c w IH]; simpl.
  { intros _. by rewrite Ascii.eqb_refl. }
  unfold str_free. simpl. intros [Hc Hw]%andb_true_iff.
  fold (str_free sep w) in Hw. rewrite (IH Hw).
  by destruct (Ascii.eqb sep c).
Qed.

Lemma split_on_join sep l :
  l <> [] -> Forall (fun w => str_free sep w = true) l ->
  split_on sep (join (String sep "") l) = l.
Proof.
  intros Hne HF. induction HF as [|w l Hw HF IH]; [done|].
  destruct l as [|w' l]; [by apply split_on_free|].
  change (join (String sep "") (w :: w' :: l))
    with (w +:+ String sep (join (String sep "") (w' :: l))).
  rewrite split_on_app by done. by rewrite IH.
Qed.

Lemma str_forall_join p sep l :
  str_forall p sep = true -> Forall (fun w => str_forall p w = true) l ->
  str_forall p (join sep l) = true.
Proof.
  intros Hsep. induction 1 as [|w l Hw Hl IH]; [done|].
  destruct l as [|w' l]; [done|].
  change (join sep (w :: w' :: l)) with (w +:+ sep +:+ join sep (w' :: l)).
  by rewrite !str_forall_app, Hw, Hsep, IH.
Qed.

Lemma split_on_not_nil sep s : split_on sep s <> [].
Proof.
  destruct s as [|c s]; simpl; [done|].
  destruct (Ascii.eqb sep c); [done|]. by destruct (split_on sep s).
Qed.

Lemma join_split_on sep s : join (String sep "") (split_on sep s) = s.
Proof.
  induction s as [|c s IH]; [done|]. simpl.
  destruct (Ascii.eqb sep c) eqn:E.
  - apply Ascii.eqb_eq in E as <-. pose proof (split_on_not_nil sep s).
    destruct (split_on sep s) as [|w ws] eqn:Es; [done|].
    change (String sep (join (String sep "") (w :: ws)) = String sep s). by rewrite IH.
  - pose proof (split_on_not_nil sep s). destruct (split_on sep s) as [|w ws]; [done|].
    rewrite <- IH. by destruct ws.
Qed.

Lemma length_split_on sep s : length (split_on sep s) = S (count_char sep s).
Proof.
  induction s as [|c s IH]; [done|]. simpl.
  destruct (Ascii.eqb sep c); simpl; [by rewrite IH|].
  destruct (split_on sep s); simpl in *; lia.
Qed.

Lemma split_on_all_free sep s :
  Forall (fun w => str_free sep w = true) (split_on sep s).
Proof.
  induction s as [|c s IH]; [by repeat constructor|]. simpl.
  destruct (Ascii.eqb sep c) eqn:E; [by constructor|].
  destruct (split_on sep s) as [|w ws]; inversion IH; subst; constructor; auto.
  - unfold str_free. simpl. by rewrite E.
  - unfold str_free. simpl. by rewrite E.
Qed.

Lemma splitn2_free sep w : str_free sep w = true -> splitn2 sep w = (w, None).
Proof.
  induction w as [|c w IH]; [done|]. unfold str_free. simpl.
  intros [Hc Hw]%andb_true_iff. rewrite (IH Hw). by destruct (Ascii.eqb sep c).
Qed.

Lemma splitn2_app sep w rest :
  str_free sep w = true -> splitn2 sep (w +:+ String sep rest) = (w, Some rest).
Proof.
  induction w as [|c w IH]; simpl.
  { intros _. by rewrite Ascii.eqb_refl. }
  unfold str_free. simpl. intros [Hc Hw]%andb_true_iff.
  fold (str_free sep w) in Hw. rewrite (IH Hw). by destruct (Ascii.eqb sep c).
Qed.

Lemma replace_runs_chars ok rep s :
  str_forall ok rep = true -> str_forall ok (replace_runs ok rep s) = true.
Proof.
  intros Hrep. unfold replace_runs. generalize false.
  induction s as [|c s IH]; intros b; [done|]. simpl.
  destruct (ok c) eqn:Ec; simpl; [by rewrite Ec, IH|].
  destruct b; [apply IH|]. by rewrite str_forall_app, Hrep, IH.
Qed.

Lemma replace_runs_id ok rep s :
  str_forall ok s = true -> replace_runs ok rep s = s.
Proof.
  unfold replace_runs. induction s as [|c s IH]; [done|]. simpl.
  intros [Hc Hs]%andb_true_iff. by rewrite Hc, IH.
Qed.

Lemma replace_runs_length ok rep s :
  String.length (replace_runs ok rep s)
  <= Nat.max 1 (String.length rep) * String.length s.
Proof.
  unfold replace_runs. generalize false.
  induction s as [|c s IH]; intros b; simpl; [lia|].
  destruct (ok c); simpl.
  { specialize (IH false). nia. }
  destruct b; [specialize (IH true); nia|].
  rewrite str_length_app. specialize (IH true). nia.
Qed.

Lemma str_take_length n s : String.length (str_take n s) = Nat.min n (String.length s).
Proof. revert s; induction n; intros [|c s]; simpl; auto. Qed.

Lemma str_take_all n s : String.length s <= n -> str_take n s = s.
Proof.
  revert s; induction n as [|n IH]; intros [|c s]; simpl; auto; intros H; [lia|].
  by rewrite IH by lia.
Qed.

Lemma string_bytes_id s : string_of_bytes (bytes_of_string s) = s.
Proof. apply String.string_of_list_byte_of_string. Qed.

(** ** Lemmas: decimal numbers *)

Lemma digit_pretty (x : N) : (x < 10)%N -> digit (pretty_N_char x) = Some (Z.of_N x).
Proof.
  intros Hx. assert (x ∈ [0; 1; 2; 3; 4; 5; 6; 7; 8; 9]%N) as Hin.
  { rewrite !elem_of_cons. lia. }
  by repeat (apply elem_of_cons in Hin as [->|Hin]; [done|]); apply elem_of_nil in Hin.
Qed.

Lemma digits_val_go (x : N) : forall s, (0 < x)%N ->
  digits_val 0 (pretty_N_go x s) = digits_val (Z.of_N x) s.
Proof.
  induction (N.lt_wf_0 x) as [x _ IH]; intros s Hx.
  assert (x mod 10 < 10)%N by (apply N.mod_lt; lia).
  rewrite pretty_N_go_step by done.
  destruct (decide (x / 10 = 0)%N) as [H0|H0].
  - rewrite H0, pretty_N_go_0. simpl. rewrite digit_pretty by done. simpl.
    f_equal. pose proof (N.div_mod x 10 ltac:(lia)). lia.
  - rewrite IH; [|by apply N.div_lt|by apply N.neq_0_lt_0]. simpl. rewrite digit_pretty by done. simpl.
    f_equal. pose proof (N.div_mod x 10 ltac:(lia)). lia.
Qed.

Lemma digits_val_pretty (x : N) : digits_val 0 (pretty x) = Some (Z.of_N x).
Proof.
  unfold pretty, pretty_N. destruct (decide (x = 0)%N) as [->|]; [done|].
  by rewrite digits_val_go by lia.
Qed.

Definition is_digit (c : char) : bool := bool_decide (is_Some (digit c)).

Lemma pretty_go_digits (x : N) : forall s,
  str_forall is_digit (pretty_N_go x s) = str_forall is_digit s
  /\ ((0 < x)%N -> str_empty (pretty_N_go x s) = false).
Proof.
  induction (N.lt_wf_0 x) as [x _ IH]; intros s.
  destruct (decide (x = 0)%N) as [->|Hx]; [split; [by rewrite pretty_N_go_0|lia]|].
  assert (x mod 10 < 10)%N by (apply N.mod_lt; lia).
  rewrite pretty_N_go_step by lia.
  destruct (IH (x / 10)%N (N.div_lt x 10 ltac:(lia) eq_refl)
    (String (pretty_N_char (x mod 10)) s)) as [H1 H2].
  split.
  - rewrite H1. simpl. unfold is_digit at 1. by rewrite digit_pretty.
  - intros _. destruct (decide (x / 10 = 0)%N) as [->|H0]; [by rewrite pretty_N_go_0|].
    apply H2. by apply N.neq_0_lt_0.
Qed.

Lemma pretty_digits (x : N) :
  str_forall is_digit (pretty x) = true /\ str_empty (pretty x) = false.
Proof.
  unfold pretty, pretty_N. destruct (decide (x = 0)%N) as [->|H0]; [done|].
  destruct (pretty_go_digits x "") as [-> H]. split; [done|apply H; lia].
Qed.

Lemma atoi_N (x : N) : (Z.of_N x < 2 ^ 63)%Z -> atoi (pretty x) = Some (Z.of_N x).
Proof.
  intros Hx. destruct (pretty_digits x) as [Hd Hne]. pose proof (digits_val_pretty x) as Hv.
  unfold atoi. destruct (pretty x) as [|c s]; [done|]. simpl in Hd.
  apply andb_true_iff in Hd as [Hc _].
  destruct (Ascii.eqb_spec c (char_of "-")) as [->|_]; [done|].
  destruct (Ascii.eqb_spec c (char_of "+")) as [->|_]; [done|].
  cbn [str_empty]. rewrite Hv. cbn [mbind option_bind].
  unfold in_i64. by rewrite bool_decide_eq_true_2 by lia.
Qed.

(** what [%d] prints, [strconv.Atoi] reads back *)
Lemma atoi_pretty (z : Z) : (- 2 ^ 63 <= z < 2 ^ 63)%Z -> atoi (pretty z) = Some z.
Proof.
  intros Hz. destruct z as [|p|p]; [done|by apply (atoi_N (N.pos p)); lia|].
  destruct (pretty_digits (N.pos p)) as [_ Hne].
  change (pretty (Z.neg p)) with (String (char_of "-") (pretty (N.pos p))). unfold atoi.
  rewrite Ascii.eqb_refl. rewrite Hne, digits_val_pretty.
  cbn [mbind option_bind]. unfold in_i64. by rewrite bool_decide_eq_true_2 by lia.
Qed.

Lemma str_free_digits c s :
  is_digit c = false -> str_forall is_digit s = true -> str_free c s = true.
Proof.
  intros Hc. apply str_forall_impl. intros d Hd. apply negb_true_iff.
  destruct (Ascii.eqb_spec c d) as [->|]; [congruence|done].
Qed.

(** ** Lemmas: channels *)

Lemma ch_push_wf {A} (c : chan A) x : ch_room c = true -> ch_wf (ch_push c x).
Proof.
  unfold ch_room, ch_wf, ch_push. simpl. intros H%bool_decide_eq_true.
  rewrite length_app. simpl. lia.
Qed.

Lemma make_depth_ok depth n : make_depth depth = Ok n -> (0 <= depth)%Z /\ n = Z.to_nat depth.
Proof. unfold make_depth. case_bool_decide; [done|]. intros [= <-]. split; [lia|done]. Qed.

Lemma make_chan_wf {A} n : ch_wf (@make_chan A n).
Proof. unfold ch_wf. simpl. lia. Qed.

(** ** Automation *)

Create HintDb pipeline discriminated.
#[export] Hint Resolve ch_push_wf make_chan_wf read_full_total : pipeline.
Create Rewrite HintDb pipeline_rw.
#[export] Hint Rewrite @length_be_bytes be_val_be_bytes str_length_app
  str_app_nil_r str_app_assoc : pipeline_rw.

(** Case analysis on the scrutinee of every [match]/[if] of the goal or of a
    hypothesis, with the equations simplified. *)
Ltac go_cases :=
  repeat (first [ progress simplify_eq/= | case_decide | case_match ]); try done.

(** Inversion of hypotheses on the result monad. *)
Ltac res_inv :=
  repeat match goal with
  | H : res_bind _ _ = Ok _ |- _ => apply res_bind_ok in H as (? & ? & H)
  | H : Ok _ = Ok _ |- _ => injection H as H; subst
  | H : Err _ = Ok _ |- _ => discriminate H
  | H : Panic = Ok _ |- _ => discriminate H
  end.
