(* ===== verification/Message.v ===== *)
(** * Messages and encodings ([message.go], [codec.go])

    The encodings a section may be configured with, the stream types a message
    may be rendered to, the maps between them, the stream specification read
    from the configuration, and the interfaces [dataMsg] and [codec] as
    type classes.  A node configuration is a record of getters: the
    configuration library is not part of this repository. *)
From S2P Require Import Prelude.

(** ** Encodings ([codec.go]) *)

Inductive encoding : Type :=
| ENCODING_GPB_COMPACT
| ENCODING_GPB_KV
| ENCODING_JSON
| ENCODING_JSON_EVENTS
| ENCODING_GPB
| ENCODING_TEMPLATE
| ENCODING_MAX.

#[export] Instance encoding_eq_dec : EqDecision encoding.
Proof. solve_decision. Defined.

(** the [iota] value of an encoding: an index into the parser's codec array *)
Definition encoding_index (e : encoding) : nat :=
  match e with
  | ENCODING_GPB_COMPACT => 0
  | ENCODING_GPB_KV => 1
  | ENCODING_JSON => 2
  | ENCODING_JSON_EVENTS => 3
  | ENCODING_GPB => 4
  | ENCODING_TEMPLATE => 5
  | ENCODING_MAX => 6
  end.

Definition codec_support : list encoding :=
  [ENCODING_GPB; ENCODING_GPB_COMPACT; ENCODING_GPB_KV; ENCODING_JSON].

Definition nameToEncoding (encap : string) : res encoding :=
  let mapping : gmap string encoding := list_to_map
    [("gpbcompact", ENCODING_GPB_COMPACT);
     ("gpbkv", ENCODING_GPB_KV);
     ("json", ENCODING_JSON);
     ("json_events", ENCODING_JSON_EVENTS);
     ("gpb", ENCODING_GPB);
     ("template", ENCODING_TEMPLATE)] in
  match mapping !! encap with
  | Some e => Ok e
  | None => Err (Errorf "encoding [%s], expected value from %v")
  end.

(** a missing key of a Go map reads as the zero value, here the empty string *)
Definition encodingToName (enc : encoding) : string :=
  match enc with
  | ENCODING_GPB_COMPACT => "gpbcompact"
  | ENCODING_GPB_KV => "gpbkv"
  | ENCODING_JSON => "json"
  | ENCODING_JSON_EVENTS => "json_events"
  | ENCODING_GPB => "gpb"
  | ENCODING_TEMPLATE => "template"
  | ENCODING_MAX => ""
  end.

(** ** Stream types ([message.go]) *)

Inductive dataMsgStreamType : Type :=
| dMStreamGPB
| dMStreamGPBKV
| dMStreamJSON
| dMStreamJSONEvents
| dMStreamTemplate
| dMStreamMsgDefault
| dMStreamMsgUnknown.

#[export] Instance dataMsgStreamType_eq_dec : EqDecision dataMsgStreamType.
Proof. solve_decision. Defined.

Definition dataMsgStreamTypeString (streamType : dataMsgStreamType) : string :=
  match streamType with
  | dMStreamGPB => "GPB(compact)"
  | dMStreamGPBKV => "GPB(k/v)"
  | dMStreamJSON => "JSON"
  | dMStreamJSONEvents => "JSON(events)"
  | dMStreamTemplate => "template"
  | _ => "Unknown"
  end.

Definition dataMsgStreamTypeFromEncoding (enc : encoding) : res dataMsgStreamType :=
  match enc with
  | ENCODING_GPB_COMPACT => Ok dMStreamGPB
  | ENCODING_GPB_KV => Ok dMStreamGPBKV
  | ENCODING_JSON => Ok dMStreamJSON
  | ENCODING_JSON_EVENTS => Ok dMStreamJSONEvents
  | ENCODING_GPB => Ok dMStreamGPB
  | ENCODING_TEMPLATE => Ok dMStreamTemplate
  | _ => Err (Errorf "Unsupported encoding %v")
  end.

Definition dataMsgStreamTypeToEncoding (dmt : dataMsgStreamType) : res encoding :=
  match dmt with
  | dMStreamGPB => Ok ENCODING_GPB
  | dMStreamJSON => Ok ENCODING_JSON
  | dMStreamGPBKV => Ok ENCODING_GPB_KV
  | _ => Err (Errorf "Unsupported dataMsgStreamType %v")
  end.

(** ** Configuration and environment

    The configuration file parser, the file system and the template engine are
    outside the repository: their results are fields of records. *)

Record nodeConfig : Type := NodeConfig {
  GetString : string -> string -> option string;
  GetInt : string -> string -> option Z;
  GetBool : string -> string -> option bool;
  GetFloat64 : string -> string -> option spec_float;
  GetOptions : string -> option (list string);
  GetSections : list string;
}.

(** [template] is the type of parsed templates; [template_New_Parse name body]
    is [template.New(name).Parse(body)]; [template_Name] its name. *)
Class Env := {
  template : Type;
  readFile : string -> res string;
  template_New_Parse : string -> string -> res template;
  template_Name : template -> string;
}.

Definition get_string (nc : nodeConfig) (name opt : string) : string :=
  default "" (GetString nc name opt).
Definition get_bool (nc : nodeConfig) (name opt : string) : bool :=
  default false (GetBool nc name opt).
Definition get_int (nc : nodeConfig) (name opt : string) : Z :=
  default 0%Z (GetInt nc name opt).

Section StreamSpec.
Context `{E : Env}.

Record dataMsgStreamSpec : Type := StreamSpec {
  streamType : dataMsgStreamType;
  context : option template;
}.

Definition dataMsgStreamSpecDefault : dataMsgStreamSpec :=
  StreamSpec dMStreamMsgDefault None.

Definition dataMsgStreamSpecTextBased (s : dataMsgStreamSpec) : bool :=
  match streamType s with
  | dMStreamJSON | dMStreamJSONEvents => true
  | _ => false
  end.

Definition dataMsgStreamSpecFromConfig (nc : nodeConfig) (name : string)
    : res dataMsgStreamSpec :=
  let encodingString := default "json" (GetString nc name "encoding") in
  let! enc := nameToEncoding encodingString in
  let! st := dataMsgStreamTypeFromEncoding enc in
  match st with
  | dMStreamTemplate =>
      match GetString nc name "template" with
      | None => Err (Errorf "encoding='template' requires a template option [%v]")
      | Some templateFileName =>
          match readFile templateFileName with
          | Ok templateSpec =>
              match template_New_Parse name templateSpec with
              | Ok t => Ok (StreamSpec st (Some t))
              | Err _ => Err (Errorf "parsing template [%v]")
              | Panic => Panic
              end
          | Err _ => Err (Errorf "read template file [%v]")
          | Panic => Panic
          end
      end
  | _ => Ok (StreamSpec st None)
  end.

End StreamSpec.
Arguments dataMsgStreamSpec E : clear implicits.
Arguments StreamSpec {E} streamType context.

(** Concrete meta data returned from message types. *)
Record dataMsgMetaData : Type := MetaData {
  md_Path : string;
  md_Identifier : string;
}.

#[export] Instance dataMsgMetaData_eq_dec : EqDecision dataMsgMetaData.
Proof. solve_decision. Defined.

(** The interface [dataMsg], but for [produceMetrics], which has an output
    handler as argument and is modelled per message type.  A producer is
    identified by what its [String()] method returns. *)
Class DataMsg (M : Type) `{E : Env} := {
  getDataMsgDescription : M -> string;
  produceByteStream : M -> dataMsgStreamSpec E -> list meta * res slice;
  getDataMsgStreamType : M -> dataMsgStreamType;
  getMetaDataPath : M -> res string;
  getMetaDataIdentifier : M -> res string;
  getMetaData : M -> dataMsgMetaData;
}.

(** What every implementation promises to the output stages: the
    identifier getter does not fail and agrees with the meta data. *)
Class DataMsgLaws (M : Type) `{D : DataMsg M} := {
  identifier_ok : forall m,
    getMetaDataIdentifier m = Ok (md_Identifier (getMetaData m));
}.

(** The interface [codec] with its factory [getCodec].  A source is the
    [String()] of a producer, or nil. *)
Class Codec (C M : Type) := {
  getCodec : string -> encoding -> res C;
  blockToDataMsgs : C -> option string -> slice -> list meta * res (option (list M));
}.

(** Every encoding of [codec_support] has a codec, which is what the parser's
    constructor relies on; a codec given a source does not panic, and what it
    returns without an error is a non-nil slice. *)
Class CodecLaws (C M : Type) `{K : Codec C M} := {
  getCodec_support : forall name e, e ∈ codec_support -> is_ok (getCodec name e) = true;
  block_no_panic : forall c src b, is_panic (blockToDataMsgs c (Some src) b).2 = false;
  block_not_nil : forall c src b r, (blockToDataMsgs c src b).2 = Ok r -> is_Some r;
}.

(** ** Dynamic values

    What the code keeps in an [interface{}] taken from a telemetry field or a
    gNMI value: nil, or a value with its dynamic type.  A [reflect.Value] prints as
    the value it holds; of one that holds a struct, a pointer or a slice only the text
    is kept.  Floats are IEEE values; how [%v] prints one is a field of the class
    [FmtEnv]. *)
Inductive goval : Type :=
| GNil
| GBytes (b : bytes)
| GString (s : string)
| GBool (b : bool)
| GU32 (z : Z)
| GU64 (z : Z)
| GS32 (z : Z)
| GS64 (z : Z)
| GF64 (f : spec_float)
| GF32 (f : spec_float)
| GDecimal (digits : Z) (precision : Z)
| GReflect (v : goval)
| GComposite (text : string).

#[export] Instance spec_float_eq_dec : EqDecision spec_float.
Proof. solve_decision. Defined.
#[export] Instance goval_eq_dec : EqDecision goval.
Proof. solve_decision. Defined.

Class FmtEnv := {
  fmt_float64 : spec_float -> string;
  fmt_float32 : spec_float -> string;
  fmt_decimal : Z -> Z -> string;
}.

(** [fmt.Sprintf("%v", v)] *)
Fixpoint fmt_v `{FmtEnv} (v : goval) : string :=
  match v with
  | GNil => "<nil>"
  | GBytes b => "[" +:+ join " " (map (fun x => pretty (b2z x)) b) +:+ "]"
  | GString s => s
  | GBool b => if b then "true" else "false"
  | GU32 z | GU64 z | GS32 z | GS64 z => pretty z
  | GF64 f => fmt_float64 f
  | GF32 f => fmt_float32 f
  | GDecimal d p => fmt_decimal d p
  | GReflect v => fmt_v v
  | GComposite text => text
  end.

(** ** Control plane ([message.go]) *)

Inductive msgID : Type := SHUTDOWN | REPORT | ACK.

#[export] Instance msgID_eq_dec : EqDecision msgID.
Proof. solve_decision. Defined.

Record msgStats : Type := MsgStats { MsgsOK : Z; MsgsNOK : Z }.
Definition msgStats_zero : msgStats := MsgStats 0 0.
Definition stats_ok (s : msgStats) : msgStats := MsgStats (u64 (MsgsOK s + 1)) (MsgsNOK s).
Definition stats_nok (s : msgStats) : msgStats := MsgStats (MsgsOK s) (u64 (MsgsNOK s + 1)).

#[export] Instance msgStats_eq_dec : EqDecision msgStats.
Proof. solve_decision. Defined.

(** ** Theorems *)

(** Names round trip *)
Lemma encoding_name_roundtrip (e : encoding) (s : string) :
  nameToEncoding s = Ok e <-> e <> ENCODING_MAX /\ s = encodingToName e.
Proof.
  unfold nameToEncoding. split.
  - intros H. case_match eqn:E; [|done]. simplify_eq.
    apply (elem_of_list_to_map_2 (M := gmap string)) in E.
    rewrite !elem_of_cons, elem_of_nil in E. destruct_or? E; by simplify_eq.
  - intros [He ->]. destruct e; done.
Qed.
