(* ===== verification/EncapST.v ===== *)
(** * The streaming telemetry encapsulation ([encap_st.go], [encap.go])

    The 12-byte header and its wire format, the parser as a state record with
    the operations [nextBlockBuffer], [cacheCodec] and [nextBlock], the
    parser's invariant, and the functional behaviour of each state.  The codecs
    the parser feeds are those of the interface [Codec]. *)
From S2P Require Import Prelude Message.

(** ** Header *)

Definition ENC_ST_MAX_DGRAM : Z := 64 * 1024.
Definition ENC_ST_MAX_PAYLOAD : Z := 1024 * 1024.
Definition ENC_ST_HDR_MSG_FLAGS_NONE : Z := 0.
Definition ENC_ST_HDR_MSG_SIZE : nat := 12.
Definition ENC_ST_HDR_VERSION : Z := 1.

(** [encapSTHdrMsgType] *)
Definition ENC_ST_HDR_MSG_TYPE_UNSED : Z := 0.
Definition ENC_ST_HDR_MSG_TYPE_TELEMETRY_DATA : Z := 1.
Definition ENC_ST_HDR_MSG_TYPE_HEARTBEAT : Z := 2.

(** [encapSTHdrMsgEncap] *)
Definition ENC_ST_HDR_MSG_ENCAP_UNSED : Z := 0.
Definition ENC_ST_HDR_MSG_ENCAP_GPB : Z := 1.
Definition ENC_ST_HDR_MSG_ENCAP_JSON : Z := 2.
Definition ENC_ST_HDR_MSG_ENCAP_GPB_COMPACT : Z := 3.
Definition ENC_ST_HDR_MSG_ENCAP_GPB_KV : Z := 4.

(** four 16-bit fields and one 32-bit field *)
Record encapSTHdr : Type := STHdr {
  MsgType : Z;
  MsgEncap : Z;
  MsgHdrVersion : Z;
  Msgflag : Z;
  Msglen : Z;
}.

Definition hdr_wf (h : encapSTHdr) : Prop :=
  (0 <= MsgType h < 2 ^ 16 /\ 0 <= MsgEncap h < 2 ^ 16
   /\ 0 <= MsgHdrVersion h < 2 ^ 16 /\ 0 <= Msgflag h < 2 ^ 16
   /\ 0 <= Msglen h < 2 ^ 32)%Z.

(** [binary.Write(w, binary.BigEndian, hdr)] *)
Definition write_hdr (h : encapSTHdr) : bytes :=
  be_bytes 2 (MsgType h) ++ be_bytes 2 (MsgEncap h) ++ be_bytes 2 (MsgHdrVersion h)
  ++ be_bytes 2 (Msgflag h) ++ be_bytes 4 (Msglen h).

(** the field decoding of [binary.Read] on the twelve bytes it has read *)
Definition decode_hdr (l : bytes) : encapSTHdr :=
  STHdr (be_val (take 2 l)) (be_val (take 2 (drop 2 l)))
        (be_val (take 2 (drop 4 l))) (be_val (take 2 (drop 6 l)))
        (be_val (take 4 (drop 8 l))).

(** [binary.Read(hdrbuf, binary.BigEndian, &hdr)]: the header and what is left
    unread *)
Definition read_hdr (l : bytes) : res (encapSTHdr * bytes) :=
  let! r := read_full ENC_ST_HDR_MSG_SIZE l in
  Ok (decode_hdr r.1, r.2).

Definition encapSTFromEncoding (enc : encoding) : res Z :=
  match enc with
  | ENCODING_GPB => Ok ENC_ST_HDR_MSG_ENCAP_GPB
  | ENCODING_JSON => Ok ENC_ST_HDR_MSG_ENCAP_JSON
  | ENCODING_GPB_KV => Ok ENC_ST_HDR_MSG_ENCAP_GPB_KV
  | _ => Err (Errorf "Failed to produce encapSTHdrMsgEncap from %d")
  end.

(** ** Parser *)

Inductive encapSTParseState : Type :=
| ENC_ST_WAIT_FOR_HDR
| ENC_ST_WAIT_FOR_DATA
| ENC_ST_WAIT_FOR_ALL.

#[export] Instance encapSTParseState_eq_dec : EqDecision encapSTParseState.
Proof. solve_decision. Defined.

Section Parser.
Context {C M : Type} `{K : Codec C M}.

(** [hdr] is the header buffer the parser lends out; only its length matters,
    since a caller fills it before the next call. *)
Record encapSTParser : Type := STParser {
  p_name : string;
  p_codecs : list (option C);
  p_hdr : bytes;
  p_cachedMsgEncap : Z;
  p_nextCodec : option C;
  p_nextBlockSize : Z;
  p_state : encapSTParseState;
  p_source : option string;
}.

Definition set_codec (p : encapSTParser) (encap : Z) (c : option C) : encapSTParser :=
  STParser (p_name p) (p_codecs p) (p_hdr p) encap c
    (p_nextBlockSize p) (p_state p) (p_source p).

Definition set_state (p : encapSTParser) (size : Z) (st : encapSTParseState)
    : encapSTParser :=
  STParser (p_name p) (p_codecs p) (p_hdr p) (p_cachedMsgEncap p)
    (p_nextCodec p) size st (p_source p).

Definition set_source (p : encapSTParser) (source : option string) : encapSTParser :=
  match source with
  | Some _ => STParser (p_name p) (p_codecs p) (p_hdr p) (p_cachedMsgEncap p)
                (p_nextCodec p) (p_nextBlockSize p) (p_state p) source
  | None => p
  end.

(** the loop of the constructor over [codec_support] *)
Fixpoint setup_codecs (name : string) (es : list encoding)
    (codecs : list (option C)) : res (list (option C)) :=
  match es with
  | [] => Ok codecs
  | e :: es' =>
      let! c := getCodec name e in
      setup_codecs name es' (<[encoding_index e := Some c]> codecs)
  end.

Definition getNewEncapSTParser (name : string) (source : option string)
    : res encapSTParser :=
  let st := match source with
            | None => ENC_ST_WAIT_FOR_ALL
            | Some _ => ENC_ST_WAIT_FOR_HDR
            end in
  let! codecs := setup_codecs name codec_support
                   (replicate (encoding_index ENCODING_MAX) None) in
  Ok (STParser name codecs (replicate ENC_ST_HDR_MSG_SIZE Byte.x00)
        ENC_ST_HDR_MSG_ENCAP_UNSED None 0 st source).

Definition getNewEncapParser (name encap : string) (producer : option string)
    : res encapSTParser :=
  if String.eqb encap "st" then getNewEncapSTParser name producer
  else Err (Errorf "ENCAP: failed to produce parser").

(** [nextBlockBuffer]: the length of the buffer to fill *)
Definition nextBlockBuffer (p : encapSTParser) : res nat :=
  match p_state p with
  | ENC_ST_WAIT_FOR_DATA =>
      if bool_decide (p_nextBlockSize p = 0%Z)
      then Err (Errorf "ENCAP  ST: req 0 size buffer")
      else if bool_decide (p_nextBlockSize p > ENC_ST_MAX_PAYLOAD)%Z
      then Err (Errorf "ENCAP  ST: req %d size buf, max %d")
      else Ok (Z.to_nat (p_nextBlockSize p))
  | ENC_ST_WAIT_FOR_HDR => Ok (length (p_hdr p))
  | ENC_ST_WAIT_FOR_ALL => Ok (Z.to_nat ENC_ST_MAX_DGRAM)
  end.

(** the codec an encap value of the header selects *)
Definition encap_encoding (encap : Z) : option encoding :=
  if bool_decide (encap = ENC_ST_HDR_MSG_ENCAP_GPB) then Some ENCODING_GPB
  else if bool_decide (encap = ENC_ST_HDR_MSG_ENCAP_GPB_COMPACT)
  then Some ENCODING_GPB_COMPACT
  else if bool_decide (encap = ENC_ST_HDR_MSG_ENCAP_GPB_KV) then Some ENCODING_GPB_KV
  else if bool_decide (encap = ENC_ST_HDR_MSG_ENCAP_JSON) then Some ENCODING_JSON
  else None.

Definition codec_at (p : encapSTParser) (e : encoding) : option C :=
  mjoin (p_codecs p !! encoding_index e).

Definition cacheCodec (p : encapSTParser) (encap : Z) : encapSTParser * res unit :=
  if bool_decide (p_nextCodec p = None) || bool_decide (encap <> p_cachedMsgEncap p)
  then match encap_encoding encap with
       | Some e => (set_codec p encap (codec_at p e), Ok tt)
       | None => (p, Err (Errorf "ENCAP ST: no codec for msg encap [%+v]"))
       end
  else (p, Ok tt).

(** a method call on the parser's codec: a nil interface panics *)
Definition call_codec (p : encapSTParser) (b : bytes) : list meta * res (option (list M)) :=
  match p_nextCodec p with
  | Some c => blockToDataMsgs c (p_source p) (Some b)
  | None => ([], Panic)
  end.

Definition nextBlock_all (p : encapSTParser) (nextBlock : bytes)
    : encapSTParser * (list meta * res (option (list M))) :=
  match read_hdr nextBlock with
  | Err e => (p, ([], Err e))
  | Panic => (p, ([], Panic))
  | Ok (hdr, hdrbuf) =>
      match cacheCodec p (MsgEncap hdr) with
      | (p', Err e) => (p', ([], Err e))
      | (p', Panic) => (p', ([], Panic))
      | (p', Ok _) =>
          let hdrLen := length nextBlock - length hdrbuf in
          if bool_decide (Msglen hdr > u32 (Z.of_nat (length hdrbuf)))%Z
          then (p', ([], Err (Errorf
                 "ENCAP ST: drop datagram, payload len expect %d, have %d")))
          else if bool_decide (Msgflag hdr <> ENC_ST_HDR_MSG_FLAGS_NONE)
          then (p', ([], Err (Errorf "ENCAP ST: flag in header unsupported (zlib?)")))
          else (p', call_codec p' (drop hdrLen nextBlock))
      end
  end.

Definition nextBlock_data (p : encapSTParser) (nextBlock : bytes)
    : encapSTParser * (list meta * res (option (list M))) :=
  let p' := set_state p 0 ENC_ST_WAIT_FOR_HDR in
  match p_nextCodec p' with
  | Some _ => (p', call_codec p' nextBlock)
  | None => (p', ([], Err (Errorf "ENCAP ST: codec not setup for decode")))
  end.

Definition nextBlock_hdr (p : encapSTParser) (nextBlock : bytes)
    : encapSTParser * (list meta * res (option (list M))) :=
  match read_hdr nextBlock with
  | Err e => (p, ([], Err e))
  | Panic => (p, ([], Panic))
  | Ok (hdr, _) =>
      match cacheCodec p (MsgEncap hdr) with
      | (p', Err e) => (p', ([], Err e))
      | (p', Panic) => (p', ([], Panic))
      | (p', Ok _) =>
          if bool_decide (Msglen hdr > ENC_ST_MAX_PAYLOAD)%Z
          then (p', ([], Err (Errorf
                 "ENCAP ST: nextBlockBuffer failed; msg too long [%v]")))
          else if bool_decide (Msgflag hdr <> ENC_ST_HDR_MSG_FLAGS_NONE)
          then (p', ([], Err (Errorf "ENCAP ST: flag in header unsupported (zlib?)")))
          else (set_state p' (Msglen hdr) ENC_ST_WAIT_FOR_DATA, ([], Ok None))
      end
  end.

Definition nextBlock (p : encapSTParser) (block : bytes) (source : option string)
    : encapSTParser * (list meta * res (option (list M))) :=
  let p := set_source p source in
  match p_state p with
  | ENC_ST_WAIT_FOR_ALL => nextBlock_all p block
  | ENC_ST_WAIT_FOR_DATA => nextBlock_data p block
  | ENC_ST_WAIT_FOR_HDR => nextBlock_hdr p block
  end.

(** Invariant: the codec table is the one the constructor built, the cached codec is
    the table's entry for the cached encap, and a parser that waits for a
    payload has a codec and a bounded block size. *)
Record parser_wf (p : encapSTParser) : Prop := {
  wf_codecs : forall e, e ∈ codec_support ->
    exists c, getCodec (p_name p) e = Ok c /\ codec_at p e = Some c;
  wf_hdr : length (p_hdr p) = ENC_ST_HDR_MSG_SIZE;
  wf_cache : p_nextCodec p = None \/
    exists e, encap_encoding (p_cachedMsgEncap p) = Some e
              /\ p_nextCodec p = codec_at p e;
  wf_data : p_state p = ENC_ST_WAIT_FOR_DATA ->
    is_Some (p_nextCodec p) /\ (0 <= p_nextBlockSize p <= ENC_ST_MAX_PAYLOAD)%Z;
}.

End Parser.
Arguments encapSTParser C : clear implicits.

(** a frame on the wire: header and payload *)
Definition frame (encap : Z) (payload : bytes) : bytes :=
  write_hdr (STHdr ENC_ST_HDR_MSG_TYPE_TELEMETRY_DATA encap ENC_ST_HDR_VERSION
    ENC_ST_HDR_MSG_FLAGS_NONE (Z.of_nat (length payload))) ++ payload.

(** ** Theorems *)

Lemma length_write_hdr h : length (write_hdr h) = ENC_ST_HDR_MSG_SIZE.
Proof. unfold write_hdr. rewrite !length_app, !length_be_bytes. reflexivity. Qed.

Lemma decode_write_hdr h : hdr_wf h -> decode_hdr (write_hdr h) = h.
Proof.
  destruct h as [t e v f n]. intros (? & ? & ? & ? & ?); simpl in *.
  change (decode_hdr (write_hdr (STHdr t e v f n)))
    with (STHdr (be_val (be_bytes 2 t)) (be_val (be_bytes 2 e)) (be_val (be_bytes 2 v))
            (be_val (be_bytes 2 f)) (be_val (be_bytes 4 n))).
  rewrite !be_val_be_bytes, !Z.mod_small by lia. done.
Qed.

Lemma write_decode_hdr l :
  length l = ENC_ST_HDR_MSG_SIZE -> write_hdr (decode_hdr l) = l.
Proof.
  do 12 (destruct l as [|? l]; [done|]). destruct l; [|done]. intros _.
  unfold write_hdr, decode_hdr. cbn [MsgType MsgEncap MsgHdrVersion Msgflag Msglen].
  rewrite !be_bytes_be_val by reflexivity. reflexivity.
Qed.

Lemma decode_hdr_wf l : length l = ENC_ST_HDR_MSG_SIZE -> hdr_wf (decode_hdr l).
Proof.
  do 12 (destruct l as [|? l]; [done|]). destruct l; [|done]. intros _.
  unfold hdr_wf, decode_hdr. cbn [MsgType MsgEncap MsgHdrVersion Msgflag Msglen].
  repeat split; apply be_val_bound.
Qed.

Lemma read_hdr_write h rest :
  hdr_wf h -> read_hdr (write_hdr h ++ rest) = Ok (h, rest).
Proof.
  intros Hh. unfold read_hdr.
  rewrite read_full_app by (auto using length_write_hdr).
  cbn [res_bind fst snd].
  by rewrite decode_write_hdr.
Qed.

Lemma read_hdr_inv l h rest :
  read_hdr l = Ok (h, rest) -> l = write_hdr h ++ rest /\ hdr_wf h.
Proof.
  unfold read_hdr. intros ([a b] & Hr & [= <- <-])%res_bind_ok. cbn [fst snd].
  apply read_full_inv in Hr as [-> Hl].
  rewrite write_decode_hdr by done. auto using decode_hdr_wf.
Qed.

(** C27: the header round trips.  Reading a header back from the bytes
    [binary.Write] produced for it, whatever follows them, returns the same header and
    leaves exactly what follows; and every successful read is of bytes that
    writing the returned header reproduces, with every field in its width. *)
Theorem st_header_roundtrip (l rest : bytes) (h : encapSTHdr) :
  (read_hdr l = Ok (h, rest) <-> hdr_wf h /\ l = write_hdr h ++ rest).
Proof.
  split; [intros H%read_hdr_inv; tauto|]. intros [Hh ->]. by apply read_hdr_write.
Qed.

#[global] Arguments write_hdr : simpl never.
#[global] Arguments read_hdr : simpl never.
#[global] Arguments frame : simpl never.

Section ParserTheorems.
Context {C M : Type} `{KL : CodecLaws C M}.
Implicit Types p : encapSTParser C.

Lemma setup_codecs_ok name es : forall codecs,
  (forall e, e ∈ es -> is_ok (getCodec name e) = true) ->
  exists codecs', setup_codecs name es codecs = Ok codecs'.
Proof.
  induction es as [|e es IH]; intros codecs Hes; simpl; [eauto|].
  specialize (Hes e) as He. rewrite elem_of_cons in He.
  destruct (getCodec name e) as [c| |]; try (specialize (He (or_introl eq_refl)); done).
  simpl. apply IH. intros e' He'. apply Hes. by apply elem_of_cons; right.
Qed.

Lemma encoding_index_inj e e' : encoding_index e = encoding_index e' -> e = e'.
Proof. by destruct e, e'. Qed.

Lemma encoding_index_lt e : encoding_index e < S (encoding_index ENCODING_MAX).
Proof. destruct e; simpl; lia. Qed.

Lemma setup_codecs_length name es : forall codecs codecs',
  setup_codecs name es codecs = Ok codecs' -> length codecs' = length codecs.
Proof.
  induction es as [|e es IH]; intros codecs codecs' H; simpl in H; res_inv; [done|].
  erewrite IH by done. apply length_insert.
Qed.

Lemma setup_codecs_spec name es : forall codecs codecs' e,
  setup_codecs name es codecs = Ok codecs' ->
  encoding_index e < length codecs ->
  (e ∈ es -> exists c, getCodec name e = Ok c /\ codecs' !! encoding_index e = Some (Some c))
  /\ (e ∉ es -> codecs' !! encoding_index e = codecs !! encoding_index e).
Proof.
  induction es as [|e0 es IH]; intros codecs codecs' e H Hlt; simpl in H; res_inv.
  { split; [by intros ?%not_elem_of_nil|done]. }
  destruct (IH _ _ e H) as [Hin Hout]; [by rewrite length_insert|].
  rewrite elem_of_cons. split.
  - intros Hor. destruct (decide (e ∈ es)) as [?|Hni]; [auto|].
    destruct Hor as [->|?]; [|done].
    rewrite Hout by done. rewrite list_lookup_insert_eq by done. eauto.
  - intros [Hne Hni]%Decidable.not_or. rewrite Hout by done.
    apply list_lookup_insert_ne. intros ?%encoding_index_inj. done.
Qed.

Lemma getNewEncapSTParser_ok name source :
  exists p, getNewEncapSTParser (C := C) (M := M) name source = Ok p.
Proof.
  unfold getNewEncapSTParser.
  edestruct setup_codecs_ok as [cs ->]; [|simpl; eauto].
  intros e He. by apply getCodec_support.
Qed.

Lemma getNewEncapSTParser_wf name source p :
  getNewEncapSTParser (C := C) (M := M) name source = Ok p -> parser_wf p.
Proof.
  unfold getNewEncapSTParser. intros (cs & Hcs & [= <-])%res_bind_ok.
  constructor; simpl.
  - intros e He. destruct (setup_codecs_spec _ _ _ _ e Hcs) as [Hin _].
    { unfold codec_support in He. rewrite !elem_of_cons, elem_of_nil in He.
      destruct_or? He; subst; simpl; by auto with lia. }
    destruct (Hin He) as (c & Hc & Hl). exists c. split; [done|].
    unfold codec_at. simpl. by rewrite Hl.
  - reflexivity.
  - by left.
  - by destruct source.
Qed.

Lemma encap_encoding_support z e : encap_encoding z = Some e -> e ∈ codec_support.
Proof.
  unfold encap_encoding, codec_support. intros H. repeat case_bool_decide; simplify_eq;
    set_solver.
Qed.

(** The codec cache is transparent.  On a well-formed parser, whatever
    codec an earlier header left cached, [cacheCodec] sets the parser up with the
    codec the table holds for the encapsulation asked for, and refuses, leaving the parser
    as it was, exactly the values that name no codec. *)
Lemma cacheCodec_table p encap :
  parser_wf p ->
  cacheCodec p encap =
  match encap_encoding encap with
  | Some e => (set_codec p encap (codec_at p e), Ok tt)
  | None => (p, Err (Errorf "ENCAP ST: no codec for msg encap [%+v]"))
  end.
Proof.
  intros Hwf. unfold cacheCodec.
  destruct (bool_decide (p_nextCodec p = None)) eqn:E1; [done|].
  apply bool_decide_eq_false in E1. case_bool_decide as E2; [done|]. simpl.
  subst encap.
  destruct (wf_cache p Hwf) as [?|(e & He & Hc)]; [done|].
  rewrite He. f_equal. destruct p. simpl in *. unfold set_codec. simpl. by rewrite Hc.
Qed.

Lemma codec_at_support p z e :
  parser_wf p -> encap_encoding z = Some e ->
  exists c, getCodec (p_name p) e = Ok c /\ codec_at p e = Some c.
Proof. intros Hwf He. by apply (wf_codecs p Hwf), (encap_encoding_support z). Qed.

Lemma set_source_wf p s : parser_wf p -> parser_wf (set_source p s).
Proof. intros []. by destruct s; constructor. Qed.

Lemma set_codec_wf p z e :
  parser_wf p -> encap_encoding z = Some e -> parser_wf (set_codec p z (codec_at p e)).
Proof.
  intros Hwf He. destruct (codec_at_support p z e Hwf He) as (c & _ & Hc).
  destruct Hwf as [H1 H2 H3 H4]. constructor; simpl; auto.
  - right. exists e. split; [done|]. unfold codec_at. simpl. done.
  - intros Hs. split; [eauto|]. by apply H4.
Qed.

Lemma set_state_hdr_wf p n : parser_wf p -> parser_wf (set_state p n ENC_ST_WAIT_FOR_HDR).
Proof. intros []. by constructor. Qed.

Lemma set_state_data_wf p n :
  parser_wf p -> is_Some (p_nextCodec p) -> (0 <= n <= ENC_ST_MAX_PAYLOAD)%Z ->
  parser_wf (set_state p n ENC_ST_WAIT_FOR_DATA).
Proof. intros [] ??. by constructor. Qed.

(** a well-formed parser never lends an empty buffer *)
Lemma nextBlockBuffer_pos p : parser_wf p -> nextBlockBuffer p <> Ok 0.
Proof.
  intros Hwf. unfold nextBlockBuffer. destruct (p_state p) eqn:Es.
  - by rewrite (wf_hdr p Hwf).
  - destruct (wf_data p Hwf Es) as [_ Hb]. repeat case_bool_decide; try done.
    intros [= ?]. lia.
  - intros H. assert (Z.to_nat ENC_ST_MAX_DGRAM = 0) as H' by congruence.
    unfold ENC_ST_MAX_DGRAM in H'. lia.
Qed.

Lemma read_hdr_no_panic l : read_hdr l <> Panic.
Proof.
  unfold read_hdr. pose proof (read_full_total ENC_ST_HDR_MSG_SIZE l).
  by destruct (read_full _ l).
Qed.

Lemma nextBlock_wf p b s : parser_wf p -> parser_wf (nextBlock p b s).1.
Proof.
  intros Hwf%(set_source_wf p s). unfold nextBlock.
  destruct (p_state (set_source p s)) eqn:Es;
    unfold nextBlock_hdr, nextBlock_data, nextBlock_all.
  2: { destruct (p_nextCodec _); apply set_state_hdr_wf, Hwf. }
  all: destruct (read_hdr b) as [[h rest]| |] eqn:Eh; [|done..];
    rewrite cacheCodec_table by done;
    destruct (encap_encoding (MsgEncap h)) as [e|] eqn:Ee; [|done];
    pose proof (set_codec_wf _ _ _ Hwf Ee) as Hwf';
    repeat case_bool_decide; try done.
  apply set_state_data_wf; [done|..].
  - destruct (codec_at_support _ _ _ Hwf Ee) as (c & _ & Hc). simpl. by rewrite Hc.
  - apply read_hdr_inv in Eh as [_ Hh]. unfold hdr_wf in Hh. lia.
Qed.

Lemma call_codec_no_panic p b :
  is_Some (p_source p) -> is_Some (p_nextCodec p) ->
  is_panic (call_codec (M := M) p b).2 = false.
Proof.
  intros [src Hs] [c Hc]. unfold call_codec. rewrite Hs, Hc. apply block_no_panic.
Qed.

Lemma nextBlock_no_panic p b s :
  parser_wf p -> is_Some (p_source (set_source p s)) ->
  is_panic (nextBlock (M := M) p b s).2.2 = false.
Proof.
  intros Hwf%(set_source_wf p s) Hsrc. unfold nextBlock.
  revert Hwf Hsrc. generalize (set_source p s). clear p. intros p Hwf Hsrc.
  destruct (p_state p) eqn:Es; unfold nextBlock_hdr, nextBlock_data, nextBlock_all.
  2: { destruct (p_nextCodec _) eqn:Ec; [|done].
       apply call_codec_no_panic; simpl in *; rewrite ?Ec; eauto. }
  all: pose proof (read_hdr_no_panic b);
    destruct (read_hdr b) as [[h rest]| |]; [|done..];
    rewrite cacheCodec_table by done;
    destruct (encap_encoding (MsgEncap h)) as [e|] eqn:Ee; [|done];
    repeat case_bool_decide; try done.
  apply call_codec_no_panic; [done|].
  destruct (codec_at_support _ _ _ Hwf Ee) as (c & _ & Hc). simpl. by rewrite Hc.
Qed.

(** C31: the parser never fails on its own.  From the constructor on, every block
    keeps the parser's invariant and, as long as the parser has a source
    (a connection's, or the datagram's), no block makes it panic, whatever
    bytes it holds. *)
Theorem st_parser_safe p b s :
  parser_wf p -> is_Some (p_source (set_source p s)) ->
  parser_wf (nextBlock (M := M) p b s).1
  /\ is_panic (nextBlock (M := M) p b s).2.2 = false.
Proof. auto using nextBlock_wf, nextBlock_no_panic. Qed.

Lemma nextBlock_header p h rest :
  parser_wf p -> p_state p = ENC_ST_WAIT_FOR_HDR -> hdr_wf h ->
  nextBlock (M := M) p (write_hdr h ++ rest) None =
  match encap_encoding (MsgEncap h) with
  | None => (p, ([], Err (Errorf "ENCAP ST: no codec for msg encap [%+v]")))
  | Some e =>
      let p' := set_codec p (MsgEncap h) (codec_at p e) in
      if bool_decide (Msglen h > ENC_ST_MAX_PAYLOAD)%Z
      then (p', ([], Err (Errorf "ENCAP ST: nextBlockBuffer failed; msg too long [%v]")))
      else if bool_decide (Msgflag h <> ENC_ST_HDR_MSG_FLAGS_NONE)
      then (p', ([], Err (Errorf "ENCAP ST: flag in header unsupported (zlib?)")))
      else (set_state p' (Msglen h) ENC_ST_WAIT_FOR_DATA, ([], Ok None))
  end.
Proof.
  intros Hwf Hs Hh. unfold nextBlock. cbn [set_source]. rewrite Hs. unfold nextBlock_hdr.
  rewrite read_hdr_write, cacheCodec_table by done. by destruct (encap_encoding _).
Qed.

Lemma nextBlock_payload p c b :
  p_state p = ENC_ST_WAIT_FOR_DATA -> p_nextCodec p = Some c ->
  nextBlock (M := M) p b None
  = (set_state p 0 ENC_ST_WAIT_FOR_HDR, blockToDataMsgs c (p_source p) (Some b)).
Proof.
  intros Hs Hc. unfold nextBlock. cbn [set_source]. rewrite Hs.
  unfold nextBlock_data, call_codec. cbn [set_state p_nextCodec p_source]. by rewrite Hc.
Qed.

Lemma set_source_state p s : p_state (set_source p s) = p_state p.
Proof. by destruct s. Qed.

Lemma nextBlock_datagram p h rest :
  parser_wf p -> hdr_wf h ->
  nextBlock_all (M := M) p (write_hdr h ++ rest) =
  match encap_encoding (MsgEncap h) with
  | None => (p, ([], Err (Errorf "ENCAP ST: no codec for msg encap [%+v]")))
  | Some e =>
      let p' := set_codec p (MsgEncap h) (codec_at p e) in
      if bool_decide (Msglen h > u32 (Z.of_nat (length rest)))%Z
      then (p', ([], Err (Errorf
             "ENCAP ST: drop datagram, payload len expect %d, have %d")))
      else if bool_decide (Msgflag h <> ENC_ST_HDR_MSG_FLAGS_NONE)
      then (p', ([], Err (Errorf "ENCAP ST: flag in header unsupported (zlib?)")))
      else (p', call_codec p' rest)
  end.
Proof.
  intros Hwf Hh. unfold nextBlock_all.
  rewrite read_hdr_write, cacheCodec_table by done.
  destruct (encap_encoding _); [|done].
  rewrite length_app, Nat.add_sub, length_write_hdr.
  by rewrite drop_app_length' by (by rewrite length_write_hdr).
Qed.

(** a header such as [frame] writes fits its fields *)
Lemma frame_hdr_wf z n :
  (0 <= z < 2 ^ 16)%Z -> (Z.of_nat n < 2 ^ 32)%Z ->
  hdr_wf (STHdr ENC_ST_HDR_MSG_TYPE_TELEMETRY_DATA z ENC_ST_HDR_VERSION
            ENC_ST_HDR_MSG_FLAGS_NONE (Z.of_nat n)).
Proof.
  intros. unfold hdr_wf, ENC_ST_HDR_VERSION, ENC_ST_HDR_MSG_FLAGS_NONE,
    ENC_ST_HDR_MSG_TYPE_TELEMETRY_DATA. simpl. lia.
Qed.

Lemma encap_encoding_bound z e : encap_encoding z = Some e -> (0 <= z < 2 ^ 16)%Z.
Proof.
  unfold encap_encoding, ENC_ST_HDR_MSG_ENCAP_GPB, ENC_ST_HDR_MSG_ENCAP_GPB_COMPACT,
    ENC_ST_HDR_MSG_ENCAP_GPB_KV, ENC_ST_HDR_MSG_ENCAP_JSON.
  intros H. repeat case_bool_decide; simplify_eq; lia.
Qed.

(** The datagram service hands the codec everything after the header.  A
    datagram whose header names a codec and which holds at least the announced
    payload is accepted; the codec then gets the announced payload together with
    whatever follows it in the datagram. *)
Lemma st_datagram p src payload junk z e c :
  parser_wf p -> p_state p = ENC_ST_WAIT_FOR_ALL ->
  encap_encoding z = Some e -> codec_at p e = Some c ->
  (Z.of_nat (length (payload ++ junk)) < 2 ^ 32)%Z ->
  (nextBlock (M := M) p (frame z payload ++ junk) (Some src)).2
  = blockToDataMsgs c (Some src) (Some (payload ++ junk)).
Proof.
  intros Hwf Hs He Hc Hlen. rewrite length_app in Hlen.
  unfold nextBlock. rewrite set_source_state, Hs. unfold frame.
  rewrite <- app_assoc, nextBlock_datagram; [|by apply set_source_wf|].
  2: { apply frame_hdr_wf; [by eapply encap_encoding_bound|lia]. }
  cbn [MsgEncap Msglen Msgflag]. rewrite He.
  rewrite bool_decide_eq_false_2; cycle 1.
  { unfold u32. rewrite length_app, Z.mod_small by lia. lia. }
  rewrite bool_decide_eq_false_2 by naive_solver. cbn [snd].
  unfold call_codec, codec_at in *. simpl. by rewrite Hc.
Qed.

End ParserTheorems.
