(* ===== verification/Gpb.v ===== *)
(** * The GPB codec ([codec_gpb.go], all but metrics extraction)

    Decoded telemetry messages, the [sockDrawer] built from K/V fields, the
    conversion of messages to rows for templates and JSON, the byte streams, and
    [blockToDataMsgs] for the current and the legacy wire format.  The generated protobuf
    code, the JSON printers and the archive of compiled models are fields of the class
    [GpbEnv]. *)
From S2P Require Import Prelude Message.

Definition GPBCODEC : string := "GPBCodec".
Definition CODEC_GPB_PIPELINE_EDIT_SUFFIX : string := "_PIPELINE_EDIT".

(** ** Decoded messages

    The fields of the generated structs the code reads.  A repeated field that
    is absent decodes to a nil slice and never to an empty one, so that the
    empty list stands for nil. *)

Inductive ValueByType : Type :=
| BytesValue (b : bytes)
| StringValue (s : string)
| BoolValue (b : bool)
| Uint32Value (z : Z)
| Uint64Value (z : Z)
| Sint32Value (z : Z)
| Sint64Value (z : Z)
| DoubleValue (f : spec_float)
| FloatValue (f : spec_float).

Inductive TelemetryField : Type :=
| TField (Timestamp : Z) (Name : string) (Value : option ValueByType)
         (Fields : list TelemetryField).

Definition tf_Timestamp (f : TelemetryField) : Z := let '(TField t _ _ _) := f in t.
Definition tf_Name (f : TelemetryField) : string := let '(TField _ n _ _) := f in n.
Definition tf_Value (f : TelemetryField) : option ValueByType :=
  let '(TField _ _ v _) := f in v.
Definition tf_Fields (f : TelemetryField) : list TelemetryField :=
  let '(TField _ _ _ fs) := f in fs.

Record TelemetryRowGPB : Type := RowGPB {
  row_Timestamp : Z;
  row_Keys : bytes;
  row_Content : bytes;
}.

(** [DataGpb] is [None] when the compact table is absent. *)
Record Telemetry : Type := MkTelemetry {
  NodeIdStr : string;
  SubscriptionIdStr : string;
  EncodingPath : string;
  CollectionId : Z;
  CollectionStartTime : Z;
  MsgTimestamp : Z;
  DataGpbkv : list TelemetryField;
  DataGpb : option (list TelemetryRowGPB);
  CollectionEndTime : Z;
}.

Definition with_path (t : Telemetry) (path : string) : Telemetry :=
  MkTelemetry (NodeIdStr t) (SubscriptionIdStr t) path (CollectionId t)
    (CollectionStartTime t) (MsgTimestamp t) (DataGpbkv t) (DataGpb t)
    (CollectionEndTime t).
Definition without_gpb (t : Telemetry) : Telemetry :=
  MkTelemetry (NodeIdStr t) (SubscriptionIdStr t) (EncodingPath t) (CollectionId t)
    (CollectionStartTime t) (MsgTimestamp t) (DataGpbkv t) None (CollectionEndTime t).
Definition without_gpbkv (t : Telemetry) : Telemetry :=
  MkTelemetry (NodeIdStr t) (SubscriptionIdStr t) (EncodingPath t) (CollectionId t)
    (CollectionStartTime t) (MsgTimestamp t) [] (DataGpb t) (CollectionEndTime t).

(** the old PDT header *)
Record PdtTable : Type := MkPdtTable { PolicyPath : string; pdt_Row : list bytes }.
Record PdtHeader : Type := MkPdtHeader {
  pdt_Identifier : string;
  pdt_PolicyName : string;
  pdt_StartTime : Z;
  pdt_EndTime : Z;
  pdt_Tables : list PdtTable;
}.

(** ** Native values and the sock drawer *)

Definition extractGPBKVNativeTypeFromOneof (field : TelemetryField)
    (must_be_numeric : bool) : goval :=
  match tf_Value field with
  | Some (BytesValue b) => if must_be_numeric then GNil else GBytes b
  | Some (StringValue s) => if must_be_numeric then GNil else GString s
  | Some (BoolValue b) => if must_be_numeric then GNil else GBool b
  | Some (Uint32Value z) => GU32 z
  | Some (Uint64Value z) => GU64 z
  | Some (Sint32Value z) => GS32 z
  | Some (Sint64Value z) => GS64 z
  | Some (DoubleValue f) => GF64 f
  | Some (FloatValue f) => GF32 f
  | None => GNil
  end.

Inductive sdval : Type :=
| SDVal (v : goval)
| SDDrawer (s : gmap string sdval)
| SDList (l : list sdval).

Definition sd_nil (v : sdval) : bool :=
  match v with SDVal GNil => true | _ => false end.

(** the map under construction and [placeInArrayMap] *)
Record drawer : Type := MkDrawer {
  dr_s : gmap string sdval;
  dr_placed : gset string;
}.

Definition edit_name (name : string) : string :=
  name +:+ CODEC_GPB_PIPELINE_EDIT_SUFFIX.

(** [s[newName] = append(s[newName].([]interface{}), v)] *)
Definition drawer_append (s : gmap string sdval) (newName : string) (v : sdval)
    : res (gmap string sdval) :=
  match s !! newName with
  | Some (SDList l) => Ok (<[newName := SDList (l ++ [v])]> s)
  | _ => Panic
  end.

(** the body of the loop over the fields *)
Definition drawer_step (d : drawer) (name : string) (fieldVal : sdval) : res drawer :=
  let placeInArray := bool_decide (name ∈ dr_placed d) in
  match dr_s d !! name with
  | None =>
      if placeInArray then
        if sd_nil fieldVal then Ok d
        else let! s := drawer_append (dr_s d) (edit_name name) fieldVal in
             Ok (MkDrawer s (dr_placed d))
      else Ok (MkDrawer (<[name := fieldVal]> (dr_s d)) (dr_placed d))
  | Some existing =>
      if placeInArray then
        if sd_nil fieldVal then Ok d
        else let! s := drawer_append (dr_s d) (edit_name name) fieldVal in
             Ok (MkDrawer s (dr_placed d))
      else
        let s := <[edit_name name := SDList []]> (dr_s d) in
        let! s := drawer_append s (edit_name name) existing in
        let s := delete name s in
        let placed := {[name]} ∪ dr_placed d in
        if sd_nil fieldVal then Ok (MkDrawer s placed)
        else let! s := drawer_append s (edit_name name) fieldVal in
             Ok (MkDrawer s placed)
  end.

Fixpoint drawer_loop (d : drawer) (fs : list (string * res sdval)) : res drawer :=
  match fs with
  | [] => Ok d
  | (name, v) :: fs' =>
      let! v := v in
      let! d' := drawer_step d name v in
      drawer_loop d' fs'
  end.

Definition drawer_empty : drawer := MkDrawer ∅ ∅.

(** the value of one field: its native value, or the drawer of its children *)
Fixpoint fieldVal (field : TelemetryField) : res sdval :=
  match field with
  | TField _ _ _ [] => Ok (SDVal (extractGPBKVNativeTypeFromOneof field false))
  | TField _ _ _ children =>
      let! d := drawer_loop drawer_empty
                  (map (fun f => (tf_Name f, fieldVal f)) children) in
      Ok (SDDrawer (dr_s d))
  end.

(** [telemetryKvToSockDrawer]: nil for an empty list *)
Definition telemetryKvToSockDrawer (item : list TelemetryField)
    : res (option (gmap string sdval)) :=
  match item with
  | [] => Ok None
  | _ =>
      let! d := drawer_loop drawer_empty
                  (map (fun f => (tf_Name f, fieldVal f)) item) in
      Ok (Some (dr_s d))
  end.

(** ** Messages for templates: [msgToFilter] *)

Record rowToFilter : Type := RowToFilter {
  rtf_Timestamp : Z;
  rtf_Keys : option (gmap string sdval);
  rtf_Content : option (gmap string sdval);
}.

Record msgToFilter : Type := MsgToFilter {
  mf_Node_id : string;
  mf_Encoding_path : string;
  mf_Subscription : string;
  mf_collection_id : Z;
  mf_collection_start_time : Z;
  mf_collection_end_time : Z;
  mf_Msg_timestamp : Z;
  mf_Data : list rowToFilter;
}.

Definition rowToFilter_zero : rowToFilter := RowToFilter 0 None None.

(** the inner loop of [populateDataFromGPB], over [keys] and [content] *)
Fixpoint populate_row (rtf : rowToFilter) (kcs : list TelemetryField)
    : rowToFilter * res unit :=
  match kcs with
  | [] => (rtf, Ok tt)
  | kc :: kcs' =>
      match tf_Fields kc with
      | [] => (rtf, Err (Errorf "message with no row, nothing to filter"))
      | fields =>
          if String.eqb (tf_Name kc) "keys" then
            match telemetryKvToSockDrawer fields with
            | Ok s => populate_row (RowToFilter (rtf_Timestamp rtf) s (rtf_Content rtf)) kcs'
            | Err e => (rtf, Err e)
            | Panic => (rtf, Panic)
            end
          else if String.eqb (tf_Name kc) "content" then
            match telemetryKvToSockDrawer fields with
            | Ok s => populate_row (RowToFilter (rtf_Timestamp rtf) (rtf_Keys rtf) s) kcs'
            | Err e => (rtf, Err e)
            | Panic => (rtf, Panic)
            end
          else populate_row rtf kcs'
      end
  end.

(** the outer loop: rows after the one in error keep their zero value *)
Fixpoint populate_rows (topfields : list TelemetryField)
    : list rowToFilter * res unit :=
  match topfields with
  | [] => ([], Ok tt)
  | t :: ts =>
      let '(row, r) := populate_row (RowToFilter (tf_Timestamp t) None None) (tf_Fields t) in
      match r with
      | Ok _ => let '(rows, r') := populate_rows ts in (row :: rows, r')
      | _ => (row :: replicate (length ts) rowToFilter_zero, r)
      end
  end.

Definition populateDataFromGPB (s : Telemetry) : msgToFilter * res unit :=
  let m := MsgToFilter (NodeIdStr s) (EncodingPath s) (SubscriptionIdStr s)
             (CollectionId s) (CollectionStartTime s) (CollectionEndTime s)
             (MsgTimestamp s) in
  match DataGpb s with
  | Some _ => (m [], Err (Errorf "No support for native gpb msgToFilter"))
  | None => let '(rows, r) := populate_rows (DataGpbkv s) in (m rows, r)
  end.

(** ** Rows for JSON *)

(** a [*json.RawMessage] is the marshalled text, or nil *)
Record rowToSerialise : Type := RowToSerialise {
  rts_Timestamp : Z;
  rts_Keys : option bytes;
  rts_Content : option bytes;
}.

Record msgToSerialise : Type := MsgToSerialise {
  ms_Source : string;
  ms_Telemetry : option bytes;
  ms_Rows : list rowToSerialise;
}.

(** Compiled models: [PM] is the type of decoded protobuf messages.  A decoder
    returns the message it was decoding into, and whether decoding failed; a
    path's keys have no message type for some models. *)
Record Mapping (PM : Type) : Type := MkMapping {
  decode_content : bytes -> PM * bool;
  decode_keys : option (bytes -> PM * bool);
}.
Arguments MkMapping {PM} decode_content decode_keys.
Arguments decode_content {PM} m.
Arguments decode_keys {PM} m.

Record gpbDecodeRow (PM : Type) : Type := GpbDecodeRow {
  gr_Timestamp : Z;
  gr_Keys : option PM;
  gr_Content : PM;
}.
Arguments GpbDecodeRow {PM} gr_Timestamp gr_Keys gr_Content.
Arguments gr_Timestamp {PM} g.
Arguments gr_Keys {PM} g.
Arguments gr_Content {PM} g.

(** Code outside the repository (protobuf, the model archive, [encoding/json]
    and the template engine) and the JSON printer of protobuf messages. *)
Class GpbEnv `{E : Env} := {
  ProtoMessage : Type;
  proto_Unmarshal_Telemetry : bytes -> res Telemetry;
  proto_Marshal_Telemetry : Telemetry -> res bytes;
  proto_Unmarshal_Pdt : bytes -> res PdtHeader;
  protoArchive : string -> option (Mapping ProtoMessage);
  json_Marshal_drawer : gmap string sdval -> res bytes;
  json_Marshal_hexdump : bytes -> res bytes;
  json_Marshal_msg : msgToSerialise -> res bytes;
  json_Encode_event : string -> option bytes -> rowToSerialise -> res bytes;
  MarshalToString_message : ProtoMessage -> res bytes;
  MarshalToString_Telemetry : Telemetry -> res bytes;
  template_Execute_msg : template -> msgToFilter -> res slice;
  basePathXlation : option (gmap string string);
}.

Section Codec.
Context `{G : GpbEnv}.

Record dataMsgGPB : Type := DataMsgGPB {
  gpb_original : slice;
  gpb_source : string;
  cachedDecode : Telemetry;
  cachedDecodeTbl : option (list (gpbDecodeRow ProtoMessage));
}.

Definition base_path_error (m : dataMsgGPB) (what : string) : meta :=
  Inc "codec_base_path_decode_error"
    [GPBCODEC; gpb_source m; EncodingPath (cachedDecode m); what].

(** *** The decoded table and its cache *)

(** one row, with the numbers of keys and contents that failed to decode *)
Definition decode_row (mapping : Mapping ProtoMessage) (row : TelemetryRowGPB)
    : gpbDecodeRow ProtoMessage * (nat * nat) :=
  let '(content, cerr) := decode_content mapping (row_Content row) in
  match decode_keys mapping with
  | Some dk =>
      let '(keys, kerr) := dk (row_Keys row) in
      (GpbDecodeRow (row_Timestamp row) (Some keys) content,
       (if kerr then 1 else 0, if cerr then 1 else 0))
  | None => (GpbDecodeRow (row_Timestamp row) None content,
             (0, if cerr then 1 else 0))
  end.

Fixpoint decode_rows (mapping : Mapping ProtoMessage) (rows : list TelemetryRowGPB)
    : list (gpbDecodeRow ProtoMessage) * (nat * nat) :=
  match rows with
  | [] => ([], (0, 0))
  | row :: rows' =>
      let '(r, (k, c)) := decode_row mapping row in
      let '(rs, (k', c')) := decode_rows mapping rows' in
      (r :: rs, (k + k', c + c'))
  end.

Definition getGPBDecodedTbl (m : dataMsgGPB)
    : dataMsgGPB * (list meta * option (list (gpbDecodeRow ProtoMessage))) :=
  match cachedDecodeTbl m with
  | Some tbl => (m, ([], Some tbl))
  | None =>
      match DataGpb (cachedDecode m) with
      | None => (m, ([], None))
      | Some compactGPBTable =>
          match protoArchive (EncodingPath (cachedDecode m)) with
          | None =>
              (m, ([base_path_error m "proto archive does not support path/version"], None))
          | Some mapping =>
              let '(rows, (skipKeys, skipContent)) := decode_rows mapping compactGPBTable in
              (DataMsgGPB (gpb_original m) (gpb_source m) (cachedDecode m) (Some rows),
               (if Nat.ltb 0 skipKeys || Nat.ltb 0 skipContent
                then [base_path_error m "partial decode"] else [],
                Some rows))
          end
      end
  end.

(** *** JSON rows

    The loops count what failed to marshal; [partial] is the counter they report. *)

Definition marshal_drawer (fields : list TelemetryField) : res (res bytes) :=
  match telemetryKvToSockDrawer fields with
  | Ok (Some s) => Ok (json_Marshal_drawer s)
  | Ok None => Ok (json_Marshal_drawer ∅)
  | Err e => Err e
  | Panic => Panic
  end.

(** the loop over [keys] and [content] of one top-level field *)
Fixpoint jsonify_kv_row (rts : rowToSerialise) (skipK skipC : nat)
    (kcs : list TelemetryField) : res (rowToSerialise * (nat * nat)) :=
  match kcs with
  | [] => Ok (rts, (skipK, skipC))
  | kc :: kcs' =>
      match tf_Fields kc with
      | [] => jsonify_kv_row rts skipK skipC kcs'
      | fields =>
          if String.eqb (tf_Name kc) "keys" then
            let! r := marshal_drawer fields in
            match r with
            | Ok keys => jsonify_kv_row
                (RowToSerialise (rts_Timestamp rts) (Some keys) (rts_Content rts))
                skipK skipC kcs'
            | Err _ => jsonify_kv_row rts (S skipK) skipC kcs'
            | Panic => Panic
            end
          else if String.eqb (tf_Name kc) "content" then
            let! r := marshal_drawer fields in
            match r with
            | Ok content => jsonify_kv_row
                (RowToSerialise (rts_Timestamp rts) (rts_Keys rts) (Some content))
                skipK skipC kcs'
            | Err _ => jsonify_kv_row rts skipK (S skipC) kcs'
            | Panic => Panic
            end
          else jsonify_kv_row rts skipK skipC kcs'
      end
  end.

Fixpoint jsonify_kv_rows (skipK skipC : nat) (tops : list TelemetryField)
    : res (list rowToSerialise * (nat * nat)) :=
  match tops with
  | [] => Ok ([], (skipK, skipC))
  | t :: ts =>
      let! r := jsonify_kv_row (RowToSerialise (tf_Timestamp t) None None)
                  skipK skipC (tf_Fields t) in
      let! rs := jsonify_kv_rows r.2.1 r.2.2 ts in
      Ok (r.1 :: rs.1, rs.2)
  end.

Definition partial_metas (m : dataMsgGPB) (skipKeys skipContent : nat) : list meta :=
  if Nat.ltb 0 skipKeys || Nat.ltb 0 skipContent
  then [base_path_error m "partial decode"] else [].

Definition codecGPBJSONifyDataGPBKV (m : dataMsgGPB)
    : res (list meta * list rowToSerialise) :=
  let! r := jsonify_kv_rows 0 0 (DataGpbkv (cachedDecode m)) in
  Ok (partial_metas m r.2.1 r.2.2, r.1).

(** a raw message, or one more that is skipped *)
Definition raw_of (r : res bytes) : res (option bytes * nat) :=
  match r with Ok t => Ok (Some t, 0) | Err _ => Ok (None, 1) | Panic => Panic end.

(** a hex dump stands in for content no model decodes *)
Definition hexdump_of (b : bytes) : res (option bytes * nat) :=
  match b with
  | [] => Ok (None, 0)
  | _ => raw_of (json_Marshal_hexdump b)
  end.

(** [Marshal called with nil] for absent keys *)
Definition marshal_keys (k : option ProtoMessage) : res bytes :=
  match k with
  | Some pm => MarshalToString_message pm
  | None => Err (Errorf "Marshal called with nil")
  end.

Definition hex_row (row : TelemetryRowGPB) : res (rowToSerialise * (nat * nat)) :=
  let! k := hexdump_of (row_Keys row) in
  let! c := hexdump_of (row_Content row) in
  Ok (RowToSerialise (row_Timestamp row) k.1 c.1, (k.2, c.2)).

Definition tbl_row (row : gpbDecodeRow ProtoMessage) : res (rowToSerialise * (nat * nat)) :=
  let! c := raw_of (MarshalToString_message (gr_Content row)) in
  let! k := raw_of (marshal_keys (gr_Keys row)) in
  Ok (RowToSerialise (gr_Timestamp row) k.1 c.1, (k.2, c.2)).

(** the loop over the rows, with the sums of what was skipped *)
Fixpoint jsonify_rows {R} (f : R -> res (rowToSerialise * (nat * nat))) (rows : list R)
    : res (list rowToSerialise * (nat * nat)) :=
  match rows with
  | [] => Ok ([], (0, 0))
  | row :: rows' =>
      let! r := f row in
      let! rs := jsonify_rows f rows' in
      Ok (r.1 :: rs.1, (r.2.1 + rs.2.1, r.2.2 + rs.2.2))
  end.

Definition codecGPBJSONifyDataGPB (m : dataMsgGPB)
    : dataMsgGPB * (list meta * res (list rowToSerialise)) :=
  let '(m', (ms, tbl)) := getGPBDecodedTbl m in
  let rows := match tbl with
              | None => match DataGpb (cachedDecode m') with
                        | Some raw => jsonify_rows hex_row raw
                        | None => Ok ([], (0, 0))
                        end
              | Some t => jsonify_rows tbl_row t
              end in
  (m', match rows with
       | Ok (rows, (sk, sc)) => (ms ++ partial_metas m' sk sc, Ok rows)
       | Err e => (ms, Err e)
       | Panic => (ms, Panic)
       end).

(** *** Byte streams *)

(** the array of events: [buffer] after the opening bracket *)
Fixpoint json_events (source : string) (telemetry : option bytes) (first : bool)
    (rows : list rowToSerialise) : res bytes :=
  match rows with
  | [] => Ok (bytes_of_string "]")
  | row :: rows' =>
      match json_Encode_event source telemetry row with
      | Ok ev =>
          let! rest := json_events source telemetry false rows' in
          Ok ((if first then [] else bytes_of_string ",") ++ ev ++ rest)
      | Err _ => Err (Errorf "Marshalling collected event content, [%+v][%+v]")
      | Panic => Panic
      end
  end.

(** serialisation of the collected rows: one document, or an array of events *)
Definition serialise (st : dataMsgStreamType) (s : msgToSerialise) : res slice :=
  match st with
  | dMStreamJSONEvents =>
      match ms_Rows s with
      | [] => Ok None
      | rows => let! evs := json_events (ms_Source s) (ms_Telemetry s) true rows in
                Ok (Some (bytes_of_string "[" ++ evs))
      end
  | _ =>
      match json_Marshal_msg s with
      | Ok b => Ok (Some b)
      | Err _ => Err (Errorf "Marshalling collected content, [%+v][%+v]")
      | Panic => Panic
      end
  end.

Definition produce_json (m : dataMsgGPB) (st : dataMsgStreamType)
    : list meta * res slice :=
  let finish (ms : list meta) (rows : list rowToSerialise) (copy : Telemetry) :=
    (ms, match MarshalToString_Telemetry copy with
         | Ok telemetryJSON =>
             serialise st (MsgToSerialise (gpb_source m) (Some telemetryJSON) rows)
         | Err e => Err e
         | Panic => Panic
         end) in
  match DataGpb (cachedDecode m) with
  | Some _ =>
      match codecGPBJSONifyDataGPB m with
      | (_, (ms, Ok rows)) => finish ms rows (without_gpb (cachedDecode m))
      | (_, (ms, Err e)) => (ms, Err e)
      | (_, (ms, Panic)) => (ms, Panic)
      end
  | None =>
      match codecGPBJSONifyDataGPBKV m with
      | Ok (ms, rows) => finish ms rows (without_gpbkv (cachedDecode m))
      | Err e => ([], Err e)
      | Panic => ([], Panic)
      end
  end.

Definition produce_template (m : dataMsgGPB) (ctx : option template) : res slice :=
  let '(msg, r) := populateDataFromGPB (cachedDecode m) in
  if is_panic r then Panic
  else match ctx with
       | Some parsedTemplate => template_Execute_msg parsedTemplate msg
       | None => Err (Errorf "GPB CODEC: parsed template missing")
       end.

Definition gpb_produceByteStream (m : dataMsgGPB) (spec : dataMsgStreamSpec _)
    : list meta * res slice :=
  match streamType spec with
  | dMStreamGPB | dMStreamMsgDefault => ([], Ok (gpb_original m))
  | dMStreamTemplate => ([], produce_template m (context spec))
  | dMStreamJSONEvents | dMStreamJSON => produce_json m (streamType spec)
  | _ => ([], Err (Errorf "GPB CODEC: reformat GPB msg to [%s] is not supported"))
  end.

#[export] Instance dataMsgGPB_DataMsg : DataMsg dataMsgGPB := {
  getDataMsgDescription m :=
    "GPB(common) Message [" +:+ gpb_source m +:+ "(" +:+ NodeIdStr (cachedDecode m)
    +:+ ")/" +:+ EncodingPath (cachedDecode m) +:+ " msg len: "
    +:+ pretty (slice_len (gpb_original m)) +:+ "]";
  produceByteStream := gpb_produceByteStream;
  getDataMsgStreamType _ := dMStreamGPB;
  getMetaDataPath m := Ok (EncodingPath (cachedDecode m));
  getMetaDataIdentifier m := Ok (gpb_source m);
  getMetaData m := MetaData (EncodingPath (cachedDecode m)) (gpb_source m);
}.

(** *** Decoding *)

Record codecGPB : Type := CodecGPB { cg_name : string; cg_type : encoding }.

Definition getNewCodecGPB (name : string) (e : encoding) : codecGPB := CodecGPB name e.

(** translation of the path through the operator's map, if any *)
Definition xlate_path (base_path : string) : option string :=
  match basePathXlation with
  | Some mapping => if str_empty base_path then None else mapping !! base_path
  | None => None
  end.

Definition codecGPBBlockAndTelemMsgToDataMsgs (p : codecGPB) (source : string)
    (nextBlock : slice) (telem : Telemetry)
    : list meta * res (option (list dataMsgGPB)) :=
  let base_path := EncodingPath telem in
  let telem' := match xlate_path base_path with
                | Some newPath => with_path telem newPath
                | None => telem
                end in
  ([Inc "codec_base_path_groups" [cg_name p; source; base_path]],
   Ok (Some [DataMsgGPB nextBlock source telem' None])).

Definition codecGPBBlockToDataMsgs (p : codecGPB) (source : string) (nextBlock : slice)
    : list meta * res (option (list dataMsgGPB)) :=
  match proto_Unmarshal_Telemetry (slice_bytes nextBlock) with
  | Ok telem => codecGPBBlockAndTelemMsgToDataMsgs p source nextBlock telem
  | Err e => ([], Err e)
  | Panic => ([], Panic)
  end.

(** the rows of the old tables, all under one path *)
Fixpoint pdt_tables (path : string) (tables : list PdtTable)
    : res (string * list TelemetryRowGPB) :=
  match tables with
  | [] => Ok (path, [])
  | table :: tables' =>
      if negb (str_empty path) && negb (String.eqb path (PolicyPath table))
      then Err (Errorf
             "different paths encoded in the same message (unsupported): %s, %s")
      else
        let! r := pdt_tables (if str_empty path then PolicyPath table else path) tables' in
        Ok (r.1, map (fun row => RowGPB 0 row row) (pdt_Row table) ++ r.2)
  end.

Definition pdt_target (old : PdtHeader) : res Telemetry :=
  let! r := pdt_tables "" (pdt_Tables old) in
  match r.2 with
  | [] => Err (Errorf "no content in PDT message: %s")
  | rows => Ok (MkTelemetry (pdt_Identifier old) (pdt_PolicyName old) r.1 0
                  (pdt_StartTime old) (pdt_StartTime old) [] (Some rows)
                  (pdt_EndTime old))
  end.

Definition codecGPBLegacyPDTBlockToDataMsgs (p : codecGPB) (source : string)
    (nextBlock : slice) : list meta * res (option (list dataMsgGPB)) :=
  match proto_Unmarshal_Pdt (slice_bytes nextBlock) with
  | Err e => ([], Err e)
  | Panic => ([], Panic)
  | Ok old =>
      match pdt_target old with
      | Err e => ([], Err e)
      | Panic => ([], Panic)
      | Ok target =>
          match proto_Marshal_Telemetry target with
          | Ok newContent =>
              codecGPBBlockAndTelemMsgToDataMsgs p source (Some newContent) target
          | Err _ => ([], Err (Errorf "failed to remarshall to new format: %v"))
          | Panic => ([], Panic)
          end
      end
  end.

Definition gpb_blockToDataMsgs (p : codecGPB) (source : option string)
    (nextBlock : slice) : list meta * res (option (list dataMsgGPB)) :=
  match source with
  | None => ([], Panic)
  | Some src =>
      let counted :=
        [Inc "codec_decoded_msgs" [cg_name p; src; encodingToName (cg_type p)];
         AddN "codec_decoded_bytes" [cg_name p; src; encodingToName (cg_type p)]
           (Z.of_nat (slice_len nextBlock))] in
      let '(ms, r) :=
        match cg_type p with
        | ENCODING_GPB => codecGPBBlockToDataMsgs p src nextBlock
        | ENCODING_GPB_COMPACT => codecGPBLegacyPDTBlockToDataMsgs p src nextBlock
        | _ => ([], Err (Errorf "ENCAP GPB: Product type for GPB parser not set"))
        end in
      (counted ++ ms, r)
  end.

Definition gpb_dataMsgToBlock : res bytes :=
  Err (Errorf "CODEC GPB: only decoding is supported currently").

End Codec.

(** ** Theorems: the sock drawer *)

(** The values a list of fields gives a name, in order. *)
Definition vals_of (l : list (string * sdval)) (n : string) : list sdval :=
  map snd (filter (fun f => f.1 = n) l).

Definition non_nil (l : list sdval) : list sdval :=
  filter (fun v => sd_nil v = false) l.

(** no field name is another name with the edit suffix *)
Definition plain_name (n : string) : Prop := forall m, n <> edit_name m.

(** what the drawer holds of the fields [l], name by name *)
Definition drawer_spec (l : list (string * sdval)) (d : drawer) : Prop :=
  forall n, plain_name n ->
    dr_s d !! n = match vals_of l n with [v] => Some v | _ => None end
    /\ dr_s d !! edit_name n =
         match vals_of l n with
         | v1 :: v2 :: r => Some (SDList (v1 :: non_nil (v2 :: r)))
         | _ => None
         end
    /\ (n ∈ dr_placed d <-> 2 <= length (vals_of l n)).

Lemma str_append_inj_r s : forall a b, a +:+ s = b +:+ s -> a = b.
Proof.
  assert (forall a, String.length (a +:+ s) = String.length a + String.length s) as Hl
    by (intros; apply str_length_app).
  induction a as [|c a IH]; intros [|c' b] H; try done.
  - apply (f_equal String.length) in H. rewrite !Hl in H. simpl in H. lia.
  - apply (f_equal String.length) in H. rewrite !Hl in H. simpl in H. lia.
  - simpl in H. injection H as -> H. f_equal. by apply IH.
Qed.

Lemma edit_name_inj a b : edit_name a = edit_name b -> a = b.
Proof. apply str_append_inj_r. Qed.

Lemma vals_of_app l1 l2 n : vals_of (l1 ++ l2) n = vals_of l1 n ++ vals_of l2 n.
Proof. unfold vals_of. by rewrite list.filter_app, map_app. Qed.

Lemma vals_of_one k v n : vals_of [(k, v)] n = if decide (k = n) then [v] else [].
Proof. unfold vals_of. rewrite filter_cons. simpl. by case_decide. Qed.

Lemma non_nil_snoc l v :
  non_nil (l ++ [v]) = non_nil l ++ (if sd_nil v then [] else [v]).
Proof.
  unfold non_nil. rewrite list.filter_app, filter_cons, filter_nil.
  by destruct (sd_nil v).
Qed.

Lemma drawer_spec_empty : drawer_spec [] drawer_empty.
Proof.
  intros n _. simpl. rewrite !lookup_empty. unfold vals_of. simpl.
  split; [done|]. split; [done|]. split; [set_solver|lia].
Qed.

(** a later occurrence of a name already in place *)
Lemma drawer_step_placed d l k v :
  drawer_spec l d -> plain_name k -> 2 <= length (vals_of l k) ->
  exists d', drawer_step d k v = Ok d' /\ drawer_spec (l ++ [(k, v)]) d'.
Proof.
  intros Hd Hk Hlen. destruct (Hd k Hk) as (Hs & He & Hp).
  destruct (vals_of l k) as [|v1 [|v2 r]] eqn:Ev; [simpl in Hlen; lia..|].
  assert (k ∈ dr_placed d) as Hin by (apply Hp; done).
  unfold drawer_step. rewrite Hs, bool_decide_eq_true_2 by done.
  assert (forall s, (forall n, n <> edit_name k -> s !! n = dr_s d !! n) ->
    s !! edit_name k = Some (SDList (v1 :: non_nil ((v2 :: r) ++ [v]))) ->
    drawer_spec (l ++ [(k, v)]) (MkDrawer s (dr_placed d))) as Hok.
  { intros s Hother Hsk n Hn. destruct (Hd n Hn) as (Hns & Hne & Hnp).
    rewrite vals_of_app, vals_of_one. simpl. case_decide as Ekn.
    - subst n. rewrite Ev, Hother by (by apply Hk). rewrite Hs, Hsk. simpl.
      repeat split; [intros _; lia|done].
    - rewrite app_nil_r, !Hother; [done| |by apply Hn].
      intros ?%edit_name_inj. done. }
  rewrite non_nil_snoc in Hok.
  destruct (sd_nil v).
  - exists d. split; [done|]. destruct d as [s pl]. simpl in *. apply Hok; [done|].
    by rewrite app_nil_r.
  - unfold drawer_append. rewrite He. simpl. eexists. split; [done|].
    apply Hok; [intros n ?; by rewrite lookup_insert_ne|].
    by rewrite lookup_insert_eq.
Qed.

(** the second occurrence: the name is moved to a list *)
Lemma drawer_step_second d l k v v1 :
  drawer_spec l d -> plain_name k -> vals_of l k = [v1] ->
  exists d', drawer_step d k v = Ok d' /\ drawer_spec (l ++ [(k, v)]) d'.
Proof.
  intros Hd Hk Ev. destruct (Hd k Hk) as (Hs & He & Hp). rewrite Ev in Hs, He, Hp.
  assert (k ∉ dr_placed d) as Hni by (rewrite Hp; simpl; lia).
  unfold drawer_step. rewrite Hs, bool_decide_eq_false_2 by done.
  unfold drawer_append. rewrite lookup_insert_eq. cbn [res_bind].
  rewrite insert_insert_eq. simpl app.
  assert (forall s, (forall n, n <> k -> n <> edit_name k -> s !! n = dr_s d !! n) ->
    s !! k = None -> s !! edit_name k = Some (SDList (v1 :: non_nil [v])) ->
    drawer_spec (l ++ [(k, v)]) (MkDrawer s ({[k]} ∪ dr_placed d))) as Hok.
  { intros s Hother Hsk Hse n Hn. destruct (Hd n Hn) as (Hns & Hne & Hnp).
    rewrite vals_of_app, vals_of_one. simpl. case_decide as Ekn.
    - subst n. rewrite Ev, Hsk, Hse. simpl. repeat split; [intros _; lia|set_solver].
    - rewrite app_nil_r, !Hother.
      + split; [done|]. split; [done|]. rewrite <- Hnp. set_solver.
      + by apply not_eq_sym, Hk.
      + intros ?%edit_name_inj. done.
      + done.
      + by apply Hn. }
  destruct (sd_nil v) eqn:Enil.
  - eexists. split; [done|]. apply Hok.
    + intros n ??. by rewrite lookup_delete_ne, lookup_insert_ne.
    + apply lookup_delete_eq.
    + rewrite lookup_delete_ne by (by apply Hk).
      rewrite lookup_insert_eq. unfold non_nil. rewrite filter_cons, Enil. done.
  - rewrite lookup_delete_ne by (by apply Hk). rewrite lookup_insert_eq. cbn [res_bind].
    eexists. split; [done|]. apply Hok.
    + intros n ??. by rewrite lookup_insert_ne, lookup_delete_ne, lookup_insert_ne.
    + rewrite lookup_insert_ne by (by apply not_eq_sym, Hk). apply lookup_delete_eq.
    + rewrite lookup_insert_eq. unfold non_nil. rewrite filter_cons, Enil. done.
Qed.

(** the first occurrence *)
Lemma drawer_step_first d l k v :
  drawer_spec l d -> plain_name k -> vals_of l k = [] ->
  exists d', drawer_step d k v = Ok d' /\ drawer_spec (l ++ [(k, v)]) d'.
Proof.
  intros Hd Hk Ev. destruct (Hd k Hk) as (Hs & He & Hp). rewrite Ev in Hs, He, Hp.
  assert (k ∉ dr_placed d) as Hni by (rewrite Hp; simpl; lia).
  unfold drawer_step. rewrite Hs, bool_decide_eq_false_2 by done.
  eexists. split; [done|]. intros n Hn. destruct (Hd n Hn) as (Hns & Hne & Hnp).
  simpl. rewrite vals_of_app, vals_of_one.
  rewrite (lookup_insert_ne _ k (edit_name n)) by (apply Hk).
  case_decide as Ekn.
  - subst n. rewrite lookup_insert_eq, Ev. simpl. repeat split; auto; [by intros ?|lia].
  - by rewrite lookup_insert_ne, app_nil_r by done.
Qed.

Lemma drawer_loop_spec fs : forall d l,
  drawer_spec l d -> Forall (fun f => plain_name f.1) fs ->
  exists d', drawer_loop d (map (fun f => (f.1, Ok f.2)) fs) = Ok d'
             /\ drawer_spec (l ++ fs) d'.
Proof.
  induction fs as [|[k v] fs IH]; intros d l Hd Hf; simpl.
  { rewrite app_nil_r. eauto. }
  inversion Hf as [|? ? Hk Hfs]; subst. simpl in Hk.
  assert (exists d', drawer_step d k v = Ok d' /\ drawer_spec (l ++ [(k, v)]) d')
    as (d' & -> & Hd').
  { destruct (vals_of l k) as [|v1 [|v2 r]] eqn:Ev.
    - by apply drawer_step_first.
    - by eapply drawer_step_second.
    - apply drawer_step_placed; [done..|]. rewrite Ev. simpl. lia. }
  simpl. destruct (IH d' (l ++ [(k, v)]) Hd' Hfs) as (d'' & H1 & H2).
  exists d''. split; [done|]. by rewrite <- app_assoc in H2.
Qed.

(** the keys of a drawer are names of fields, or these with the suffix *)
Definition keys_ok (s : gmap string sdval) : Prop :=
  forall q x, s !! q = Some x -> exists n, plain_name n /\ (q = n \/ q = edit_name n).

Lemma keys_ok_insert s k n v :
  plain_name n -> k = n \/ k = edit_name n -> keys_ok s -> keys_ok (<[k := v]> s).
Proof. intros Hn Hk Hs q x [[<- _]|[_ Hq]]%lookup_insert_Some; eauto. Qed.

Lemma keys_ok_append s n v s' :
  plain_name n -> keys_ok s -> drawer_append s (edit_name n) v = Ok s' -> keys_ok s'.
Proof.
  intros Hn Hs. unfold drawer_append. repeat case_match; intros [= <-].
  by apply (keys_ok_insert _ _ n); auto.
Qed.

Lemma drawer_step_keys d k v d' :
  plain_name k -> keys_ok (dr_s d) -> drawer_step d k v = Ok d' -> keys_ok (dr_s d').
Proof.
  intros Hk Hd. unfold drawer_step.
  assert (forall s, keys_ok s -> keys_ok (delete k s)) as Hdel
    by (intros s Hs q x [_ Hq]%lookup_delete_Some; eauto).
  assert (forall s pl, keys_ok s ->
    (if sd_nil v then Ok (MkDrawer s pl)
     else let! s := drawer_append s (edit_name k) v in Ok (MkDrawer s pl)) = Ok d' ->
    keys_ok (dr_s d')) as Happ.
  { intros s pl Hs. destruct (sd_nil v); [by intros [= <-]|].
    destruct (drawer_append s (edit_name k) v) as [s'| |] eqn:E; [|done..]. intros [= <-]. simpl.
    by eapply keys_ok_append. }
  destruct (dr_s d !! k) as [ex|], (bool_decide (k ∈ dr_placed d)).
  - destruct d as [s pl]. by apply Happ.
  - destruct (drawer_append _ _ ex) as [s'| |] eqn:E; cbn [res_bind]; [|done..].
    apply Happ, Hdel. eapply keys_ok_append; [done| |done].
    by apply (keys_ok_insert _ _ k); auto.
  - destruct d as [s pl]. by apply Happ.
  - intros [= <-]. simpl. by apply (keys_ok_insert _ _ k); auto.
Qed.

Lemma drawer_loop_keys fs : forall d d',
  Forall (fun f => plain_name f.1) fs -> keys_ok (dr_s d) ->
  drawer_loop d (map (fun f => (f.1, Ok f.2)) fs) = Ok d' -> keys_ok (dr_s d').
Proof.
  induction fs as [|[k v] fs IH]; intros d d' HF Hd; simpl; [by intros [= <-]|].
  apply list.Forall_cons in HF as [Hk HF]. destruct (drawer_step d k v) eqn:E; [|done..].
  eapply IH; [done|]. by eapply drawer_step_keys.
Qed.

(** *** Specification: the drawer of a list of fields

    A name met once has its value; a name met again has, under the name with the suffix, the
    list of its values, without the later ones that are nil. *)
Definition drawer_entry (fs : list (string * sdval)) (n : string) : list (string * sdval) :=
  match vals_of fs n with
  | [] => []
  | [v] => [(n, v)]
  | v1 :: rest => [(edit_name n, SDList (v1 :: non_nil rest))]
  end.

Definition drawer_of (fs : list (string * sdval)) : gmap string sdval :=
  list_to_map (flat_map (drawer_entry fs) (remove_dups (map fst fs))).

Fixpoint sd_of (field : TelemetryField) : sdval :=
  match field with
  | TField _ _ _ [] => SDVal (extractGPBKVNativeTypeFromOneof field false)
  | TField _ _ _ children =>
      SDDrawer (drawer_of (map (fun f => (tf_Name f, sd_of f)) children))
  end.

(** no name in a tree of fields ends in the suffix *)
Fixpoint names_plain (field : TelemetryField) : Prop :=
  let '(TField _ n _ children) := field in
  plain_name n /\ foldr (fun f P => names_plain f /\ P) True children.

Lemma vals_of_name fs n : vals_of fs n <> [] -> n ∈ map fst fs.
Proof.
  unfold vals_of. intros H. apply list_elem_of_fmap.
  destruct (filter _ fs) as [|f l] eqn:E; [done|]. exists f.
  assert (f ∈ filter (fun f => f.1 = n) fs) as [? ?]%list_elem_of_filter by (rewrite E; left).
  done.
Qed.

Lemma drawer_entry_key fs n q x :
  (q, x) ∈ drawer_entry fs n -> q = n \/ q = edit_name n.
Proof.
  unfold drawer_entry. destruct (vals_of fs n) as [|v1 [|v2 r]];
    [by intros ?%not_elem_of_nil|..]; intros [= -> _]%list_elem_of_singleton; auto.
Qed.

Lemma drawer_entries_nodup fs ns :
  NoDup ns -> Forall plain_name ns -> NoDup (map fst (flat_map (drawer_entry fs) ns)).
Proof.
  induction 1 as [|n ns Hn Hnd IH]; intros HF; simpl; [constructor|].
  apply list.Forall_cons in HF as [Hp HF]. rewrite map_app. apply list.NoDup_app. split_and!; [| |auto].
  - unfold drawer_entry. destruct (vals_of fs n) as [|v1 [|v2 r]]; repeat constructor; set_solver.
  - intros q ([q1 x] & -> & Hq)%list_elem_of_fmap ([q2 y] & E & (m & Hm & Hy)%elem_of_flat_map)%list_elem_of_fmap.
    simpl in E. subst q2. apply drawer_entry_key in Hq, Hy.
    rewrite list.Forall_forall in HF. specialize (HF m Hm). apply Hn.
    destruct Hq as [-> | ->], Hy as [E|E].
    + by subst.
    + by apply Hp in E.
    + by symmetry in E; apply HF in E.
    + by apply edit_name_inj in E as ->.
Qed.

Lemma drawer_of_lookup fs q x :
  Forall (fun f => plain_name f.1) fs ->
  drawer_of fs !! q = Some x <-> exists n, (q, x) ∈ drawer_entry fs n /\ plain_name n.
Proof.
  intros HF. assert (Forall plain_name (remove_dups (map fst fs))) as Hp.
  { apply list.Forall_forall. intros n (f & -> & Hf)%elem_of_remove_dups%list_elem_of_fmap.
    rewrite list.Forall_forall in HF. by apply HF. }
  unfold drawer_of. rewrite <- elem_of_list_to_map
    by (apply drawer_entries_nodup; [apply NoDup_remove_dups|done]).
  rewrite elem_of_flat_map. split.
  - intros (n & Hn & Hx). exists n. split; [done|]. rewrite list.Forall_forall in Hp. by apply Hp.
  - intros (n & Hx & _). exists n. split; [|done]. apply elem_of_remove_dups, vals_of_name.
    intros E. unfold drawer_entry in Hx. rewrite E in Hx. by apply not_elem_of_nil in Hx.
Qed.

Lemma drawer_spec_of fs d :
  Forall (fun f => plain_name f.1) fs -> drawer_spec fs d -> keys_ok (dr_s d) -> dr_s d = drawer_of fs.
Proof.
  intros HF Hd Hk. apply map_eq. intros q. apply option_eq. intros x.
  rewrite drawer_of_lookup by done. split.
  - intros Hx. destruct (Hk q x Hx) as (n & Hn & Hq). exists n. split; [|done].
    destruct (Hd n Hn) as (H1 & H2 & _). unfold drawer_entry.
    destruct Hq as [->| ->]; rewrite Hx in *; destruct (vals_of fs n) as [|v1 [|v2 r]]; simplify_eq;
      by apply list_elem_of_singleton.
  - intros (n & Hx & Hn). destruct (Hd n Hn) as (H1 & H2 & _). unfold drawer_entry in Hx.
    destruct (vals_of fs n) as [|v1 [|v2 r]]; [by apply not_elem_of_nil in Hx|..];
      by apply list_elem_of_singleton in Hx as [= -> ->].
Qed.

Lemma drawer_loop_of fs :
  Forall (fun f => plain_name f.1) fs ->
  exists d, drawer_loop drawer_empty (map (fun f => (f.1, Ok f.2)) fs) = Ok d /\ dr_s d = drawer_of fs.
Proof.
  intros HF. destruct (drawer_loop_spec fs _ _ drawer_spec_empty HF) as (d & Hl & Hd).
  exists d. split; [done|]. apply drawer_spec_of; [done..|].
  eapply drawer_loop_keys; [done| |done]. intros q x. intros Hq. simpl in Hq. by rewrite lookup_empty in Hq.
Qed.

(** fields whose values are known *)
Lemma drawer_loop_fields fs :
  Forall (fun f => plain_name (tf_Name f) /\ fieldVal f = Ok (sd_of f)) fs ->
  exists d, drawer_loop drawer_empty (map (fun f => (tf_Name f, fieldVal f)) fs) = Ok d
  /\ dr_s d = drawer_of (map (fun f => (tf_Name f, sd_of f)) fs).
Proof.
  intros HF. destruct (drawer_loop_of (map (fun f => (tf_Name f, sd_of f)) fs)) as (d & Hl & Hd).
  { apply Forall_fmap. eapply list.Forall_impl; [exact HF|]. by intros f []. }
  exists d. split; [|done]. rewrite <- Hl, map_map. f_equal. apply map_ext_Forall.
  eapply list.Forall_impl; [exact HF|]. by intros f [_ ->].
Qed.

Lemma fieldVal_of f : names_plain f -> fieldVal f = Ok (sd_of f).
Proof.
  revert f. fix IH 1. intros [ts n v children] [_ Hc].
  assert (Forall (fun f => plain_name (tf_Name f) /\ fieldVal f = Ok (sd_of f)) children) as HF.
  { induction children as [|c children IHc]; [constructor|]. destruct Hc as [Hc1 Hc2].
    constructor; [|by apply IHc]. split; [by destruct c, Hc1|by apply IH]. }
  destruct children as [|c children]; [done|].
  destruct (drawer_loop_fields _ HF) as (d & Hl & Hd). cbn [fieldVal]. 
  change (map _ (c :: children)) with (map (fun f => (tf_Name f, fieldVal f)) (c :: children)).
  rewrite Hl. cbn [res_bind]. by rewrite Hd.
Qed.

(** C35: telemetry fields become a drawer.  When no name of a field, at any depth, ends in the
    edit suffix, the conversion does not fail, and the result is exactly the drawer that holds, for each
    name the fields give once, its value; for each name they repeat, under the name with the
    suffix, the list of its first value and of those of the later ones that are not nil; and
    nothing else; a value being the drawer of its children where there are any. *)
Theorem sockDrawer_spec (item : list TelemetryField) :
  item <> [] -> Forall names_plain item ->
  telemetryKvToSockDrawer item
  = Ok (Some (drawer_of (map (fun f => (tf_Name f, sd_of f)) item))).
Proof.
  intros Hne HF. destruct (drawer_loop_fields item) as (d & Hl & Hd).
  { eapply list.Forall_impl; [exact HF|]. intros f Hf. split; [|by apply fieldVal_of].
    by destruct f, Hf. }
  destruct item as [|f item]; [done|]. cbn [telemetryKvToSockDrawer].
  rewrite Hl. cbn [res_bind]. by rewrite Hd.
Qed.

(** a decidable sufficient condition for the names of a message *)
Lemma plain_name_short n :
  String.length n < String.length CODEC_GPB_PIPELINE_EDIT_SUFFIX -> plain_name n.
Proof.
  intros H m ->. unfold edit_name in H. rewrite str_length_app in H. lia.
Qed.

Definition leaf (name : string) (z : Z) : TelemetryField :=
  TField 0 name (Some (Uint32Value z)) [].

Lemma sockDrawer_spec_witness :
  let item := [leaf "a" 1; TField 0 "b" None []; leaf "a" 2; TField 0 "c" None [leaf "a" 3]] in
  telemetryKvToSockDrawer item = Ok (Some (drawer_of (map (fun f => (tf_Name f, sd_of f)) item)))
  /\ drawer_of (map (fun f => (tf_Name f, sd_of f)) item)
     = list_to_map [("a_PIPELINE_EDIT", SDList [SDVal (GU32 1); SDVal (GU32 2)]); ("b", SDVal GNil);
                    ("c", SDDrawer {[ "a" := SDVal (GU32 3) ]})].
Proof.
  intros item. split; [|vm_compute; reflexivity].
  apply sockDrawer_spec; [done|].
  repeat constructor; apply plain_name_short; simpl; lia.
Defined.

(** A field whose name is another one's with the edit suffix can stop the
    collector.  The conversion of these four leaves panics: the third moves
    the list kept for the first two away, and the fourth asserts that it is
    still there. *)
Lemma sockDrawer_suffix_panics (z1 z2 z3 z4 : Z) :
  telemetryKvToSockDrawer
    [leaf "a" z1; leaf "a" z2; leaf "a_PIPELINE_EDIT" z3; leaf "a" z4] = Panic.
Proof. vm_compute. reflexivity. Qed.

(** ** The legacy wire format *)

(** A legacy PDT message becomes a compact GPB table.  It is accepted when it
    carries at least one row and all its tables have one non-empty path; the
    message then has that path, and one row per row of the tables, in order,
    with the row's bytes both as keys and as content. *)
Lemma pdt_target_spec old path :
  path <> "" -> Forall (fun t => PolicyPath t = path) (pdt_Tables old) ->
  flat_map pdt_Row (pdt_Tables old) <> [] ->
  exists t, pdt_target old = Ok t /\ EncodingPath t = path
  /\ NodeIdStr t = pdt_Identifier old /\ MsgTimestamp t = pdt_StartTime old
  /\ DataGpb t = Some (map (fun r => RowGPB 0 r r) (flat_map pdt_Row (pdt_Tables old))).
Proof.
  intros Hpath HF Hrows.
  assert (forall ts q, Forall (fun t => PolicyPath t = path) ts -> q = path ->
    pdt_tables q ts = Ok (path, map (fun r => RowGPB 0 r r) (flat_map pdt_Row ts))) as Htail.
  { induction ts as [|t ts IH]; intros q Hts ->; [done|]. inversion Hts; subst. simpl.
    rewrite String.eqb_refl, andb_false_r. rewrite map_app.
    destruct (PolicyPath t) eqn:Ep; [done|]. simpl. by rewrite IH. }
  unfold pdt_target. destruct (pdt_Tables old) as [|t ts] eqn:Et; [done|].
  inversion HF; subst. simpl pdt_tables. rewrite Htail by done. simpl.
  simpl in Hrows. rewrite <- map_app.
  destruct (pdt_Row t ++ flat_map pdt_Row ts) eqn:Er; [done|].
  eexists. split; [reflexivity|]. simpl. auto.
Qed.
