(* ===== verification/Codec.v ===== *)
(** * The JSON codec and the codec factory ([codec_json.go], [codec.go])

    JSON messages, the codecs the factory [getCodec] produces, and the proof
    that they implement the interface [Codec] the transports are verified against. *)
From S2P Require Import Prelude Message EncapST Gpb.

Section Codecs.
Context `{G : GpbEnv}.

(** ** JSON messages *)

Record dataMsgJSON : Type := DataMsgJSON {
  json_original : slice;
  json_source : string;
}.

Definition json_produceByteStream (m : dataMsgJSON) (streamSpec : dataMsgStreamSpec _)
    : list meta * res slice :=
  match streamType streamSpec with
  | dMStreamJSON | dMStreamMsgDefault => ([], Ok (json_original m))
  | _ => ([], Err (Errorf "JSON CODEC: reformat msg to [%s] is not supported"))
  end.

Definition json_produceMetrics : res unit :=
  Err (Errorf "JSON CODEC: metric extraction unsupported").

#[export] Instance dataMsgJSON_DataMsg : DataMsg dataMsgJSON := {
  getDataMsgDescription m :=
    "JSON message [" +:+ json_source m +:+ " msg len "
    +:+ pretty (slice_len (json_original m)) +:+ "]";
  produceByteStream := json_produceByteStream;
  getDataMsgStreamType _ := dMStreamJSON;
  getMetaDataPath _ := Err (Errorf "JSON CODEC: path extraction is not supported");
  getMetaDataIdentifier m := Ok (json_source m);
  getMetaData m := MetaData "unsupported" (json_source m);
}.

Record codecJSON : Type := CodecJSON { cj_name : string }.

Definition getNewCodecJSON (name : string) : codecJSON := CodecJSON name.

Definition json_dataMsgToBlock : res bytes :=
  Err (Errorf "CODEC JSON: only decoding is supported currently").

Definition json_blockToDataMsgs (p : codecJSON) (source : option string)
    (nextBlock : slice) : list meta * res (option (list dataMsgJSON)) :=
  match source with
  | None => ([], Panic)
  | Some src =>
      ([Inc "codec_decoded_msgs" [cj_name p; src; encodingToName ENCODING_JSON];
        AddN "codec_decoded_bytes" [cj_name p; src; encodingToName ENCODING_JSON]
          (Z.of_nat (slice_len nextBlock))],
       Ok (Some [DataMsgJSON nextBlock src]))
  end.

(** ** The factory *)

Inductive codec : Type :=
| CGPB (p : codecGPB)
| CJSON (p : codecJSON).

Inductive dataMsg : Type :=
| DMsgGPB (m : dataMsgGPB)
| DMsgJSON (m : dataMsgJSON).

Definition getCodec_impl (name : string) (e : encoding) : res codec :=
  match e with
  | ENCODING_GPB_COMPACT | ENCODING_GPB_KV | ENCODING_GPB =>
      Ok (CGPB (getNewCodecGPB name e))
  | ENCODING_JSON => Ok (CJSON (getNewCodecJSON name))
  | _ => Err (Errorf "CODEC: codec unsupported")
  end.

Definition res_map_msgs {A B} (f : A -> B)
    (r : list meta * res (option (list A))) : list meta * res (option (list B)) :=
  (r.1, let! ms := r.2 in Ok (map f <$> ms)).

Definition blockToDataMsgs_impl (c : codec) (source : option string) (b : slice)
    : list meta * res (option (list dataMsg)) :=
  match c with
  | CGPB p => res_map_msgs DMsgGPB (gpb_blockToDataMsgs p source b)
  | CJSON p => res_map_msgs DMsgJSON (json_blockToDataMsgs p source b)
  end.

#[export] Instance codec_Codec : Codec codec dataMsg := {
  getCodec := getCodec_impl;
  blockToDataMsgs := blockToDataMsgs_impl;
}.

#[export] Instance dataMsg_DataMsg : DataMsg dataMsg := {
  getDataMsgDescription m := match m with
    | DMsgGPB m => getDataMsgDescription m | DMsgJSON m => getDataMsgDescription m end;
  produceByteStream m := match m with
    | DMsgGPB m => produceByteStream m | DMsgJSON m => produceByteStream m end;
  getDataMsgStreamType m := match m with
    | DMsgGPB m => getDataMsgStreamType m | DMsgJSON m => getDataMsgStreamType m end;
  getMetaDataPath m := match m with
    | DMsgGPB m => getMetaDataPath m | DMsgJSON m => getMetaDataPath m end;
  getMetaDataIdentifier m := match m with
    | DMsgGPB m => getMetaDataIdentifier m | DMsgJSON m => getMetaDataIdentifier m end;
  getMetaData m := match m with
    | DMsgGPB m => getMetaData m | DMsgJSON m => getMetaData m end;
}.

(** The protobuf library returns its errors. *)
Class GpbEnvLaws : Prop := {
  unmarshal_no_panic : forall b, is_panic (proto_Unmarshal_Telemetry b) = false;
  unmarshal_pdt_no_panic : forall b, is_panic (proto_Unmarshal_Pdt b) = false;
  marshal_no_panic : forall t, is_panic (proto_Marshal_Telemetry t) = false;
}.

(** ** Theorems *)

Lemma pdt_tables_no_panic tables : forall path, is_panic (pdt_tables path tables) = false.
Proof.
  induction tables as [|t ts IH]; intros path; simpl; [done|].
  case_match; [done|]. apply res_bind_not_panic; [apply IH|done].
Qed.

Lemma pdt_target_no_panic old : is_panic (pdt_target old) = false.
Proof.
  unfold pdt_target. apply res_bind_not_panic; [apply pdt_tables_no_panic|].
  intros [path rows] _. by destruct rows.
Qed.

Lemma gpb_block_no_panic `{!GpbEnvLaws} p src b :
  is_panic (gpb_blockToDataMsgs p (Some src) b).2 = false.
Proof.
  unfold gpb_blockToDataMsgs. destruct (cg_type p); try done;
    unfold codecGPBLegacyPDTBlockToDataMsgs, codecGPBBlockToDataMsgs.
  - pose proof (unmarshal_pdt_no_panic (slice_bytes b)).
    destruct (proto_Unmarshal_Pdt _) as [old| |]; [|done..].
    pose proof (pdt_target_no_panic old). destruct (pdt_target old) as [t| |]; [|done..].
    pose proof (marshal_no_panic t). by destruct (proto_Marshal_Telemetry t).
  - pose proof (unmarshal_no_panic (slice_bytes b)).
    by destruct (proto_Unmarshal_Telemetry _).
Qed.

Lemma gpb_block_one p src b r :
  (gpb_blockToDataMsgs p src b).2 = Ok r -> exists m, r = Some [m].
Proof.
  unfold gpb_blockToDataMsgs, codecGPBLegacyPDTBlockToDataMsgs, codecGPBBlockToDataMsgs,
    codecGPBBlockAndTelemMsgToDataMsgs.
  intros H. repeat (case_match; simplify_eq/=; eauto).
Qed.

#[export] Instance codec_CodecLaws `{!GpbEnvLaws} : CodecLaws codec dataMsg.
Proof.
  split.
  - intros name e He. unfold codec_support in He.
    rewrite !elem_of_cons, elem_of_nil in He. by destruct_or? He; subst.
  - intros c src b. destruct c; simpl; [|done]. apply res_bind_not_panic; [|done].
    apply gpb_block_no_panic.
  - intros c src b r. destruct c; simpl.
    + intros (x & Hx & [= <-])%res_bind_ok. apply gpb_block_one in Hx as [? ->]. eauto.
    + destruct src; [|done]. simpl. intros [= <-]. eauto.
Qed.

#[export] Instance dataMsg_DataMsgLaws : DataMsgLaws dataMsg.
Proof. split. by intros []. Qed.

(** JSON passes through.  What the JSON codec makes of a block is one
    message, which renders to the block itself, byte for byte, as JSON and as its
    native stream, refuses every other rendering, and identifies its producer. *)
Lemma json_passthrough p src b :
  exists ms m, json_blockToDataMsgs p (Some src) b = (ms, Ok (Some [m]))
  /\ getMetaDataIdentifier m = Ok src
  /\ forall spec, (produceByteStream m spec).2 =
       match streamType spec with
       | dMStreamJSON | dMStreamMsgDefault => Ok b
       | _ => Err (Errorf "JSON CODEC: reformat msg to [%s] is not supported")
       end.
Proof.
  eexists _, _. split; [reflexivity|]. split; [done|].
  intros spec. simpl. unfold json_produceByteStream. by destruct (streamType spec).
Qed.

(** The codec for GPB K/V encapsulation decodes nothing.  Although
    [codec_support] lists its encoding as received, every block given to it is
    counted as decoded and then refused. *)
Lemma gpbkv_codec_refuses name src b :
  exists c ms, getCodec (Codec := codec_Codec) name ENCODING_GPB_KV = Ok c
  /\ blockToDataMsgs c (Some src) b
     = (ms, Err (Errorf "ENCAP GPB: Product type for GPB parser not set"))
  /\ Inc "codec_decoded_msgs" [name; src; "gpbkv"] ∈ ms.
Proof.
  eexists _, _. split; [reflexivity|]. split; [reflexivity|]. simpl. set_solver.
Qed.

End Codecs.
