(* ===== verification/Tcp.v ===== *)
(** * The TCP input ([xport_tcp.go])

    A connection handler reads from the socket what the parser asks for next, feeds it
    to the parser, and sends every message to every output.  The handler is a
    function of the bytes the peer sends; the two-state parser is proved to
    refine a reference reader of whole frames. *)
From S2P Require Import Prelude Message EncapST.

(** why a connection handler returned *)
Inductive conn_end : Type :=
| EndParser (e : goerr)    (** no parser, or no buffer to read into *)
| EndRead (e : goerr)      (** the read failed *)
| EndBlock (e : goerr)     (** the block was refused *)
| EndCancelled
| EndPanic.

#[export] Instance conn_end_eq_dec : EqDecision conn_end.
Proof. solve_decision. Defined.

Section Connection.
Context {C M : Type} `{K : Codec C M}.

(** the sends of [for msg in msgs { for dataChan in dataChans { dataChan <- msg }}]
    on [nch] channels *)
Definition spray (nch : nat) (msgs : list M) : list (nat * M) :=
  flat_map (fun m => map (fun i => (i, m)) (seq 0 nch)) msgs.

(** What a handler did: the counters it bumped, the sends it made, and why
    it returned ([None]: not within the fuel). *)
Record conn_run : Type := ConnRun {
  cr_metas : list meta;
  cr_sends : list (nat * M);
  cr_end : option conn_end;
}.

Definition run_stop (e : conn_end) : conn_run := ConnRun [] [] (Some e).
Definition run_then (ms : list meta) (sends : list (nat * M)) (r : conn_run) : conn_run :=
  ConnRun (ms ++ cr_metas r) (sends ++ cr_sends r) (cr_end r).

(** The loop of [handleConnection].  [input] is what the socket still
    delivers before it is closed; [cancelled i] tells that the [select] of
    iteration [i] takes the cancellation. *)
Fixpoint conn_loop (nch : nat) (cancelled : nat -> bool) (fuel i : nat)
    (p : encapSTParser C) (input : bytes) : conn_run :=
  match fuel with
  | O => ConnRun [] [] None
  | S fuel' =>
      match nextBlockBuffer p with
      | Err e => run_stop (EndParser e)
      | Panic => run_stop EndPanic
      | Ok n =>
          if bool_decide (n = 0) then run_stop (EndParser EOF)
          else if cancelled i then run_stop EndCancelled
          else match read_full n input with
          | Err e => run_stop (EndRead e)
          | Panic => run_stop EndPanic
          | Ok (buffer, input') =>
              let '(p', (ms, r)) := nextBlock p buffer None in
              match r with
              | Err e => run_then ms [] (run_stop (EndBlock e))
              | Panic => run_then ms [] (run_stop EndPanic)
              | Ok None => run_then ms [] (conn_loop nch cancelled fuel' (S i) p' input')
              | Ok (Some msgs) =>
                  run_then ms (spray nch msgs)
                    (conn_loop nch cancelled fuel' (S i) p' input')
              end
          end
      end
  end.

Definition handleConnection (name encap remote : string) (nch : nat)
    (cancelled : nat -> bool) (fuel : nat) (input : bytes) : conn_run :=
  match getNewEncapParser name encap (Some remote) with
  | Ok parser => conn_loop nch cancelled fuel 0 parser input
  | Err e => run_stop (EndParser e)
  | Panic => run_stop EndPanic
  end.

(** ** Reference: a reader of whole frames

    One header, then the announced payload, handed to the codec the header
    names; no state but the unread input. *)
Fixpoint ref_loop (nch : nat) (name remote : string) (fuel : nat) (input : bytes)
    : conn_run :=
  match fuel with
  | O => ConnRun [] [] None
  | S fuel' =>
      match read_hdr input with
      | Err e => run_stop (EndRead e)
      | Panic => run_stop EndPanic
      | Ok (h, rest) =>
          match encap_encoding (MsgEncap h) with
          | None => run_stop (EndBlock (Errorf "ENCAP ST: no codec for msg encap [%+v]"))
          | Some e =>
              if bool_decide (Msglen h > ENC_ST_MAX_PAYLOAD)%Z
              then run_stop (EndBlock (Errorf
                     "ENCAP ST: nextBlockBuffer failed; msg too long [%v]"))
              else if bool_decide (Msgflag h <> ENC_ST_HDR_MSG_FLAGS_NONE)
              then run_stop (EndBlock (Errorf
                     "ENCAP ST: flag in header unsupported (zlib?)"))
              else if bool_decide (Msglen h = 0%Z)
              then run_stop (EndParser (Errorf "ENCAP  ST: req 0 size buffer"))
              else match read_full (Z.to_nat (Msglen h)) rest with
              | Err er => run_stop (EndRead er)
              | Panic => run_stop EndPanic
              | Ok (payload, input') =>
                  match getCodec name e with
                  | Ok c =>
                      let '(ms, r) := blockToDataMsgs c (Some remote) (Some payload) in
                      match r with
                      | Err er => run_then ms [] (run_stop (EndBlock er))
                      | Panic => run_then ms [] (run_stop EndPanic)
                      | Ok msgs =>
                          run_then ms (spray nch (default [] msgs))
                            (ref_loop nch name remote fuel' input')
                      end
                  | Err er => run_stop (EndParser er)
                  | Panic => run_stop EndPanic
                  end
              end
          end
      end
  end.

End Connection.
Arguments conn_run M : clear implicits.

Section Theorems.
Context {C M : Type} `{KL : CodecLaws C M}.
Implicit Types p : encapSTParser C.

(** every buffer the loop reads is non-empty and of positive size *)
Lemma nextBlockBuffer_hdr p :
  parser_wf p -> p_state p = ENC_ST_WAIT_FOR_HDR -> nextBlockBuffer p = Ok ENC_ST_HDR_MSG_SIZE.
Proof. intros Hwf Hs. unfold nextBlockBuffer. rewrite Hs. by rewrite (wf_hdr p Hwf). Qed.

Lemma read_full_shrinks n l a b :
  read_full n l = Ok (a, b) -> n <> 0 -> length b < length l.
Proof. intros [-> <-]%read_full_inv Hn. rewrite length_app. lia. Qed.

(** the handler of a connection does not run out of a fuel larger than its input *)
Lemma conn_loop_ends nch cancelled : forall fuel i p input,
  length input < fuel -> is_Some (cr_end (conn_loop (M := M) nch cancelled fuel i p input)).
Proof.
  induction fuel as [|fuel IH]; intros i p input Hlt; [lia|]. simpl.
  destruct (nextBlockBuffer p) as [n| |]; [|by eexists..].
  case_bool_decide as Hn; [by eexists|]. destruct (cancelled i); [by eexists|].
  destruct (read_full n input) as [[a b]| |] eqn:Er; [|by eexists..].
  apply read_full_shrinks in Er; [|done].
  destruct (nextBlock p a None) as [p' [ms [[msgs|]| |]]]; simpl; try (by eexists);
    apply IH; lia.
Qed.

Lemma run_then_nil (r : conn_run M) : run_then [] [] r = r.
Proof. by destruct r. Qed.

(** one frame of the reference is two iterations of the loop *)
Lemma conn_loop_refines nch remote : forall n m i p input,
  length input < n -> length input < m ->
  parser_wf p -> p_state p = ENC_ST_WAIT_FOR_HDR -> p_source p = Some remote ->
  conn_loop nch (fun _ => false) n i p input
  = ref_loop (C := C) (M := M) nch (p_name p) remote m input.
Proof.
  induction n as [n IH] using lt_wf_ind. intros m i p input Hn Hm Hwf Hs Hsrc.
  destruct n as [|n]; [lia|]. destruct m as [|m]; [lia|].
  cbn [conn_loop ref_loop]. rewrite nextBlockBuffer_hdr by done.
  unfold read_hdr at 1. rewrite bool_decide_eq_false_2 by done.
  destruct (read_full ENC_ST_HDR_MSG_SIZE input) as [[hb rest]|er|] eqn:Er; [|done..].
  cbn [res_bind fst snd].
  apply read_full_inv in Er as [-> Hlen]. rewrite length_app in Hn, Hm.
  unfold ENC_ST_HDR_MSG_SIZE in Hlen.
  pose proof (decode_hdr_wf hb Hlen) as Hh.
  pose proof (nextBlock_header (M := M) p _ [] Hwf Hs Hh) as Hnb.
  rewrite app_nil_r, write_decode_hdr in Hnb by done. rewrite Hnb. clear Hnb.
  set (h := decode_hdr hb) in *. clearbody h.
  destruct (encap_encoding (MsgEncap h)) as [e|] eqn:Ee; [|done].
  destruct (codec_at_support p _ _ Hwf Ee) as (c & Hgc & Hc).
  cbn zeta. case_bool_decide as Hmax; [done|]. case_bool_decide as Hflag; [done|].
  destruct n as [|n]; [lia|]. cbn [conn_loop]. unfold nextBlockBuffer at 1.
  cbn [set_state p_state p_nextBlockSize].
  case_bool_decide as Hz; [done|]. rewrite bool_decide_eq_false_2 by done.
  assert (Z.to_nat (Msglen h) <> 0) as Hpos by (unfold hdr_wf in Hh; lia).
  rewrite bool_decide_eq_false_2 by done.
  destruct (read_full (Z.to_nat (Msglen h)) rest) as [[payload input']|er|] eqn:Er';
    [|done..].
  pose proof (read_full_shrinks _ _ _ _ Er' Hpos) as Hshrink.
  rewrite Hgc, (nextBlock_payload _ c) by done.
  cbn [set_state set_codec p_source]. rewrite Hsrc.
  destruct (blockToDataMsgs c (Some remote) (Some payload)) as [ms [r|er|]]; [|done..].
  rewrite run_then_nil. erewrite IH; [by destruct r|lia..| |done|done].
  apply set_state_hdr_wf, set_state_data_wf.
  - by apply set_codec_wf.
  - simpl. by rewrite Hc.
  - unfold hdr_wf in Hh. lia.
Qed.

Lemma tcp_refines name remote nch input fuel :
  length input < fuel ->
  handleConnection name "st" remote nch (fun _ => false) fuel input
  = ref_loop (C := C) (M := M) nch name remote fuel input.
Proof.
  intros Hf. unfold handleConnection, getNewEncapParser. simpl.
  destruct (getNewEncapSTParser_ok (C := C) (M := M) name (Some remote)) as [p Hp].
  rewrite Hp. pose proof (getNewEncapSTParser_wf _ _ _ Hp) as Hwf.
  unfold getNewEncapSTParser in Hp. apply res_bind_ok in Hp as (cs & _ & [= <-]).
  by rewrite (conn_loop_refines nch remote fuel fuel).
Qed.

(** C1: the parser refines a reader of whole frames.  On any bytes from
    the peer, and without a cancellation, the connection handler bumps the counters, sends
    the messages and stops for the reason of the reference, which reads
    one header and the announced payload at a time and keeps no other state. *)
Theorem tcp_refines_frames name remote nch input fuel :
  length input < fuel ->
  handleConnection name "st" remote nch (fun _ => false) fuel input
  = ref_loop (C := C) (M := M) nch name remote fuel input.
Proof. apply tcp_refines. Qed.

(** C32: a connection handler terminates.  Once the peer has closed the socket, the
    handler returns after at most one more iteration than there were bytes, the last of which
    meets the end, whatever the bytes and whenever it is cancelled: each other iteration reads at
    least one byte.  Sends to the outputs are taken to go through. *)
Theorem tcp_terminates name encap remote nch cancelled input fuel :
  length input < fuel ->
  is_Some (cr_end (handleConnection (C := C) (M := M) name encap remote nch cancelled fuel input)).
Proof.
  intros Hf. unfold handleConnection.
  destruct (getNewEncapParser name encap (Some remote)); [|by eexists..].
  by apply conn_loop_ends.
Qed.

Lemma read_hdr_frame z payload rest e :
  encap_encoding z = Some e -> (Z.of_nat (length payload) <= ENC_ST_MAX_PAYLOAD)%Z ->
  read_hdr (frame z payload ++ rest)
  = Ok (STHdr ENC_ST_HDR_MSG_TYPE_TELEMETRY_DATA z ENC_ST_HDR_VERSION
          ENC_ST_HDR_MSG_FLAGS_NONE (Z.of_nat (length payload)), payload ++ rest).
Proof.
  intros He Hl. unfold frame. rewrite <- app_assoc. apply read_hdr_write, frame_hdr_wf.
  - by eapply encap_encoding_bound.
  - unfold ENC_ST_MAX_PAYLOAD in Hl. lia.
Qed.

(** what the codec named by an encap value makes of a payload *)
Definition frame_msgs (name remote : string) (f : Z * bytes)
    : list meta * res (option (list M)) :=
  match encap_encoding f.1 with
  | Some e => match getCodec (C := C) name e with
              | Ok c => blockToDataMsgs c (Some remote) (Some f.2)
              | _ => ([], Panic)
              end
  | None => ([], Panic)
  end.

Definition good_frame (name remote : string) (f : Z * bytes) : Prop :=
  is_Some (encap_encoding f.1) /\ f.2 <> []
  /\ (Z.of_nat (length f.2) <= ENC_ST_MAX_PAYLOAD)%Z
  /\ is_ok (frame_msgs name remote f).2 = true.

Lemma ref_loop_frames nch name remote fs : forall fuel tail,
  Forall (good_frame name remote) fs ->
  length (concat (map (fun f => frame f.1 f.2) fs) ++ tail) < fuel ->
  exists fuel', length tail < fuel' /\
  ref_loop (C := C) (M := M) nch name remote fuel
    (concat (map (fun f => frame f.1 f.2) fs) ++ tail)
  = run_then (concat (map (fun f => (frame_msgs name remote f).1) fs))
      (concat (map (fun f => spray nch
         (default [] (ok_or None (frame_msgs name remote f).2))) fs))
      (ref_loop nch name remote fuel' tail).
Proof.
  induction fs as [|[z payload] fs IH]; intros fuel tail HF Hfuel.
  { exists fuel. simpl in *. by rewrite run_then_nil. }
  inversion HF as [|? ? ([e He] & Hne & Hmax & Hok) HF']; subst.
  cbn [map concat fst snd] in *.
  rewrite <- app_assoc in *. destruct fuel as [|fuel]; [lia|].
  cbn [ref_loop]. rewrite (read_hdr_frame z payload _ e) by done.
  cbn [MsgEncap Msglen Msgflag]. rewrite He.
  rewrite bool_decide_eq_false_2 by lia. rewrite bool_decide_eq_false_2 by naive_solver.
  assert (length payload <> 0) by (by destruct payload).
  rewrite bool_decide_eq_false_2 by lia. rewrite Nat2Z.id, read_full_app by done.
  assert (frame_msgs name remote (z, payload) = match getCodec name e with
    | Ok c => blockToDataMsgs c (Some remote) (Some payload) | _ => ([], Panic) end) as Hfm
    by (unfold frame_msgs; cbn [fst snd]; by rewrite He).
  rewrite Hfm in *. clear Hfm. destruct (getCodec name e) as [c| |]; [|done..].
  destruct (blockToDataMsgs c (Some remote) (Some payload)) as [ms [r| |]]; [|done..].
  simpl. destruct (IH fuel tail HF') as (fuel' & Hf' & ->).
  { rewrite length_app in Hfuel. assert (length payload <= length (frame z payload)).
    { unfold frame. rewrite length_app. lia. }
    lia. }
  exists fuel'. split; [done|]. unfold run_then. simpl. by rewrite !app_assoc.
Qed.

(** the handler on a stream of good frames *)
Lemma conn_delivers name remote nch fs fuel :
  Forall (good_frame name remote) fs ->
  length (concat (map (fun f => frame f.1 f.2) fs)) < fuel ->
  handleConnection (C := C) (M := M) name "st" remote nch (fun _ => false) fuel
    (concat (map (fun f => frame f.1 f.2) fs))
  = ConnRun (concat (map (fun f => (frame_msgs name remote f).1) fs))
      (concat (map (fun f => spray nch
         (default [] (ok_or None (frame_msgs name remote f).2))) fs))
      (Some (EndRead EOF)).
Proof.
  intros HF Hfuel. rewrite tcp_refines by done.
  rewrite <- (app_nil_r (concat _)) at 1.
  destruct (ref_loop_frames nch name remote fs fuel [] HF) as ([|fuel'] & Hf' & ->);
    [by rewrite app_nil_r|simpl in Hf'; lia|].
  unfold run_then. simpl. by rewrite !app_nil_r.
Qed.

(** C11: a stream of good frames is delivered whole and in order.  When the peer
    sends frames whose header names a codec, whose payload is between one byte and
    the maximum and decodes, the handler sends every output the messages of every
    frame, frame after frame, and then stops because the peer closed. *)
Theorem tcp_delivers name remote nch fs fuel :
  Forall (good_frame name remote) fs ->
  length (concat (map (fun f => frame f.1 f.2) fs)) < fuel ->
  handleConnection (C := C) (M := M) name "st" remote nch (fun _ => false) fuel
    (concat (map (fun f => frame f.1 f.2) fs))
  = ConnRun (concat (map (fun f => (frame_msgs name remote f).1) fs))
      (concat (map (fun f => spray nch
         (default [] (ok_or None (frame_msgs name remote f).2))) fs))
      (Some (EndRead EOF)).
Proof. apply conn_delivers. Qed.
End Theorems.
