(* ===== verification/TcpServer.v ===== *)
(** * The life of a TCP server ([xport_tcp.go])

    Around the connection handlers of [Tcp]: the goroutine that accepts connections, the
    one that serves the control channel, the handlers as they come and go, and the
    configuration.  The model is a machine whose steps are those of the goroutines, in
    whatever order. *)
From S2P Require Import Prelude Message.

(** where [acceptTCPConnections] is: in [Accept]; asleep after an error; in its deferred
    function, waiting for the connections; sending on [doneCancel] *)
Inductive accept_mode : Type := Accepting | AcceptSleep | WaitConns | SendDone.

(** [tc_cancel] is whether [cancelConn] is closed, [tc_listening] whether the listener is open,
    [tc_conns] the handlers running, [tc_serving] whether [startServer] serves its control
    channel, [tc_acks] the requests answered; [tc_crashed]: a goroutine panicked, which
    takes the process down *)
Record tcp_server : Type := TcpServer {
  tc_accept : accept_mode;
  tc_cancel : bool;
  tc_listening : bool;
  tc_conns : nat;
  tc_serving : bool;
  tc_acks : list msgID;
  tc_crashed : bool;
}.

Definition tcp_init : tcp_server := TcpServer Accepting false true 0 true [] false.

Inductive tcp_label : Type :=
| TAcceptOk          (* [Accept] returns a connection *)
| TAcceptErr         (* [Accept] fails *)
| TRetry             (* the sleep after a failed accept is over *)
| TConnEnds          (* a handler returns *)
| TConnsDone         (* the wait for the handlers is over *)
| TCtrl (id : msgID).

Definition set_accept (s : tcp_server) (m : accept_mode) : tcp_server :=
  TcpServer m (tc_cancel s) (tc_listening s) (tc_conns s) (tc_serving s) (tc_acks s)
    (tc_crashed s).
Definition set_conns (s : tcp_server) (n : nat) : tcp_server :=
  TcpServer (tc_accept s) (tc_cancel s) (tc_listening s) n (tc_serving s) (tc_acks s)
    (tc_crashed s).

(** Waiting for [doneCancel]'s receiver has no step: the channel is not buffered and nothing
    receives from it.  After a failed accept and the sleep, a handler is started for
    the nil connection, and panics. *)
Definition tcp_step (s : tcp_server) (l : tcp_label) : option tcp_server :=
  if tc_crashed s then None
  else match l, tc_accept s with
  | TAcceptOk, Accepting =>
      if negb (tc_listening s) then None
      else if tc_cancel s then Some (set_accept s WaitConns)
      else Some (set_conns s (S (tc_conns s)))
  | TAcceptErr, Accepting =>
      Some (set_accept s (if tc_cancel s then WaitConns else AcceptSleep))
  | TRetry, AcceptSleep =>
      Some (TcpServer Accepting (tc_cancel s) (tc_listening s) (S (tc_conns s)) (tc_serving s)
              (tc_acks s) true)
  | TConnEnds, _ =>
      match tc_conns s with
      | S n => Some (set_conns s n)
      | O => None
      end
  | TConnsDone, WaitConns =>
      if bool_decide (tc_conns s = 0) then Some (set_accept s SendDone) else None
  | TCtrl id, m =>
      if negb (tc_serving s) then None
      else match id with
      | REPORT => Some (TcpServer m (tc_cancel s) (tc_listening s) (tc_conns s) true
                          (tc_acks s ++ [REPORT]) false)
      | SHUTDOWN => Some (TcpServer m true false (tc_conns s) false
                            (tc_acks s ++ [SHUTDOWN]) false)
      | ACK => Some s
      end
  | _, _ => None
  end.

Fixpoint tcp_run (s : tcp_server) (ls : list tcp_label) : option tcp_server :=
  match ls with
  | [] => Some s
  | l :: ls' => s' ← tcp_step s l; tcp_run s' ls'
  end.

(** [configure] and [addTCPServer]: the server they start; [Listen] is the host's *)
Record serverTCP : Type := ServerTCP {
  st_name : string;
  st_bindpoint : string;
  st_encap : string;
  st_logData : bool;
  st_keepaliveSeconds : Z;
}.

Definition tcp_configure (Listen : string -> res unit) (name : string) (nc : nodeConfig)
    : res serverTCP :=
  match GetString nc name "listen" with
  | None => Err (External "option not found")
  | Some listen =>
      let! _ := Listen listen in
      Ok (ServerTCP name listen (default "st" (GetString nc name "encap"))
            (get_bool nc name "logdata")
            (i64 (get_int nc name "keepalive_seconds" * 1000000000)))
  end.

(** ** Theorems *)

(** Invariant: the control goroutine returns exactly with the cancellation and the close of the
    listener, having answered the shutdown last; the accept loop leaves [Accept]
    only after these, or to crash. *)
Record tcp_inv (s : tcp_server) : Prop := {
  tci_serving : tc_serving s = negb (tc_cancel s);
  tci_listening : tc_listening s = negb (tc_cancel s);
  tci_acks : exists n, tc_acks s = replicate n REPORT ++ (if tc_cancel s then [SHUTDOWN] else []);
  tci_accept : tc_accept s = WaitConns \/ tc_accept s = SendDone -> tc_cancel s = true;
  tci_done : tc_accept s = SendDone -> tc_conns s = 0;
}.

Lemma tcp_init_inv : tcp_inv tcp_init.
Proof. constructor; simpl; try done; [by exists 0|]. by intros [|]. Qed.

Lemma tcp_step_inv s l s' : tcp_inv s -> tcp_step s l = Some s' -> tcp_inv s'.
Proof.
  intros [Hs Hl [n Ha] Hm Hd]. destruct s as [m ca li n' sv acks cr].
  unfold tcp_step, set_accept, set_conns. simpl in *.
  destruct cr; [discriminate|]. subst sv li.
  destruct l as [| | | | |[]], m; intros H; try discriminate H; repeat case_match;
    try discriminate H; injection H as <-; subst; constructor; simpl in *; try done;
    try (by intros [|]); try (by exists n); try auto.
  all: try (intros E; specialize (Hd E); lia).
  all: try (intros _; by eapply bool_decide_eq_true_1).
  all: try (exists n; by rewrite app_nil_r).
  all: exists (S n); by rewrite !app_nil_r, <- replicate_cons_app.
Qed.

Lemma tcp_run_inv ls : forall s s', tcp_inv s -> tcp_run s ls = Some s' -> tcp_inv s'.
Proof.
  induction ls as [|l ls IH]; intros s s' Hs H; simpl in H; [by simplify_eq|].
  apply bind_Some in H as (s1 & H1 & H2). eauto using tcp_step_inv.
Qed.

(** once cancelled, no step starts a handler, except the one that crashes *)
Lemma tcp_step_cancelled s l s' :
  tc_cancel s = true -> tcp_step s l = Some s' ->
  tc_cancel s' = true /\ (tc_crashed s' = true \/ tc_conns s' <= tc_conns s).
Proof.
  destruct s as [m ca li n sv acks cr]. unfold tcp_step, set_accept, set_conns. simpl. intros ->.
  destruct cr; [discriminate|].
  destruct l as [| | | | |[]], m; intros H; try discriminate H; repeat case_match;
    try discriminate H; injection H as <-; simpl; split; auto.
Qed.

Lemma tcp_run_cancelled ls : forall s s',
  tc_cancel s = true -> tcp_run s ls = Some s' ->
  tc_cancel s' = true /\ (tc_crashed s' = true \/ tc_conns s' <= tc_conns s).
Proof.
  induction ls as [|l ls IH]; intros s s' Hs H; simpl in H; [simplify_eq; auto|].
  apply bind_Some in H as (s1 & H1 & H2).
  destruct (tcp_step_cancelled _ _ _ Hs H1) as (Hc & H1').
  destruct (IH _ _ Hc H2) as (Hc2 & H2'). split; [done|].
  destruct H2' as [?|?]; [by left|]. destruct H1' as [Hcr|?]; [|right; lia].
  destruct ls as [|l' ls]; simpl in H2; [by simplify_eq; left|].
  unfold tcp_step in H2. by rewrite Hcr in H2.
Qed.

(** A TCP input answers a shutdown without waiting for its connections.  A running server
    takes a shutdown at once and answers it with all its handlers running, however many;
    no handler is started after that, and the accept goroutine can wait for them, but it
    never returns: from its last state no step of it leads anywhere. *)
Lemma tcp_shutdown ls s :
  tcp_run tcp_init ls = Some s -> tc_crashed s = false -> tc_serving s = true ->
  exists s', tcp_step s (TCtrl SHUTDOWN) = Some s'
  /\ tc_acks s' = tc_acks s ++ [SHUTDOWN] /\ tc_conns s' = tc_conns s
  /\ forall ls' s'', tcp_run s' ls' = Some s'' ->
     (tc_crashed s'' = true \/ tc_conns s'' <= tc_conns s)
     /\ (tc_accept s'' = SendDone -> tc_conns s'' = 0 /\ forall l, tcp_step s'' l = None).
Proof.
  intros Hrun Hc Hs. apply (tcp_run_inv _ _ _ tcp_init_inv) in Hrun.
  unfold tcp_step at 1. rewrite Hc, Hs. simpl. eexists. split_and!; [done..|].
  intros ls' s'' Hrun'. set (s' := TcpServer _ _ _ _ _ _ _) in Hrun'.
  assert (tcp_inv s') as Hinv.
  { apply (tcp_step_inv s (TCtrl SHUTDOWN)); [done|].
    unfold tcp_step. by rewrite Hc, Hs. }
  pose proof (tcp_run_cancelled _ s' s'' eq_refl Hrun') as [Hca Hn].
  split; [done|]. intros Hsd.
  apply (tcp_run_inv _ _ _ Hinv) in Hrun' as [Hs2 _ _ _ Hd]. specialize (Hd Hsd).
  split; [done|]. intros l. unfold tcp_step. rewrite Hsd, Hd, Hs2, Hca.
  destruct (tc_crashed s''); [done|]. by destruct l.
Qed.

(** A failed accept is fatal.  If accepting a connection fails on a server that is not
    being stopped, then whatever happens next the server accepts no connection again: it
    stays asleep until it takes the whole collector down, even when a shutdown comes in
    between. *)
Lemma tcp_accept_error s ls' s' :
  tc_cancel s = false -> tc_accept s = Accepting ->
  tc_crashed s = false -> tcp_run s (TAcceptErr :: ls') = Some s' ->
  ~ (TAcceptOk ∈ ls') /\
  (tc_crashed s' = true \/ (tc_accept s' = AcceptSleep /\ ~ (TRetry ∈ ls')
     /\ exists s'', tcp_step s' TRetry = Some s'' /\ tc_crashed s'' = true)).
Proof.
  intros Hca Ha Hc. simpl. unfold tcp_step at 1. rewrite Hc, Ha, Hca. simpl.
  set (s1 := set_accept s AcceptSleep).
  assert (tc_accept s1 = AcceptSleep /\ tc_crashed s1 = false) as [Hs1 Hc1] by done.
  clearbody s1. clear Hca Ha Hc s. revert s1 Hs1 Hc1.
  induction ls' as [|l ls' IH]; intros s1 Hs1 Hc1 H; simpl in H.
  { simplify_eq. split; [set_solver|]. right. split_and!; [done|set_solver|].
    unfold tcp_step. rewrite Hc1, Hs1. eauto. }
  apply bind_Some in H as (s2 & H1 & H2). unfold tcp_step in H1. rewrite Hc1, Hs1 in H1.
  destruct l as [| | | | |id]; try discriminate H1.
  - injection H1 as <-. destruct ls' as [|l' ls']; simpl in H2.
    + simplify_eq. split; [set_solver|by left].
    + unfold tcp_step in H2. by simpl in H2.
  - destruct (tc_conns s1); simplify_eq.
    destruct (IH (set_conns s1 n) Hs1 Hc1 H2) as [Hno Hr]. split; [set_solver|].
    destruct Hr as [?|(?&?&?)]; [by left|right; set_solver].
  - destruct (IH s2) as [Hno Hr]; [..|done|].
    1-2: destruct (tc_serving s1), id; simpl in H1; simplify_eq; done.
    split; [set_solver|]. destruct Hr as [?|(?&?&?)]; [by left|right; set_solver].
Qed.
