(* ===== verification/Udp.v ===== *)
(** * The UDP input ([xport_udp.go])

    One goroutine reads datagrams, has them decoded and offers the messages to the outputs
    without waiting for a full one; another keeps it running and serves the control channel.
    The reader is a function of what it reads and of what it finds when it
    tests and sends; the pair is a machine whose steps are those of the two goroutines and
    of the socket. *)
From S2P Require Import Prelude Message EncapST.

(** ** The server ([runServer]) *)

(** what one turn of the loops over messages and channels found: the channel full; room,
    and the send went through; room, and the cancellation was taken instead *)
Inductive udp_turn : Type := TurnFull | TurnSent | TurnCancelled.

#[export] Instance udp_turn_eq_dec : EqDecision udp_turn.
Proof. solve_decision. Defined.

(** What the server reads: a datagram, with what the turn for the message and channel of given
    indices finds; or an error, with whether the server is cancelled by then. *)
Inductive udp_event : Type :=
| UdpDatagram (datagram : bytes) (remote : string) (turns : nat -> nat -> udp_turn)
| UdpReadError (remote : string) (cancelled : bool).

Inductive udp_end : Type :=
| UdpNoParser (e : goerr)
| UdpRead
| UdpBlock (e : goerr)
| UdpCancelled
| UdpPanic.

Section Server.
Context {C M : Type} `{K : Codec C M}.

(** the counters bumped, the sends made, and why the server stopped ([None]: it reads on) *)
Record udp_run : Type := UdpRun {
  ur_metas : list meta;
  ur_sends : list (nat * M);
  ur_end : option udp_end;
}.
Definition udp_then (ms : list meta) (sends : list (nat * M)) (r : udp_run) : udp_run :=
  UdpRun (ms ++ ur_metas r) (sends ++ ur_sends r) (ur_end r).

(** the loop over the channels [j], [j + 1], ... for one message; [true] when cancelled *)
Fixpoint udp_chans (name remote : string) (m : M) (turn : nat -> udp_turn) (n j : nat)
    : list meta * list (nat * M) * bool :=
  match n with
  | O => ([], [], false)
  | S n' =>
      match turn j with
      | TurnFull =>
          let '(ms, sends, stop) := udp_chans name remote m turn n' (S j) in
          (Inc "xportUDP_drops" [name; remote] :: ms, sends, stop)
      | TurnSent =>
          let '(ms, sends, stop) := udp_chans name remote m turn n' (S j) in
          (ms, (j, m) :: sends, stop)
      | TurnCancelled => ([], [], true)
      end
  end.

(** the loop over the messages, numbered from [i] *)
Fixpoint udp_msgs (name remote : string) (nch : nat) (turns : nat -> nat -> udp_turn)
    (i : nat) (msgs : list M) : list meta * list (nat * M) * bool :=
  match msgs with
  | [] => ([], [], false)
  | m :: msgs' =>
      let '(ms, sends, stop) := udp_chans name remote m (turns i) nch 0 in
      if stop then (ms, sends, true)
      else let '(ms', sends', stop') := udp_msgs name remote nch turns (S i) msgs' in
           (ms ++ ms', sends ++ sends', stop')
  end.

(** one datagram, of which as much is read as the parser's buffer holds *)
Definition udp_datagram (name : string) (nch : nat) (p : encapSTParser C) (n : nat)
    (datagram : bytes) (remote : string) (turns : nat -> nat -> udp_turn)
    : encapSTParser C * udp_run :=
  let trimBuf := take n datagram in
  let '(p', (ms, r)) := nextBlock p trimBuf (Some remote) in
  match r with
  | Err e => (p', UdpRun (ms ++ [Inc "xportUDP_errors" [name; remote]]) [] (Some (UdpBlock e)))
  | Panic => (p', UdpRun ms [] (Some UdpPanic))
  | Ok msgs =>
      let counted := ms ++ [Inc "xportUDP_messages" [name; remote];
                            AddN "xportUDP_bytes" [name; remote] (Z.of_nat (length trimBuf))] in
      let '(ms', sends, stop) := udp_msgs name remote nch turns 0 (default [] msgs) in
      (p', UdpRun (counted ++ ms') sends (if stop then Some UdpCancelled else None))
  end.

(** the loop of [runServer] *)
Fixpoint udp_loop (name : string) (nch : nat) (p : encapSTParser C) (evs : list udp_event)
    : udp_run :=
  match evs with
  | [] => UdpRun [] [] None
  | ev :: evs' =>
      match nextBlockBuffer p with
      | Err e => UdpRun [] [] (Some (UdpNoParser e))
      | Panic => UdpRun [] [] (Some UdpPanic)
      | Ok n =>
          match ev with
          | UdpReadError remote cancelled =>
              UdpRun (if cancelled then [] else [Inc "xportUDP_errors" [name; remote]]) []
                (Some UdpRead)
          | UdpDatagram datagram remote turns =>
              let '(p', r) := udp_datagram name nch p n datagram remote turns in
              match ur_end r with
              | None => udp_then (ur_metas r) (ur_sends r) (udp_loop name nch p' evs')
              | Some _ => r
              end
          end
      end
  end.

Definition runServer (name encap : string) (nch : nat) (evs : list udp_event) : udp_run :=
  match getNewEncapParser name encap None with
  | Ok parser => udp_loop name nch parser evs
  | Err e => UdpRun [] [] (Some (UdpNoParser e))
  | Panic => UdpRun [] [] (Some UdpPanic)
  end.

(** [configure] and [addUDPServer]: the server they start *)
Record serverUDP : Type := ServerUDP {
  su_name : string;
  su_bindpoint : string;
  su_encap : string;
  su_rxBuf : Z;
  su_logData : bool;
}.

(** [ResolveUDPAddr] is the resolver of the host *)
Definition udp_configure (ResolveUDPAddr : string -> res string) (name : string)
    (nc : nodeConfig) : res serverUDP :=
  match GetString nc name "listen" with
  | None => Err (External "option not found")
  | Some listen =>
      let! bindpoint := ResolveUDPAddr listen in
      Ok (ServerUDP name bindpoint (default "st" (GetString nc name "encap"))
            (get_int nc name "rxbuf") (get_bool nc name "logdata"))
  end.

End Server.
Arguments udp_run M : clear implicits.

(** ** The keeper ([startStickyServer]) *)

(** where the keeper is: in its [select], asleep after a failed bind, waiting for the server to
    close on a shutdown, or returned *)
Inductive keeper_mode : Type := KSelect | KRetry | KClosing | KReturned.

(** [kp_listener] is whether [s.listener] is not nil, [kp_serving] whether a server runs, that
    is, [closedListener] is not closed *)
Record keeper : Type := Keeper {
  kp_mode : keeper_mode;
  kp_listener : bool;
  kp_serving : bool;
  kp_cancelled : bool;
  kp_acks : list msgID;      (* the requests answered, in order *)
}.

(** the start, with [closedListener] closed to prime the loop *)
Definition keeper_init : keeper := Keeper KSelect false false false [].

Inductive keeper_label : Type :=
| KBind (ok : bool)      (* the keeper sees [closedListener] closed and binds *)
| KWake                  (* the sleep is over *)
| KCtrl (id : msgID)     (* a control message *)
| KServerStops           (* the server returns *)
| KClosed.               (* the keeper, shutting down, sees the server gone *)

Definition keeper_step (s : keeper) (l : keeper_label) : option keeper :=
  match l, kp_mode s with
  | KBind true, KSelect =>
      if kp_serving s then None
      else Some (Keeper KSelect true true (kp_cancelled s) (kp_acks s))
  | KBind false, KSelect =>
      if kp_serving s then None
      else Some (Keeper KRetry false false (kp_cancelled s) (kp_acks s))
  | KWake, KRetry =>
      Some (Keeper KSelect (kp_listener s) (kp_serving s) (kp_cancelled s) (kp_acks s))
  | KCtrl REPORT, KSelect =>
      Some (Keeper KSelect (kp_listener s) (kp_serving s) (kp_cancelled s)
              (kp_acks s ++ [REPORT]))
  | KCtrl SHUTDOWN, KSelect =>
      if kp_listener s
      then Some (Keeper KClosing true (kp_serving s) true (kp_acks s))
      else Some (Keeper KReturned false (kp_serving s) true (kp_acks s ++ [SHUTDOWN]))
  | KCtrl ACK, KSelect => Some s
  | KServerStops, m =>
      if kp_serving s
      then Some (Keeper m (kp_listener s) false (kp_cancelled s) (kp_acks s))
      else None
  | KClosed, KClosing =>
      if kp_serving s then None
      else Some (Keeper KReturned (kp_listener s) false (kp_cancelled s)
                   (kp_acks s ++ [SHUTDOWN]))
  | _, _ => None
  end.

Fixpoint keeper_run (s : keeper) (ls : list keeper_label) : option keeper :=
  match ls with
  | [] => Some s
  | l :: ls' => s' ← keeper_step s l; keeper_run s' ls'
  end.

(** ** Theorems *)

Section Theorems.
Context {C M : Type} `{KL : CodecLaws C M}.
Implicit Types p : encapSTParser C.

(** what a datagram decodes to by itself, with a parser of its own *)
Definition dgram_msgs (name remote : string) (d : bytes) : list meta * res (option (list M)) :=
  match getNewEncapSTParser (C := C) (M := M) name None with
  | Ok p => (nextBlock p d (Some remote)).2
  | Err e => ([], Err e)
  | Panic => ([], Panic)
  end.

(** the parser of a server between two datagrams *)
Definition dgram_parser (name : string) p : Prop :=
  parser_wf (M := M) p /\ p_state p = ENC_ST_WAIT_FOR_ALL /\ p_name p = name.

Lemma dgram_parser_new name : exists p,
  getNewEncapSTParser (C := C) (M := M) name None = Ok p /\ dgram_parser name p.
Proof.
  destruct (getNewEncapSTParser_ok (C := C) (M := M) name None) as [p Hp]. exists p.
  split; [done|]. pose proof (getNewEncapSTParser_wf _ _ _ Hp).
  unfold getNewEncapSTParser in Hp. apply res_bind_ok in Hp as (cs & _ & [= <-]). done.
Qed.

(** the codec cached by earlier datagrams makes no difference *)
Lemma nextBlock_stateless name p p' d remote :
  dgram_parser name p -> dgram_parser name p' ->
  (nextBlock (M := M) p d (Some remote)).2 = (nextBlock (M := M) p' d (Some remote)).2
  /\ dgram_parser name (nextBlock (M := M) p d (Some remote)).1.
Proof.
  intros (Hw & Hs & Hn) (Hw' & Hs' & Hn').
  pose proof (nextBlock_wf (M := M) p d (Some remote) Hw) as Hw2.
  assert (parser_wf (M := M) (set_source p (Some remote))) as Hsw by by apply set_source_wf.
  assert (parser_wf (M := M) (set_source p' (Some remote))) as Hsw' by by apply set_source_wf.
  revert Hw2. unfold dgram_parser, nextBlock. rewrite !set_source_state, Hs, Hs'.
  destruct (read_hdr d) as [[h rest]|e|] eqn:Eh.
  2-3: unfold nextBlock_all; rewrite Eh; done.
  apply read_hdr_inv in Eh as [-> Hh]. rewrite !nextBlock_datagram by done.
  destruct (encap_encoding (MsgEncap h)) as [e|] eqn:Ee; [|done]. cbn zeta.
  destruct (codec_at_support _ _ _ Hsw Ee) as (c & Hc & Hat).
  destruct (codec_at_support _ _ _ Hsw' Ee) as (c' & Hc' & Hat').
  cbn [set_source p_name] in Hc, Hc'. rewrite Hn in Hc. rewrite Hn' in Hc'.
  assert (c' = c) as -> by congruence.
  repeat case_bool_decide; try done. intros Hw2. split; [|done].
  unfold call_codec. cbn [fst snd set_codec p_nextCodec p_source set_source] in *.
  by rewrite Hat, Hat'.
Qed.

Lemma dgram_msgs_at name p remote d :
  dgram_parser name p -> (nextBlock (M := M) p d (Some remote)).2 = dgram_msgs name remote d.
Proof.
  intros Hp. unfold dgram_msgs. destruct (dgram_parser_new name) as (p0 & -> & Hp0).
  by apply (nextBlock_stateless name).
Qed.

Lemma dgram_buffer name p : dgram_parser name p -> nextBlockBuffer p = Ok (Z.to_nat ENC_ST_MAX_DGRAM).
Proof. intros (_ & Hs & _). unfold nextBlockBuffer. by rewrite Hs. Qed.

(** *** Isolation of the outputs *)

(** the messages, numbered from [i], that channel [j] had room for *)
Fixpoint kept (turns : nat -> nat -> udp_turn) (j i : nat) (msgs : list M) : list M :=
  match msgs with
  | [] => []
  | m :: msgs' => (if bool_decide (turns i j = TurnSent) then [m] else [])
                  ++ kept turns j (S i) msgs'
  end.

(** what the sends put on channel [j] *)
Definition on_chan (j : nat) (sends : list (nat * M)) : list M :=
  map snd (filter (fun s => s.1 = j) sends).

Lemma on_chan_app j a b : on_chan j (a ++ b) = on_chan j a ++ on_chan j b.
Proof. unfold on_chan. by rewrite list.filter_app, map_app. Qed.

Lemma udp_chans_sends name remote (m : M) turn n : forall j,
  (forall k, turn k <> TurnCancelled) ->
  exists ms sends, udp_chans name remote m turn n j = (ms, sends, false)
  /\ (forall k, on_chan k sends = if bool_decide (j <= k < j + n) && bool_decide (turn k = TurnSent)
                                then [m] else [])
  /\ length sends + length ms = n
  /\ Forall (eq (Inc "xportUDP_drops" [name; remote])) ms.
Proof.
  induction n as [|n IH]; intros j Ht; simpl.
  { exists [], []. split_and!; try done. intros k. by rewrite bool_decide_eq_false_2 by lia. }
  destruct (IH (S j) Ht) as (ms & sends & -> & Hk & Hlen & Hms).
  assert (forall k, k <> j -> bool_decide (S j <= k < S j + n) = bool_decide (j <= k < j + S n))
    as Hne by (intros; apply bool_decide_ext; lia).
  destruct (turn j) eqn:Ej; [| |by destruct (Ht j)].
  - eexists _, _. split_and!; [done| |simpl; lia|by constructor].
    intros k. rewrite Hk. destruct (decide (k = j)) as [->|]; [|by rewrite Hne].
    rewrite Ej. by rewrite (bool_decide_eq_false_2 (TurnFull = TurnSent)), !andb_false_r by done.
  - eexists _, _. split_and!; [done| |simpl; lia|done].
    intros k. unfold on_chan in *. rewrite list.filter_cons. cbn [fst].
    destruct (decide (k = j)) as [->|Hkj].
    + rewrite decide_True by done. cbn [map snd]. rewrite Hk.
      rewrite (bool_decide_eq_false_2 (S j <= j < S j + n)) by lia.
      by rewrite (bool_decide_eq_true_2 (j <= j < j + S n)), Ej by lia.
    + rewrite decide_False by done. by rewrite Hk, Hne.
Qed.

Lemma udp_msgs_sends name remote nch turns msgs : forall i,
  (forall k j, turns k j <> TurnCancelled) ->
  exists ms sends, udp_msgs (M := M) name remote nch turns i msgs = (ms, sends, false)
  /\ (forall j, j < nch -> on_chan j sends = kept turns j i msgs)
  /\ length sends + length ms = nch * length msgs
  /\ Forall (eq (Inc "xportUDP_drops" [name; remote])) ms.
Proof.
  induction msgs as [|m msgs IH]; intros i Ht; simpl.
  { exists [], []. split_and!; first [done | simpl; lia]. }
  destruct (udp_chans_sends name remote m (turns i) nch 0 (Ht i)) as (ms & sends & -> & Hk & Hl & Hf).
  destruct (IH (S i) Ht) as (ms' & sends' & -> & Hk' & Hl' & Hf').
  eexists _, _. split_and!; [done| |rewrite !length_app; lia|by apply Forall_app].
  intros j Hj. rewrite on_chan_app, Hk, Hk' by done.
  by rewrite (bool_decide_eq_true_2 (0 <= j < 0 + nch)) by lia.
Qed.

(** an event that is a datagram which decodes to [msgs], handed on without a cancellation *)
Definition good_datagram (name : string) (ev : udp_event) (msgs : list M) : Prop :=
  exists d remote turns ms, ev = UdpDatagram d remote turns
  /\ dgram_msgs name remote (take (Z.to_nat ENC_ST_MAX_DGRAM) d) = (ms, Ok (Some msgs))
  /\ forall i j, turns i j <> TurnCancelled.

Definition kept_of (j : nat) (ev : udp_event) (msgs : list M) : list M :=
  match ev with UdpDatagram _ _ turns => kept turns j 0 msgs | _ => [] end.

Lemma udp_loop_datagram name nch p d remote turns evs :
  dgram_parser name p ->
  let trimBuf := take (Z.to_nat ENC_ST_MAX_DGRAM) d in
  let p' := (nextBlock (M := M) p trimBuf (Some remote)).1 in
  dgram_parser name p' /\
  udp_loop (M := M) name nch p (UdpDatagram d remote turns :: evs) =
  let '(ms, r) := dgram_msgs name remote trimBuf in
  match r with
  | Err e => UdpRun (ms ++ [Inc "xportUDP_errors" [name; remote]]) [] (Some (UdpBlock e))
  | Panic => UdpRun ms [] (Some UdpPanic)
  | Ok msgs =>
      let counted := ms ++ [Inc "xportUDP_messages" [name; remote];
                            AddN "xportUDP_bytes" [name; remote] (Z.of_nat (length trimBuf))] in
      let '(ms', sends, stop) := udp_msgs name remote nch turns 0 (default [] msgs) in
      if stop then UdpRun (counted ++ ms') sends (Some UdpCancelled)
      else udp_then (counted ++ ms') sends (udp_loop name nch p' evs)
  end.
Proof.
  intros Hp trimBuf p'. subst p'.
  cbn [udp_loop]. rewrite (dgram_buffer name) by done. unfold udp_datagram.
  change (take (Z.to_nat ENC_ST_MAX_DGRAM) d) with trimBuf. pose proof (dgram_msgs_at name p remote trimBuf Hp) as Hd.
  destruct (nextBlock_stateless name p p trimBuf remote Hp Hp) as [_ Hp'].
  destruct (nextBlock p trimBuf (Some remote)) as [p' [ms r]]. simpl in Hd, Hp'. subst.
  split; [done|]. rewrite <- Hd. destruct r as [msgs|e|]; [|done..].
  by destruct (udp_msgs _ _ _ _ _ _) as [[ms' sends] []].
Qed.

Lemma udp_loop_good name nch evs msgss :
  Forall2 (good_datagram name) evs msgss -> forall p, dgram_parser name p ->
  exists p' ms sends, dgram_parser name p'
  /\ (forall j, j < nch -> on_chan j sends = concat (zip_with (kept_of j) evs msgss))
  /\ forall rest,
     udp_loop (M := M) name nch p (evs ++ rest) = udp_then ms sends (udp_loop name nch p' rest).
Proof.
  induction 1 as [|ev msgs evs msgss (d & remote & turns & ms & -> & Hd & Ht) HF IH];
    intros p Hp.
  { exists p, [], []. split_and!; [done..|]. intros rest. cbn [app]. unfold udp_then. by destruct (udp_loop name nch p rest). }
  destruct (udp_msgs_sends name remote nch turns msgs 0 Ht) as (ms1 & sends1 & Hm & Hk & _).
  edestruct (IH (nextBlock (M := M) p (take (Z.to_nat ENC_ST_MAX_DGRAM) d) (Some remote)).1)
    as (p' & ms2 & sends2 & Hp' & Hk2 & Hrest).
  { by apply (udp_loop_datagram name nch p d remote turns []). }
  eexists p', _, _. split_and!; [done| |].
  2: { intros rest. cbn [app].
       destruct (udp_loop_datagram name nch p d remote turns (evs ++ rest) Hp) as [_ ->].
       rewrite Hd. cbn [from_option id]. rewrite Hm, Hrest. unfold udp_then. cbn [ur_metas ur_sends ur_end].
       by rewrite !app_assoc. }
  intros j Hj. cbn [zip_with concat]. by rewrite on_chan_app, Hk, Hk2.
Qed.

(** C17: a full output loses only its own messages.  When the server reads datagrams that decode
    and is not cancelled, it reads on, and every output gets, in order, exactly the messages
    for which it had room itself, whatever the state of the other outputs and whatever codecs
    earlier datagrams asked for. *)
Theorem udp_isolates name nch evs msgss :
  Forall2 (good_datagram name) evs msgss ->
  let r := runServer (C := C) (M := M) name "st" nch evs in
  ur_end r = None
  /\ forall j, j < nch -> on_chan j (ur_sends r) = concat (zip_with (kept_of j) evs msgss).
Proof.
  intros HF. unfold runServer, getNewEncapParser. rewrite String.eqb_refl.
  destruct (dgram_parser_new name) as (p & Hp & Hw). rewrite Hp.
  destruct (udp_loop_good name nch evs msgss HF p Hw) as (p' & ms & sends & _ & Hk & Hr).
  specialize (Hr []). rewrite app_nil_r in Hr. cbn zeta. rewrite Hr. simpl.
  split; [done|]. intros j Hj. by rewrite app_nil_r, Hk.
Qed.

(** One bad datagram stops the server.  After any good ones, a datagram that does not decode, from
    whatever peer, ends the server with one error counted against that peer; nothing that follows
    it on the socket is read, and what came before is not affected. *)
Lemma udp_bad_datagram name nch pre msgss d remote turns ms e post :
  Forall2 (good_datagram name) pre msgss ->
  dgram_msgs name remote (take (Z.to_nat ENC_ST_MAX_DGRAM) d) = (ms, Err e) ->
  let r := runServer (C := C) (M := M) name "st" nch pre in
  runServer (C := C) (M := M) name "st" nch (pre ++ UdpDatagram d remote turns :: post)
  = UdpRun (ur_metas r ++ ms ++ [Inc "xportUDP_errors" [name; remote]]) (ur_sends r)
      (Some (UdpBlock e)).
Proof.
  intros HF Hd. unfold runServer, getNewEncapParser. rewrite String.eqb_refl.
  destruct (dgram_parser_new name) as (p & Hp & Hw). rewrite Hp.
  destruct (udp_loop_good name nch pre msgss HF p Hw) as (p' & ms' & sends & Hw' & _ & Hr).
  pose proof (Hr []) as Hr0. rewrite app_nil_r in Hr0. cbn zeta. rewrite Hr0, Hr.
  destruct (udp_loop_datagram name nch p' d remote turns post Hw') as [_ ->].
  rewrite Hd. unfold udp_then. simpl. by rewrite !app_nil_r.
Qed.

(** no bytes make the server panic *)
Lemma udp_no_panic name nch evs :
  ur_end (runServer (C := C) (M := M) name "st" nch evs) <> Some UdpPanic.
Proof.
  unfold runServer, getNewEncapParser. rewrite String.eqb_refl.
  destruct (dgram_parser_new name) as (p & -> & Hw). revert p Hw.
  induction evs as [|[d remote turns|remote c] evs IH]; intros p Hw; [done| |].
  - destruct (udp_loop_datagram name nch p d remote turns evs Hw) as [Hw' ->].
    pose proof (nextBlock_no_panic (M := M) p (take (Z.to_nat ENC_ST_MAX_DGRAM) d) (Some remote)
      (proj1 Hw) ltac:(by eexists)) as Hnp.
    rewrite (dgram_msgs_at name) in Hnp by done. cbn zeta.
    destruct (dgram_msgs name remote _) as [ms [msgs|e|]]; try done.
    destruct (udp_msgs _ _ _ _ _ _) as [[ms' sends] []]; [done|]. by apply IH.
  - cbn [udp_loop]. by rewrite (dgram_buffer name).
Qed.
End Theorems.

(** *** The keeper *)

Lemma keeper_run_app ls1 : forall s ls2,
  keeper_run s (ls1 ++ ls2) = s' ← keeper_run s ls1; keeper_run s' ls2.
Proof.
  induction ls1 as [|l ls1 IH]; intros s ls2; [done|]. simpl.
  destruct (keeper_step s l); simpl; [apply IH|done].
Qed.

(** Invariant: the keeper is cancelled exactly while it shuts down and after, a server runs on a
    listener only, and the answers are reports, followed by one to the shutdown, after
    which no server runs. *)
Record keeper_inv (s : keeper) : Prop := {
  ki_cancelled : kp_cancelled s = if kp_mode s is (KClosing | KReturned) then true else false;
  ki_serving : kp_serving s = true -> kp_listener s = true;
  ki_closing : kp_mode s = KClosing -> kp_listener s = true;
  ki_acks : exists n, kp_acks s = replicate n REPORT
              ++ (if kp_mode s is KReturned then [SHUTDOWN] else []);
  ki_returned : kp_mode s = KReturned -> kp_serving s = false;
}.

Lemma keeper_step_inv s l s' : keeper_inv s -> keeper_step s l = Some s' -> keeper_inv s'.
Proof.
  intros [Hc Hs Hcl [n Ha] Hr]. destruct s as [m li sv ca acks]. simpl in *.
  destruct l as [[]| |[]| |], m; simpl; intros Hstep; try discriminate Hstep;
    repeat case_match; try discriminate; injection Hstep as <-;
    constructor; simpl; subst; try discriminate; auto.
  all: try (exists n; by rewrite ?app_nil_r).
  - intros _. destruct sv; [discriminate (Hs eq_refl)|done].
  - exists (S n). by rewrite !app_nil_r, <- replicate_cons_app.
Qed.

Lemma keeper_run_inv ls : forall s s',
  keeper_inv s -> keeper_run s ls = Some s' -> keeper_inv s'.
Proof.
  induction ls as [|l ls IH]; intros s s' Hs H; simpl in H; [by simplify_eq|].
  apply bind_Some in H as (s1 & H1 & H2). eauto using keeper_step_inv.
Qed.

Lemma keeper_init_inv : keeper_inv keeper_init.
Proof. constructor; simpl; try done. by exists 0. Qed.

(** A UDP input always stops, and is quiet when it says so.  Whatever the keeper, its server and the
    socket have been through, a keeper that has not returned can be stopped: after at most one
    wake-up it takes the shutdown, then nothing but the server's return can happen, and
    then it answers, once; and whenever it has answered a shutdown, no server runs. *)
Lemma udp_shutdown ls s :
  keeper_run keeper_init ls = Some s ->
  (SHUTDOWN ∈ kp_acks s <-> kp_mode s = KReturned)
  /\ (kp_mode s = KReturned -> kp_serving s = false)
  /\ (kp_mode s = KClosing -> forall l s', keeper_step s l = Some s' ->
        l = KServerStops /\ kp_serving s' = false \/ l = KClosed /\ kp_mode s' = KReturned)
  /\ (kp_mode s <> KReturned -> exists ls' s', keeper_run s ls' = Some s'
        /\ kp_mode s' = KReturned /\ length ls' <= 4
        /\ Forall (fun l => l ∈ [KWake; KCtrl SHUTDOWN; KServerStops; KClosed]) ls').
Proof.
  intros H. apply (keeper_run_inv _ _ _ keeper_init_inv) in H as [Hc Hs Hcl [n Ha] Hr].
  destruct s as [m li sv ca acks]. simpl in *. split_and!; [|done| |].
  - rewrite Ha, elem_of_app. split; [|intros ->; set_solver].
    intros [[? _]%elem_of_replicate|Hin]; [done|].
    destruct m; set_solver.
  - intros -> l s'. destruct l as [[]| |[]| |], sv; simpl; intros [= <-]; auto.
  - intros Hm.
    assert (exists ls' s', keeper_run (Keeper m li sv ca acks) ls' = Some s'
      /\ kp_mode s' = KReturned /\ ls' = (if m is KRetry then [KWake] else [])
        ++ (if m is KClosing then [] else [KCtrl SHUTDOWN])
        ++ (if sv then [KServerStops] else []) ++ (if li then [KClosed] else []))
      as (ls' & s' & H1 & H2 & ->).
    { destruct li, sv; try discriminate (Hs eq_refl); destruct m;
        try discriminate (Hcl eq_refl); try destruct (Hm eq_refl);
        (eexists _, _; split; [|split; [|reflexivity]]; reflexivity). }
    eexists _, s'. split_and!; [done..| |].
    + destruct m, sv, li; simpl; lia.
    + destruct m, sv, li; simpl; repeat constructor; set_solver.
Qed.
