(* ===== verification/Tap.v ===== *)
(** * The tap output ([tap.go])

    Every message is dumped to a file: counted only, raw (framed like the wire
    format, for the replay input), or as text.  The feeder loop is a step function
    on its events; the writer is the bytes written so far. *)
From S2P Require Import Prelude Message EncapST.

Definition DATACHANNELDEPTH : Z := 1000.

(** what the text dump takes from the standard library *)
Class TapEnv := {
  hex_Dump : bytes -> string;
  json_Indent : bytes -> string;
  err_string : goerr -> string;
}.

Section Tap.
Context `{E : Env} `{T : TapEnv} {M : Type} `{D : !DataMsg M}.

(** the configuration of the module *)
Record tapOutputModule : Type := TapModule {
  tap_name : string;
  tap_filename : string;
  tap_countOnly : bool;
  tap_rawDump : bool;
  tap_streamSpec : dataMsgStreamSpec E;
  tap_dataChannelDepth : Z;
}.

(** Messages, ticks of the count timer and control requests, with the wall clock
    where the loop prints it.  [TapData None] is a receive from the closed channel. *)
Inductive tap_event : Type :=
| TapTimeout (now : string)
| TapData (now : string) (msg : option M)
| TapCtrl (id : msgID).

(** The state of the loop: the counters, the bytes flushed to the file and the bytes
    still in the buffered writer, and whether the loop has returned.  A full
    buffer is flushed by the writer on its own, which only moves bytes from
    [tap_buf] to [tap_file] sooner. *)
Record tap_state : Type := TapState {
  tap_stats : msgStats;
  tap_file : bytes;
  tap_buf : bytes;
  tap_chanOpen : bool;
  tap_running : bool;
}.

(** the dump file is opened for appending: what it holds already stays *)
Definition tap_init (old : bytes) : tap_state := TapState msgStats_zero old [] true true.

(** all that was written *)
Definition tap_written (s : tap_state) : bytes := tap_file s ++ tap_buf s.

Definition tap_write (s : tap_state) (b : bytes) : tap_state :=
  TapState (tap_stats s) (tap_file s) (tap_buf s ++ b) (tap_chanOpen s) (tap_running s).
Definition tap_writeString (s : tap_state) (t : string) : tap_state :=
  tap_write s (bytes_of_string t).
Definition tap_flush (s : tap_state) : tap_state :=
  TapState (tap_stats s) (tap_written s) [] (tap_chanOpen s) (tap_running s).
Definition tap_setStats (s : tap_state) (st : msgStats) : tap_state :=
  TapState st (tap_file s) (tap_buf s) (tap_chanOpen s) (tap_running s).

(** a panic in the goroutine ends the loop *)
Definition tap_halt (s : tap_state) : tap_state :=
  TapState (tap_stats s) (tap_file s) (tap_buf s) (tap_chanOpen s) false.

Definition newline : string := String (Ascii.ascii_of_nat 10) "".

(** the replies a control request gets: an ACK, with the counters for a report *)
Inductive tap_reply : Type := AckStats (st : msgStats) | AckDone.

(** [raw = true]: the frame written for a message, if its stream, its stream
    type and its encapsulation are all available *)
Definition raw_frame (m : M) : list meta * res bytes :=
  let '(ms, r) := produceByteStream m dataMsgStreamSpecDefault in
  (ms,
   let! b := r in
   let! enc := dataMsgStreamTypeToEncoding (getDataMsgStreamType m) in
   let! encst := encapSTFromEncoding enc in
   Ok (write_hdr (STHdr ENC_ST_HDR_MSG_TYPE_TELEMETRY_DATA encst ENC_ST_HDR_VERSION
         ENC_ST_HDR_MSG_FLAGS_NONE (u32 (Z.of_nat (slice_len b)))) ++ slice_bytes b)).

Definition tap_raw (s : tap_state) (m : M) : tap_state * list meta :=
  let '(ms, r) := raw_frame m in
  (match r with Ok b => tap_write s b | Err _ => s | Panic => tap_halt s end, ms).

(** the text dump *)
Definition tap_text (t : tapOutputModule) (s : tap_state) (now : string) (m : M)
    : tap_state * list meta :=
  let hexOnly := negb (dataMsgStreamSpecTextBased (tap_streamSpec t)) in
  let dump (failed : option goerr) (b : slice) :=
    let s := tap_setStats s (stats_ok (tap_stats s)) in
    let s := tap_writeString s (newline +:+ "------- " +:+ now +:+ " -------" +:+ newline) in
    let s := tap_writeString s ("Summary: " +:+ getDataMsgDescription m +:+ newline) in
    let s := match failed with
             | Some e => tap_writeString
                 (tap_writeString s
                    ("Requested stream type failed: [" +:+ err_string e +:+ "]" +:+ newline))
                 (hex_Dump (slice_bytes b))
             | None => tap_writeString s
                 (if hexOnly then hex_Dump (slice_bytes b) else json_Indent (slice_bytes b))
             end in
    tap_flush s in
  let '(ms, r) := produceByteStream m (tap_streamSpec t) in
  match r with
  | Ok None => (s, ms)
  | Ok b => (dump None b, ms)
  | Panic => (tap_halt s, ms)
  | Err errStreamType =>
      let '(ms', r') := produceByteStream m dataMsgStreamSpecDefault in
      match r' with
      | Ok b => (dump (Some errStreamType) b, ms ++ ms')
      | Panic => (tap_halt s, ms ++ ms')
      | Err _ => (tap_setStats s (stats_nok (tap_stats s)), ms ++ ms')
      end
  end.

Definition tap_data (t : tapOutputModule) (s : tap_state) (now : string) (m : M)
    : tap_state * list meta :=
  if tap_countOnly t then (tap_setStats s (stats_ok (tap_stats s)), [])
  else if tap_rawDump t then tap_raw s m
  else tap_text t s now m.

(** one turn of the feeder loop *)
Definition tapOutputFeederLoop_step (t : tapOutputModule) (s : tap_state) (ev : tap_event)
    : tap_state * (list meta * list tap_reply) :=
  if negb (tap_running s) then (s, ([], []))
  else match ev with
  | TapTimeout now =>
      if tap_countOnly t then
        (tap_flush (tap_writeString s
           (tap_name t +:+ ":" +:+ now +:+ ": rxed msgs: "
            +:+ pretty (MsgsOK (tap_stats s)) +:+ newline)), ([], []))
      else (s, ([], []))
  | TapData now msg =>
      if negb (tap_chanOpen s) then (s, ([], []))
      else match msg with
      | None => (TapState (tap_stats s) (tap_file s) (tap_buf s) false true, ([], []))
      | Some m => let '(s', ms) := tap_data t s now m in (s', (ms, []))
      end
  | TapCtrl REPORT => (s, ([], [AckStats (tap_stats s)]))
  | TapCtrl SHUTDOWN =>
      let s := tap_flush s in
      (TapState (tap_stats s) (tap_file s) (tap_buf s) (tap_chanOpen s) false,
       ([], [AckDone]))
  | TapCtrl ACK => (s, ([], []))
  end.

Fixpoint tap_run (t : tapOutputModule) (s : tap_state) (evs : list tap_event)
    : tap_state :=
  match evs with
  | [] => s
  | ev :: evs' => tap_run t (tapOutputFeederLoop_step t s ev).1 evs'
  end.

(** [configure]: the module, or an error that may be nil.  The three results of the
    Go function are the error and two channels; a nil error with nil
    channels is [CfgNilNil]. *)
Inductive cfg_result (A : Type) : Type :=
| CfgOk (a : A)
| CfgErr (e : goerr)
| CfgNilNil
| CfgPanic.
Arguments CfgOk {A} a.
Arguments CfgErr {A} e.
Arguments CfgNilNil {A}.
Arguments CfgPanic {A}.

Definition missing : goerr := External "option not found".

Definition tap_configure (name : string) (nc : nodeConfig) : cfg_result tapOutputModule :=
  match GetString nc name "file" with
  | None => CfgErr missing
  | Some filename =>
      let depth_err := match GetInt nc name "datachanneldepth" with
                       | Some _ => false | None => true end in
      let depth := default DATACHANNELDEPTH (GetInt nc name "datachanneldepth") in
      let countOnly := get_bool nc name "countonly" in
      let rawDump := get_bool nc name "raw" in
      (* [err] still is the result of the last getter that set it *)
      if rawDump && countOnly then (if depth_err then CfgErr missing else CfgNilNil)
      else if rawDump && bool_decide (is_Some (GetString nc name "encoding"))
      then CfgNilNil
      else match dataMsgStreamSpecFromConfig nc name with
           | Ok spec =>
               match make_depth depth with
               | Ok _ => CfgOk (TapModule name filename countOnly rawDump spec depth)
               | _ => CfgPanic
               end
           | Err e => CfgErr e
           | Panic => CfgPanic
           end
  end.

End Tap.
Arguments tapOutputModule E : clear implicits.
Arguments tap_event M : clear implicits.
Arguments CfgOk {A} a.
Arguments CfgErr {A} e.
Arguments CfgNilNil {A}.
Arguments CfgPanic {A}.

Section Theorems.
Context `{E : Env} `{T : TapEnv} {M : Type} `{D : !DataMsg M}.
Implicit Types s : tap_state.

Lemma tap_written_write s b : tap_written (tap_write s b) = tap_written s ++ b.
Proof. unfold tap_written. simpl. by rewrite app_assoc. Qed.

Definition raw_bytes (m : M) : bytes := ok_or [] (raw_frame m).2.

Definition raw_total (m : M) : Prop := is_panic (raw_frame m).2 = false.

Lemma tap_run_raw (t : tapOutputModule E) evs : forall s,
  Forall (fun nm => raw_total nm.2) evs ->
  tap_countOnly t = false -> tap_rawDump t = true ->
  tap_running s = true -> tap_chanOpen s = true ->
  let s' := tap_run t s (map (fun nm => TapData nm.1 (Some nm.2)) evs) in
  tap_written s' = tap_written s ++ concat (map (fun nm => raw_bytes nm.2) evs)
  /\ tap_running s' = true /\ tap_chanOpen s' = true.
Proof.
  induction evs as [|[now m] evs IH]; intros s HF Hc Hr Hrun Hopen.
  { simpl. by rewrite app_nil_r. }
  inversion HF as [|? ? Hm HF']; subst. unfold raw_total in Hm.
  cbn [map tap_run concat fst snd] in *.
  assert (exists s1, (tapOutputFeederLoop_step t s (TapData now (Some m))).1 = s1
    /\ tap_written s1 = tap_written s ++ raw_bytes m
    /\ tap_running s1 = true /\ tap_chanOpen s1 = true) as (s1 & -> & Hw & Hrun1 & Hopen1).
  { eexists. split; [reflexivity|]. unfold tapOutputFeederLoop_step. rewrite Hrun, Hopen.
    unfold tap_data, tap_raw, raw_bytes. rewrite Hc, Hr. simpl.
    destruct (raw_frame m) as [ms [b|e|]]; simpl in *;
      [by rewrite tap_written_write|by rewrite app_nil_r|done]. }
  destruct (IH s1 HF' Hc Hr Hrun1 Hopen1) as (-> & ? & ?). by rewrite Hw, app_assoc.
Qed.

(** A raw dump is the frames of the messages.  In raw mode, after any
    messages and the shutdown request, the file holds, after what it held before, exactly the
    frames of the messages that could be framed, in order, and nothing is left in the writer;
    the request is acknowledged and the loop has returned. *)
Lemma tap_raw_dump (t : tapOutputModule E) old evs :
  Forall (fun nm => raw_total nm.2) evs ->
  tap_countOnly t = false -> tap_rawDump t = true ->
  let s := tap_run t (tap_init old) (map (fun nm => TapData nm.1 (Some nm.2)) evs) in
  let '(s', (_, replies)) := tapOutputFeederLoop_step (D := D) t s (TapCtrl SHUTDOWN) in
  tap_file s' = old ++ concat (map (fun nm => raw_bytes nm.2) evs)
  /\ tap_buf s' = [] /\ replies = [AckDone] /\ tap_running s' = false.
Proof.
  intros HF Hc Hr. destruct (tap_run_raw t evs (tap_init old) HF Hc Hr eq_refl eq_refl)
    as (Hw & Hrun & _). cbn zeta. unfold tapOutputFeederLoop_step. rewrite Hrun. simpl.
  rewrite Hw. unfold tap_written. simpl. by rewrite app_nil_r.
Qed.

(** A misconfigured tap reports no error.  A raw dump that also asks for an
    encoding is refused with a nil error and nil channels, whatever the encoding. *)
Lemma tap_configure_nil name nc file enc :
  GetString nc name "file" = Some file ->
  GetBool nc name "raw" = Some true ->
  get_bool nc name "countonly" = false ->
  GetString nc name "encoding" = Some enc ->
  tap_configure name nc = CfgNilNil.
Proof.
  intros Hf Hr Hc He. unfold tap_configure. rewrite Hf, Hc, He.
  unfold get_bool. rewrite Hr. reflexivity.
Qed.
End Theorems.
