(* ===== verification/Replay.v ===== *)
(** * The replay input ([replay.go])

    The archive written by a raw tap is read back block by block.  One tick of the
    loop reads until it has produced a message; the state keeps the unread part of
    the file and the parser.  The theorems relate the archive to what the tap wrote. *)
From S2P Require Import Prelude Message EncapST Gpb Codec Tcp Tap.

Definition REPLAY_DELAY_DEFAULT_USEC : Z := 200000.

Section Replay.
Context {C M : Type} `{K : Codec C M}.

(** configuration *)
Record replayInputModule : Type := ReplayModule {
  rp_name : string;
  rp_filename : string;
  rp_logData : bool;
  rp_firstN : Z;
  rp_loop : bool;
  rp_delayUsec : Z;
}.

Definition replay_String (t : replayInputModule) : string :=
  rp_name t +:+ ":" +:+ rp_filename t.

(** the state of the feeder loop: the archive, its unread part, the parser, [done],
    the messages counted, and the output channels *)
Record replay_state : Type := ReplayState {
  rs_file : bytes;
  rs_unread : bytes;
  rs_parser : encapSTParser C;
  rs_done : bool;
  rs_count : Z;
  rs_chans : list (chan M);
}.

Definition rs_read (s : replay_state) (unread : bytes) (p : encapSTParser C)
    : replay_state :=
  ReplayState (rs_file s) unread p (rs_done s) (rs_count s) (rs_chans s).
Definition rs_stop (s : replay_state) : replay_state :=
  ReplayState (rs_file s) (rs_unread s) (rs_parser s) true (rs_count s) (rs_chans s).

(** one message on every channel that has room; a full channel is skipped *)
Definition offer (m : M) (c : chan M) : chan M :=
  if ch_room c then ch_push c m else c.

Definition deliver (msgs : list M) (chans : list (chan M)) : list (chan M) :=
  fold_left (fun cs m => map (offer m) cs) msgs chans.

(** how a tick ended: messages were produced and the loop goes on; or the feeder
    loop returned, with an error or nil *)
Inductive tick_end : Type :=
| TickMsgs (msgs : list M)
| TickReturn (err : option goerr)
| TickPanic.

(** The inner loop of a tick; [None] is not within the fuel. *)
Fixpoint replay_read (t : replayInputModule) (fuel : nat) (s : replay_state)
    : replay_state * (list meta * option tick_end) :=
  match fuel with
  | O => (s, ([], None))
  | S fuel' =>
      match nextBlockBuffer (rs_parser s) with
      | Err e => (rs_stop s, ([], Some (TickReturn (Some e))))
      | Panic => (s, ([], Some TickPanic))
      | Ok n =>
          match read_full n (rs_unread s) with
          | Panic => (s, ([], Some TickPanic))
          | Err EOF =>
              if negb (rp_loop t) then (s, ([], Some (TickReturn None)))
              else match getNewEncapParser (C := C) (M := M) (rp_name t) "st" (Some (replay_String t)) with
                   | Ok p => replay_read t fuel' (rs_read s (rs_file s) p)
                   | _ => (s, ([], Some TickPanic))
                   end
          | Err e => (rs_stop s, ([], Some (TickReturn (Some e))))
          | Ok (buffer, unread) =>
              let '(p', (ms, r)) := nextBlock (M := M) (rs_parser s) buffer None in
              let s' := rs_read s unread p' in
              match r with
              | Err e => (rs_stop s', (ms, Some (TickReturn (Some e))))
              | Panic => (s', (ms, Some TickPanic))
              | Ok None =>
                  let '(s'', (ms', o)) := replay_read t fuel' s' in
                  (s'', (ms ++ ms', o))
              | Ok (Some msgs) =>
                  let count := i64 (rs_count s' + 1) in
                  let dn := rs_done s'
                            || (bool_decide (count = rp_firstN t)
                                && bool_decide (rp_firstN t <> 0%Z)) in
                  (ReplayState (rs_file s') (rs_unread s') (rs_parser s') dn count
                     (deliver msgs (rs_chans s')),
                   (ms, Some (TickMsgs msgs)))
              end
          end
      end
  end.

Definition replay_tick (t : replayInputModule) (fuel : nat) (s : replay_state)
    : replay_state * (list meta * option tick_end) :=
  if rs_done s then (s, ([], Some (TickMsgs []))) else replay_read t fuel s.

(** the start of [replayInputFeederLoop] on a file that opens *)
Definition replay_open (t : replayInputModule) (file : bytes) (dn : bool) (count : Z)
    (chans : list (chan M)) : res replay_state :=
  let! p := getNewEncapParser (C := C) (M := M) (rp_name t) "st" (Some (replay_String t)) in
  Ok (ReplayState file file p dn count chans).

(** Ticks until the feeder loop returns, at most [k]: the messages of each
    tick, in order, and the error the loop returned with. *)
Fixpoint replay_run (t : replayInputModule) (k fuel : nat) (s : replay_state)
    : list M * option (option goerr) :=
  match k with
  | O => ([], None)
  | S k' =>
      match replay_tick t fuel s with
      | (s', (_, Some (TickMsgs msgs))) =>
          let '(out, e) := replay_run t k' fuel s' in (msgs ++ out, e)
      | (_, (_, Some (TickReturn e))) => ([], Some e)
      | _ => ([], None)
      end
  end.

(** [configure] *)
Definition replay_configure (name : string) (nc : nodeConfig) : res replayInputModule :=
  match GetString nc name "file" with
  | None => Err (External "option not found")
  | Some file =>
      let firstN := get_int nc name "firstn" in
      Ok (ReplayModule name file (get_bool nc name "logdata") firstN
            (if bool_decide (firstN = 0%Z) then get_bool nc name "loop" else false)
            (default REPLAY_DELAY_DEFAULT_USEC (GetInt nc name "delayusec")))
  end.

(** ** The node ([replayInputFeederLoopSticky])

    The feeder loop with its control channel, started again after an error. *)
Inductive replay_mode : Type :=
| RnFeeding (s : replay_state)
| RnResting (dn : bool) (count : Z) (chans : list (chan M))   (* the second before a restart *)
| RnHung                                                      (* in a tick that does not end *)
| RnCrashed
| RnExited.

Record replay_node : Type := ReplayNode {
  rn_mode : replay_mode;
  rn_out : list M;         (* the messages produced *)
  rn_acks : list msgID;    (* the requests answered *)
}.

Inductive replay_event : Type :=
| RTick
| RCtrl (id : msgID)
| ROpen (file : option bytes).    (* the feeder loop starts; [None]: the file does not open *)

Definition replay_node_step (t : replayInputModule) (fuel : nat) (n : replay_node)
    (ev : replay_event) : option replay_node :=
  match rn_mode n, ev with
  | RnFeeding s, RTick =>
      Some match replay_tick t fuel s with
           | (s', (_, Some (TickMsgs msgs))) =>
               ReplayNode (RnFeeding s') (rn_out n ++ msgs) (rn_acks n)
           | (_, (_, Some (TickReturn None))) => ReplayNode RnExited (rn_out n) (rn_acks n)
           | (s', (_, Some (TickReturn (Some _)))) =>
               ReplayNode (RnResting (rs_done s') (rs_count s') (rs_chans s')) (rn_out n) (rn_acks n)
           | (_, (_, Some TickPanic)) => ReplayNode RnCrashed (rn_out n) (rn_acks n)
           | (_, (_, None)) => ReplayNode RnHung (rn_out n) (rn_acks n)
           end
  | RnFeeding s, RCtrl REPORT => Some (ReplayNode (RnFeeding s) (rn_out n) (rn_acks n ++ [REPORT]))
  | RnFeeding _, RCtrl SHUTDOWN => Some (ReplayNode RnExited (rn_out n) (rn_acks n ++ [SHUTDOWN]))
  | RnFeeding s, RCtrl ACK => Some n
  | RnResting dn count chans, ROpen file =>
      let dn := match file with Some _ => dn | None => true end in
      Some (ReplayNode
        match replay_open t (default [] file) dn count chans with
        | Ok s => RnFeeding s
        | _ => RnCrashed
        end (rn_out n) (rn_acks n))
  | _, _ => None
  end.

Fixpoint replay_node_run (t : replayInputModule) (fuel : nat) (n : replay_node)
    (evs : list replay_event) : option replay_node :=
  match evs with
  | [] => Some n
  | ev :: evs' => n' ← replay_node_step t fuel n ev; replay_node_run t fuel n' evs'
  end.

(** a node about to start *)
Definition replay_node_init (chans : list (chan M)) : replay_node :=
  ReplayNode (RnResting false 0 chans) [] [].

End Replay.
Arguments replay_state C M : clear implicits.
Arguments tick_end M : clear implicits.
Arguments replay_mode C M : clear implicits.
Arguments replay_node C M : clear implicits.

Section Theorems.
Context {C M : Type} `{KL : CodecLaws C M}.
Implicit Types s : replay_state C M.

(** state at a frame boundary *)
Definition at_boundary (t : replayInputModule) s : Prop :=
  parser_wf (M := M) (rs_parser s) /\ p_state (rs_parser s) = ENC_ST_WAIT_FOR_HDR
  /\ p_name (rs_parser s) = rp_name t
  /\ p_source (rs_parser s) = Some (replay_String t).

Lemma replay_open_ok t file dn count chans :
  exists s, replay_open (C := C) (M := M) t file dn count chans = Ok s.
Proof.
  unfold replay_open, getNewEncapParser. rewrite String.eqb_refl.
  destruct (getNewEncapSTParser_ok (C := C) (M := M) (rp_name t) (Some (replay_String t)))
    as [p ->]. eexists. reflexivity.
Qed.

Lemma replay_open_boundary t file dn count chans s :
  replay_open (C := C) (M := M) t file dn count chans = Ok s ->
  at_boundary t s /\ rs_unread s = file /\ rs_file s = file /\ rs_done s = dn.
Proof.
  unfold replay_open, getNewEncapParser. simpl. intros (p & Hp & [= <-])%res_bind_ok.
  pose proof (getNewEncapSTParser_wf _ _ _ Hp) as Hwf.
  unfold getNewEncapSTParser in Hp. apply res_bind_ok in Hp as (cs & _ & [= <-]). done.
Qed.

(** without looping, a tick returns within a fuel larger than what is unread *)
Lemma replay_read_ends t : forall fuel s,
  rp_loop t = false -> length (rs_unread s) < fuel -> parser_wf (M := M) (rs_parser s) ->
  is_Some (replay_read (M := M) t fuel s).2.2.
Proof.
  induction fuel as [|fuel IH]; intros s Hloop Hlt Hwf; [lia|]. simpl.
  pose proof (nextBlockBuffer_pos _ Hwf) as Hnz.
  destruct (nextBlockBuffer (rs_parser s)) as [n| |] eqn:Eb; [|by eexists..].
  destruct (read_full n (rs_unread s)) as [[a b]|e|] eqn:Er; [| |by eexists].
  2: { destruct e; try (by eexists). rewrite Hloop. by eexists. }
  apply read_full_shrinks in Er; [|intros ->; done].
  pose proof (nextBlock_wf (M := M) (rs_parser s) a None Hwf) as Hwf'.
  destruct (nextBlock (rs_parser s) a None) as [p' [ms [[msgs|]| |]]];
    try (by eexists). simpl in Hwf'.
  specialize (IH (rs_read s b p') Hloop). simpl in IH.
  destruct (replay_read t fuel (rs_read s b p')) as [s'' [ms' o]]. simpl in *.
  apply IH; [lia|done].
Qed.

(** what reading a frame leaves: the parser back at a boundary, one more message
    counted, and the messages offered to the channels *)
Definition after_frame (t : replayInputModule) s (unread : bytes) (msgs : list M) s' : Prop :=
  at_boundary t s' /\ rs_unread s' = unread /\ rs_file s' = rs_file s
  /\ rs_count s' = i64 (rs_count s + 1)
  /\ rs_done s' = (rs_done s || (bool_decide (i64 (rs_count s + 1) = rp_firstN t)
                                && bool_decide (rp_firstN t <> 0%Z)))
  /\ rs_chans s' = deliver msgs (rs_chans s).

Lemma replay_read_frame t s z payload unread fuel ms msgs :
  at_boundary t s -> rs_unread s = frame z payload ++ unread ->
  is_Some (encap_encoding z) -> payload <> [] ->
  (Z.of_nat (length payload) <= ENC_ST_MAX_PAYLOAD)%Z ->
  frame_msgs (C := C) (M := M) (rp_name t) (replay_String t) (z, payload) = (ms, Ok (Some msgs)) ->
  2 <= fuel ->
  exists s', replay_read (M := M) t fuel s = (s', (ms, Some (TickMsgs msgs)))
             /\ after_frame t s unread msgs s'.
Proof.
  intros (Hwf & Hst & Hname & Hsrc) Hun [e He] Hne Hmax Hmsgs Hfuel.
  destruct fuel as [|[|fuel]]; [lia..|].
  pose proof (encap_encoding_bound _ _ He) as Hz.
  pose proof (frame_hdr_wf z (length payload) Hz ltac:(unfold ENC_ST_MAX_PAYLOAD in *; lia)) as Hh.
  destruct (codec_at_support _ _ _ Hwf He) as (c & Hgc & Hc).
  unfold frame_msgs in Hmsgs. cbn [fst snd] in Hmsgs. rewrite He, <- Hname, Hgc in Hmsgs.
  cbn [replay_read]. rewrite nextBlockBuffer_hdr by done.
  rewrite Hun. unfold frame. rewrite <- app_assoc.
  rewrite read_full_app by (by rewrite ?length_write_hdr).
  pose proof (nextBlock_header (M := M) _ _ [] Hwf Hst Hh) as Hnb.
  rewrite app_nil_r in Hnb. rewrite Hnb. clear Hnb.
  cbn [MsgEncap Msglen Msgflag]. rewrite He. cbn zeta.
  rewrite bool_decide_eq_false_2 by lia. rewrite bool_decide_eq_false_2 by naive_solver.
  set (p1 := set_state _ _ _).
  assert (parser_wf (M := M) p1) as Hwf1.
  { apply set_state_data_wf; [by apply set_codec_wf|simpl; by rewrite Hc|lia]. }
  assert (length payload <> 0) as Hlen by (by destruct payload).
  cbn [rs_read rs_parser rs_unread]. unfold nextBlockBuffer at 1.
  cbn [p1 set_state set_codec p_state p_nextBlockSize].
  rewrite bool_decide_eq_false_2 by lia. rewrite bool_decide_eq_false_2 by lia.
  rewrite Nat2Z.id, read_full_app by done.
  rewrite (nextBlock_payload p1 c) by done.
  cbn [p1 set_state set_codec p_source]. rewrite Hsrc, Hmsgs.
  eexists. split; [reflexivity|]. unfold after_frame, at_boundary. simpl.
  split; [|done]. split; [|done]. apply (set_state_hdr_wf _ 0 Hwf1).
Qed.

(** the ticks over an archive of good frames *)
Lemma replay_run_frames t fs : forall k fuel s,
  Forall (good_frame (C := C) (M := M) (rp_name t) (replay_String t)) fs ->
  at_boundary t s -> rs_unread s = concat (map (fun f => frame f.1 f.2) fs) ->
  rs_done s = false -> rp_loop t = false -> rp_firstN t = 0%Z ->
  length fs < k -> 2 <= fuel ->
  replay_run (M := M) t k fuel s
  = (concat (map (fun f => default []
       (ok_or None (frame_msgs (C := C) (rp_name t) (replay_String t) f).2)) fs), Some None).
Proof.
  induction fs as [|[z payload] fs IH]; intros k fuel s HF Hb Hun Hd Hl Hn Hk Hfuel.
  - destruct k as [|k]; [simpl in Hk; lia|]. destruct fuel as [|fuel]; [lia|].
    simpl. unfold replay_tick. rewrite Hd. simpl.
    destruct Hb as (Hwf & Hst & _). rewrite nextBlockBuffer_hdr by done.
    simpl in Hun. rewrite Hun. simpl. by rewrite Hl.
  - destruct k as [|k]; [simpl in Hk; lia|].
    inversion HF as [|? ? (Hz & Hne & Hmax & Hok) HF']; subst.
    cbn [map concat fst snd] in *.
    destruct (frame_msgs (rp_name t) (replay_String t) (z, payload)) as [ms r] eqn:Efm.
    destruct r as [[msgs|]| |]; try done; cycle 1.
    { unfold frame_msgs in Efm. cbn [fst snd] in Efm. destruct Hz as [e He].
      rewrite He in Efm. destruct (getCodec (rp_name t) e) as [c| |]; [|done..].
      pose proof (block_not_nil (C := C) (M := M) c (Some (replay_String t)) (Some payload) None) as Hnn.
      rewrite Efm in Hnn. by destruct (Hnn eq_refl). }
    destruct (replay_read_frame t s z payload _ fuel ms msgs Hb Hun Hz Hne Hmax Efm Hfuel)
      as (s' & Hr & Hb' & Hun' & _ & _ & Hd' & _).
    cbn [replay_run]. unfold replay_tick. rewrite Hd, Hr.
    rewrite (IH k fuel s'); simpl in *; try (done || lia).
    rewrite Hd', Hd, Hn. simpl. by rewrite andb_false_r.
Qed.

(** at the end of a looping archive, the loop starts over with a fresh parser *)
Lemma replay_read_rewind t fuel s n :
  rp_loop t = true -> rs_unread s = [] -> nextBlockBuffer (rs_parser s) = Ok n -> n <> 0 ->
  exists s', at_boundary t s' /\ rs_unread s' = rs_file s /\ rs_file s' = rs_file s
    /\ replay_read (M := M) t (S fuel) s = replay_read t fuel s'.
Proof.
  intros Hl Hun Hn Hnz. simpl. rewrite Hn, Hun. unfold read_full.
  rewrite decide_False by done. rewrite Hl. simpl.
  destruct (getNewEncapSTParser_ok (C := C) (M := M) (rp_name t) (Some (replay_String t)))
    as [p Hp].
  unfold getNewEncapParser. simpl. rewrite Hp. exists (rs_read s (rs_file s) p).
  split; [|done].
  destruct (replay_open_boundary t [] false 0 [] (ReplayState [] [] p false 0 []))
    as ((Hw & Hs & Hnm & Hsr) & _); [|done].
  unfold replay_open, getNewEncapParser. simpl. by rewrite Hp.
Qed.

(** a header at the end of the archive leaves the parser waiting for a payload *)
Lemma replay_read_header t fuel s z e n :
  at_boundary t s -> encap_encoding z = Some e -> (0 < n <= ENC_ST_MAX_PAYLOAD)%Z ->
  rs_unread s = write_hdr (STHdr ENC_ST_HDR_MSG_TYPE_TELEMETRY_DATA z ENC_ST_HDR_VERSION
                             ENC_ST_HDR_MSG_FLAGS_NONE n) ->
  exists s', rs_unread s' = [] /\ rs_file s' = rs_file s
    /\ nextBlockBuffer (rs_parser s') = Ok (Z.to_nat n)
    /\ (replay_read (M := M) t (S fuel) s).2.2 = (replay_read t fuel s').2.2.
Proof.
  intros (Hwf & Hst & _ & _) He Hn Hun.
  pose proof (frame_hdr_wf z (Z.to_nat n) (encap_encoding_bound _ _ He)
    ltac:(unfold ENC_ST_MAX_PAYLOAD in *; lia)) as Hh.
  rewrite Z2Nat.id in Hh by lia.
  cbn [replay_read]. rewrite nextBlockBuffer_hdr by done.
  rewrite Hun, <- (app_nil_r (write_hdr _)), read_full_app
    by (by rewrite ?length_write_hdr).
  pose proof (nextBlock_header (M := M) _ _ [] Hwf Hst Hh) as Hnb.
  rewrite app_nil_r in Hnb. rewrite Hnb. clear Hnb.
  cbn [MsgEncap Msglen Msgflag]. rewrite He. cbn zeta.
  rewrite bool_decide_eq_false_2 by lia. rewrite bool_decide_eq_false_2 by naive_solver.
  set (s' := rs_read s [] _). exists s'. split; [done|]. split; [done|]. split.
  - unfold nextBlockBuffer. simpl. rewrite bool_decide_eq_false_2 by lia.
    by rewrite bool_decide_eq_false_2 by lia.
  - by destruct (replay_read t fuel s') as [? [? ?]].
Qed.

(** An archive without a payload hangs a looping replay.  When the archive is
    empty, or ends right after its first header, a replay set to loop reads it again
    and again within one tick: no fuel is enough for the tick to end, and the
    control channel is not served again. *)
Lemma replay_loop_hangs t fuel file s :
  rp_loop t = true -> replay_open (C := C) (M := M) t file false 0 [] = Ok s ->
  file = [] \/ (exists z e n, encap_encoding z = Some e /\ (0 < n <= ENC_ST_MAX_PAYLOAD)%Z
     /\ file = write_hdr (STHdr ENC_ST_HDR_MSG_TYPE_TELEMETRY_DATA z ENC_ST_HDR_VERSION
                            ENC_ST_HDR_MSG_FLAGS_NONE n)) ->
  (replay_tick t fuel s).2.2 = None.
Proof.
  intros Hloop Hopen Hfile.
  destruct (replay_open_boundary t _ _ _ _ _ Hopen) as (Hb & Hun & Hf & Hd).
  unfold replay_tick. rewrite Hd. clear Hd Hopen. revert s Hb Hun Hf.
  induction fuel as [[|fuel] IH] using lt_wf_ind; intros s Hb Hun Hf; [done|].
  destruct Hfile as [->|(z & e & n & He & Hn & ->)].
  - destruct (replay_read_rewind t fuel s ENC_ST_HDR_MSG_SIZE) as (s' & ? & Hu & Hf' & ->);
      [done..| | |].
    + destruct Hb as (? & ? & _). by apply nextBlockBuffer_hdr.
    + done.
    + apply IH; [lia|done| |]; congruence.
  - destruct (replay_read_header t fuel s z e n Hb He Hn Hun) as (s1 & Hu1 & Hf1 & Hb1 & ->).
    destruct fuel as [|fuel]; [done|].
    destruct (replay_read_rewind t fuel s1 (Z.to_nat n)) as (s' & ? & Hu & Hf' & ->);
      [done..|lia|].
    apply IH; [lia|done| |]; congruence.
Qed.

(** the ticks of a run of the feeder loop that ends without an error take the node to its exit *)
Lemma replay_node_ticks t fuel k : forall s out n,
  replay_run (M := M) t k fuel s = (out, Some None) -> rn_mode n = RnFeeding s ->
  exists ticks, replay_node_run t fuel n (replicate ticks RTick)
                = Some (ReplayNode RnExited (rn_out n ++ out) (rn_acks n)).
Proof.
  induction k as [|k IH]; intros s out n Hrun Hn; simpl in Hrun; [done|].
  destruct (replay_tick t fuel s) as [s' [ms [[msgs|[e|]|]|]]] eqn:Et; simplify_eq.
  - destruct (replay_run t k fuel s') as [out' e] eqn:Er. simplify_eq.
    destruct (IH s' out' (ReplayNode (RnFeeding s') (rn_out n ++ msgs) (rn_acks n)) Er eq_refl)
      as [ticks Ht]. exists (S ticks). simpl. unfold replay_node_step. rewrite Hn, Et. simpl.
    by rewrite Ht, app_assoc.
  - exists 1. simpl. unfold replay_node_step. rewrite Hn, Et. simpl. by rewrite app_nil_r.
Qed.

(** A replay that is done is deaf.  A replay that neither loops nor stops at a count,
    started on an archive of good frames and left alone, produces the messages of all frames and
    exits; it has then answered nothing, and can answer nothing: not a report,
    and not the shutdown for whose answer the conductor waits. *)
Lemma replay_exhausted t chans fs fuel :
  Forall (good_frame (C := C) (M := M) (rp_name t) (replay_String t)) fs ->
  rp_loop t = false -> rp_firstN t = 0%Z -> 2 <= fuel ->
  exists ticks n,
    replay_node_run (C := C) t fuel (replay_node_init chans)
      (ROpen (Some (concat (map (fun f => frame f.1 f.2) fs))) :: replicate ticks RTick) = Some n
  /\ rn_out n = concat (map (fun f => default []
       (ok_or None (frame_msgs (C := C) (M := M) (rp_name t) (replay_String t) f).2)) fs)
  /\ rn_acks n = [] /\ forall ev, replay_node_step t fuel n ev = None.
Proof.
  intros HF Hl Hn Hfuel. set (file := concat _).
  destruct (replay_open_ok t file false 0 chans) as [s Hopen].
  destruct (replay_open_boundary t _ _ _ _ _ Hopen) as (Hb & Hun & _ & Hd).
  pose proof (replay_run_frames t fs (S (length fs)) fuel s HF Hb Hun Hd Hl Hn
    ltac:(lia) Hfuel) as Hrun.
  destruct (replay_node_ticks t fuel _ s _ (ReplayNode (RnFeeding s) [] []) Hrun eq_refl)
    as [ticks Ht].
  match type of Ht with _ = Some ?n => exists ticks, n end. split_and!; [|done..].
  cbn [replay_node_run].
  unfold replay_node_step at 1. cbn [replay_node_init rn_mode rn_out rn_acks default from_option id].
  rewrite Hopen. exact Ht.
Qed.
End Theorems.

(** ** Archives written by a raw tap *)

Section Archive.
Context `{G : GpbEnv} `{!GpbEnvLaws}.

(** the native stream of a message, and what makes it fit for an archive: a
    payload the stream parser accepts, which for GPB decodes *)
Definition native (m : dataMsg) : slice :=
  match m with DMsgGPB m => gpb_original m | DMsgJSON m => json_original m end.

Definition recordable (m : dataMsg) : Prop :=
  native m <> None /\ native m <> Some []
  /\ (Z.of_nat (slice_len (native m)) <= ENC_ST_MAX_PAYLOAD)%Z
  /\ match m with
     | DMsgGPB m => is_ok (proto_Unmarshal_Telemetry (slice_bytes (gpb_original m))) = true
     | DMsgJSON _ => True
     end.

Definition msg_encap (m : dataMsg) : Z :=
  match m with
  | DMsgGPB _ => ENC_ST_HDR_MSG_ENCAP_GPB
  | DMsgJSON _ => ENC_ST_HDR_MSG_ENCAP_JSON
  end.

Lemma raw_bytes_frame m :
  recordable m -> raw_bytes m = frame (msg_encap m) (slice_bytes (native m)).
Proof.
  intros (Hn & _ & Hmax & _). unfold raw_bytes, raw_frame, frame.
  destruct m as [m|m]; simpl in *; unfold gpb_produceByteStream, json_produceByteStream; simpl;
    (unfold u32; rewrite Z.mod_small; [done|unfold slice_len, ENC_ST_MAX_PAYLOAD in *; lia]).
Qed.

(** what the replay makes of a recorded message *)
Definition same_message (src : string) (m m' : dataMsg) : Prop :=
  getDataMsgStreamType m' = getDataMsgStreamType m
  /\ native m' = native m
  /\ getMetaDataIdentifier m' = Ok src.

Lemma recordable_frame name src m :
  recordable m ->
  good_frame (C := codec) (M := dataMsg) name src (msg_encap m, slice_bytes (native m))
  /\ exists ms m', frame_msgs (C := codec) name src (msg_encap m, slice_bytes (native m))
                   = (ms, Ok (Some [m'])) /\ same_message src m m'.
Proof.
  intros (Hn & Hne & Hmax & Hdec). unfold slice_len in Hmax.
  assert (exists ms m', frame_msgs (C := codec) name src (msg_encap m, slice_bytes (native m))
                   = (ms, Ok (Some [m'])) /\ same_message src m m') as (ms & m' & Hfm & Hsame).
  { destruct m as [m|m]; simpl in *.
    - destruct (gpb_original m) as [b|] eqn:Eb; [|done]. simpl in *.
      unfold frame_msgs, same_message. simpl. unfold codecGPBBlockToDataMsgs. simpl.
      destruct (proto_Unmarshal_Telemetry b) as [t| |]; [|done..].
      eexists _, _. split; [reflexivity|]. simpl. by rewrite Eb.
    - destruct (json_original m) as [b|] eqn:Eb; [|done].
      eexists _, _. split; [reflexivity|]. unfold same_message. simpl. by rewrite Eb. }
  split; [|eauto]. unfold good_frame. rewrite Hfm. cbn [fst snd].
  split; [by destruct m|]. split; [|done].
  by destruct (native m) as [[|]|].
Qed.

(** the replay of an archive of recordable messages *)
Lemma archive_replays t chans k fuel ms :
  Forall recordable ms -> rp_loop t = false -> rp_firstN t = 0%Z ->
  length ms < k -> 2 <= fuel ->
  exists s out, replay_open (C := codec) (M := dataMsg) t (concat (map raw_bytes ms))
                  false 0 chans = Ok s
  /\ replay_run t k fuel s = (out, Some None)
  /\ Forall2 (same_message (replay_String t)) ms out.
Proof.
  intros HF Hl Hn Hk Hfuel.
  set (fs := map (fun m => (msg_encap m, slice_bytes (native m))) ms).
  assert (concat (map raw_bytes ms) = concat (map (fun f => frame f.1 f.2) fs)) as ->.
  { unfold fs. rewrite map_map. f_equal. apply map_ext_in. intros m Hm.
    apply raw_bytes_frame. rewrite List.Forall_forall in HF. auto. }
  destruct (replay_open_ok (C := codec) (M := dataMsg) t
    (concat (map (fun f => frame f.1 f.2) fs)) false 0 chans) as [s Hopen].
  rewrite Hopen.
  destruct (replay_open_boundary t _ _ _ _ _ Hopen) as (Hb & Hun & _ & Hd).
  eexists _, _. split; [reflexivity|]. split.
  { apply (replay_run_frames t fs); try done; [|unfold fs; by rewrite length_map].
    unfold fs. apply Forall_map. eapply List.Forall_impl; [|exact HF].
    intros m Hm. by apply recordable_frame. }
  unfold fs. clear -HF. induction HF as [|m ms Hm HF IH]; [constructor|]. simpl.
  destruct (recordable_frame (rp_name t) (replay_String t) m Hm) as (_ & ? & m' & -> & Hs).
  simpl. by constructor.
Qed.

(** C15: what a raw tap records, a replay plays back.  From the file a raw tap writes
    for recordable messages, a replay that neither loops nor stops early produces, one
    per tick, messages of the same kind and with the same bytes, in order, with the
    archive as their producer, and then ends without an error. *)
Theorem archive_roundtrip t chans k fuel ms :
  Forall recordable ms -> rp_loop t = false -> rp_firstN t = 0%Z ->
  length ms < k -> 2 <= fuel ->
  exists s out, replay_open (C := codec) (M := dataMsg) t (concat (map raw_bytes ms))
                  false 0 chans = Ok s
  /\ replay_run t k fuel s = (out, Some None)
  /\ Forall2 (same_message (replay_String t)) ms out.
Proof. apply archive_replays. Qed.

End Archive.
