(* ===== verification/Metrics.v ===== *)
(** * Metrics: specification and statistics ([metrics.go])

    Metric atoms and the output handler interface, the tree of specification
    nodes built from the operator's file, and the bounded table of statistics
    records with its eviction. *)
From S2P Require Import Prelude Message.

(** ** Atoms and output handlers *)

Record metricsAtom : Type := Atom { key : string; val : goval }.

#[export] Instance metricsAtom_eq_dec : EqDecision metricsAtom.
Proof. solve_decision. Defined.

(** The calls a message makes on the output handler, in order.  The tag slices
    of successive calls may share storage; every handler reads them
    before it returns, so a call carries the tags by value. *)
Inductive mevent : Type :=
| BuildMetric (tags : list metricsAtom) (sensor : metricsAtom) (ts : Z)
| FlushMetric (tags : list metricsAtom) (ts : Z).

Class MetricsOutputHandler (Ctx : Type) := {
  adaptSensorName : string -> string;
  adaptTagName : string -> string;
  buildMetric : list metricsAtom -> metricsAtom -> Z -> Ctx -> Ctx;
  flushMetric : list metricsAtom -> Z -> Ctx -> Ctx;
}.

Definition run_mevent {Ctx} `{MetricsOutputHandler Ctx} (c : Ctx) (ev : mevent) : Ctx :=
  match ev with
  | BuildMetric tags sensor ts => buildMetric tags sensor ts c
  | FlushMetric tags ts => flushMetric tags ts c
  end.

Definition run_mevents {Ctx} `{MetricsOutputHandler Ctx} (evs : list mevent) (c : Ctx) : Ctx :=
  fold_left run_mevent evs c.

(** ** Specification nodes *)

Inductive metricsSpecNodeType : Type :=
| metricsSpecNodeTypeSensor
| metricsSpecNodeTypeTag
| metricsSpecNodeTypeContainer.

#[export] Instance metricsSpecNodeType_eq_dec : EqDecision metricsSpecNodeType.
Proof. solve_decision. Defined.

(** a pointer to a node as the JSON file gives it; an entry of the file may be null *)
Inductive specJSON : Type :=
| SpecNil
| SpecJSON (Name : string) (Tag Track : bool) (Fields : list specJSON).

(** a node with its derived content.  [fieldsMap] finds a child by name;
    [fieldsMapsByType], indexed by node type, finds the children of one type. *)
Inductive metricsSpecNode : Type :=
| SpecNode (Name : string) (Tag Track : bool)
           (nodeType : metricsSpecNodeType) (fqName : string)
           (fieldsMap : gmap string metricsSpecNode)
           (sensors tags containers : gmap string metricsSpecNode).

Definition nd_Name (n : metricsSpecNode) : string :=
  let '(SpecNode a _ _ _ _ _ _ _ _) := n in a.
Definition nd_Track (n : metricsSpecNode) : bool :=
  let '(SpecNode _ _ a _ _ _ _ _ _) := n in a.
Definition nd_nodeType (n : metricsSpecNode) : metricsSpecNodeType :=
  let '(SpecNode _ _ _ a _ _ _ _ _) := n in a.
Definition nd_fqName (n : metricsSpecNode) : string :=
  let '(SpecNode _ _ _ _ a _ _ _ _) := n in a.
Definition nd_fieldsMap (n : metricsSpecNode) : gmap string metricsSpecNode :=
  let '(SpecNode _ _ _ _ _ a _ _ _) := n in a.
Definition fieldsMapsByType (n : metricsSpecNode) (ty : metricsSpecNodeType)
    : gmap string metricsSpecNode :=
  let '(SpecNode _ _ _ _ _ _ s t c) := n in
  match ty with
  | metricsSpecNodeTypeSensor => s
  | metricsSpecNodeTypeTag => t
  | metricsSpecNodeTypeContainer => c
  end.

Section BuildSpec.
Context {Ctx : Type} `{H : MetricsOutputHandler Ctx}.

Definition extend_path (path conjoinsymbol name : string) : string :=
  if str_empty name then path
  else if str_empty path then name
  else path +:+ conjoinsymbol +:+ name.

(** the maps of a container, filled child by child; a later child of the
    same name and type replaces an earlier one *)
Definition maps_of_type (ty : metricsSpecNodeType) (cs : list metricsSpecNode)
    : gmap string metricsSpecNode :=
  fold_left (fun m c => if bool_decide (nd_nodeType c = ty)
                        then <[nd_Name c := c]> m else m) cs ∅.

Definition map_of_all (cs : list metricsSpecNode) : gmap string metricsSpecNode :=
  fold_left (fun m c => <[nd_Name c := c]> m) cs ∅.

(** the children are built in order, and the first error ends the build *)
Fixpoint res_all {A} (l : list (res A)) : res (list A) :=
  match l with
  | [] => Ok []
  | c :: l' => let! a := c in let! rest := res_all l' in Ok (a :: rest)
  end.

Fixpoint buildSpecDBSubtree (node : specJSON) (path conjoinsymbol : string)
    : res metricsSpecNode :=
  match node with
  | SpecNil => Panic
  | SpecJSON name tag track fields =>
      let path := extend_path path conjoinsymbol name in
      match tag, fields with
      | true, _ :: _ => Err (Errorf "Node %v is labelled 'Tag' but contains 'Fields'")
      | true, [] => Ok (SpecNode name tag track metricsSpecNodeTypeTag
                          (adaptTagName path) ∅ ∅ ∅ ∅)
      | false, _ :: _ =>
          let! cs := res_all (map (fun c => buildSpecDBSubtree c path conjoinsymbol) fields) in
          Ok (SpecNode name tag track metricsSpecNodeTypeContainer ""
                (map_of_all cs) (maps_of_type metricsSpecNodeTypeSensor cs)
                (maps_of_type metricsSpecNodeTypeTag cs)
                (maps_of_type metricsSpecNodeTypeContainer cs))
      | false, [] => Ok (SpecNode name tag track metricsSpecNodeTypeSensor
                           (adaptSensorName path) ∅ ∅ ∅ ∅)
      end
  end.

(** [buildSpecDB]: base paths and their trees; a later entry of the same path
    replaces an earlier one *)
Fixpoint buildSpecDB_loop (db : gmap string metricsSpecNode)
    (specSet : list (string * specJSON)) : res (gmap string metricsSpecNode) :=
  match specSet with
  | [] => Ok db
  | (basepath, spec) :: rest =>
      let! node := buildSpecDBSubtree spec "" "__" in
      buildSpecDB_loop (<[basepath := node]> db) rest
  end.

Definition buildSpecDB (specSet : list (string * specJSON))
    : res (gmap string metricsSpecNode) := buildSpecDB_loop ∅ specSet.

End BuildSpec.

(** ** Statistics records *)

Definition STATEVICTIONSTALE : Z := 300000.

(** [lastTS] by key, and the number of records allowed *)
Record statRecordTable : Type := StatTable {
  statRecords : gmap string Z;
  statSensorCount : Z;
}.

Definition statRecordFindOrCreate (rt : statRecordTable) (key : string) (ts : Z)
    : statRecordTable * option Z :=
  match statRecords rt !! key with
  | Some lastTS => (rt, Some lastTS)
  | None =>
      if bool_decide (Z.of_nat (size (statRecords rt)) >= statSensorCount rt)%Z
      then (rt, None)
      else (StatTable (<[key := ts]> (statRecords rt)) (statSensorCount rt), Some ts)
  end.

Definition statRecordUpdate (rt : statRecordTable) (key : string) (ts : Z)
    : statRecordTable * list meta :=
  match statRecordFindOrCreate rt key ts with
  | (rt', None) => (rt', [Inc "statCacheFull" [key]])
  | (rt', Some lastTS) =>
      if bool_decide (ts > lastTS)%Z
      then (StatTable (<[key := ts]> (statRecords rt')) (statSensorCount rt'),
            [Observe "timestamp_delta" [key] (u64 (ts - lastTS))])
      else if bool_decide (ts < lastTS)%Z
      then (rt', [Inc "outofseq" [key]])
      else (rt', [])
  end.

(** the condition under which [evictStale], running at [now] milliseconds, deletes a record *)
Definition stale (now lastTS : Z) : bool :=
  bool_decide (u64 now > lastTS)%Z
  && bool_decide (u64 (u64 now - lastTS) > STATEVICTIONSTALE)%Z.

Definition evictStale (rt : statRecordTable) (now : Z) : statRecordTable :=
  StatTable (filter (fun kv => stale now kv.2 = false) (statRecords rt))
    (statSensorCount rt).

(** the table as [configure] sets it up *)
Definition statTable_new (count : Z) : statRecordTable := StatTable ∅ count.

(** ** What a message does when its metrics are extracted

    Extraction calls the output handler and updates the table of statistics. *)
Inductive mop : Type :=
| Emit (ev : mevent)
| TrackStat (key : string) (ts : Z).

Definition run_mop {Ctx} `{MetricsOutputHandler Ctx} (st : Ctx * statRecordTable) (op : mop)
    : Ctx * statRecordTable :=
  match op with
  | Emit ev => (run_mevent st.1 ev, st.2)
  | TrackStat k ts => (st.1, (statRecordUpdate st.2 k ts).1)
  end.

Definition run_mops {Ctx} `{MetricsOutputHandler Ctx} (ops : list mop)
    (st : Ctx * statRecordTable) : Ctx * statRecordTable := fold_left run_mop ops st.

(** the calls on the handler alone *)
Definition mevents (ops : list mop) : list mevent :=
  omap (fun op => match op with Emit ev => Some ev | TrackStat _ _ => None end) ops.

(** the handler's calls come in batches: sensors with the same tags, at least one, and their flush *)
Inductive batched : list mevent -> Prop :=
| batched_nil : batched []
| batched_cons tags sensors ts rest :
    sensors <> [] -> batched rest ->
    batched (map (fun s : metricsAtom * Z => BuildMetric tags s.1 s.2) sensors
             ++ FlushMetric tags ts :: rest).

(** a batch: its tags, its sensors with their timestamps, the timestamp of its flush *)
Definition batch : Type := list metricsAtom * list (metricsAtom * Z) * Z.

Definition batch_events (b : batch) : list mevent :=
  let '(tags, sensors, ts) := b in
  map (fun s => BuildMetric tags s.1 s.2) sensors ++ [FlushMetric tags ts].

Definition batch_ok (b : batch) : Prop := b.1.2 <> [].

(** What a message promises to an output handler: whatever the specification, its
    metrics come in batches.  [P] is the state extraction keeps across messages. *)
Class MetricsSource (Ctx M P : Type) `{H : MetricsOutputHandler Ctx} := {
  produceMetrics : gmap string metricsSpecNode -> M -> P ->
    P * (list meta * (list mop * res unit));
}.

Class MetricsSourceLaws (Ctx M P : Type) `{MS : MetricsSource Ctx M P} := {
  produce_batched : forall specDB m p,
    batched (mevents (produceMetrics specDB m p).2.2.1);
}.

(** ** Theorems: batches *)

Lemma mevents_app a b : mevents (a ++ b) = mevents a ++ mevents b.
Proof. apply omap_app. Qed.

Lemma batched_app a b : batched a -> batched b -> batched (a ++ b).
Proof.
  induction 1 as [|tags sensors ts rest Hne Hr IH]; intros Hb; [done|].
  rewrite <- app_assoc. simpl. constructor; auto.
Qed.

Lemma batched_flat_map {A : Type} (f : A -> list mop) (l : list A) :
  (forall a, a ∈ l -> batched (mevents (f a))) -> batched (mevents (flat_map f l)).
Proof.
  induction l as [|a l IH]; intros Hf; simpl; [constructor|].
  rewrite mevents_app. apply batched_app; [apply Hf; set_solver|].
  apply IH. set_solver.
Qed.

Lemma batched_batches evs :
  batched evs <-> exists bs, Forall batch_ok bs /\ evs = flat_map batch_events bs.
Proof.
  split.
  - induction 1 as [|tags sensors ts rest Hne Hr (bs & Hbs & ->)].
    { exists []. split; [constructor|done]. }
    exists ((tags, sensors, ts) :: bs). split; [by constructor|]. simpl.
    by rewrite <- app_assoc.
  - intros (bs & Hbs & ->). induction Hbs as [|[[tags sensors] ts] bs Hb Hbs IH];
      simpl; [constructor|]. rewrite <- app_assoc. simpl. by constructor.
Qed.

Lemma run_mops_events {Ctx} `{MetricsOutputHandler Ctx} ops : forall (c : Ctx) rt,
  (run_mops ops (c, rt)).1 = run_mevents (mevents ops) c.
Proof.
  unfold run_mops, run_mevents, mevents.
  induction ops as [|op ops IH]; intros c rt; simpl; [done|].
  destruct op as [ev|k ts]; simpl; [apply IH|]. unfold run_mop. simpl. apply IH.
Qed.

(** ** Theorems: specification *)

Section SpecTheorems.
Context {Ctx : Type} `{H : MetricsOutputHandler Ctx}.

(** *** Specification: what the operator's file says *)

Definition js_Name (j : specJSON) : string :=
  match j with SpecNil => "" | SpecJSON name _ _ _ => name end.
Definition js_Track (j : specJSON) : bool :=
  match j with SpecNil => false | SpecJSON _ _ track _ => track end.
Definition js_Fields (j : specJSON) : list specJSON :=
  match j with SpecNil => [] | SpecJSON _ _ _ fields => fields end.

(** a tag is labelled, a container has fields, and the rest are sensors *)
Definition js_type (j : specJSON) : metricsSpecNodeType :=
  match j with
  | SpecJSON _ true _ _ => metricsSpecNodeTypeTag
  | SpecJSON _ false _ (_ :: _) => metricsSpecNodeTypeContainer
  | _ => metricsSpecNodeTypeSensor
  end.

(** a step down: to the child of a name, of any type or of one; of several, the last *)
Definition spec_step : Type := option metricsSpecNodeType * string.
Definition of_type (o : option metricsSpecNodeType) (ty : metricsSpecNodeType) : bool :=
  match o with Some ty' => bool_decide (ty = ty') | None => true end.
Definition file_child (j : specJSON) (o : option metricsSpecNodeType) (a : string) : option specJSON :=
  list.last (filter (fun jc => of_type o (js_type jc) = true /\ js_Name jc = a) (js_Fields j)).
Definition node_child (n : metricsSpecNode) (o : option metricsSpecNodeType) (a : string)
    : option metricsSpecNode :=
  match o with Some ty => fieldsMapsByType n ty !! a | None => nd_fieldsMap n !! a end.

(** the entry of the file and the node of the tree at the end of a chain of steps *)
Fixpoint file_at (j : specJSON) (steps : list spec_step) : option specJSON :=
  match steps with
  | [] => Some j
  | (o, a) :: steps' => jc ← file_child j o a; file_at jc steps'
  end.
Fixpoint tree_at (n : metricsSpecNode) (steps : list spec_step) : option metricsSpecNode :=
  match steps with
  | [] => Some n
  | (o, a) :: steps' => c ← node_child n o a; tree_at c steps'
  end.

(** the names on a path, but the empty ones, with two underscores between them *)
Definition path_name (names : list string) : string :=
  join "__" (filter (fun a => a <> "") names).

(** the name a node exports, from its path and its type *)
Definition exported_name (path : string) (ty : metricsSpecNodeType) : string :=
  match ty with
  | metricsSpecNodeTypeSensor => adaptSensorName path
  | metricsSpecNodeTypeTag => adaptTagName path
  | metricsSpecNodeTypeContainer => ""
  end.

(** the tables, as one definition *)
Definition table_of (o : option metricsSpecNodeType) (cs : list metricsSpecNode)
    : gmap string metricsSpecNode :=
  match o with Some ty => maps_of_type ty cs | None => map_of_all cs end.

Lemma table_of_snoc o cs c :
  table_of o (cs ++ [c])
  = if of_type o (nd_nodeType c) then <[nd_Name c := c]> (table_of o cs) else table_of o cs.
Proof.
  destruct o; unfold table_of, maps_of_type, map_of_all; rewrite fold_left_app; [|done].
  cbn [fold_left of_type]. done.
Qed.

Lemma res_all_Forall2 {A B} (f : A -> res B) l r :
  res_all (map f l) = Ok r -> Forall2 (fun x y => f x = Ok y) l r.
Proof.
  revert r. induction l as [|x l IH]; intros r; simpl; [intros [= <-]; constructor|].
  intros (y & Hy & (ys & Hys & [= <-])%res_bind_ok)%res_bind_ok. constructor; auto.
Qed.

(** a node has the name, the type and the exported name of its entry *)
Lemma buildSpecDBSubtree_node j path conj n :
  buildSpecDBSubtree j path conj = Ok n ->
  nd_Name n = js_Name j /\ nd_Track n = js_Track j /\ nd_nodeType n = js_type j
  /\ nd_fqName n = exported_name (extend_path path conj (js_Name j)) (js_type j).
Proof.
  destruct j as [|name [] track [|f fields]]; simpl; try done; [by intros [= <-]..|].
  intros (c & _ & [= <-])%res_bind_ok. done.
Qed.

(** and the tables of the children of its entry *)
Lemma table_of_children path conj o a fields cs :
  Forall2 (fun jc c => buildSpecDBSubtree jc path conj = Ok c) fields cs ->
  match list.last (filter (fun jc => of_type o (js_type jc) = true /\ js_Name jc = a) fields),
        table_of o cs !! a with
  | Some jc, Some c => buildSpecDBSubtree jc path conj = Ok c
  | None, None => True
  | _, _ => False
  end.
Proof.
  revert cs. induction fields as [|jc fields IH] using rev_ind; intros cs HF.
  { inversion HF; subst. by destruct o. }
  apply Forall2_app_inv_l in HF as (cs' & cs1 & HF & H1 & ->).
  inversion H1 as [|? c ? ? Hc H2]; subst. inversion H2; subst.
  specialize (IH _ HF). rewrite table_of_snoc, list.filter_app, filter_cons, filter_nil.
  destruct (buildSpecDBSubtree_node _ _ _ _ Hc) as (Hn & _ & Ht & _). rewrite Hn, Ht.
  case_decide as Hd.
  - destruct Hd as [-> <-]. by rewrite list.last_snoc, lookup_insert_eq.
  - rewrite app_nil_r. destruct (of_type o (js_type jc)); [|exact IH].
    rewrite lookup_insert_ne; [exact IH|]. intros E. by apply Hd.
Qed.

Lemma buildSpecDBSubtree_child j path conj n o a :
  buildSpecDBSubtree j path conj = Ok n ->
  match file_child j o a, node_child n o a with
  | Some jc, Some c => buildSpecDBSubtree jc (extend_path path conj (js_Name j)) conj = Ok c
  | None, None => True
  | _, _ => False
  end.
Proof.
  destruct j as [|name tag track fields]; [done|]. intros Hb.
  destruct tag, fields as [|f fields]; try done;
    try (by injection Hb as <-; destruct o as [[]|]).
  cbn [buildSpecDBSubtree] in Hb. apply res_bind_ok in Hb as (cs & Hcs%res_all_Forall2 & [= <-]).
  pose proof (table_of_children _ _ o a _ _ Hcs) as Hm.
  unfold file_child, node_child. by destruct o as [[]|].
Qed.

Lemma join_snoc sep l x : l <> [] -> join sep (l ++ [x]) = join sep l +:+ sep +:+ x.
Proof.
  induction l as [|w [|w' l] IH]; [done|done|]. intros _.
  change (w +:+ sep +:+ join sep ((w' :: l) ++ [x])
          = (w +:+ sep +:+ join sep (w' :: l)) +:+ sep +:+ x).
  rewrite IH by done. by rewrite !str_app_assoc.
Qed.

Lemma path_name_snoc names a : path_name (names ++ [a]) = extend_path (path_name names) "__" a.
Proof.
  unfold path_name, extend_path. rewrite list.filter_app, filter_cons, filter_nil.
  case_decide as Ha; cycle 1.
  { by rewrite app_nil_r; destruct a. }
  assert (str_empty a = false) as -> by (destruct a; [by destruct Ha|done]).
  assert (forall l : list string, Forall (fun w => w <> "") l -> str_empty (join "__" l) = bool_decide (l = []))
    as Hl.
  { intros [|w [|w' l]] HF; [done|..]; apply list.Forall_cons in HF as [Hw _]; by destruct w. }
  rewrite Hl by (apply list.Forall_forall; by intros ? [? _]%list_elem_of_filter).
  case_bool_decide as E; [by rewrite E|]. by apply join_snoc.
Qed.

Lemma buildSpecDB_names_from steps : forall j n before,
  buildSpecDBSubtree j (path_name before) "__" = Ok n ->
  match file_at j steps, tree_at n steps with
  | Some jc, Some c =>
      nd_Name c = js_Name jc /\ nd_Track c = js_Track jc /\ nd_nodeType c = js_type jc
      /\ nd_fqName c = exported_name (path_name (before ++ js_Name j :: map snd steps)) (js_type jc)
  | None, None => True
  | _, _ => False
  end.
Proof.
  induction steps as [|[o a] steps IH]; intros j n before Hb; cbn [file_at tree_at].
  { destruct (buildSpecDBSubtree_node _ _ _ _ Hb) as (? & ? & ? & Hfq). split_and!; [done..|].
    by rewrite Hfq, <- path_name_snoc. }
  pose proof (buildSpecDBSubtree_child _ _ _ _ o a Hb) as Hc. rewrite <- path_name_snoc in Hc.
  destruct (file_child j o a) as [jc|] eqn:Ej, (node_child n o a) as [c|]; try done.
  cbn [mbind option_bind]. specialize (IH jc c _ Hc).
  assert (js_Name jc = a) as Ha.
  { unfold file_child in Ej. apply list.last_Some_elem_of, list_elem_of_filter in Ej. by destruct Ej as [[_ ?] _]. }
  rewrite Ha, <- app_assoc in IH. exact IH.
Qed.

(** C34: the tree is the operator's file.  In a tree built from the file, a chain of names,
    each looked up among the children of any type or of one, leads to a node exactly when it leads
    to an entry of the file (of several children it may mean, the last); the node then has the entry's name and type, is tracked when it says so,
    and exports the names on the path, joined, as the sensor adapter adapts them for a sensor and
    the tag adapter for a tag. *)
Theorem buildSpecDB_names j n steps :
  buildSpecDBSubtree j "" "__" = Ok n ->
  match file_at j steps, tree_at n steps with
  | Some jc, Some c =>
      nd_Name c = js_Name jc /\ nd_Track c = js_Track jc /\ nd_nodeType c = js_type jc
      /\ nd_fqName c = exported_name (path_name (js_Name j :: map snd steps)) (js_type jc)
  | None, None => True
  | _, _ => False
  end.
Proof. intros Hb. by apply (buildSpecDB_names_from steps j n []). Qed.

End SpecTheorems.

(** ** Theorems: statistics *)

Definition stat_wf (rt : statRecordTable) : Prop :=
  (Z.of_nat (size (statRecords rt)) <= Z.max 0 (statSensorCount rt))%Z.

Lemma findOrCreate_wf rt k ts : stat_wf rt -> stat_wf (statRecordFindOrCreate rt k ts).1.
Proof.
  unfold stat_wf, statRecordFindOrCreate. intros Hwf.
  destruct (statRecords rt !! k) eqn:E; [done|]. case_bool_decide; [done|]. simpl.
  rewrite map_size_insert_None by done. lia.
Qed.

Lemma size_insert_Some (m : gmap string Z) k v :
  is_Some (m !! k) -> size (<[k := v]> m) = size m.
Proof. intros [? E]. by eapply map_size_insert_Some. Qed.

Lemma findOrCreate_lookup rt k ts l :
  (statRecordFindOrCreate rt k ts).2 = Some l ->
  statRecords (statRecordFindOrCreate rt k ts).1 !! k = Some l.
Proof.
  unfold statRecordFindOrCreate. destruct (statRecords rt !! k) eqn:E; simpl.
  - by intros [= ->].
  - case_bool_decide; simpl; [done|]. intros [= ->]. apply lookup_insert_eq.
Qed.

(** The table of statistics is bounded and its records only move forward.  An
    update keeps the number of records within the configured count, never moves
    the timestamp of a record back, and leaves the records of the other keys as they were. *)
Lemma statRecordUpdate_invariant rt k ts :
  stat_wf rt ->
  let rt' := (statRecordUpdate rt k ts).1 in
  stat_wf rt'
  /\ (forall l, statRecords rt !! k = Some l ->
        statRecords rt' !! k = Some (Z.max l ts))
  /\ (forall k', k' <> k -> statRecords rt' !! k' = statRecords rt !! k').
Proof.
  intros Hwf. unfold statRecordUpdate.
  pose proof (findOrCreate_wf rt k ts Hwf) as Hwf'.
  pose proof (findOrCreate_lookup rt k ts) as Hl.
  assert (forall k', k' <> k -> statRecords (statRecordFindOrCreate rt k ts).1 !! k'
                                = statRecords rt !! k') as Hother.
  { intros k' Hk. unfold statRecordFindOrCreate. repeat case_match; try done. simpl.
    by apply lookup_insert_ne. }
  assert (forall l, statRecords rt !! k = Some l ->
     statRecordFindOrCreate rt k ts = (rt, Some l)) as Hfound
    by (intros l E; unfold statRecordFindOrCreate; by rewrite E).
  destruct (statRecordFindOrCreate rt k ts) as [rt1 [last|]]; simpl in *; cycle 1.
  { split; [done|]. split; [|done]. intros l E. by specialize (Hfound l E). }
  specialize (Hl _ eq_refl).
  case_bool_decide as Hgt; [|case_bool_decide as Hlt]; simpl.
  - split; [unfold stat_wf in *; simpl; rewrite size_insert_Some by eauto; done|].
    split.
    + intros l E. specialize (Hfound l E). simplify_eq. rewrite lookup_insert_eq. f_equal. lia.
    + intros k' Hk. rewrite lookup_insert_ne by done. auto.
  - split; [done|]. split; [|done]. intros l E. specialize (Hfound l E). simplify_eq.
    rewrite Hl. f_equal. lia.
  - split; [done|]. split; [|done]. intros l E. specialize (Hfound l E). simplify_eq.
    rewrite Hl. f_equal. lia.
Qed.

(** Eviction drops exactly the stale records.  For a clock and records in the range
    of the timestamps, a record survives an eviction exactly when it is not older than
    the clock by more than five minutes; a record ahead of the clock survives. *)
Lemma evictStale_exact rt now k :
  (0 <= now < 2 ^ 64)%Z ->
  (forall k' l, statRecords rt !! k' = Some l -> 0 <= l < 2 ^ 64)%Z ->
  statRecords (evictStale rt now) !! k =
  match statRecords rt !! k with
  | Some l => if bool_decide (now - l > STATEVICTIONSTALE)%Z then None else Some l
  | None => None
  end.
Proof.
  intros Hnow Hrange. unfold evictStale. simpl. rewrite map_lookup_filter.
  destruct (statRecords rt !! k) as [l|] eqn:E; simpl; [|done].
  specialize (Hrange k l E). unfold stale, u64. rewrite (Z.mod_small now) by lia.
  case_bool_decide as Hgt; simpl; cycle 1.
  { rewrite bool_decide_eq_false_2 by (unfold STATEVICTIONSTALE; lia). done. }
  rewrite Z.mod_small by lia. by case_bool_decide.
Qed.
