(* ===== verification/GpbMetrics.v ===== *)
(** * Metrics from K/V messages ([codec_gpb.go]: [produceGPBKVMetricsForNode],
    [produceGPBKVMetrics], [produceMetrics])

    The walk over the fields of a message directed by the specification, as the
    list of what it does to the output handler and to the statistics.
    Metrics from compact messages, which use reflection over the compiled
    models, are not in this file. *)
From S2P Require Import Prelude Message Gpb Metrics.

Definition dquote : string := String (Ascii.ascii_of_nat 34) "".

Section KV.
Context `{F : FmtEnv}.

Definition field_val (f : TelemetryField) : goval :=
  extractGPBKVNativeTypeFromOneof f false.

(** the timestamp of a field, or the one carried down *)
Definition field_ts (f : TelemetryField) (timestamp : Z) : Z :=
  if bool_decide (tf_Timestamp f = 0%Z) then timestamp else tf_Timestamp f.

(** ** One level *)

(** first pass: a tag is appended when it has a value, and every tag field met
    counts towards the target, which ends the pass *)
Fixpoint collect_tags (fieldsMap : gmap string metricsSpecNode) (tagsTarget collected : nat)
    (fields : list TelemetryField) (tags : list metricsAtom) : list metricsAtom :=
  match fields with
  | [] => tags
  | field :: fields' =>
      match fieldsMap !! tf_Name field with
      | None => collect_tags fieldsMap tagsTarget collected fields' tags
      | Some child =>
          let tags' := if bool_decide (field_val field = GNil) then tags
                       else tags ++ [Atom (nd_fqName child) (field_val field)] in
          if bool_decide (tagsTarget <= S collected) then tags'
          else collect_tags fieldsMap tagsTarget (S collected) fields' tags'
      end
  end.

Definition tag_pass (node : metricsSpecNode) (fields : list TelemetryField)
    (tags : list metricsAtom) : list metricsAtom :=
  let fieldsMap := fieldsMapsByType node metricsSpecNodeTypeTag in
  let tagsTarget := size fieldsMap in
  if bool_decide (0 < tagsTarget) then collect_tags fieldsMap tagsTarget 0 fields tags
  else tags.

(** the key under which the delta of a tracked sensor is observed *)
Definition stat_key (fqName : string) (tags : list metricsAtom) : string :=
  fold_left (fun s t => s +:+ " " +:+ key t +:+ "=" +:+ dquote +:+ fmt_v (val t) +:+ dquote)
    tags fqName.

Definition sensor_ops (child : metricsSpecNode) (field : TelemetryField) (ts : Z)
    (tags : list metricsAtom) : list mop :=
  (if nd_Track child then [TrackStat (stat_key (nd_fqName child) tags) ts] else [])
  ++ (if bool_decide (field_val field = GNil) then []
      else [Emit (BuildMetric tags (Atom (nd_fqName child) (field_val field)) ts)]).

(** second pass: the operations, the value of [ts] and of [written] after it *)
Fixpoint sensor_pass (fieldsMap : gmap string metricsSpecNode) (timestamp : Z)
    (tags : list metricsAtom) (ts : Z) (written : bool) (fields : list TelemetryField)
    : list mop * (Z * bool) :=
  match fields with
  | [] => ([], (ts, written))
  | field :: fields' =>
      match fieldsMap !! tf_Name field with
      | None => sensor_pass fieldsMap timestamp tags ts written fields'
      | Some child =>
          let ts := field_ts field timestamp in
          let written := written || negb (bool_decide (field_val field = GNil)) in
          let '(ops, r) := sensor_pass fieldsMap timestamp tags ts written fields' in
          (sensor_ops child field ts tags ++ ops, r)
      end
  end.

(** the three passes; [sub] runs a field's own children against a node *)
Definition kv_level (node : metricsSpecNode)
    (fields : list (TelemetryField * (metricsSpecNode -> Z -> list metricsAtom -> list mop)))
    (timestamp : Z) (tags : list metricsAtom) : list mop :=
  let tags := tag_pass node (map fst fields) tags in
  let '(ops, (ts, written)) :=
    sensor_pass (fieldsMapsByType node metricsSpecNodeTypeSensor) timestamp tags 0 false
      (map fst fields) in
  ops
  ++ (if written then [Emit (FlushMetric tags ts)] else [])
  ++ flat_map (fun '(field, sub) =>
       match fieldsMapsByType node metricsSpecNodeTypeContainer !! tf_Name field with
       | None => []
       | Some child => sub child (field_ts field timestamp) tags
       end) fields.

Fixpoint kv_below (field : TelemetryField) (node : metricsSpecNode) (timestamp : Z)
    (tags : list metricsAtom) : list mop :=
  match field with
  | TField _ _ _ fields =>
      kv_level node (map (fun f => (f, kv_below f)) fields) timestamp tags
  end.

Definition produceGPBKVMetricsForNode (node : metricsSpecNode)
    (fields : list TelemetryField) (timestamp : Z) (tags : list metricsAtom) : list mop :=
  kv_level node (map (fun f => (f, kv_below f)) fields) timestamp tags.

(** ** The whole message *)

Section Message.
Context {Ctx : Type} `{H : MetricsOutputHandler Ctx}.

(** the tags the keys of a row add: nil values included *)
Definition key_tags (keys : list TelemetryField) : list metricsAtom :=
  map (fun k => Atom (adaptTagName (tf_Name k)) (field_val k)) keys.

(** the loop over the fields of a row *)
Fixpoint kv_row (node : metricsSpecNode) (timestamp : Z) (tags : list metricsAtom)
    (kcs : list TelemetryField) : list mop :=
  match kcs with
  | [] => []
  | kc :: kcs' =>
      let tags := if String.eqb (tf_Name kc) "keys"
                  then tags ++ key_tags (tf_Fields kc) else tags in
      (if String.eqb (tf_Name kc) "content"
       then produceGPBKVMetricsForNode node (tf_Fields kc) timestamp tags else [])
      ++ kv_row node timestamp tags kcs'
  end.

Definition row_ts (telem : Telemetry) (topField : TelemetryField) : Z :=
  if bool_decide (tf_Timestamp topField = 0%Z) then MsgTimestamp telem
  else tf_Timestamp topField.

Definition produceGPBKVMetrics (telem : Telemetry) (node : metricsSpecNode)
    (tags : list metricsAtom) : list mop :=
  flat_map (fun topField => kv_row node (row_ts telem topField) tags (tf_Fields topField))
    (DataGpbkv telem).

(** the fixed tags of a message *)
Definition base_tags (telem : Telemetry) (source : string) : list metricsAtom :=
  [Atom "EncodingPath" (GString (EncodingPath telem));
   Atom "Producer" (GString (if str_empty (NodeIdStr telem) then source
                             else NodeIdStr telem))].

End Message.

(** ** Specification: what is to be exported *)

(** a metric: its tags, its sensor and its timestamp *)
Definition metric : Type := list metricsAtom * metricsAtom * Z.

(** the fields of a level that are tags of a node *)
Definition tag_fields (node : metricsSpecNode) (fields : list TelemetryField)
    : list TelemetryField :=
  filter (fun f => is_Some (fieldsMapsByType node metricsSpecNodeTypeTag !! tf_Name f)) fields.

(** the tags they are exported as: those with a value, under the names of the specification *)
Definition level_tags (node : metricsSpecNode) (fields : list TelemetryField)
    : list metricsAtom :=
  flat_map (fun f =>
    match fieldsMapsByType node metricsSpecNodeTypeTag !! tf_Name f with
    | Some child => if bool_decide (field_val f = GNil) then []
                    else [Atom (nd_fqName child) (field_val f)]
    | None => []
    end) fields.

(** the tags of a level: of its tag fields, the first so many as the specification has tags *)
Definition spec_tags (node : metricsSpecNode) (fields : list TelemetryField) : list metricsAtom :=
  level_tags node
    (take (size (fieldsMapsByType node metricsSpecNodeTypeTag)) (tag_fields node fields)).

(** the timestamp a field passes on: its own when it has one, else the one it was handed *)
Definition carries (f : TelemetryField) (timestamp t : Z) : Prop :=
  (tf_Timestamp f <> 0%Z -> t = tf_Timestamp f) /\ (tf_Timestamp f = 0%Z -> t = timestamp).

(** the metrics of a field tree: a sensor with a value at the level, or below a field
    the specification has a container for *)
Inductive metric_at : metricsSpecNode -> list TelemetryField -> Z ->
    list metricsAtom -> metric -> Prop :=
| metric_here node fields timestamp tags f child t :
    f ∈ fields ->
    fieldsMapsByType node metricsSpecNodeTypeSensor !! tf_Name f = Some child ->
    field_val f <> GNil ->
    carries f timestamp t ->
    metric_at node fields timestamp tags
      (tags ++ spec_tags node fields, Atom (nd_fqName child) (field_val f), t)
| metric_below node fields timestamp tags f child t mt :
    f ∈ fields ->
    fieldsMapsByType node metricsSpecNodeTypeContainer !! tf_Name f = Some child ->
    carries f timestamp t ->
    metric_at child (tf_Fields f) t (tags ++ spec_tags node fields) mt ->
    metric_at node fields timestamp tags mt.

Definition emit_of (mt : metric) : mop :=
  let '(tags, sensor, ts) := mt in Emit (BuildMetric tags sensor ts).

End KV.

(** ** Theorems *)

Section Theorems.
Context `{F : FmtEnv}.

Lemma kv_below_node f node ts tags :
  kv_below f node ts tags = produceGPBKVMetricsForNode node (tf_Fields f) ts tags.
Proof. by destruct f. Qed.

Lemma sensor_pass_emits fm timestamp tags fields : forall ts w mt,
  emit_of mt ∈ (sensor_pass fm timestamp tags ts w fields).1 <->
  exists f child, f ∈ fields /\ fm !! tf_Name f = Some child /\ field_val f <> GNil
  /\ mt = (tags, Atom (nd_fqName child) (field_val f), field_ts f timestamp).
Proof.
  induction fields as [|f fields IH]; intros ts w mt; simpl.
  { split; [by intros ?%not_elem_of_nil|]. by intros (? & ? & ?%not_elem_of_nil & _). }
  setoid_rewrite elem_of_cons.
  destruct (fm !! tf_Name f) as [child|] eqn:Ef; cycle 1.
  { rewrite IH. naive_solver. }
  specialize (IH (field_ts f timestamp) (w || negb (bool_decide (field_val f = GNil))) mt).
  destruct (sensor_pass _ _ _ _ _ _) as [ops r]; simpl in *. unfold sensor_ops.
  destruct mt as [[tg s] t]. simpl in *.
  rewrite !elem_of_app, IH. split.
  - intros [[Hs|Hs]|?]; [destruct (nd_Track child); set_solver| |naive_solver].
    case_bool_decide; [set_solver|]. apply list_elem_of_singleton in Hs.
    injection Hs as -> -> ->. eauto 10.
  - intros (f' & c & [->|?] & Hc & Hv & ?); [|naive_solver]. simplify_eq. left; right.
    rewrite bool_decide_eq_false_2 by done. set_solver.
Qed.

Lemma map_fst_closures (fields : list TelemetryField) :
  map fst (map (fun f => (f, kv_below f)) fields) = fields.
Proof. induction fields; simpl; congruence. Qed.

Lemma node_emits node fields timestamp tags mt :
  emit_of mt ∈ produceGPBKVMetricsForNode node fields timestamp tags <->
  (exists f child, f ∈ fields
    /\ fieldsMapsByType node metricsSpecNodeTypeSensor !! tf_Name f = Some child
    /\ field_val f <> GNil
    /\ mt = (tag_pass node fields tags, Atom (nd_fqName child) (field_val f),
             field_ts f timestamp))
  \/ (exists f child, f ∈ fields
    /\ fieldsMapsByType node metricsSpecNodeTypeContainer !! tf_Name f = Some child
    /\ emit_of mt ∈ produceGPBKVMetricsForNode child (tf_Fields f)
         (field_ts f timestamp) (tag_pass node fields tags)).
Proof.
  unfold produceGPBKVMetricsForNode at 1, kv_level. rewrite map_fst_closures.
  set (tg := tag_pass node fields tags).
  pose proof (sensor_pass_emits (fieldsMapsByType node metricsSpecNodeTypeSensor)
    timestamp tg fields 0 false mt) as Hs.
  destruct (sensor_pass _ _ _ _ _ _) as [ops [ts w]]. simpl in Hs.
  rewrite !elem_of_app, Hs. clear Hs.
  assert (~ emit_of mt ∈ (if w then [Emit (FlushMetric tg ts)] else [])) as Hfl.
  { destruct mt as [[? ?] ?], w; set_solver. }
  assert (forall P Q R : Prop, ~ Q -> (P \/ Q \/ R <-> P \/ R)) as -> by tauto; [|done].
  apply or_iff_compat_l. rewrite elem_of_flat_map. split.
  - intros ([f sub] & (f' & [= -> ->] & Hin)%list_elem_of_fmap & Hm).
    destruct (fieldsMapsByType node _ !! tf_Name f') as [c|] eqn:E;
      [|by apply not_elem_of_nil in Hm].
    rewrite kv_below_node in Hm. eauto 10.
  - intros (f & c & Hin & E & Hm). exists (f, kv_below f). split.
    + apply list_elem_of_fmap. eauto.
    + rewrite E, kv_below_node. done.
Qed.

(** induction on a tree of fields *)
Lemma fields_ind (P : list TelemetryField -> Prop) :
  (forall fields, (forall f, f ∈ fields -> P (tf_Fields f)) -> P fields) ->
  forall fields, P fields.
Proof.
  intros Hstep.
  assert (forall f, P (tf_Fields f)) as Hf.
  { fix IH 1. intros [t n v fields]. simpl. apply Hstep. apply list.Forall_forall.
    induction fields as [|f fields IHf]; constructor; [apply IH|exact IHf]. }
  intros fields. apply Hstep. auto.
Qed.

Lemma carries_ts f timestamp t : carries f timestamp t <-> t = field_ts f timestamp.
Proof.
  unfold carries, field_ts. case_bool_decide as E; [naive_solver|].
  split; [intros [H _]; auto|by intros ->].
Qed.

Lemma collect_tags_take node fields : forall target collected tags,
  collected < target ->
  collect_tags (fieldsMapsByType node metricsSpecNodeTypeTag) target collected fields tags
  = tags ++ level_tags node (take (target - collected) (tag_fields node fields)).
Proof.
  unfold tag_fields. induction fields as [|f fields IH]; intros target collected tags Hlt.
  { by rewrite list.filter_nil, take_nil, app_nil_r. }
  rewrite list.filter_cons. cbn [collect_tags].
  destruct (fieldsMapsByType node _ !! tf_Name f) as [child|] eqn:E.
  - rewrite decide_True by eauto.
    destruct (target - collected) as [|k] eqn:Ek; [lia|].
    cbn [take level_tags flat_map]. rewrite E, app_assoc.
    assert ((if bool_decide (field_val f = GNil) then tags
             else tags ++ [Atom (nd_fqName child) (field_val f)])
            = tags ++ (if bool_decide (field_val f = GNil) then []
                       else [Atom (nd_fqName child) (field_val f)])) as ->
      by (case_bool_decide; by rewrite ?app_nil_r).
    case_bool_decide as Hstop.
    + assert (k = 0) as -> by lia. by rewrite app_nil_r.
    + rewrite IH by lia. by replace (target - S collected) with k by lia.
  - rewrite decide_False by (by intros [? ?]). by apply IH.
Qed.

Lemma tag_pass_spec node fields tags :
  tag_pass node fields tags = tags ++ spec_tags node fields.
Proof.
  unfold tag_pass, spec_tags. case_bool_decide as Hpos.
  - rewrite collect_tags_take by done. by rewrite Nat.sub_0_r.
  - assert (size (fieldsMapsByType node metricsSpecNodeTypeTag) = 0) as -> by lia.
    by rewrite app_nil_r.
Qed.

Lemma level_tags_filter node fields : level_tags node (tag_fields node fields) = level_tags node fields.
Proof.
  unfold level_tags, tag_fields. induction fields as [|f fields IH]; [done|].
  rewrite list.filter_cons. simpl. destruct (_ !! tf_Name f) as [c|] eqn:E.
  - rewrite decide_True by eauto. simpl. by rewrite E, IH.
  - by rewrite decide_False by (by intros [? ?]).
Qed.

(** The early exit of the tag pass loses no tag.  When no tag of the specification
    occurs twice at a level, the pass collects all the tags of the level that have a
    value, in order, although it stops counting at the number of tags of the
    specification. *)
Lemma tag_pass_complete node fields tags :
  NoDup (map tf_Name (tag_fields node fields)) ->
  tag_pass node fields tags = tags ++ level_tags node fields.
Proof.
  intros Hnd. rewrite tag_pass_spec. unfold spec_tags.
  rewrite firstn_all2, level_tags_filter; [done|].
  rewrite <- (length_map tf_Name), <- (size_list_to_set (C := gset string)) by done.
  rewrite <- size_dom. apply subseteq_size. intros n.
  rewrite elem_of_list_to_set, list_elem_of_fmap, elem_of_dom.
  intros (f & -> & [? _]%list_elem_of_filter). done.
Qed.

(** C12: extraction exports exactly the metrics of the message.  Whatever the
    specification and the fields, the handler is called with a sensor's value, tags and
    timestamp exactly when the specification has that sensor at that place of the field
    tree and the field has a value; in a list every instance is exported.  The tags are those
    handed down and, from each level on the way, the level's tag fields that have a value, among
    the first so many of them as the specification has tags there.  The timestamp is that of the
    nearest field on the way that has one, the field itself first, else the message's. *)
Theorem kv_metrics_exact node fields timestamp tags (mt : metric) :
  emit_of mt ∈ produceGPBKVMetricsForNode node fields timestamp tags
  <-> metric_at node fields timestamp tags mt.
Proof.
  revert node timestamp tags. induction fields as [fields IH] using fields_ind.
  intros node timestamp tags. rewrite node_emits, tag_pass_spec. split.
  - intros [(f & c & ? & ? & ? & ->)|(f & c & ? & ? & Hm)].
    + apply metric_here; [done..|]. by apply carries_ts.
    + eapply metric_below; [done..| |by apply IH]. by apply carries_ts.
  - inversion 1 as [? ? ? ? ? ? t ? ? ? ->%carries_ts|? ? ? ? ? ? t ? ? ? ->%carries_ts]; subst;
      [left; eauto 10|right].
    do 2 eexists. split; [done|]. split; [done|]. by apply IH.
Qed.

Lemma sensor_pass_batch fm timestamp tags fields : forall ts w,
  exists sensors : list (metricsAtom * Z),
    mevents (sensor_pass fm timestamp tags ts w fields).1
    = map (fun s => BuildMetric tags s.1 s.2) sensors
    /\ (sensor_pass fm timestamp tags ts w fields).2.2
       = w || negb (bool_decide (sensors = [])).
Proof.
  induction fields as [|f fields IH]; intros ts w; simpl.
  { exists []. simpl. by rewrite orb_false_r. }
  destruct (fm !! tf_Name f) as [child|]; [|apply IH].
  specialize (IH (field_ts f timestamp) (w || negb (bool_decide (field_val f = GNil)))).
  destruct (sensor_pass _ _ _ _ _ _) as [ops r]; simpl in *.
  destruct IH as (sensors & Hops & Hw). rewrite mevents_app, Hops.
  unfold sensor_ops. rewrite mevents_app.
  assert (mevents (if nd_Track child
     then [TrackStat (stat_key (nd_fqName child) tags) (field_ts f timestamp)] else []) = [])
    as -> by by destruct (nd_Track child).
  case_bool_decide as Hv; simpl in *.
  - exists sensors. by rewrite Hw, orb_false_r.
  - exists ((Atom (nd_fqName child) (field_val f), field_ts f timestamp) :: sensors).
    simpl. split; [done|]. rewrite Hw. by destruct w.
Qed.

Lemma node_batched node fields timestamp tags :
  batched (mevents (produceGPBKVMetricsForNode node fields timestamp tags)).
Proof.
  revert node timestamp tags. induction fields as [fields IH] using fields_ind.
  intros node timestamp tags. unfold produceGPBKVMetricsForNode, kv_level.
  rewrite map_fst_closures. set (tg := tag_pass node fields tags).
  destruct (sensor_pass_batch (fieldsMapsByType node metricsSpecNodeTypeSensor)
    timestamp tg fields 0 false) as (sensors & Hops & Hw).
  destruct (sensor_pass _ _ _ _ _ _) as [ops [ts w]]. simpl in *. subst w.
  rewrite !mevents_app, Hops, app_assoc. apply batched_app.
  - case_bool_decide; subst; simpl; [constructor|].
    by apply (batched_cons _ _ _ []); [|constructor].
  - apply batched_flat_map. intros [f sub] (f' & [= -> ->] & Hin)%list_elem_of_fmap.
    destruct (fieldsMapsByType node _ !! tf_Name f'); [|constructor].
    rewrite kv_below_node. by apply IH.
Qed.

Section Message.
Context {Ctx : Type} `{H : MetricsOutputHandler Ctx}.

Lemma kv_message_batched telem node tags :
  batched (mevents (produceGPBKVMetrics telem node tags)).
Proof.
  unfold produceGPBKVMetrics. apply batched_flat_map. intros top _.
  revert tags. induction (tf_Fields top) as [|kc kcs IH]; intros tags;
    simpl; [constructor|].
  rewrite mevents_app. apply batched_app; [|apply IH].
  destruct (String.eqb (tf_Name kc) "content"); [apply node_batched|constructor].
Qed.

End Message.
End Theorems.
