(* ===== verification/GpbCompact.v ===== *)
(** * Metrics from compact messages, and [produceMetrics] ([codec_gpb.go], [codec_json.go])

    The walk over decoded content by reflection: the values reflection shows, the
    name of a field in its protobuf tag, the cache of internal names a specification
    node keeps, the walk itself, [produceMetrics] with both kinds of content,
    and the proof that every message drives an output handler in batches.

    Go ranges over a map in an order it does not promise: the order of each range is an
    argument, by the number of the range in the run. *)
From S2P Require Import Prelude Message Gpb Metrics GpbMetrics EncapST Codec.

(** ** Reflection *)

(** the description of a field of a generated struct: its Go name and its
    protobuf tag *)
Record StructField : Type := MkStructField { sf_Name : string; sf_protobuf : option string }.

Inductive rval : Type :=
| RStruct (fields : list (StructField * rval))
| RPtr (elem : option rval)
| RSlice (elems : list rval)
| RLeaf (v : goval).

(** [reflect_fields msg] is the struct a decoded message points to;
    [composite_text] prints a value that is not a leaf. *)
Class ReflectEnv (PM : Type) := {
  reflect_fields : PM -> list (StructField * rval);
  composite_text : rval -> string;
}.

(** the metric value of a [reflect.Value] *)
Definition of_reflect {PM} `{ReflectEnv PM} (r : rval) : goval :=
  match r with
  | RLeaf v => GReflect v
  | _ => GComposite (composite_text r)
  end.

(** the lazy group of [name=(.*?)(,json|$)], where a dot matches no newline *)
Fixpoint lazy_name (s : string) : option string :=
  match s with
  | EmptyString => Some EmptyString
  | String c s' =>
      if has_prefix ",json" s then Some EmptyString
      else if Ascii.eqb c (Ascii.ascii_of_nat 10) then None
      else String c <$> lazy_name s'
  end.

Fixpoint codecGPBFieldNameParser (s : string) : option string :=
  match s with
  | EmptyString => None
  | String _ s' =>
      match (if has_prefix "name=" s then lazy_name (String.substring 5 (String.length s) s)
             else None) with
      | Some n => Some n
      | None => codecGPBFieldNameParser s'
      end
  end.

Definition codecGPBExtractFieldName (ft : StructField) : string :=
  match sf_protobuf ft with
  | None => sf_Name ft
  | Some pbt => default (sf_Name ft) (codecGPBFieldNameParser pbt)
  end.

Example extract_field_name :
  codecGPBExtractFieldName
    (MkStructField "ProcessCpuFifteenMinute"
       (Some "varint,5,opt,name=process_cpu_fifteen_minute,json=processCpuFifteenMinute"))
  = "process_cpu_fifteen_minute".
Proof. reflexivity. Qed.

Section Compact.
Context `{G : GpbEnv} `{R : !ReflectEnv ProtoMessage}.
(** the order of the n-th range over a map of nodes *)
Context (range : nat -> gmap string metricsSpecNode -> list (string * metricsSpecNode)).
Context {Ctx : Type} `{H : MetricsOutputHandler Ctx}.

(** [internalNamesCached] and [internalName]: for each node of the specification, by its
    place, the Go names of the fields of the struct first met there; and the number of
    ranges run so far *)
Record pstate : Type := PState {
  ps_names : gmap (list string) (gmap string string);
  ps_ranges : nat;
}.

(** what the walk has done *)
Record walk : Type := Walk { w_state : pstate; w_ops : list mop; w_metas : list meta }.

Definition w_op (op : mop) (w : walk) : walk :=
  Walk (w_state w) (w_ops w ++ [op]) (w_metas w).
Definition w_meta (m : meta) (w : walk) : walk :=
  Walk (w_state w) (w_ops w) (w_metas w ++ [m]).
Definition w_range (w : walk) : walk :=
  Walk (PState (ps_names (w_state w)) (S (ps_ranges (w_state w)))) (w_ops w) (w_metas w).
Definition range_of (w : walk) (m : gmap string metricsSpecNode)
    : list (string * metricsSpecNode) := range (ps_ranges (w_state w)) m.

(** the loop that fills the internal names; only children of the node have one *)
Definition internal_names (node : metricsSpecNode) (fields : list (StructField * rval))
    : gmap string string :=
  fold_left (fun m (fv : StructField * rval) =>
    let extName := codecGPBExtractFieldName fv.1 in
    match nd_fieldsMap node !! extName with
    | Some _ => <[extName := sf_Name fv.1]> m
    | None => m
    end) fields ∅.

Definition load_names (place : list string) (node : metricsSpecNode)
    (fields : list (StructField * rval)) (w : walk) : walk :=
  match ps_names (w_state w) !! place with
  | Some _ => w
  | None => Walk (PState (<[place := internal_names node fields]> (ps_names (w_state w)))
                    (ps_ranges (w_state w))) (w_ops w) (w_metas w)
  end.

(** the Go name under which to look a child up: a child shadowed in [fieldsMap] by a
    sibling of the same name never gets one *)
Definition int_name (w : walk) (place : list string) (node child : metricsSpecNode)
    (fieldName : string) : string :=
  let cached := default ∅ (ps_names (w_state w) !! place) !! fieldName in
  match nd_fieldsMap node !! fieldName with
  | Some c => if bool_decide (nd_nodeType c = nd_nodeType child)
              then default fieldName cached else fieldName
  | None => fieldName
  end.

(** [refv.FieldByName] *)
Fixpoint FieldByName {A} (name : string) (fields : list (StructField * A)) : option A :=
  match fields with
  | [] => None
  | (f, v) :: fields' => if String.eqb (sf_Name f) name then Some v
                         else FieldByName name fields'
  end.

Definition mismatch (m : dataMsgGPB) (what : string) (node : metricsSpecNode)
    (name : string) : meta :=
  base_path_error m ("metric extract " +:+ what +:+ " " +:+ nd_fqName node +:+ " " +:+ name).

Section Level.
Context (m : dataMsgGPB) (place : list string) (node : metricsSpecNode)
  (fields : list (StructField * rval)) (timestamp : Z).

Definition tag_step (acc : list metricsAtom * walk) (e : string * metricsSpecNode)
    : list metricsAtom * walk :=
  let '(tags, w) := acc in
  match FieldByName (int_name w place node e.2 e.1) fields with
  | None => (tags, w_meta (mismatch m "tag" e.2 e.1) w)
  | Some fval => (tags ++ [Atom (adaptTagName e.1) (of_reflect fval)], w)
  end.

Definition sensor_step (tags : list metricsAtom) (acc : bool * walk)
    (e : string * metricsSpecNode) : bool * walk :=
  let '(written, w) := acc in
  match FieldByName (int_name w place node e.2 e.1) fields with
  | None => (written, w_meta (mismatch m "sensor" node e.1) w)
  | Some fval =>
      (true, w_op (Emit (BuildMetric tags (Atom (nd_fqName e.2) (of_reflect fval)) timestamp)) w)
  end.

Definition container_step (tags : list metricsAtom)
    (subs : list (StructField * (list string -> metricsSpecNode -> Z ->
                                 list metricsAtom -> walk -> walk)))
    (w : walk) (e : string * metricsSpecNode) : walk :=
  match FieldByName (int_name w place node e.2 e.1) subs with
  | None => w_meta (mismatch m "container" node e.1) w
  | Some sub => sub (e.1 :: place) e.2 timestamp tags w
  end.

(** the body of [produceGPBMetricsForNode] on a struct *)
Definition gpb_level
    (subs : list (StructField * (list string -> metricsSpecNode -> Z ->
                                 list metricsAtom -> walk -> walk)))
    (tags : list metricsAtom) (w : walk) : walk :=
  let w := load_names place node fields w in
  let '(tags, w) := fold_left tag_step
    (range_of w (fieldsMapsByType node metricsSpecNodeTypeTag)) (tags, w_range w) in
  let '(written, w) := fold_left (sensor_step tags)
    (range_of w (fieldsMapsByType node metricsSpecNodeTypeSensor)) (false, w_range w) in
  let w := if written : bool then w_op (Emit (FlushMetric tags timestamp)) w else w in
  fold_left (container_step tags subs)
    (range_of w (fieldsMapsByType node metricsSpecNodeTypeContainer)) (w_range w).
End Level.

(** what a container's field value leads to: nothing for a leaf, a nil pointer or a slice in
    a slice; the struct, or each struct of a slice, otherwise *)
Fixpoint gpb_field (m : dataMsgGPB) (fval : rval) (place : list string)
    (node : metricsSpecNode) (timestamp : Z) (tags : list metricsAtom) (w : walk) : walk :=
  match fval with
  | RStruct fields =>
      gpb_level m place node fields timestamp
        (map (fun '(f, v) => (f, gpb_field m v)) fields) tags w
  | RPtr (Some (RStruct _ as r)) => gpb_field m r place node timestamp tags w
  | RPtr _ => w
  | RSlice elems =>
      fold_left (fun w e =>
        match e with
        | RSlice _ => w
        | _ => gpb_field m e place node timestamp tags w
        end) elems w
  | RLeaf _ => w
  end.

Definition produceGPBMetricsForNode (m : dataMsgGPB) (refv : rval) (place : list string)
    (node : metricsSpecNode) (timestamp : Z) (tags : list metricsAtom) (w : walk) : walk :=
  match refv with
  | RStruct _ => gpb_field m refv place node timestamp tags w
  | _ => w
  end.

Definition gpb_row_metrics (m : dataMsgGPB) (place : list string) (node : metricsSpecNode)
    (parent_timestamp : Z) (tags : list metricsAtom) (w : walk)
    (row : gpbDecodeRow ProtoMessage) : walk :=
  let timestamp := if bool_decide (gr_Timestamp row = 0%Z) then parent_timestamp
                   else gr_Timestamp row in
  let key_tags := match gr_Keys row with
    | None => []
    | Some k => map (fun '(f, v) =>
        Atom (adaptTagName (codecGPBExtractFieldName f)) (of_reflect v)) (reflect_fields k)
    end in
  produceGPBMetricsForNode m (RStruct (reflect_fields (gr_Content row))) place node
    timestamp (tags ++ key_tags) w.

Definition produceGPBMetrics (m : dataMsgGPB) (place : list string) (node : metricsSpecNode)
    (parent_timestamp : Z) (tags : list metricsAtom) (w : walk) : walk :=
  let '(_, (ms, tbl)) := getGPBDecodedTbl m in
  let w := fold_left (fun w x => w_meta x w) ms w in
  match tbl with
  | None => w
  | Some rows => fold_left (gpb_row_metrics m place node parent_timestamp tags) rows w
  end.

Section Produce.
Context `{F : FmtEnv}.

(** [produceMetrics] of GPB messages *)
Definition gpb_produceMetrics (specDB : gmap string metricsSpecNode) (m : dataMsgGPB)
    (p : pstate) : pstate * (list meta * (list mop * res unit)) :=
  let telemMsg := cachedDecode m in
  match specDB !! EncodingPath telemMsg with
  | None => (p, ([], ([], Ok tt)))
  | Some node =>
      let tags := base_tags telemMsg (gpb_source m) in
      match DataGpb telemMsg with
      | Some _ =>
          let w := produceGPBMetrics m [EncodingPath telemMsg] node (MsgTimestamp telemMsg)
                     tags (Walk p [] []) in
          (w_state w, (w_metas w, (w_ops w, Ok tt)))
      | None => (p, ([], (produceGPBKVMetrics telemMsg node tags, Ok tt)))
      end
  end.

Definition dataMsg_produceMetrics (specDB : gmap string metricsSpecNode) (m : dataMsg)
    (p : pstate) : pstate * (list meta * (list mop * res unit)) :=
  match m with
  | DMsgGPB m => gpb_produceMetrics specDB m p
  | DMsgJSON _ => (p, ([], ([], json_produceMetrics)))
  end.

End Produce.

(** ** Theorems *)

(** two walks differ by batches *)
Definition grows (w w' : walk) : Prop :=
  exists ops, w_ops w' = w_ops w ++ ops /\ batched (mevents ops).

Lemma grows_refl w w' : w_ops w' = w_ops w -> grows w w'.
Proof. intros E0. exists []. rewrite app_nil_r. split; [done|constructor]. Qed.

Lemma grows_trans w1 w2 w3 : grows w1 w2 -> grows w2 w3 -> grows w1 w3.
Proof.
  intros (o1 & E1 & B1) (o2 & E2 & B2). exists (o1 ++ o2).
  rewrite E2, E1, app_assoc, mevents_app. auto using batched_app.
Qed.

Lemma fold_grows {A} (f : walk -> A -> walk) (l : list A) : forall w,
  (forall w a, a ∈ l -> grows w (f w a)) -> grows w (fold_left f l w).
Proof.
  induction l as [|a l IH]; intros w Hf; simpl; [by apply grows_refl|].
  eapply grows_trans; [apply Hf; by left|apply IH; intros; apply Hf; by right].
Qed.

Lemma tag_fold_ops m place node fields es : forall tags w,
  w_ops (fold_left (tag_step m place node fields) es (tags, w)).2 = w_ops w.
Proof.
  induction es as [|e es IH]; intros tags w; simpl; [done|].
  destruct (FieldByName _ fields); by rewrite IH.
Qed.

Lemma sensor_fold_ops m place node fields ts tags es : forall written w,
  exists sensors : list (metricsAtom * Z),
    w_ops (fold_left (sensor_step m place node fields ts tags) es (written, w)).2
    = w_ops w ++ map (fun s => Emit (BuildMetric tags s.1 s.2)) sensors
    /\ (fold_left (sensor_step m place node fields ts tags) es (written, w)).1
       = written || negb (bool_decide (sensors = [])).
Proof.
  induction es as [|e es IH]; intros written w; simpl.
  { exists []. simpl. by rewrite app_nil_r, orb_false_r. }
  destruct (FieldByName _ fields) as [fval|].
  - edestruct (IH true) as (ss & E1 & E2). rewrite E1, E2. simpl.
    exists ((Atom (nd_fqName e.2) (of_reflect fval), ts) :: ss). simpl.
    rewrite <- app_assoc. split; [done|]. by rewrite orb_true_r.
  - edestruct (IH written) as (ss & E1 & E2). rewrite E1, E2. by exists ss.
Qed.

Lemma mevents_builds tags (ss : list (metricsAtom * Z)) :
  mevents (map (fun s => Emit (BuildMetric tags s.1 s.2)) ss)
  = map (fun s => BuildMetric tags s.1 s.2) ss.
Proof. induction ss; simpl; congruence. Qed.

Lemma FieldByName_elem {A} name (fs : list (StructField * A)) v :
  FieldByName name fs = Some v -> exists f, (f, v) ∈ fs.
Proof.
  induction fs as [|[f a] fs IH]; simpl; [done|].
  case_match; [intros [= ->]|]; set_solver.
Qed.

(** induction on a tree of reflected values *)
Lemma rval_tree_ind (P : rval -> Prop) :
  (forall fields, (forall f v, (f, v) ∈ fields -> P v) -> P (RStruct fields)) ->
  P (RPtr None) -> (forall r, P r -> P (RPtr (Some r))) ->
  (forall elems, (forall e, e ∈ elems -> P e) -> P (RSlice elems)) ->
  (forall v, P (RLeaf v)) -> forall r, P r.
Proof.
  intros Hs Hn Hp Hl Hv. fix IH 1. intros [fields|[r|]|elems|v].
  - apply Hs. assert (Forall (fun fv : StructField * rval => P fv.2) fields) as HF.
    { induction fields as [|[f v] fields IHf]; constructor; [exact (IH v)|exact IHf]. }
    rewrite list.Forall_forall in HF. intros f v Hin. exact (HF _ Hin).
  - apply Hp, IH.
  - exact Hn.
  - apply Hl. apply list.Forall_forall.
    induction elems as [|e elems IHe]; constructor; [exact (IH e)|exact IHe].
  - apply Hv.
Qed.

Lemma level_grows m place node fields ts subs tags w :
  (forall f sub pl n t tg w, (f, sub) ∈ subs -> grows w (sub pl n t tg w)) ->
  grows w (gpb_level m place node fields ts subs tags w).
Proof.
  intros Hsub. unfold gpb_level.
  set (w0 := load_names place node fields w).
  assert (w_ops w0 = w_ops w) as E0 by (unfold w0, load_names; by case_match).
  pose proof (tag_fold_ops m place node fields
    (range_of w0 (fieldsMapsByType node metricsSpecNodeTypeTag)) tags (w_range w0)) as E1.
  destruct (fold_left (tag_step m place node fields) _ _) as [tg w1]. simpl in E1.
  destruct (sensor_fold_ops m place node fields ts tg
    (range_of w1 (fieldsMapsByType node metricsSpecNodeTypeSensor)) false (w_range w1))
    as (ss & E2 & E3).
  destruct (fold_left (sensor_step m place node fields ts tg) _ _) as [written w2].
  simpl in E2, E3. subst written.
  eapply grows_trans; cycle 1.
  { apply fold_grows. intros w' e _. unfold container_step.
    destruct (FieldByName _ subs) as [sub|] eqn:Es; [|by apply grows_refl].
    apply FieldByName_elem in Es as [f Hf]. by eapply Hsub. }
  case_bool_decide as Hss; simpl.
  - apply grows_refl. simpl. rewrite E2, Hss. simpl. by rewrite app_nil_r, E1.
  - eexists. simpl. rewrite E2, E1, E0, <- app_assoc. split; [reflexivity|].
    rewrite mevents_app, mevents_builds. by apply (batched_cons _ _ _ []); [|constructor].
Qed.

Lemma gpb_field_grows m r : forall place node ts tags w,
  grows w (gpb_field m r place node ts tags w).
Proof.
  induction r as [fields IH| |r IH|elems IH|v] using rval_tree_ind;
    intros place node ts tags w; simpl; try (by apply grows_refl).
  - apply level_grows. intros f sub pl n t tg w' ([f' v] & [= -> ->] & Hin)%list_elem_of_fmap.
    by eapply IH.
  - destruct r; try (by apply grows_refl). apply IH.
  - apply fold_grows. intros w' e He. destruct e; try (by apply IH). by apply grows_refl.
Qed.

Section Laws.
Context `{F : FmtEnv}.

#[export] Instance dataMsg_MetricsSource : MetricsSource Ctx dataMsg pstate := {
  produceMetrics := dataMsg_produceMetrics;
}.

Lemma dataMsg_batched specDB (m : dataMsg) (p : pstate) :
  batched (mevents (dataMsg_produceMetrics specDB m p).2.2.1).
Proof.
  destruct m as [m|m]; simpl; [|constructor].
  unfold gpb_produceMetrics. destruct (specDB !! _) as [node|]; [|constructor].
  destruct (DataGpb _); [|apply kv_message_batched]. simpl.
  set (w0 := Walk p [] []).
  enough (forall tags, grows w0 (produceGPBMetrics m [EncodingPath (cachedDecode m)] node
    (MsgTimestamp (cachedDecode m)) tags w0)) as Hg.
  { destruct (Hg (base_tags (cachedDecode m) (gpb_source m))) as (ops & -> & Hb). exact Hb. }
  intros tags. unfold produceGPBMetrics. destruct (getGPBDecodedTbl m) as [m' [ms tbl]].
  assert (forall w, w_ops (fold_left (fun w x => w_meta x w) ms w) = w_ops w) as Hms.
  { induction ms as [|x ms IH]; intros w; simpl; [done|]. by rewrite IH. }
  destruct tbl as [rows|]; [|by apply grows_refl].
  eapply grows_trans; [by apply grows_refl, Hms|]. apply fold_grows.
  intros w row _. apply gpb_field_grows.
Qed.

#[export] Instance dataMsg_MetricsSourceLaws : MetricsSourceLaws Ctx dataMsg pstate.
Proof. constructor. apply dataMsg_batched. Qed.

(** C28: extraction drives an output handler in batches.  For every message, K/V, compact or
    JSON, every specification and every order of the ranges, the calls on the handler are a
    sequence of batches, each of at least one sensor and closed by
    its flush, all with the same tags: no sensor is left unflushed and no flush is
    empty. *)
Theorem metrics_batched specDB (m : dataMsg) (p : pstate) :
  batched (mevents (dataMsg_produceMetrics specDB m p).2.2.1).
Proof. apply dataMsg_batched. Qed.

End Laws.
End Compact.
