(* ===== verification/Router.v ===== *)
(** * The message router ([message_router.go])

    One input channel, several output channels, a routing decision and a decision on
    congestion supplied by the owner.  The router, the stages that feed it and
    the workers that drain it run concurrently: the model is a machine whose steps are
    one iteration of the loop of [handleMsg], one receive, one send of a feeder, one
    receive of a worker, the expiry of the timer, and the shutdown.  On a channel without a
    buffer a send and its receive are one step. *)
From S2P Require Import Prelude.

(** [dataMsgRouterCongestionAction] *)
Inductive congestionAction : Type :=
| DATAMSG_ROUTER_DROP
| DATAMSG_ROUTER_REROUTE
| DATAMSG_ROUTER_SEND_AND_BLOCK.

Section Router.
(** [St] is the state the routing closure keeps. *)
Context {M St : Type}
  (route : M -> nat -> St -> nat * St)
  (handleCongested : M -> nat -> nat -> list meta * congestionAction).

(** where the router's goroutine is *)
Inductive rmode : Type :=
| Idle
| Trying (msg : M) (i : nat)
| Blocked (msg : M) (i outChanIndex : nat)
| Returned
| Crashed.

Record rstate : Type := RState {
  r_in : chan M;                 (* dataChanIn *)
  r_out : list (chan M);         (* dataChansOut *)
  r_got : list (list M);         (* what each worker has received *)
  r_route : St;
  r_mode : rmode;
  r_drain : option nat;          (* messages left to drain, once shut down *)
  r_taken : list M;              (* received from dataChanIn, in order *)
  r_dropped : list M;
  r_metas : list meta;
}.

Definition r_init (depth : nat) (outs : list nat) (st : St) : rstate :=
  RState (make_chan depth) (map make_chan outs) (map (fun _ => []) outs) st
    Idle None [] [] [].

Definition set_mode (s : rstate) (m : rmode) : rstate :=
  RState (r_in s) (r_out s) (r_got s) (r_route s) m (r_drain s) (r_taken s)
    (r_dropped s) (r_metas s).
Definition set_route (s : rstate) (st : St) : rstate :=
  RState (r_in s) (r_out s) (r_got s) st (r_mode s) (r_drain s) (r_taken s)
    (r_dropped s) (r_metas s).
Definition add_metas (s : rstate) (ms : list meta) : rstate :=
  RState (r_in s) (r_out s) (r_got s) (r_route s) (r_mode s) (r_drain s) (r_taken s)
    (r_dropped s) (r_metas s ++ ms).
Definition drop_msg (s : rstate) (msg : M) : rstate :=
  RState (r_in s) (r_out s) (r_got s) (r_route s) Idle (r_drain s) (r_taken s)
    (r_dropped s ++ [msg]) (r_metas s).
(** [dataChansOut[w] <- msg] *)
Definition send_to (s : rstate) (w : nat) (c : chan M) (msg : M) : rstate :=
  RState (r_in s) (<[w := ch_push c msg]> (r_out s)) (r_got s) (r_route s) Idle
    (r_drain s) (r_taken s) (r_dropped s) (r_metas s).

(** a message is received from [dataChanIn], of which [c] is left *)
Definition take_msg (s : rstate) (c : chan M) (msg : M) : rstate :=
  RState c (r_out s) (r_got s) (r_route s) (Trying msg 0) (pred <$> r_drain s)
    (r_taken s ++ [msg]) (r_dropped s) (r_metas s).
(** a worker that waits on [dataChansOut[w]] receives [msg] straight from the router *)
Definition hand_to (s : rstate) (w : nat) (msg : M) : rstate :=
  RState (r_in s) (r_out s) (alter (fun g => g ++ [msg]) w (r_got s)) (r_route s) Idle
    (r_drain s) (r_taken s) (r_dropped s) (r_metas s).

(** one iteration of the loop of [handleMsg] *)
Definition attempt (s : rstate) (msg : M) (i : nat) : rstate :=
  let '(w, st) := route msg i (r_route s) in
  let s := set_route s st in
  match r_out s !! w with
  | None => set_mode s Crashed
  | Some c =>
      if ch_room c then send_to s w c msg
      else
        let '(ms, action) := handleCongested msg i w in
        let s := add_metas s ms in
        match action with
        | DATAMSG_ROUTER_REROUTE => set_mode s (Trying msg (S i))
        | DATAMSG_ROUTER_DROP => drop_msg s msg
        | DATAMSG_ROUTER_SEND_AND_BLOCK => set_mode s (Blocked msg i w)
        end
  end.

Inductive rlabel : Type :=
| LOffer (msg : M)      (* a feeder sends *)
| LMeet (msg : M)       (* a feeder's send meets the router, without a buffer *)
| LTake                 (* the router receives *)
| LAttempt              (* it tries once more *)
| LSent                 (* a blocked send goes through *)
| LHand                 (* a blocked send meets a worker, without a buffer *)
| LTimeout              (* the timer expires first *)
| LConsume (w : nat)    (* a worker receives *)
| LShutdown             (* the router sees shutdownChan closed *)
| LClose.               (* it closes the output channels and returns *)

(** a step of the machine; [None] when the step is not enabled *)
Definition rexec (s : rstate) (l : rlabel) : option rstate :=
  match l with
  | LOffer msg =>
      if ch_room (r_in s)
      then Some (RState (ch_push (r_in s) msg) (r_out s) (r_got s) (r_route s) (r_mode s)
                   (r_drain s) (r_taken s) (r_dropped s) (r_metas s))
      else None
  | LTake =>
      match r_mode s, ch_buf (r_in s), r_drain s with
      | Idle, _ :: _, Some 0 => None
      | Idle, msg :: rest, _ =>
          Some (take_msg s (Chan (ch_cap (r_in s)) rest (ch_closed (r_in s))) msg)
      | _, _, _ => None
      end
  | LMeet msg =>
      match r_mode s, ch_cap (r_in s), r_drain s with
      | Idle, 0, None => Some (take_msg s (r_in s) msg)
      | _, _, _ => None
      end
  | LAttempt =>
      match r_mode s with
      | Trying msg i => Some (attempt s msg i)
      | _ => None
      end
  | LSent =>
      match r_mode s with
      | Blocked msg _ w =>
          match r_out s !! w with
          | Some c => if ch_room c then Some (send_to s w c msg) else None
          | None => None
          end
      | _ => None
      end
  | LHand =>
      match r_mode s with
      | Blocked msg _ w =>
          match ch_cap <$> r_out s !! w with
          | Some 0 => Some (hand_to s w msg)
          | _ => None
          end
      | _ => None
      end
  | LTimeout =>
      match r_mode s with
      | Blocked msg i _ => Some (set_mode s (Trying msg (S i)))
      | _ => None
      end
  | LConsume w =>
      match r_out s !! w, r_got s !! w with
      | Some c, Some g =>
          match ch_buf c with
          | x :: rest =>
              Some (RState (r_in s) (<[w := Chan (ch_cap c) rest (ch_closed c)]> (r_out s))
                      (<[w := g ++ [x]]> (r_got s)) (r_route s) (r_mode s) (r_drain s)
                      (r_taken s) (r_dropped s) (r_metas s))
          | [] => None
          end
      | _, _ => None
      end
  | LShutdown =>
      match r_mode s, r_drain s with
      | Idle, None =>
          Some (RState (r_in s) (r_out s) (r_got s) (r_route s) Idle
                  (Some (length (ch_buf (r_in s)))) (r_taken s) (r_dropped s) (r_metas s))
      | _, _ => None
      end
  | LClose =>
      match r_mode s, r_drain s with
      | Idle, Some 0 =>
          Some (RState (r_in s) (map ch_close (r_out s)) (r_got s) (r_route s) Returned
                  (Some 0) (r_taken s) (r_dropped s) (r_metas s))
      | _, _ => None
      end
  end.

Definition rstep (s s' : rstate) : Prop := exists l, rexec s l = Some s'.

(** a run given by its labels *)
Fixpoint rrun (s : rstate) (ls : list rlabel) : option rstate :=
  match ls with
  | [] => Some s
  | l :: ls' => s' ← rexec s l; rrun s' ls'
  end.

(** the steps with which a router that was shut down and its workers finish: no feeder, no timer *)
Definition finishes (l : rlabel) : Prop :=
  match l with LTake | LAttempt | LSent | LConsume _ | LClose => True | _ => False end.

(** at most [n] of them lead to a state where [P] holds *)
Definition finishes_within (n : nat) (s : rstate) (P : rstate -> Prop) : Prop :=
  exists ls s', Forall finishes ls /\ length ls <= n /\ rrun s ls = Some s' /\ P s'.

(** the message in the router's hands *)
Definition in_hand (s : rstate) : list M :=
  match r_mode s with
  | Trying msg _ | Blocked msg _ _ => [msg]
  | _ => []
  end.

(** what a worker has received and what waits for it *)
Definition lane (s : rstate) (w : nat) : list M :=
  default [] (r_got s !! w) ++ default [] (ch_buf <$> r_out s !! w).

(** everything that reached some worker's lane *)
Definition lanes (s : rstate) : list M :=
  flat_map (lane s) (seq 0 (length (r_out s))).

(** Invariant: the bounds of the channels hold, no message is lost or duplicated, the lane of a
    worker keeps the order of arrival, and channels are closed only by the
    router's return. *)
Record r_inv (s : rstate) : Prop := {
  ri_len : length (r_got s) = length (r_out s);
  ri_in : ch_wf (r_in s);
  ri_out : Forall ch_wf (r_out s);
  ri_conserve : r_mode s <> Crashed ->
    r_taken s ≡ₚ r_dropped s ++ in_hand s ++ lanes s;
  ri_order : r_mode s <> Crashed -> exists done,
    r_taken s = done ++ in_hand s /\ forall w, lane s w `sublist_of` done;
  ri_open : r_mode s <> Returned -> Forall (fun c => ch_closed c = false) (r_out s);
}.

End Router.
Arguments rstate M St : clear implicits.
Arguments rlabel M : clear implicits.

(** ** Theorems *)

Section Theorems.
Context {M St : Type}
  (route : M -> nat -> St -> nat * St)
  (handleCongested : M -> nat -> nat -> list meta * congestionAction).
Implicit Types s : rstate M St.

Lemma flat_map_lane_insert (f g : nat -> list M) n w x :
  w < n -> (forall v, v <> w -> g v = f v) -> g w = f w ++ [x] ->
  flat_map g (seq 0 n) ≡ₚ x :: flat_map f (seq 0 n).
Proof.
  intros Hw Hne Heq.
  assert (forall m k, k + m <= w \/ w < k -> flat_map g (seq k m) = flat_map f (seq k m)) as Hout.
  { induction m as [|m IH]; intros k Hk; simpl; [done|].
    rewrite IH by lia. by rewrite Hne by lia. }
  assert (seq 0 n = seq 0 w ++ w :: seq (S w) (n - S w)) as ->.
  { change (w :: seq (S w) (n - S w)) with (seq w (S (n - S w))).
    rewrite <- seq_app. f_equal. lia. }
  rewrite !flat_map_app. simpl. rewrite !Hout by lia. rewrite Heq, <- app_assoc. simpl.
  by rewrite <- !Permutation_middle.
Qed.

Lemma lane_send s w c msg v :
  r_out s !! w = Some c ->
  lane (send_to s w c msg) v = if decide (v = w) then lane s v ++ [msg] else lane s v.
Proof.
  intros Hc. unfold lane. simpl. case_decide as Hv; subst.
  - rewrite list_lookup_insert_eq by (by eapply lookup_lt_Some). rewrite Hc. simpl.
    by rewrite app_assoc.
  - by rewrite list_lookup_insert_ne.
Qed.

Lemma lanes_send s w c msg :
  r_out s !! w = Some c -> lanes (send_to s w c msg) ≡ₚ msg :: lanes s.
Proof.
  intros Hc. unfold lanes. simpl. rewrite length_insert.
  apply (flat_map_lane_insert (lane s) _ _ w).
  - by eapply lookup_lt_Some.
  - intros v Hv. rewrite lane_send by done. by rewrite decide_False.
  - rewrite lane_send by done. by rewrite decide_True.
Qed.

Lemma caps_insert (l : list (chan M)) w c c' :
  l !! w = Some c -> ch_cap c' = ch_cap c -> map ch_cap (<[w := c']> l) = map ch_cap l.
Proof.
  intros Hc E. change (map ch_cap) with (fmap (M := list) (@ch_cap M)).
  rewrite list_fmap_insert, E. apply list_insert_id. by rewrite list_lookup_fmap, Hc.
Qed.

Lemma rrun_app a b : forall s,
  rrun route handleCongested s (a ++ b)
  = rrun route handleCongested s a ≫= fun s' => rrun route handleCongested s' b.
Proof.
  induction a as [|l a IH]; intros s; [done|]. cbn [app rrun].
  destruct (rexec _ _ s l); [apply IH|done].
Qed.

(** the message in hand goes to the end of one lane *)
Lemma deliver_inv s s' w msg :
  r_inv s -> in_hand s = [msg] -> r_mode s <> Crashed -> w < length (r_out s) ->
  r_mode s' = Idle -> r_in s' = r_in s -> r_taken s' = r_taken s -> r_dropped s' = r_dropped s ->
  length (r_out s') = length (r_out s) -> length (r_got s') = length (r_got s) ->
  Forall ch_wf (r_out s') -> Forall (fun c => ch_closed c = false) (r_out s') ->
  (forall v, lane s' v = if decide (v = w) then lane s v ++ [msg] else lane s v) ->
  r_inv s'.
Proof.
  intros [H1 H2 H3 H4 H5 H6] Hh Hm Hw Em Ei Et Ed Elo Elg Hwf Hop Hl.
  assert (in_hand s' = []) as Hh' by (unfold in_hand; by rewrite Em).
  assert (lanes s' ≡ₚ msg :: lanes s) as Hls.
  { unfold lanes. rewrite Elo. apply (flat_map_lane_insert (lane s) _ _ w); [done|..].
    - intros v Hv. by rewrite Hl, decide_False.
    - by rewrite Hl, decide_True. }
  constructor; rewrite ?Em, ?Ei, ?Et, ?Ed, ?Hh'; try done.
  - by rewrite Elo, Elg.
  - intros _. by rewrite Hls, H4, Hh.
  - intros _. destruct (H5 Hm) as (dn & Ht & Hd). rewrite Hh in Ht.
    exists (r_taken s). rewrite app_nil_r. split; [done|].
    intros v. rewrite Hl, Ht. case_decide; [by apply sublist_app|by apply sublist_inserts_r].
Qed.

Lemma send_inv s w c msg :
  r_inv s -> in_hand s = [msg] -> r_out s !! w = Some c -> ch_room c = true ->
  r_mode s <> Crashed -> r_mode s <> Returned ->
  r_inv (send_to s w c msg).
Proof.
  intros Hinv Hh Hc Hroom Hm Hr. pose proof (ri_open _ Hinv Hr) as Hop.
  eapply (deliver_inv s _ w msg); try done.
  - by eapply lookup_lt_Some.
  - simpl. by rewrite length_insert.
  - apply Forall_insert; [apply Hinv|]. by apply ch_push_wf.
  - apply Forall_insert; [done|]. simpl. rewrite Forall_lookup in Hop. by eapply Hop.
  - intros v. by apply lane_send.
Qed.

Lemma hand_inv s w c msg :
  r_inv s -> in_hand s = [msg] -> r_out s !! w = Some c -> ch_cap c = 0 ->
  r_mode s <> Crashed -> r_mode s <> Returned ->
  r_inv (hand_to s w msg).
Proof.
  intros Hinv Hh Hc Hcap Hm Hr. pose proof (lookup_lt_Some _ _ _ Hc) as Hlt.
  eapply (deliver_inv s _ w msg); try done; [by apply length_alter|apply Hinv|by apply Hinv|].
  intros v. unfold lane. simpl. case_decide as Hv; subst; [|by rewrite list_lookup_alter_ne].
  rewrite list_lookup_alter_eq, Hc. simpl.
  assert (ch_buf c = []) as ->.
  { pose proof (ri_out _ Hinv) as Hwf. rewrite Forall_lookup in Hwf. specialize (Hwf _ _ Hc).
    unfold ch_wf in Hwf. apply nil_length_inv. lia. }
  rewrite <- (ri_len _ Hinv) in Hlt. apply lookup_lt_is_Some in Hlt as [g ->]. simpl.
  by rewrite !app_nil_r.
Qed.

(** a step that changes neither the channels nor the bookkeeping of messages keeps the invariant *)
Lemma r_inv_same s s' :
  r_inv s -> r_in s' = r_in s -> r_out s' = r_out s -> r_got s' = r_got s ->
  r_taken s' = r_taken s -> r_dropped s' = r_dropped s -> in_hand s' = in_hand s ->
  r_mode s <> Crashed -> r_mode s <> Returned -> r_inv s'.
Proof.
  intros [H1 H2 H3 H4 H5 H6] E1 E2 E3 E4 E5 E6 Hm Hr.
  constructor; unfold lanes, lane in *; rewrite ?E1, ?E2, ?E3, ?E4, ?E5, ?E6; auto.
Qed.

(** giving up on the message in hand keeps the invariant *)
Lemma drop_inv s msg :
  r_inv s -> in_hand s = [msg] -> r_mode s <> Crashed -> r_mode s <> Returned ->
  r_inv (drop_msg s msg).
Proof.
  intros [H1 H2 H3 H4 H5 H6] Hh Hm Hr. constructor; simpl; auto.
  - intros _. rewrite H4, Hh by done. unfold lanes, lane. simpl.
    by rewrite <- app_assoc.
  - intros _. destruct (H5 Hm) as (dn & Ht & Hl). exists (r_taken s). unfold in_hand. simpl.
    rewrite app_nil_r. split; [done|]. intros v. rewrite Ht.
    apply sublist_inserts_r, Hl.
Qed.

Lemma crash_inv s : r_inv s -> r_mode s <> Returned -> r_inv (set_mode s Crashed).
Proof. intros [H1 H2 H3 H4 H5 H6] Hr. constructor; simpl; auto; done. Qed.

Lemma attempt_inv s msg i :
  r_inv s -> r_mode s = Trying msg i -> r_inv (attempt route handleCongested s msg i).
Proof.
  intros Hinv Hm. unfold attempt.
  destruct (route msg i (r_route s)) as [w st].
  assert (r_inv (set_route s st)) as Hinv'
    by (eapply r_inv_same; [exact Hinv|..]; rewrite ?Hm; done).
  cbn [set_route r_out]. destruct (r_out s !! w) as [c|] eqn:Ec; cycle 1.
  { apply crash_inv; simpl; rewrite ?Hm; done. }
  destruct (ch_room c) eqn:Eroom.
  { apply send_inv; auto; unfold in_hand; simpl; rewrite Hm; done. }
  destruct (handleCongested msg i w) as [ms action].
  assert (r_inv (add_metas (set_route s st) ms)) as Hinv''
    by (eapply r_inv_same; [exact Hinv|..]; rewrite ?Hm; done).
  destruct action.
  - apply drop_inv; auto; unfold in_hand; simpl; rewrite Hm; done.
  - eapply r_inv_same; [exact Hinv''|..]; unfold in_hand; simpl; rewrite ?Hm; done.
  - eapply r_inv_same; [exact Hinv''|..]; unfold in_hand; simpl; rewrite ?Hm; done.
Qed.

Lemma take_inv s c msg :
  r_inv s -> r_mode s = Idle -> ch_wf c -> r_inv (take_msg s c msg).
Proof.
  intros [H1 H2 H3 H4 H5 H6] Hm Hc.
  assert (in_hand s = []) as Hh by (unfold in_hand; by rewrite Hm).
  constructor; simpl; auto.
  - intros _. assert (r_mode s <> Crashed) as Hn by (by rewrite Hm). specialize (H4 Hn).
    rewrite Hh in H4. unfold lanes, lane, in_hand in *. simpl in *.
    rewrite H4, <- app_assoc. apply Permutation_app_head. symmetry. apply Permutation_cons_append.
  - intros _. destruct H5 as (dn & Ht & Hl); [by rewrite Hm|].
    rewrite Hh, app_nil_r in Ht. exists dn. rewrite Ht. auto.
  - intros _. apply H6. by rewrite Hm.
Qed.

Lemma ch_rest_wf (c : chan M) x rest :
  ch_wf c -> ch_buf c = x :: rest -> ch_wf (Chan (ch_cap c) rest (ch_closed c)).
Proof. unfold ch_wf. intros H E. rewrite E in H. simpl in *. lia. Qed.

Lemma consume_inv s w c g x rest :
  r_inv s -> r_out s !! w = Some c -> r_got s !! w = Some g -> ch_buf c = x :: rest ->
  r_inv (RState (r_in s) (<[w := Chan (ch_cap c) rest (ch_closed c)]> (r_out s))
           (<[w := g ++ [x]]> (r_got s)) (r_route s) (r_mode s) (r_drain s)
           (r_taken s) (r_dropped s) (r_metas s)).
Proof.
  intros [H1 H2 H3 H4 H5 H6] Hc Hg Hb.
  set (s' := RState _ _ _ _ _ _ _ _ _).
  assert (forall v, lane s' v = lane s v) as Hlane.
  { intros v. unfold lane. simpl. destruct (decide (v = w)) as [->|Hv].
    - rewrite !list_lookup_insert_eq by (by eapply lookup_lt_Some).
      rewrite Hc, Hg. simpl. by rewrite Hb, <- app_assoc.
    - by rewrite !list_lookup_insert_ne. }
  assert (lanes s' = lanes s) as Hlanes.
  { unfold lanes. simpl. rewrite length_insert. apply flat_map_ext, Hlane. }
  pose proof (lookup_lt_Some _ _ _ Hc) as Hlt.
  constructor.
  - simpl. by rewrite !length_insert.
  - done.
  - apply Forall_insert; [done|]. rewrite Forall_lookup in H3. by eapply ch_rest_wf; eauto.
  - intros Hm. rewrite Hlanes. by apply H4.
  - intros Hm. destruct (H5 Hm) as (dn & Ht & Hl). exists dn. split; [done|].
    intros v. rewrite Hlane. apply Hl.
  - intros Hm. specialize (H6 Hm). apply Forall_insert; [done|]. simpl.
    rewrite Forall_lookup in H6. by eapply H6.
Qed.

Lemma close_inv s d :
  r_inv s -> r_mode s = Idle ->
  r_inv (RState (r_in s) (map ch_close (r_out s)) (r_got s) (r_route s) Returned d
           (r_taken s) (r_dropped s) (r_metas s)).
Proof.
  intros [H1 H2 H3 H4 H5 H6] Hm. set (s' := RState _ _ _ _ _ _ _ _ _).
  assert (forall v, lane s' v = lane s v) as Hlane.
  { intros v. unfold lane. simpl. rewrite list_lookup_fmap. by destruct (r_out s !! v). }
  assert (lanes s' = lanes s) as Hlanes.
  { unfold lanes. simpl. rewrite length_map. apply flat_map_ext, Hlane. }
  assert (in_hand s = []) as Hh by (unfold in_hand; by rewrite Hm).
  constructor.
  - simpl. by rewrite length_map.
  - done.
  - simpl. apply Forall_fmap. by eapply Forall_impl.
  - intros _. rewrite Hlanes. simpl. rewrite H4, Hh by (by rewrite Hm). done.
  - intros _. destruct H5 as (dn & Ht & Hl); [by rewrite Hm|]. rewrite Hh in Ht.
    exists dn. split; [done|]. intros v. rewrite Hlane. apply Hl.
  - done.
Qed.

Lemma rexec_inv s l s' :
  r_inv s -> rexec route handleCongested s l = Some s' -> r_inv s'.
Proof.
  intros Hinv. destruct l; simpl; intros Hx.
  - case_match eqn:Er; simplify_eq. pose proof Hinv as [H1 H2 H3 H4 H5 H6].
    constructor; simpl; auto. by apply ch_push_wf.
  - destruct (r_mode s) eqn:Em, (ch_cap (r_in s)) eqn:Ec, (r_drain s); simplify_eq.
    apply take_inv; [done..|apply Hinv].
  - destruct (r_mode s) eqn:Em, (ch_buf (r_in s)) eqn:Eb, (r_drain s) as [[]|]; simplify_eq;
      (apply take_inv; [done|done|by eapply ch_rest_wf; [apply (ri_in _ Hinv)|]]).
  - destruct (r_mode s) eqn:Em; simplify_eq. by apply attempt_inv.
  - destruct (r_mode s) eqn:Em; simplify_eq. case_match eqn:Ec; [|done].
    case_match; simplify_eq. apply send_inv; auto; unfold in_hand; rewrite Em; done.
  - destruct (r_mode s) eqn:Em; simplify_eq. destruct (r_out s !! outChanIndex) as [c|] eqn:Ec; [|done].
    simpl in Hx. destruct (ch_cap c) eqn:E0; simplify_eq.
    eapply hand_inv; eauto; unfold in_hand; rewrite Em; done.
  - destruct (r_mode s) eqn:Em; simplify_eq.
    eapply r_inv_same; [exact Hinv|..]; unfold in_hand; simpl; rewrite ?Em; done.
  - destruct (r_out s !! w) eqn:Ec, (r_got s !! w) eqn:Eg; simplify_eq.
    case_match eqn:Eb; simplify_eq. by eapply consume_inv.
  - destruct (r_mode s) eqn:Em, (r_drain s); simplify_eq.
    eapply r_inv_same; [exact Hinv|..]; unfold in_hand; simpl; rewrite ?Em; done.
  - destruct (r_mode s) eqn:Em, (r_drain s) as [[]|]; simplify_eq. by apply close_inv.
Qed.

Lemma r_init_inv depth outs st : r_inv (@r_init M St depth outs st).
Proof.
  assert (forall v, lane (@r_init M St depth outs st) v = []) as Hl.
  { intros v. unfold lane, r_init. simpl. rewrite !list_lookup_fmap. by destruct (outs !! v). }
  constructor; simpl.
  - by rewrite !length_map.
  - apply make_chan_wf.
  - apply Forall_fmap, Forall_true. intros. apply make_chan_wf.
  - intros _. unfold in_hand, lanes. simpl. rewrite length_map.
    rewrite (flat_map_ext _ (fun _ => [])) by apply Hl. by induction (seq 0 _).
  - intros _. exists []. split; [done|]. intros w. by rewrite Hl.
  - intros _. apply Forall_fmap, Forall_true. done.
Qed.

(** C2: the router neither loses, duplicates nor reorders.  Whatever the routing
    and congestion decisions and however its feeders, its workers and the timer interleave
    with it, a router that has not indexed a worker out of range
    accounts for every message it received: dropped, in hand, or in exactly
    one worker's lane (received by it or waiting); each lane is in the order of arrival,
    no channel exceeds its capacity, and none is closed before the router returns. *)
Theorem router_invariant depth outs st s :
  rtc (rstep route handleCongested) (r_init depth outs st) s -> r_inv s.
Proof.
  intros Hr. remember (r_init depth outs st) as s0 eqn:E0.
  assert (r_inv s0) as Hinv by (subst; apply r_init_inv). clear E0.
  induction Hr as [|? ? ? [l Hl]]; eauto using rexec_inv.
Qed.

(** what a draining router still has to serve *)
Definition draining (total : list M) (n : nat) s : Prop :=
  exists k, r_drain s = Some k /\ k <= n /\ k <= length (ch_buf (r_in s))
  /\ r_taken s ++ take k (ch_buf (r_in s)) = total
  /\ (r_mode s = Returned -> k = 0 /\ Forall (fun c => ch_closed c = true) (r_out s)).

Lemma attempt_keeps s msg i :
  let s' := attempt route handleCongested s msg i in
  r_in s' = r_in s /\ r_drain s' = r_drain s /\ r_taken s' = r_taken s
  /\ map ch_cap (r_out s') = map ch_cap (r_out s) /\ r_mode s' <> Returned.
Proof.
  unfold attempt. destruct (route _ _ _) as [w st]. simpl.
  destruct (r_out s !! w) as [c|] eqn:Ec; [|done].
  destruct (ch_room c); simpl; [|destruct (handleCongested _ _ _) as [? []]; done].
  split_and!; try done. by eapply caps_insert.
Qed.

Lemma drain_step total n s l s' :
  draining total n s -> rexec route handleCongested s l = Some s' -> draining total n s'.
Proof.
  intros (k & Hd & Hn & Hk & Ht & Hr) Hx. destruct l; simpl in Hx; rewrite ?Hd in Hx.
  - case_match; simplify_eq. exists k. simpl. rewrite length_app, take_app_le by done.
    split_and!; [done|done|lia|done|done].
  - by destruct (r_mode s), (ch_cap (r_in s)).
  - destruct (r_mode s) eqn:Em, (ch_buf (r_in s)) as [|x rest] eqn:Eb, k as [|k]; simplify_eq.
    exists k. simpl in *. rewrite Hd. split_and!; [done|lia|lia| |done]. by rewrite <- app_assoc.
  - destruct (r_mode s) eqn:Em; simplify_eq. exists k.
    destruct (attempt_keeps s msg i) as (-> & -> & -> & _ & Hm). by split_and!.
  - destruct (r_mode s) eqn:Em; simplify_eq. exists k. repeat case_match; simplify_eq/=; done.
  - destruct (r_mode s) eqn:Em; simplify_eq. exists k. repeat case_match; simplify_eq/=; done.
  - destruct (r_mode s) eqn:Em; simplify_eq. by exists k.
  - destruct (r_out s !! w) as [c|] eqn:Ec, (r_got s !! w); simplify_eq.
    destruct (ch_buf c); simplify_eq. exists k. simpl. split_and!; [done..|].
    intros Hm. destruct (Hr Hm) as [? Hcl]. split; [done|]. apply Forall_insert; [done|].
    rewrite Forall_lookup in Hcl. by eapply (Hcl w c).
  - by destruct (r_mode s).
  - destruct (r_mode s) eqn:Em, k; simplify_eq/=. exists 0. split_and!; try done.
    intros _. split; [done|]. simpl. by apply Forall_fmap, Forall_true.
Qed.

(** what holds of a router whose routing stays in range *)
Definition in_range (outs : list nat) s : Prop :=
  map ch_cap (r_out s) = outs /\ r_inv s
  /\ r_mode s <> Crashed
  /\ forall msg i w, r_mode s = Blocked msg i w -> w < length outs.

Lemma lookup_out outs s w : in_range outs s -> w < length outs -> exists c, r_out s !! w = Some c
  /\ outs !! w = Some (ch_cap c).
Proof.
  intros (<- & _) Hw. rewrite length_map in Hw. apply lookup_lt_is_Some in Hw as [c Hc].
  exists c. split; [done|]. by rewrite list_lookup_fmap, Hc.
Qed.

Section InRange.
Context (outs : list nat) (Hroute : forall msg i st, (route msg i st).1 < length outs).

Lemma in_range_step s l s' :
  in_range outs s -> rexec route handleCongested s l = Some s' -> in_range outs s'.
Proof.
  intros Hin Hx. pose proof Hin as (Ho & Hg & Hc & Hb).
  assert (r_inv s') as Hinv' by (by eapply rexec_inv).
  assert (map ch_cap (r_out s') = outs /\ r_mode s' <> Crashed
    /\ forall msg i w, r_mode s' = Blocked msg i w -> w < length outs) as (? & ? & ?); [|done].
  clear Hinv'. destruct l; simpl in Hx.
  - case_match; by simplify_eq.
  - destruct (r_mode s), (ch_cap (r_in s)), (r_drain s); by simplify_eq.
  - destruct (r_mode s), (ch_buf (r_in s)), (r_drain s) as [[]|]; by simplify_eq.
  - destruct (r_mode s) eqn:Em; simplify_eq.
    pose proof (attempt_keeps s msg i) as (_ & _ & _ & Hcaps & _). rewrite Hcaps.
    split; [done|]. unfold attempt. pose proof (Hroute msg i (r_route s)) as Hw.
    destruct (route _ _ _) as [w st]. simpl in *.
    destruct (lookup_out _ _ _ Hin Hw) as (c & -> & _).
    destruct (ch_room c); [done|]. destruct (handleCongested _ _ _) as [ms []]; try done. simpl.
    split_and!; [done..|]. by intros ? ? ? [= <- <- <-].
  - destruct (r_mode s); simplify_eq. destruct (r_out s !! _) as [c|] eqn:Ec; [|done].
    case_match; simplify_eq. simpl. by erewrite caps_insert.
  - destruct (r_mode s); simplify_eq. destruct (ch_cap <$> _) as [[]|]; by simplify_eq.
  - destruct (r_mode s); by simplify_eq.
  - destruct (r_out s !! w) as [c|] eqn:Ec, (r_got s !! w); simplify_eq.
    destruct (ch_buf c); simplify_eq. simpl. by erewrite caps_insert.
  - destruct (r_mode s), (r_drain s); by simplify_eq.
  - destruct (r_mode s), (r_drain s) as [[]|]; simplify_eq. simpl.
    split_and!; [|done..]. rewrite map_map. by apply map_ext.
Qed.

(** one worker's receive at most, and a channel with a buffer has room *)
Lemma make_room s w :
  in_range outs s -> Forall (fun n => 0 < n) outs -> w < length outs ->
  exists ls s' c, Forall finishes ls /\ length ls <= 1 /\ rrun route handleCongested s ls = Some s'
  /\ in_range outs s' /\ r_mode s' = r_mode s /\ r_in s' = r_in s /\ r_drain s' = r_drain s
  /\ r_route s' = r_route s /\ r_out s' !! w = Some c /\ ch_room c = true.
Proof.
  intros Hin Hpos Hw. destruct (lookup_out _ _ _ Hin Hw) as (c & Hc & Ho).
  rewrite Forall_lookup in Hpos. specialize (Hpos _ _ Ho).
  destruct (ch_room c) eqn:Er.
  { exists [], s, c. split_and!; try done. simpl. lia. }
  destruct (ch_buf c) as [|x rest] eqn:Eb.
  { unfold ch_room in Er. rewrite Eb in Er. apply bool_decide_eq_false in Er. simpl in Er. lia. }
  pose proof Hin as (Ho' & Hinv & _). pose proof (ri_out _ Hinv) as Hwf.
  rewrite Forall_lookup in Hwf. specialize (Hwf _ _ Hc). unfold ch_wf in Hwf. rewrite Eb in Hwf.
  rewrite <- Ho', length_map, <- (ri_len _ Hinv) in Hw.
  apply lookup_lt_is_Some in Hw as [g Hgw].
  assert (rexec route handleCongested s (LConsume w)
    = Some (RState (r_in s) (<[w := Chan (ch_cap c) rest (ch_closed c)]> (r_out s))
              (<[w := g ++ [x]]> (r_got s)) (r_route s) (r_mode s) (r_drain s)
              (r_taken s) (r_dropped s) (r_metas s))) as Hx.
  { simpl. by rewrite Hc, Hgw, Eb. }
  exists [LConsume w]. eexists _, _. split; [by repeat constructor|]. split; [simpl; lia|].
  split; [cbn [rrun]; by rewrite Hx|]. split; [by eapply in_range_step|].
  simpl. rewrite list_lookup_insert_eq by (by eapply lookup_lt_Some). split_and!; try done.
  unfold ch_room in *. simpl. rewrite Eb in Er. apply bool_decide_eq_false in Er.
  simpl in *. apply bool_decide_eq_true. lia.
Qed.
End InRange.

Lemma within_bind a b s (P Q : rstate M St -> Prop) :
  finishes_within route handleCongested a s P ->
  (forall s', P s' -> finishes_within route handleCongested b s' Q) ->
  finishes_within route handleCongested (a + b) s Q.
Proof.
  intros (ls & s1 & Hf & Hl & Hr & HP) Hk. destruct (Hk _ HP) as (ls' & s2 & Hf' & Hl' & Hr' & HQ).
  exists (ls ++ ls'), s2. rewrite list.Forall_app, length_app, rrun_app, Hr.
  split_and!; [done..|lia|done|done].
Qed.

Lemma within_step l s s' (P : rstate M St -> Prop) :
  finishes l -> rexec route handleCongested s l = Some s' -> P s' ->
  finishes_within route handleCongested 1 s P.
Proof.
  intros Hl Hx HP. exists [l], s'. cbn [rrun]. rewrite Hx. repeat split; auto.
Qed.

Lemma init_in_range outs depth st : in_range outs (r_init depth outs st).
Proof.
  split; [simpl; rewrite map_map; by apply map_id|]. split; [apply r_init_inv|done].
Qed.

Section Finish.
Context (outs : list nat) (Hroute : forall msg i st, (route msg i st).1 < length outs)
  (Hpos : Forall (fun n => 0 < n) outs).

(** the message in hand reaches a worker, and nothing else changes *)
Lemma serve_hand s :
  in_range outs s -> r_mode s <> Returned ->
  finishes_within route handleCongested 2 s (fun s' =>
    in_range outs s' /\ r_mode s' = Idle /\ r_in s' = r_in s /\ r_drain s' = r_drain s).
Proof.
  intros Hin Hret. pose proof Hin as (_ & _ & Hcr & Hbl).
  destruct (r_mode s) as [|msg i|msg i w| |] eqn:Em; try done.
  { exists [], s. split_and!; try done. simpl. lia. }
  - destruct (route msg i (r_route s)) as [w st] eqn:Er.
    assert (w < length outs) as Hw by (pose proof (Hroute msg i (r_route s)) as H; by rewrite Er in H).
    destruct (make_room outs Hroute s w Hin Hpos Hw)
      as (ls & s1 & c & Hf & Hl & Hr & Hin1 & Hm1 & Hi1 & Hd1 & Ht1 & Hc & Hroom).
    apply (within_bind 1 1 _ (fun s' => s' = s1)); [by exists ls, s1|]. intros s' ->.
    assert (rexec route handleCongested s1 LAttempt = Some (send_to (set_route s1 st) w c msg)) as Hx.
    { simpl. rewrite Hm1, Em. unfold attempt. rewrite Ht1, Er. simpl. by rewrite Hc, Hroom. }
    eapply within_step; [|exact Hx|]; [done|]. split; [by eapply in_range_step|]. by simpl.
  - destruct (make_room outs Hroute s w Hin Hpos) as (ls & s1 & c & Hf & Hl & Hr & Hin1 & Hm1 & Hi1 & Hd1 & _ & Hc & Hroom);
      [by eapply Hbl|].
    apply (within_bind 1 1 _ (fun s' => s' = s1)); [by exists ls, s1|]. intros s' ->.
    assert (rexec route handleCongested s1 LSent = Some (send_to s1 w c msg)) as Hx.
    { simpl. by rewrite Hm1, Em, Hc, Hroom. }
    eapply within_step; [|exact Hx|]; [done|]. split; [by eapply in_range_step|]. by simpl.
Qed.

(** then those in the queue, and the router returns *)
Lemma drain_all k : forall s,
  in_range outs s -> r_mode s = Idle -> r_drain s = Some k -> k <= length (ch_buf (r_in s)) ->
  finishes_within route handleCongested (3 * k + 1) s (fun s' => r_mode s' = Returned).
Proof.
  induction k as [|k IH]; intros s Hin Hm Hd Hk.
  { eapply (within_step LClose); [done|simpl; by rewrite Hm, Hd|done]. }
  destruct (ch_buf (r_in s)) as [|x rest] eqn:Eb; [simpl in Hk; lia|].
  set (s1 := take_msg s (Chan (ch_cap (r_in s)) rest (ch_closed (r_in s))) x).
  assert (rexec route handleCongested s LTake = Some s1) as Hx by (simpl; by rewrite Hm, Eb, Hd).
  replace (3 * S k + 1) with (1 + (2 + (3 * k + 1))) by lia.
  apply (within_bind _ _ _ (fun s' => s' = s1)); [by eapply (within_step LTake)|]. intros s' ->.
  eapply within_bind; [apply serve_hand; [by eapply in_range_step|done]|].
  intros s' (Hin' & Hm' & Hi & Hd'). apply IH; [done..| |].
  - rewrite Hd'. simpl. by rewrite Hd.
  - rewrite Hi. simpl in *. lia.
Qed.

Lemma drain_finishes s k :
  in_range outs s -> r_drain s = Some k -> k <= length (ch_buf (r_in s)) ->
  finishes_within route handleCongested (3 * k + 3) s (fun s' => r_mode s' = Returned).
Proof.
  intros Hin Hd Hk. assert (r_mode s = Returned \/ r_mode s <> Returned) as [Hm|Hm] by (destruct (r_mode s); naive_solver).
  { exists [], s. split_and!; try done. simpl. lia. }
  replace (3 * k + 3) with (2 + (3 * k + 1)) by lia.
  eapply within_bind; [by apply serve_hand|].
  intros s' (Hin' & Hm' & Hi & Hd'). apply drain_all; [done..| |]; congruence.
Qed.

Lemma in_range_reachable depth st s :
  rtc (rstep route handleCongested) (r_init depth outs st) s -> in_range outs s.
Proof.
  intros Hr. remember (r_init depth outs st) as s0 eqn:E0.
  assert (in_range outs s0) as Hin by (subst; apply init_in_range). clear E0.
  induction Hr as [|? ? ? [l Hl]]; eauto using in_range_step.
Qed.
End Finish.

Lemma shutdown_draining s s1 s2 :
  rexec route handleCongested s LShutdown = Some s1 -> rtc (rstep route handleCongested) s1 s2 ->
  draining (r_taken s ++ ch_buf (r_in s)) (length (ch_buf (r_in s))) s2.
Proof.
  intros Hs Hr. assert (draining (r_taken s ++ ch_buf (r_in s)) (length (ch_buf (r_in s))) s1) as Hd.
  { simpl in Hs. destruct (r_mode s) eqn:Em, (r_drain s); simplify_eq.
    eexists. simpl. split; [done|]. split_and!; [done..| |done]. by rewrite firstn_all. }
  clear Hs. induction Hr as [|? ? ? [l Hl] ? IH]; [done|]. apply IH. by eapply drain_step.
Qed.

(** C16: shutdown serves exactly what is queued, and the router returns.  From the moment the
    router sees the shutdown, whatever is sent to it or consumed meanwhile: once it has returned, it
    has received the messages that were in its queue at that moment, in order, and no later
    one, and it has closed the channels of all its workers.  And return it can, at every moment:
    when the owner's routing names workers that exist and their channels have buffers, at most three
    steps for each queued message and three more lead to its return, steps of the router and of
    workers that receive, without a feeder or the timer. *)
Theorem router_shutdown_drains s s1 s2 :
  rexec route handleCongested s LShutdown = Some s1 ->
  rtc (rstep route handleCongested) s1 s2 ->
  (r_mode s2 = Returned ->
     r_taken s2 = r_taken s ++ ch_buf (r_in s) /\ Forall (fun c => ch_closed c = true) (r_out s2))
  /\ (forall depth outs st, rtc (rstep route handleCongested) (r_init depth outs st) s ->
        (forall msg i st, (route msg i st).1 < length outs) -> Forall (fun n => 0 < n) outs ->
        finishes_within route handleCongested (3 * length (ch_buf (r_in s)) + 3) s2
          (fun s3 => r_mode s3 = Returned)).
Proof.
  intros Hs Hr. destruct (shutdown_draining _ _ _ Hs Hr) as (k & Hd & Hn & Hk & Ht & Hret). split.
  - intros Hm. destruct (Hret Hm) as [-> Hcl]. split; [|done]. by rewrite <- Ht, app_nil_r.
  - intros depth outs st Hr0 Hroute Hpos.
    destruct (drain_finishes outs Hroute Hpos s2 k) as (ls & s3 & Hf & Hl & Hrun & HP); [|done..|].
    + eapply in_range_reachable; [done|]. etrans; [exact Hr0|]. eapply rtc_l; [by eexists|exact Hr].
    + exists ls, s3. split_and!; [done|lia|done..].
Qed.
End Theorems.
