(* ===== verification/Crypt.v ===== *)
(** * Credentials ([crypt.go])

    The RSA helpers, the interactive collection of a user and a password, and the
    collector the dialin transport and the influx output configure.  The
    cryptography, PEM and base64 are fields of the class [CryptEnv]. *)
From S2P Require Import Prelude Message.

(** [rsa_key] is the type of private keys.  [EncryptOAEP] has the label, the hash and the
    random reader of the code fixed. *)
Class CryptEnv `{E : Env} := {
  rsa_key : Type;
  pem_Decode : string -> option (string * bytes);
  ParsePKCS1PrivateKey : bytes -> res rsa_key;
  EncryptOAEP : rsa_key -> string -> res bytes;
  DecryptOAEP : rsa_key -> bytes -> res string;
  base64_EncodeToString : bytes -> string;
  base64_DecodeString : string -> res bytes;
  pemFileName : string;
  configFileName : string;
  WriteConfigFile : string -> res unit;
}.

(** What the code relies on: base64 decodes what it encoded, to a string that is not empty
    unless the bytes are; a cipher text decrypts to its clear text, and is not empty. *)
Class CryptLaws `{CE : CryptEnv} : Prop := {
  base64_roundtrip : forall b, base64_DecodeString (base64_EncodeToString b) = Ok b;
  oaep_roundtrip : forall k pw c, EncryptOAEP k pw = Ok c -> DecryptOAEP k c = Ok pw;
}.

Section Crypt.
Context `{CE : CryptEnv}.

Definition collect_pkey (pemFile : string) : res rsa_key :=
  match readFile pemFile with
  | Panic => Panic
  | Err _ => Err (Errorf "Read RSA pem: %v; access to RSA pem required")
  | Ok pemData =>
      match pem_Decode pemData with
      | None => Err (Errorf "Read key data not in PEM format")
      | Some (ty, blockBytes) =>
          if negb (String.eqb ty "RSA PRIVATE KEY")
          then Err (Errorf "Key type RSA required but found [%v]")
          else ParsePKCS1PrivateKey blockBytes
      end
  end.

(** the error of a step is wrapped in a message of its own *)
Definition wrap {A} (format : string) (r : res A) : res A :=
  match r with Err _ => Err (Errorf format) | _ => r end.

Definition encrypt_password (pemFile : string) (password : string) : res string :=
  let! pkey := wrap "Private key parse failure: %s" (collect_pkey pemFile) in
  let! ciphertxt := wrap "Encryption failed: %s" (EncryptOAEP pkey password) in
  Ok (base64_EncodeToString ciphertxt).

Definition decrypt_password (pemFile : string) (p : string) : res string :=
  let! pkey := wrap "Private key parse failure: %s" (collect_pkey pemFile) in
  let! pb64 := wrap "Failed to extract base64 from cipher string: %v"
                 (base64_DecodeString p) in
  wrap "Failed to decrypt: %v" (DecryptOAEP pkey pb64).

(** ** Interactive collection

    One round of the loop: what reading the user name and the password gave. *)
Inductive prompt : Type :=
| TooLong                              (* the line did not fit *)
| ReadError                            (* reading the user name failed *)
| Entered (user : string) (pw : res string).

(** the loop, on the rounds the operator goes through; [None] when it asks again after
    them *)
Fixpoint cryptCollect (rounds : list prompt) : option (string * string) :=
  match rounds with
  | [] => None
  | TooLong :: rest | ReadError :: rest => cryptCollect rest
  | Entered user pw :: rest =>
      if str_empty user then cryptCollect rest
      else match pw with
           | Ok pw => Some (user, pw)
           | _ => cryptCollect rest
           end
  end.

(** ** The collector *)

Record cryptUserPasswordCollector : Type := UPCollector {
  up_username : string;
  up_password : string;
  up_pem : string;
}.

Definition getUP (c : cryptUserPasswordCollector) : res (string * string) :=
  let! pw := if str_empty (up_pem c) then Ok (up_password c)
             else decrypt_password (up_pem c) (up_password c) in
  Ok (up_username c, pw).

(** the new configuration the collection offers to save *)
Definition newconfigfile : string := configFileName +:+ "_REWRITTEN".

(** user, password and pem file to store, and the options added to the configuration *)
Definition collect_credentials (nc : nodeConfig) (configSection : string)
    (rounds : list prompt) : option (list (string * string) * res (string * (string * string))) :=
  let pw := get_string nc configSection "password" in
  if negb (str_empty pw) then
    Some ([], if str_empty pemFileName then Err (Errorf "Authentication setup inconsistent")
              else match GetString nc configSection "username" with
                   | None => Err (External "option not found")
                   | Some user =>
                       let! _ := decrypt_password pemFileName pw in
                       Ok (user, (pw, pemFileName))
                   end)
  else
    match cryptCollect rounds with
    | None => None
    | Some (user, pw) =>
        Some (if str_empty pemFileName then ([], Ok (user, (pw, "")))
              else match encrypt_password pemFileName pw with
                   | Ok epw =>
                       ([("username", user); ("password", epw)],
                        let! _ := WriteConfigFile newconfigfile in
                        Ok (user, (epw, pemFileName)))
                   | Err e => ([], Err e)
                   | Panic => ([], Panic)
                   end)
    end.

(** [None] when the interactive collection is still asking *)
Definition handleConfig (nc : nodeConfig) (configSection : string) (rounds : list prompt)
    : option (list (string * string) * res cryptUserPasswordCollector) :=
  match collect_credentials nc configSection rounds with
  | None => None
  | Some (added, r) =>
      Some (added,
        let! c := r in
        let '(user, (pw, pem)) := c in
        if str_empty user then Err (Errorf "Authentication username zero length")
        else if str_empty pw then Err (Errorf "Authentication password zero length")
        else Ok (UPCollector user pw pem))
  end.

(** ** Theorems *)

Lemma wrap_ok {A} f (r : res A) a : wrap f r = Ok a <-> r = Ok a.
Proof. destruct r; simpl; naive_solver. Qed.

Lemma encrypt_decrypt `{!CryptLaws} pemFile pw epw :
  encrypt_password pemFile pw = Ok epw -> decrypt_password pemFile epw = Ok pw.
Proof.
  unfold encrypt_password, decrypt_password.
  intros (k & Hk & Hc)%res_bind_ok. apply res_bind_ok in Hc as (c & Hc%wrap_ok & [= <-]).
  rewrite Hk. simpl. rewrite base64_roundtrip. simpl.
  by rewrite (oaep_roundtrip _ _ _ Hc).
Qed.

Lemma checked_ok (user pw pem : string) c :
  (if str_empty user then Err (Errorf "Authentication username zero length")
   else if str_empty pw then Err (Errorf "Authentication password zero length")
   else Ok (UPCollector user pw pem)) = Ok c -> c = UPCollector user pw pem.
Proof. destruct (str_empty user), (str_empty pw); by intros [=]. Qed.

(** Configured credentials are usable.  A collector whose configuration succeeded yields
    credentials without an error for as long as the key file stays as it is: those of the
    configuration, with the password decrypted, or exactly what the operator
    typed, whether or not it was stored encrypted. *)
Lemma credentials_usable `{!CryptLaws} nc section rounds added c :
  handleConfig nc section rounds = Some (added, Ok c) ->
  exists pw, getUP c = Ok (up_username c, pw)
  /\ (if str_empty (get_string nc section "password")
      then cryptCollect rounds = Some (up_username c, pw)
      else GetString nc section "username" = Some (up_username c)
           /\ decrypt_password pemFileName (get_string nc section "password") = Ok pw).
Proof.
  unfold handleConfig, collect_credentials, getUP.
  destruct (str_empty (get_string nc section "password")) eqn:Ep; simpl.
  - destruct (cryptCollect rounds) as [[user pw]|] eqn:Ec; [|done].
    destruct (str_empty pemFileName) eqn:Epem; simpl.
    + intros [= _ Hc]. apply checked_ok in Hc as ->. simpl. eauto.
    + destruct (encrypt_password _ _) as [epw| |] eqn:Ee; simpl; try (intros [= _ [=]]; done).
      intros [= _ Hc]. res_inv. simplify_eq/=. apply checked_ok in Hc as ->. simpl.
      rewrite Epem, (encrypt_decrypt _ _ _ Ee). simpl. eauto.
  - intros [= _ Hc]. destruct (str_empty pemFileName) eqn:Epem; [done|].
    destruct (GetString nc section "username") as [user|]; [|done]. res_inv.
    simplify_eq/=. apply checked_ok in Hc as ->. simpl. rewrite Epem.
    match goal with H : decrypt_password _ _ = Ok ?p |- _ => exists p; rewrite H end. done.
Qed.

(** Interactive collection does not end on a closed input.  As long as reading the
    user name fails, the loop asks again, whatever the number of rounds. *)
Lemma crypt_collect_eof n : cryptCollect (replicate n ReadError) = None.
Proof. by induction n. Qed.

End Crypt.
