(* ===== verification/Influx.v ===== *)
(** * The InfluxDB output ([metrics_influx.go])

    The output handler that turns batches of metrics into points, the worker that writes
    them, the routing of messages to workers, and the configuration.  The InfluxDB
    client is outside the repository: making a point is a field of the class [InfluxEnv];
    connecting, opening a batch and writing it are outcomes carried by the events of
    the worker. *)
From S2P Require Import Prelude Message Metrics Router Crypt.

Class InfluxEnv := {
  point : Type;
  NewPoint : string -> gmap string string -> gmap string goval -> Z -> res point;
}.

(** [float64(z)] for an unsigned 64-bit [z] *)
Definition float64_of_u64 (z : Z) : spec_float := binary_normalize 53 1024 z 0 false.

(** [int64(ts)*1000*1000], each operation wrapping *)
Definition ms_to_ns (ts : Z) : Z := i64 (i64 (i64 ts * 1000) * 1000).

Section Influx.
Context `{F : FmtEnv} `{IE : InfluxEnv}.

(** ** The output handler *)

Record metricsInfluxOutputContext : Type := InfluxCtx {
  ic_name : string;
  ic_fields : option (list metricsAtom);
  ic_points : list point;
}.

Definition influx_rewrite (sensor : metricsAtom) : metricsAtom :=
  match val sensor with
  | GU64 z => Atom (key sensor) (GF64 (float64_of_u64 z))
  | _ => sensor
  end.

Definition influx_buildMetric (tags : list metricsAtom) (sensor : metricsAtom) (ts : Z)
    (c : metricsInfluxOutputContext) : metricsInfluxOutputContext :=
  InfluxCtx (ic_name c) (Some (default [] (ic_fields c) ++ [influx_rewrite sensor]))
    (ic_points c).

(** a Go map filled in order: a later entry of the same key replaces an earlier one *)
Definition map_of_atoms {A} (f : goval -> A) (atoms : list metricsAtom) : gmap string A :=
  fold_left (fun m a => <[key a := f (val a)]> m) atoms ∅.

Definition influx_flushMetric (tag_atoms : list metricsAtom) (ts : Z)
    (c : metricsInfluxOutputContext) : metricsInfluxOutputContext :=
  match ic_fields c with
  | None => c
  | Some atoms =>
      let fields := map_of_atoms id atoms in
      let tags := map_of_atoms fmt_v tag_atoms in
      InfluxCtx (ic_name c) None
        (match NewPoint (ic_name c) tags fields (ms_to_ns ts) with
         | Ok pt => ic_points c ++ [pt]
         | _ => ic_points c
         end)
  end.

#[export] Instance influx_handler : MetricsOutputHandler metricsInfluxOutputContext := {
  adaptSensorName name := name;
  adaptTagName name := name;
  buildMetric := influx_buildMetric;
  flushMetric := influx_flushMetric;
}.

(** ** The worker *)

Section Worker.
Context {M P : Type} `{E : Env} `{D : !DataMsg M}
  `{MS : !MetricsSource metricsInfluxOutputContext M P}.
Context (m_name : string) (standalone : bool) (specDB : gmap string metricsSpecNode).

Inductive wmode : Type := WConnecting | WServing | WExited | WCrashed.

(** [wk_err] is whether the variable [err] holds an error; [wk_metadata] the meta data of
    the last message; [wk_p], [wk_stats] the states extraction keeps.  Points are
    dumped, where a dump file is set up, and written batch by batch. *)
Record worker_state : Type := Worker {
  wk_mode : wmode;
  wk_err : bool;
  wk_metadata : option dataMsgMetaData;
  wk_p : P;
  wk_stats : statRecordTable;
  wk_dumped : list (list point);
  wk_written : list (list point);
  wk_metas : list meta;
}.

Definition worker_init (p : P) (rt : statRecordTable) : worker_state :=
  Worker WConnecting false None p rt [] [] [].

(** what happens to the worker: an attempt to collect credentials and create the client; a
    message, with whether a batch can be opened and written; the close of its
    channel *)
Inductive wevent : Type :=
| EvConnect (connected : bool)
| EvMsg (msg : M) (batch_ok write_ok : bool)
| EvClosed.

(** leaving the inner loop on an error: the counter needs the meta data of a message *)
Definition worker_break (s : worker_state) (error_tag : string) : worker_state :=
  match wk_metadata s with
  | None => Worker WCrashed true None (wk_p s) (wk_stats s) (wk_dumped s) (wk_written s)
              (wk_metas s)
  | Some md =>
      Worker WConnecting true (wk_metadata s) (wk_p s) (wk_stats s) (wk_dumped s)
        (wk_written s)
        (wk_metas s ++ [Inc "metrics_base_path_error"
           [m_name; md_Identifier md; md_Path md; error_tag]])
  end.

(** a message whose batch was opened *)
Definition worker_msg (s : worker_state) (msg : M) (write_ok : bool) : worker_state :=
  let metadata := getMetaData msg in
  let '(p, (ms, (ops, r))) := produceMetrics specDB msg (wk_p s) in
  let '(context, rt) := run_mops ops (InfluxCtx (md_Path metadata) None [], wk_stats s) in
  let metas := wk_metas s ++ ms in
  match r with
  | Ok _ =>
      match ic_points context with
      | [] => Worker WServing false (Some metadata) p rt (wk_dumped s) (wk_written s) metas
      | pts =>
          let dumped := wk_dumped s ++ [pts] in
          if standalone
          then Worker WServing false (Some metadata) p rt dumped (wk_written s) metas
          else if write_ok
          then Worker WServing false (Some metadata) p rt dumped (wk_written s ++ [pts]) metas
          else worker_break
                 (Worker WServing true (Some metadata) p rt dumped (wk_written s) metas)
                 "failed to write batch point"
      end
  | Err _ =>
      Worker WServing true (Some metadata) p rt (wk_dumped s) (wk_written s)
        (metas ++ [Inc "metrics_base_path_error"
           [m_name; md_Identifier metadata; md_Path metadata; "produce failed"]])
  | Panic => Worker WCrashed true (Some metadata) p rt (wk_dumped s) (wk_written s) metas
  end.

(** a step of the worker; [None] when it is not ready for the event *)
Definition worker_step (s : worker_state) (ev : wevent) : option worker_state :=
  match wk_mode s, ev with
  | WConnecting, EvConnect connected =>
      let err := if standalone then wk_err s else negb connected in
      Some (Worker (if err then WConnecting else WServing) err (wk_metadata s) (wk_p s)
              (wk_stats s) (wk_dumped s) (wk_written s) (wk_metas s))
  | WServing, EvClosed =>
      Some (Worker WExited (wk_err s) (wk_metadata s) (wk_p s) (wk_stats s) (wk_dumped s)
              (wk_written s) (wk_metas s))
  | WServing, EvMsg msg batch_ok write_ok =>
      if batch_ok then Some (worker_msg s msg write_ok)
      else Some (worker_break s "failed to create batch point")
  | _, _ => None
  end.

Fixpoint worker_run (s : worker_state) (evs : list wevent) : option worker_state :=
  match evs with
  | [] => Some s
  | ev :: evs' => s' ← worker_step s ev; worker_run s' evs'
  end.

End Worker.

(** ** Routing to the workers *)

Section Routing.
Context {M : Type} `{E : Env} `{D : !DataMsg M} (m_name : string) (workers : nat).

(** the state of the closure is [lastWorker] *)
Definition influx_route (msg : M) (attempts lastWorker : nat) : nat * nat :=
  let w := (lastWorker + 1) mod workers in (w, w).

Definition influx_handleCongested (msg : M) (attempts worker : nat)
    : list meta * congestionAction :=
  let metadata := getMetaData msg in
  if bool_decide (attempts < workers) then
    ([Inc "metrics_base_path_error" [m_name; md_Identifier metadata; md_Path metadata;
        "congested worker (rerouted)"]], DATAMSG_ROUTER_REROUTE)
  else
    ([Inc "metrics_base_path_error" [m_name; md_Identifier metadata; md_Path metadata;
        "congested worker (dropped)"]], DATAMSG_ROUTER_DROP).

(** the iterations of [handleMsg], with nothing else happening between them *)
Fixpoint attempts (fuel : nat) (s : rstate M nat) : rstate M nat :=
  match fuel with
  | 0 => s
  | S fuel' =>
      match r_mode s with
      | Trying msg i => attempts fuel' (attempt influx_route influx_handleCongested s msg i)
      | _ => s
      end
  end.

End Routing.

(** ** Configuration *)

Record metricsInfluxOutputHandler : Type := InfluxHandler {
  influxServer : string;
  auth : option cryptUserPasswordCollector;
  database : string;
  consistency : string;
  retention : string;
  workers : Z;
  io_standalone : bool;
  metricsfilename : string;
}.

(** [None] while credentials are being collected; [procs] is [runtime.GOMAXPROCS(-1)] *)
Definition metricsInfluxNew `{CE : CryptEnv} (procs : Z) (name : string) (nc : nodeConfig)
    (rounds : list prompt) : option (res metricsInfluxOutputHandler) :=
  let dump := get_string nc name "dump" in
  let server := get_string nc name "influx" in
  if str_empty server && str_empty dump
  then Some (Err (Errorf "attribute 'influx' required for influx metric export."))
  else
    let standalone := str_empty server in
    match GetString nc name "database" with
    | None => Some (Err (External "option not found"))
    | Some db =>
        let finish (a : option cryptUserPasswordCollector) :=
          let w := get_int nc name "workers" in
          let w := if bool_decide (w = 0)%Z then 1%Z
                   else if bool_decide (w > procs)%Z then procs else w in
          InfluxHandler server a db (get_string nc name "consistency")
            (get_string nc name "retention") w standalone dump in
        if standalone then Some (Ok (finish None))
        else match handleConfig nc name rounds with
             | None => None
             | Some (_, r) => Some (let! a := r in Ok (finish (Some a)))
             end
    end.

(** [make([]chan dataMsg, o.workers)] of [setupWorkers] *)
Definition setupWorkers_chans (w : Z) (depth : nat) : res (list nat) :=
  if bool_decide (w < 0)%Z then Panic else Ok (replicate (Z.to_nat w) depth).

(** ** Theorems: points *)

(** the point a batch asks for *)
Definition point_of (name : string) (b : batch) : res point :=
  let '(tags, sensors, ts) := b in
  NewPoint name (map_of_atoms fmt_v tags)
    (map_of_atoms id (map (fun s => influx_rewrite s.1) sensors)) (ms_to_ns ts).

Definition points_of (name : string) (bs : list batch) : list point :=
  omap (fun b => match point_of name b with Ok pt => Some pt | _ => None end) bs.

Lemma run_mevents_app a b (c : metricsInfluxOutputContext) :
  run_mevents (a ++ b) c = run_mevents b (run_mevents a c).
Proof. unfold run_mevents. by rewrite fold_left_app. Qed.

Lemma run_builds tags (sensors : list (metricsAtom * Z)) name pts : forall atoms,
  run_mevents (map (fun s => BuildMetric tags s.1 s.2) sensors) (InfluxCtx name (Some atoms) pts)
  = InfluxCtx name (Some (atoms ++ map (fun s => influx_rewrite s.1) sensors)) pts.
Proof.
  unfold run_mevents. induction sensors as [|s sensors IH]; intros atoms;
    [by rewrite app_nil_r|].
  cbn [map fold_left run_mevent buildMetric influx_handler].
  change (influx_buildMetric tags s.1 s.2 (InfluxCtx name (Some atoms) pts))
    with (InfluxCtx name (Some (atoms ++ [influx_rewrite s.1])) pts).
  by rewrite IH, <- app_assoc.
Qed.

Lemma run_batch name pts b :
  batch_ok b ->
  run_mevents (batch_events b) (InfluxCtx name None pts)
  = InfluxCtx name None (pts ++ points_of name [b]).
Proof.
  destruct b as [[tags sensors] ts]. unfold batch_ok. simpl. intros Hne.
  destruct sensors as [|s sensors]; [done|].
  change (map (fun s => BuildMetric tags s.1 s.2) (s :: sensors) ++ [FlushMetric tags ts])
    with ([BuildMetric tags s.1 s.2] ++
          map (fun s => BuildMetric tags s.1 s.2) sensors ++ [FlushMetric tags ts]).
  rewrite !run_mevents_app.
  change (run_mevents [BuildMetric tags s.1 s.2] (InfluxCtx name None pts))
    with (InfluxCtx name (Some [influx_rewrite s.1]) pts).
  rewrite run_builds. unfold run_mevents. simpl. unfold influx_flushMetric. simpl.
  unfold points_of. simpl. destruct (NewPoint _ _ _ _); by rewrite ?app_nil_r.
Qed.

Lemma points_of_app name a b : points_of name (a ++ b) = points_of name a ++ points_of name b.
Proof. apply omap_app. Qed.

Lemma run_batches name bs : forall pts,
  Forall batch_ok bs ->
  run_mevents (flat_map batch_events bs) (InfluxCtx name None pts)
  = InfluxCtx name None (pts ++ points_of name bs).
Proof.
  induction bs as [|b bs IH]; intros pts Hbs; [by rewrite app_nil_r|].
  inversion Hbs; subst. cbn [flat_map]. rewrite run_mevents_app, run_batch, IH by done.
  change (b :: bs) with ([b] ++ bs). by rewrite points_of_app, app_assoc.
Qed.

(** A message gives one point per batch, and nothing leaks.  Whatever kind of message and
    specification, extraction from a fresh context leaves no field behind, and
    the points collected are, in order, those its batches ask for, each with the
    path of the message as its name, the batch's own tags and fields, and its own time; only a batch the
    client refuses is missing. *)
Lemma influx_points {M P : Type} `{MSL : !MetricsSource metricsInfluxOutputContext M P}
    `{!MetricsSourceLaws metricsInfluxOutputContext M P} specDB (msg : M) (p : P) name rt :
  let ops := (produceMetrics specDB msg p).2.2.1 in
  exists bs, Forall batch_ok bs /\ mevents ops = flat_map batch_events bs
  /\ (run_mops ops (InfluxCtx name None [], rt)).1 = InfluxCtx name None (points_of name bs).
Proof.
  intros ops. destruct (proj1 (batched_batches _) (produce_batched specDB msg p))
    as (bs & Hbs & Heq).
  exists bs. split; [done|]. split; [done|].
  rewrite run_mops_events. unfold ops. rewrite Heq. by rewrite run_batches.
Qed.

(** The time of a point is exact up to the year 2262.  The nanoseconds given to the
    client are the timestamp's milliseconds exactly when these fit a signed 64-bit count of
    nanoseconds; a later timestamp wraps. *)
Lemma influx_time (ts : Z) :
  (0 <= ts < 2 ^ 64)%Z ->
  (ms_to_ns ts = ts * 1000000 <-> ts * 1000000 < 2 ^ 63)%Z.
Proof.
  intros Hts. unfold ms_to_ns, i64.
  assert (forall z, (- 2 ^ 63 <= (z + 2 ^ 63) mod 2 ^ 64 - 2 ^ 63 < 2 ^ 63)%Z) as Hb.
  { intros z. pose proof (Z.mod_pos_bound (z + 2 ^ 63) (2 ^ 64) ltac:(lia)). lia. }
  split.
  - intros H. rewrite <- H. apply Hb.
  - intros H. rewrite (Z.mod_small (ts + 2 ^ 63)) by lia.
    rewrite (Z.mod_small ((ts + 2 ^ 63 - 2 ^ 63) * 1000 + 2 ^ 63)) by lia.
    rewrite Z.mod_small by lia. lia.
Qed.

(** of two values of the same sensor in a batch, the point has the second alone *)
Lemma point_of_last name tags k v1 v2 t1 t2 t3 ts :
  point_of name (tags, [(Atom k v1, t1); (Atom k v2, t2)], ts)
  = point_of name (tags, [(Atom k v2, t3)], ts).
Proof.
  simpl. f_equal. unfold map_of_atoms. simpl.
  assert (forall v, key (influx_rewrite (Atom k v)) = k) as Hk by by intros [].
  by rewrite !Hk, insert_insert_eq.
Qed.

End Influx.

(** ** Theorems: routing *)

Section RoutingTheorems.
Context {M : Type} `{E : Env} `{D : !DataMsg M} (m_name : string).
Implicit Types s : rstate M nat.

Definition room_at s (w : nat) : bool :=
  match r_out s !! w with Some c => ch_room c | None => false end.

Lemma attempt_full n s msg i :
  r_mode s = Trying msg i -> i < n -> length (r_out s) = n ->
  room_at s ((r_route s + 1) mod n) = false ->
  exists ms, attempt (influx_route n) (influx_handleCongested m_name n) s msg i
  = set_mode (add_metas (set_route s ((r_route s + 1) mod n)) ms) (Trying msg (S i)).
Proof.
  intros Hm Hi Hlen Hroom. unfold attempt, influx_route. cbn [set_route r_out].
  destruct (lookup_lt_is_Some_2 (r_out s) ((r_route s + 1) mod n)) as [c Hc].
  { rewrite Hlen. apply Nat.mod_upper_bound. lia. }
  unfold room_at in Hroom. rewrite Hc in *. rewrite Hroom.
  unfold influx_handleCongested. rewrite bool_decide_eq_true_2 by done. eauto.
Qed.

(** after [d] full workers *)
Lemma attempts_full n s msg d : forall k,
  r_mode s = Trying msg 0 -> r_route s < n -> length (r_out s) = n -> d <= n ->
  (forall j, j < d -> room_at s ((r_route s + 1 + j) mod n) = false) ->
  exists ms, attempts m_name n (d + k) s
  = attempts m_name n k
      (set_mode (add_metas (set_route s ((r_route s + d) mod n)) ms) (Trying msg d)).
Proof.
  induction d as [|d IH]; intros k Hm Hr Hlen Hd Hfull.
  - exists []. simpl. f_equal. destruct s; simpl in *. unfold set_mode, add_metas, set_route.
    simpl. rewrite app_nil_r, Nat.add_0_r, Nat.mod_small by done. by rewrite Hm.
  - destruct (IH (S k)) as (ms & Heq); [done..|lia|by auto|].
    replace (S d + k) with (d + S k) by lia. rewrite Heq. cbn [attempts set_mode r_mode].
    set (s1 := set_mode _ _).
    assert (((r_route s + d) mod n + 1) mod n = (r_route s + 1 + d) mod n) as Hmod.
    { rewrite Nat.Div0.add_mod_idemp_l. f_equal. lia. }
    destruct (attempt_full n s1 msg d) as (ms' & Hat); [done|lia|done|..].
    { unfold s1, room_at. cbn [set_mode add_metas set_route r_route r_out].
      rewrite Hmod. apply Hfull. lia. }
    rewrite Hat. exists (ms ++ ms'). f_equal. unfold s1.
    unfold set_mode, add_metas, set_route. simpl. rewrite Hmod, app_assoc.
    by replace (r_route s + S d) with (r_route s + 1 + d) by lia.
Qed.

Lemma attempts_found n s msg d c :
  r_mode s = Trying msg 0 -> r_route s < n -> length (r_out s) = n -> d < n ->
  (forall j, j < d -> room_at s ((r_route s + 1 + j) mod n) = false) ->
  r_out s !! ((r_route s + 1 + d) mod n) = Some c -> ch_room c = true ->
  let s' := attempts m_name n (S n) s in
  r_mode s' = Idle /\ r_out s' = <[(r_route s + 1 + d) mod n := ch_push c msg]> (r_out s)
  /\ r_dropped s' = r_dropped s.
Proof.
  intros Hm Hr Hlen Hd Hpre Hc Hroom.
  destruct (attempts_full n s msg d (S (n - d))) as (ms & Heq); [done..|lia|done|].
  replace (S n) with (d + S (n - d)) by lia. rewrite Heq. cbn [attempts set_mode r_mode].
  set (s1 := set_mode _ _).
  assert ((r_route s1 + 1) mod n = (r_route s + 1 + d) mod n) as Hrt.
  { simpl. rewrite Nat.Div0.add_mod_idemp_l. f_equal. lia. }
  unfold attempt, influx_route. cbn [set_route r_out]. rewrite Hrt.
  change (r_out s1) with (r_out s). rewrite Hc, Hroom.
  by destruct (n - d).
Qed.

Lemma attempts_none n s msg :
  0 < n -> r_mode s = Trying msg 0 -> r_route s < n -> length (r_out s) = n ->
  (forall j, j < n -> room_at s ((r_route s + 1 + j) mod n) = false) ->
  let s' := attempts m_name n (S n) s in
  r_mode s' = Idle /\ r_out s' = r_out s /\ r_dropped s' = r_dropped s ++ [msg].
Proof.
  intros Hn Hm Hr Hlen Hall.
  destruct (attempts_full n s msg n 1) as (ms & Heq); [done..|].
  replace (S n) with (n + 1) by lia. rewrite Heq. cbn [attempts set_mode r_mode].
  set (s1 := set_mode _ _).
  assert (r_route s1 = r_route s) as Hrt.
  { simpl. replace (r_route s + n) with (r_route s + 1 * n) by lia.
    rewrite Nat.Div0.mod_add. by apply Nat.mod_small. }
  specialize (Hall 0 Hn) as Hfirst. rewrite Nat.add_0_r in Hfirst.
  unfold attempt, influx_route. cbn [set_route r_out]. rewrite Hrt.
  unfold room_at in Hfirst. change (r_out s1) with (r_out s).
  destruct (lookup_lt_is_Some_2 (r_out s) ((r_route s + 1) mod n)) as [c Hc].
  { rewrite Hlen. apply Nat.mod_upper_bound. lia. }
  rewrite Hc in *. rewrite Hfirst. unfold influx_handleCongested.
  by rewrite bool_decide_eq_false_2 by lia.
Qed.

(** C29: a message goes to the first worker with room, and is dropped only when all are full.  With
    [n] workers and nothing else happening meanwhile, [handleMsg] ends within [n + 1]
    attempts: the message joins the queue of the first worker, in cyclic order after the last one
    used, that has room, and no other queue changes; if no worker has room, it is
    dropped and no queue changes. *)
Theorem influx_hunt n s msg :
  0 < n -> r_mode s = Trying msg 0 -> r_route s < n -> length (r_out s) = n ->
  let s' := attempts m_name n (S n) s in
  r_mode s' = Idle /\
  ((exists d c, d < n /\ let w := (r_route s + 1 + d) mod n in
      (forall j, j < d -> room_at s ((r_route s + 1 + j) mod n) = false)
      /\ r_out s !! w = Some c /\ ch_room c = true
      /\ r_out s' = <[w := ch_push c msg]> (r_out s) /\ r_dropped s' = r_dropped s)
   \/ ((forall w, w < n -> room_at s w = false)
       /\ r_out s' = r_out s /\ r_dropped s' = r_dropped s ++ [msg])).
Proof.
  intros Hn Hm Hr Hlen.
  destruct (first_below (fun j => room_at s ((r_route s + 1 + j) mod n)) n)
    as [Hall|(d & Hd & Hroom & Hpre)].
  - destruct (attempts_none n s msg Hn Hm Hr Hlen Hall) as (H1 & H2 & H3).
    split; [done|]. right. split; [|done]. by apply (cyclic_all _ n (r_route s)).
  - unfold room_at in Hroom. destruct (r_out s !! _) as [c|] eqn:Hc; [|done].
    destruct (attempts_found n s msg d c Hm Hr Hlen Hd Hpre Hc Hroom) as (H1 & H2 & H3).
    split; [done|]. left. exists d, c. done.
Qed.
End RoutingTheorems.

(** ** Theorems: the worker and the configuration *)

Section WorkerTheorems.
Context `{F : FmtEnv} `{IE : InfluxEnv} {M P : Type} `{E : Env} `{D : !DataMsg M}
  `{MS : !MetricsSource metricsInfluxOutputContext M P}.

(** A worker that cannot connect never leaves.  Outside standalone mode, whatever happens,
    as long as every attempt to connect fails a worker stays where it
    is: it neither consumes messages nor reacts to the close of its channel, which the shutdown of
    the output waits for. *)
Lemma influx_worker_stuck m_name specDB p rt evs s :
  Forall (fun ev => ev <> EvConnect true) evs ->
  worker_run m_name false specDB (@worker_init _ P p rt) evs = Some s ->
  wk_mode s = WConnecting /\ wk_written s = [] /\ wk_metas s = []
  /\ evs = replicate (length evs) (EvConnect false).
Proof.
  assert (forall evs (s0 : worker_state) s,
    Forall (fun ev : wevent => ev <> EvConnect true) evs ->
    wk_mode s0 = WConnecting -> worker_run m_name false specDB s0 evs = Some s ->
    wk_mode s = WConnecting /\ wk_written s = wk_written s0 /\ wk_metas s = wk_metas s0
    /\ evs = replicate (length evs) (EvConnect false)) as Hgen;
    [|intros Hf Hr; exact (Hgen evs (worker_init p rt) s Hf eq_refl Hr)].
  clear. induction evs as [|ev evs IH]; intros s0 s Hev Hm Hrun; simpl in Hrun.
  { by simplify_eq. }
  inversion Hev as [|? ? Hne Hev']; subst. unfold worker_step in Hrun. rewrite Hm in Hrun.
  destruct ev as [[|]|msg b w|]; simplify_eq/=.
  eapply IH in Hrun as (? & ? & ? & Heq); [|done|done]. by rewrite <- Heq.
Qed.

(** A negative number of workers is accepted and then panics.  The configuration takes any
    negative count as it is, and setting up the workers fails at run
    time on it. *)
Lemma influx_negative_workers `{CE : CryptEnv} procs name nc rounds h depth :
  metricsInfluxNew procs name nc rounds = Some (Ok h) ->
  (get_int nc name "workers" < 0)%Z -> (0 < procs)%Z ->
  workers h = get_int nc name "workers" /\ setupWorkers_chans (workers h) depth = Panic.
Proof.
  unfold metricsInfluxNew, setupWorkers_chans. intros Hc Hneg Hp.
  assert (workers h = get_int nc name "workers") as Hw; cycle 1.
  { split; [done|]. rewrite Hw. by rewrite bool_decide_eq_true_2. }
  destruct (str_empty _ && _); [done|]. destruct (GetString nc name "database"); [|done].
  rewrite !(bool_decide_eq_false_2 (get_int nc name "workers" = 0)%Z) in Hc by lia.
  rewrite !(bool_decide_eq_false_2 (get_int nc name "workers" > procs)%Z) in Hc by lia.
  destruct (str_empty (get_string nc name "influx")); [by simplify_eq/=|].
  destruct (handleConfig nc name rounds) as [[added r]|]; [|done].
  destruct r; by simplify_eq/=.
Qed.
End WorkerTheorems.
