(* ===== verification/Prom.v ===== *)
(** * The Prometheus push gateway output ([metrics_prometheus.go])

    The output handler that writes the text format and posts it, the worker, and the
    configuration.  Posting is outside the repository: what each post
    comes to is drawn from a list of outcomes in the handler's context. *)
From S2P Require Import Prelude Message Metrics GpbMetrics.

Definition PROMETHEUS_JOBNAME : string := "telemetry".

Definition newline : string := String (Ascii.ascii_of_nat 10) "".

(** FNV-1a on 64 bits ([hash/fnv], [New64a]) *)
Definition fnv64a (s : string) : Z :=
  fold_left (fun h b => u64 (Z.lxor h (b2z b) * 1099511628211)) (bytes_of_string s)
    14695981039346656037%Z.

Example fnv64a_a : fnv64a "a" = 12638187200555641996%Z.
Proof. vm_compute. reflexivity. Qed.

(** the characters allowed in the name of a sensor, and of a tag *)
Definition sensor_char (c : char) : bool :=
  is_alnum c || Ascii.eqb c (char_of "_") || Ascii.eqb c colon.
Definition tag_char (c : char) : bool := is_alnum c || Ascii.eqb c (char_of "_").

Definition prom_adaptSensorName (name : string) : string := replace_runs sensor_char "_" name.
Definition prom_adaptTagName (name : string) : string := replace_runs tag_char "_" name.

(** what a post comes to: no request could be made of the URL; the exchange failed after
    some of the body was read; a status was received *)
Inductive post_outcome : Type :=
| NewRequestError
| DoError (bodyRead : nat)
| Status (code : Z).

(** the buffer of the worker, the dump, the posts made (URL and body) and the outcomes to
    come *)
Record prom_ctx : Type := PromCtx {
  pc_buf : string;
  pc_dump : option string;
  pc_posts : list (string * string);
  pc_outcomes : list post_outcome;
}.

Section Prom.
Context `{F : FmtEnv} (pushURL : string).

Fixpoint str_drop (n : nat) (s : string) : string :=
  match n, s with
  | S n', String _ s' => str_drop n' s'
  | _, _ => s
  end.

(** [k1="v1",k2="v2"] between braces, or nothing *)
Fixpoint prom_labels (delim : string) (tags : list metricsAtom) : string :=
  match tags with
  | [] => ""
  | t :: tags' =>
      delim +:+ key t +:+ "=" +:+ dquote +:+ fmt_v (val t) +:+ dquote
      +:+ prom_labels "," tags'
  end.

Definition prom_line (tags : list metricsAtom) (sensor : metricsAtom) (ts : Z) : string :=
  key sensor
  +:+ (match tags with [] => " " | _ => prom_labels "{" tags +:+ "} " end)
  +:+ fmt_v (val sensor) +:+ " " +:+ pretty ts +:+ newline.

Definition prom_buildMetric (tags : list metricsAtom) (sensor : metricsAtom) (ts : Z)
    (c : prom_ctx) : prom_ctx :=
  PromCtx (pc_buf c +:+ prom_line tags sensor ts) (pc_dump c) (pc_posts c) (pc_outcomes c).

(** the content of [instanceBuf] *)
Definition instance_text (tags : list metricsAtom) : string :=
  fold_left (fun s t => s +:+ key t +:+ "=" +:+ dquote +:+ fmt_v (val t) +:+ dquote +:+ " ")
    tags "".

(** the URL that keeps the group of these tags apart *)
Definition group_url (tags : list metricsAtom) : string :=
  let inst := instance_text tags in
  if str_empty inst then pushURL else pushURL +:+ "_" +:+ pretty (fnv64a inst).

Definition prom_flushMetric (tags : list metricsAtom) (ts : Z) (c : prom_ctx) : prom_ctx :=
  if str_empty (pc_buf c) then c
  else
    let url := group_url tags in
    let dump := (fun d => d +:+ "POST " +:+ url +:+ newline +:+ pc_buf c) <$> pc_dump c in
    match pc_outcomes c with
    | NewRequestError :: rest => PromCtx (pc_buf c) dump (pc_posts c) rest
    | DoError n :: rest => PromCtx (str_drop n (pc_buf c)) dump (pc_posts c) rest
    | Status _ :: rest => PromCtx "" dump (pc_posts c ++ [(url, pc_buf c)]) rest
    | [] => PromCtx "" dump (pc_posts c ++ [(url, pc_buf c)]) []
    end.

#[local] Instance prom_handler : MetricsOutputHandler prom_ctx := {
  adaptSensorName := prom_adaptSensorName;
  adaptTagName := prom_adaptTagName;
  buildMetric := prom_buildMetric;
  flushMetric := prom_flushMetric;
}.

(** ** The worker *)

(** one message: the buffer is cleared first *)
Definition prom_msg {M P} `{MS : !MetricsSource prom_ctx M P}
    (specDB : gmap string metricsSpecNode) (s : prom_ctx * (P * statRecordTable)) (msg : M)
    : prom_ctx * (P * statRecordTable) :=
  let '(c, (p, rt)) := s in
  let c := PromCtx "" (pc_dump c) (pc_posts c) (pc_outcomes c) in
  let '(p, (_, (ops, _))) := produceMetrics specDB msg p in
  let '(c, rt) := run_mops ops (c, rt) in
  (c, (p, rt)).

Definition prom_worker {M P} `{MS : !MetricsSource prom_ctx M P}
    (specDB : gmap string metricsSpecNode) (s : prom_ctx * (P * statRecordTable))
    (msgs : list M) : prom_ctx * (P * statRecordTable) :=
  fold_left (prom_msg specDB) msgs s.

End Prom.

(** ** Configuration and URL *)

Record metricsPrometheusOutputHandler : Type := PromHandler {
  pushGWAddress : string;
  jobName : string;
  instance : string;
  pm_metricsfilename : string;
}.

Definition metricsPrometheusNew (conductor_ID name : string) (nc : nodeConfig)
    : res metricsPrometheusOutputHandler :=
  match GetString nc name "pushgw" with
  | None => Err (External "option not found")
  | Some gw =>
      Ok (PromHandler gw (default PROMETHEUS_JOBNAME (GetString nc name "jobname"))
            (default conductor_ID (GetString nc name "instance"))
            (get_string nc name "dump"))
  end.

Fixpoint str_contains (sub s : string) : bool :=
  has_prefix sub s || match s with EmptyString => false | String _ s' => str_contains sub s' end.

(** [strings.HasSuffix(s, "/")] and [s[:len(s)-1]] *)
Fixpoint drop_final_slash (s : string) : string :=
  match s with
  | EmptyString => EmptyString
  | String c EmptyString => if Ascii.eqb c slash then EmptyString else s
  | String c s' => String c (drop_final_slash s')
  end.

(** the push URL; [queryEscape] is [url.QueryEscape] *)
Definition prom_pushURL (queryEscape : string -> string)
    (p : metricsPrometheusOutputHandler) : string :=
  let addr := if str_contains "://" (pushGWAddress p) then pushGWAddress p
              else "http://" +:+ pushGWAddress p in
  drop_final_slash addr +:+ "/metrics/job/" +:+ queryEscape (jobName p)
  +:+ "/instance/" +:+ queryEscape (instance p).

(** ** Theorems *)

(** Exported names are in the alphabet of the gateway.  An adapted name has only
    allowed characters, a name already in the alphabet is unchanged (so that adapting twice is
    adapting once), and an adapted tag name is a fixed point of the sensor adapter
    too. *)
Lemma prom_names (name : string) :
  str_forall sensor_char (prom_adaptSensorName name) = true
  /\ str_forall tag_char (prom_adaptTagName name) = true
  /\ (str_forall sensor_char name = true -> prom_adaptSensorName name = name)
  /\ (str_forall tag_char name = true -> prom_adaptTagName name = name)
  /\ prom_adaptSensorName (prom_adaptTagName name) = prom_adaptTagName name.
Proof.
  assert (str_forall tag_char (prom_adaptTagName name) = true) as Ht
    by (by apply replace_runs_chars).
  split; [by apply replace_runs_chars|]. split; [done|].
  split; [apply replace_runs_id|]. split; [apply replace_runs_id|].
  apply replace_runs_id. eapply str_forall_impl; [|exact Ht].
  unfold sensor_char, tag_char. by intros c ->.
Qed.

Section Theorems.
Context `{F : FmtEnv} (pushURL : string).
#[local] Instance gw_handler : MetricsOutputHandler prom_ctx := prom_handler pushURL.

(** the text of a batch *)
Definition batch_text (b : batch) : string :=
  let '(tags, sensors, _) := b in
  fold_right (fun s acc => prom_line tags s.1 s.2 +:+ acc) "" sensors.

Lemma prom_builds tags (sensors : list (metricsAtom * Z)) d ps os : forall buf,
  run_mevents
    (map (fun s => BuildMetric tags s.1 s.2) sensors) (PromCtx buf d ps os)
  = PromCtx (buf +:+ fold_right (fun s acc => prom_line tags s.1 s.2 +:+ acc) "" sensors)
      d ps os.
Proof.
  unfold run_mevents. induction sensors as [|s sensors IH]; intros buf;
    [cbn; by rewrite str_app_nil_r|].
  cbn [map fold_left run_mevent buildMetric gw_handler prom_handler fold_right].
  change (prom_buildMetric tags s.1 s.2 (PromCtx buf d ps os))
    with (PromCtx (buf +:+ prom_line tags s.1 s.2) d ps os).
  by rewrite IH, str_app_assoc.
Qed.

Lemma str_app_nonempty a b : a +:+ b = "" -> a = "".
Proof. by destruct a. Qed.

Lemma prom_line_nonempty tags s ts buf : str_empty (buf +:+ prom_line tags s ts) = false.
Proof.
  destruct buf; [|done]. simpl. unfold prom_line. destruct (key s); [|done]. simpl.
  destruct tags; done.
Qed.

Lemma str_app_empty a b : str_empty (a +:+ b) = str_empty a && str_empty b.
Proof. by destruct a. Qed.

Lemma batch_text_nonempty b : batch_ok b -> str_empty (batch_text b) = false.
Proof.
  destruct b as [[tags [|s sensors]] ts]; [done|]. intros _. cbn [batch_text fold_right].
  rewrite str_app_empty. pose proof (prom_line_nonempty tags s.1 s.2 "") as Hl.
  cbn in Hl. by rewrite Hl.
Qed.

(** what one batch does to a context *)
Lemma prom_batch b buf ps os :
  batch_ok b ->
  run_mevents (batch_events b) (PromCtx buf None ps os)
  = let text := buf +:+ batch_text b in
    match os with
    | NewRequestError :: rest => PromCtx text None ps rest
    | DoError n :: rest => PromCtx (str_drop n text) None ps rest
    | Status _ :: rest => PromCtx "" None (ps ++ [(group_url pushURL b.1.1, text)]) rest
    | [] => PromCtx "" None (ps ++ [(group_url pushURL b.1.1, text)]) []
    end.
Proof.
  intros Hb. pose proof (batch_text_nonempty b Hb) as Hne.
  destruct b as [[tags sensors] ts]. cbn [batch_events batch_text] in *.
  unfold run_mevents. rewrite fold_left_app. fold (run_mevents
    (map (fun s => BuildMetric tags s.1 s.2) sensors) (PromCtx buf None ps os)).
  rewrite prom_builds. cbn [fold_left run_mevent flushMetric gw_handler prom_handler].
  unfold prom_flushMetric. cbn [pc_buf pc_dump pc_posts pc_outcomes].
  rewrite str_app_empty, Hne, andb_false_r. cbn. by destruct os as [|[]].
Qed.


(** After a failed post the next batch carries its lines.  If the exchange for a batch fails before
    the body is read, the lines stay in the buffer and are posted with the next batch of the
    message, to the group of the other batch's tags. *)
Lemma prom_leftover b1 b2 code rest :
  batch_ok b1 -> batch_ok b2 ->
  pc_posts (run_mevents (batch_events b1 ++ batch_events b2)
    (PromCtx "" None [] (DoError 0 :: Status code :: rest)))
  = [(group_url pushURL b2.1.1, batch_text b1 +:+ batch_text b2)].
Proof.
  intros H1 H2. unfold run_mevents. rewrite fold_left_app.
  fold (run_mevents (batch_events b1)
    (PromCtx "" None [] (DoError 0 :: Status code :: rest))).
  rewrite prom_batch by done. cbn [String.append].
  change (fold_left run_mevent (batch_events b2)) with
    (run_mevents (batch_events b2)).
  cbv zeta. by rewrite prom_batch.
Qed.

End Theorems.
