(* ===== verification/MetricsModule.v ===== *)
(** * The metrics output as a node ([metrics.go])

    Configuration of the module, and its control loop with the goroutines around it: the
    workers of the output handler, which update the shared table of statistics, and the
    timer of evictions.  The table is modelled with its aliasing: a worker finds a record
    under the lock of the table and updates it later under the lock of the record, by which
    time an eviction may have dropped it from the table. *)
From S2P Require Import Prelude Message Metrics Crypt Influx Prom Tap.

(** ** The shared table of statistics

    [ss_heap] holds [lastTS] of every record ever created; [ss_table] is the map of pointers
    to records, by key. *)
Record shared_stats : Type := SharedStats {
  ss_heap : list Z;
  ss_table : gmap string nat;
  ss_count : Z;
}.

(** [statRecordFindOrCreate], under the lock of the table *)
Definition ss_find (s : shared_stats) (key : string) (ts : Z) : shared_stats * option nat :=
  match ss_table s !! key with
  | Some l => (s, Some l)
  | None =>
      if bool_decide (Z.of_nat (size (ss_table s)) >= ss_count s)%Z then (s, None)
      else (SharedStats (ss_heap s ++ [ts]) (<[key := length (ss_heap s)]> (ss_table s))
              (ss_count s), Some (length (ss_heap s)))
  end.

(** the rest of [statRecordUpdate], under the lock of the record *)
Definition ss_update (s : shared_stats) (key : string) (l : nat) (ts : Z)
    : shared_stats * list meta :=
  match ss_heap s !! l with
  | None => (s, [])
  | Some lastTS =>
      if bool_decide (ts > lastTS)%Z
      then (SharedStats (<[l := ts]> (ss_heap s)) (ss_table s) (ss_count s),
            [Observe "timestamp_delta" [key] (u64 (ts - lastTS))])
      else if bool_decide (ts < lastTS)%Z then (s, [Inc "outofseq" [key]])
      else (s, [])
  end.

(** [evictStale] at [now] milliseconds, which locks the table and then every record *)
Definition ss_stale (s : shared_stats) (now : Z) (l : nat) : bool :=
  match ss_heap s !! l with Some lastTS => stale now lastTS | None => false end.

Definition ss_evict (s : shared_stats) (now : Z) : shared_stats :=
  SharedStats (ss_heap s) (filter (fun kl => ss_stale s now kl.2 = false) (ss_table s))
    (ss_count s).

(** the table of records by value *)
Definition ss_view (s : shared_stats) : statRecordTable :=
  StatTable (omap (fun l => ss_heap s !! l) (ss_table s)) (ss_count s).

(** ** Configuration *)

Inductive metricsOutputType : Type :=
| metricsTypePrometheus
| metricsTypeInflux
| metricsTypeTest.

Definition metricsTypeMap : gmap string metricsOutputType :=
  list_to_map [("prometheus", metricsTypePrometheus); ("influx", metricsTypeInflux);
               ("test", metricsTypeTest)].

(** Reading the file of the specification is [readFile] of [Env]; decoding its JSON into the
    list of base paths with their trees is the standard library's. *)
Class SpecEnv := { json_Unmarshal_spec : string -> res (list (string * specJSON)) }.

Section Module.
Context `{E : Env} `{F : FmtEnv} `{IE : InfluxEnv} `{CE : !CryptEnv} `{SE : SpecEnv}.

(** a handler a test may install: its adapters and the workers it starts *)
Record testHandler : Type := TestHandler {
  th_adaptSensorName : string -> string;
  th_adaptTagName : string -> string;
  th_workers : nat;
}.

Inductive outputHandler : Type :=
| HPrometheus (h : metricsPrometheusOutputHandler)
| HInflux (h : metricsInfluxOutputHandler)
| HTest (h : testHandler).

(** [buildSpecDB] of the module: the adapters are those of its handler *)
Definition test_metrics_handler (h : testHandler) : MetricsOutputHandler unit := {|
  adaptSensorName := th_adaptSensorName h;
  adaptTagName := th_adaptTagName h;
  buildMetric _ _ _ c := c;
  flushMetric _ _ c := c;
|}.

Definition module_buildSpecDB (h : outputHandler) (specSet : list (string * specJSON))
    : res (gmap string metricsSpecNode) :=
  match h with
  | HPrometheus p => @buildSpecDB prom_ctx (prom_handler (pushGWAddress p)) specSet
  | HInflux _ => @buildSpecDB metricsInfluxOutputContext influx_handler specSet
  | HTest t => @buildSpecDB unit (test_metrics_handler t) specSet
  end.

(** [mo_evict] is whether the channel [evict] was made and its first timer started *)
Record metricsOutputModule : Type := MetricsModule {
  mo_name : string;
  mo_inputSpecFile : string;
  mo_output : string;
  mo_outputHandler : outputHandler;
  mo_specDB : gmap string metricsSpecNode;
  mo_statSensorCount : Z;
  mo_evict : bool;
  mo_dataChannelDepth : Z;
}.

(** [configure].  [None] while credentials are asked for; [procs] is [GOMAXPROCS],
    [conductor_ID] the name of the instance, [testOutputHandler] the variable of that name.
    A negative depth panics when the channel is made. *)
Definition metrics_handler (conductor_ID : string) (procs : Z)
    (testOutputHandler : option testHandler) (name : string) (nc : nodeConfig)
    (rounds : list prompt) (ty : metricsOutputType) : option (res outputHandler) :=
  match ty with
  | metricsTypePrometheus =>
      Some (let! h := metricsPrometheusNew conductor_ID name nc in Ok (HPrometheus h))
  | metricsTypeInflux =>
      match metricsInfluxNew procs name nc rounds with
      | None => None
      | Some r => Some (let! h := r in Ok (HInflux h))
      end
  | metricsTypeTest =>
      Some match testOutputHandler with
           | None => Err (Errorf "test metric extraction unset")
           | Some h => Ok (HTest h)
           end
  end.

Definition metrics_finish (name file output : string) (nc : nodeConfig)
    (specSet : list (string * specJSON)) (h : outputHandler) : res metricsOutputModule :=
  let! specDB := module_buildSpecDB h specSet in
  let count := get_int nc name "statsensorcount" in
  let depth := default DATACHANNELDEPTH (GetInt nc name "datachanneldepth") in
  let! _ := make_depth depth in
  Ok (MetricsModule name file output h specDB count (bool_decide (count <> 0)%Z) depth).

Definition metrics_configure (conductor_ID : string) (procs : Z)
    (testOutputHandler : option testHandler) (name : string) (nc : nodeConfig)
    (rounds : list prompt) : option (res metricsOutputModule) :=
  match GetString nc name "file" with
  | None => Some (Err (External "option not found"))
  | Some file =>
  match readFile file with
  | Err e => Some (Err e)
  | Panic => Some Panic
  | Ok specByteStream =>
  match json_Unmarshal_spec specByteStream with
  | Err e => Some (Err e)
  | Panic => Some Panic
  | Ok specSet =>
  match GetString nc name "output" with
  | None => Some (Err (External "option not found"))
  | Some output =>
  match metricsTypeMap !! output with
  | None => Some (Err (Errorf "invalid 'output' [%s], must be one of [%v]"))
  | Some ty =>
  match metrics_handler conductor_ID procs testOutputHandler name nc rounds ty with
  | None => None
  | Some r => Some (let! h := r in metrics_finish name file output nc specSet h)
  end end end end end end.

(** the number of workers [setupWorkers] registers *)
Definition module_setupWorkers (m : metricsOutputModule) : res nat :=
  match mo_outputHandler m with
  | HPrometheus _ => Ok 1
  | HInflux h =>
      let! chans := setupWorkers_chans (workers h) (Z.to_nat (mo_dataChannelDepth m)) in
      Ok (length chans)
  | HTest t => Ok (th_workers t)
  end.

(** ** The control loop and the goroutines around it

    [MMStart] is before [setupWorkers]; [MMWaiting] is the wait for the workers on a
    shutdown.  The reply to a report carries the variable [stats]. *)
Inductive mm_mode : Type := MMStart | MMSelect | MMWaiting | MMReturned | MMCrashed.
Inductive mm_reply : Type := MMStats (st : msgStats) | MMDone.

(** a worker: between updates; holding the record it found for a key; gone *)
Inductive mm_worker : Type := MWIdle | MWFound (key : string) (l : nat) (ts : Z) | MWLeft.

(** [mm_evict] is the channel [evict]: nil, or whether its one slot is full; [mm_timers] counts
    the goroutines of [scheduleEviction] *)
Record mm_state : Type := MM {
  mm_mode_ : mm_mode;
  mm_stats : msgStats;
  mm_evict : option bool;
  mm_timers : nat;
  mm_table : shared_stats;
  mm_workers : list mm_worker;
  mm_shutdown : bool;
  mm_replies : list mm_reply;
  mm_metas : list meta;
}.

(** the state [configure] leaves when it starts the control loop *)
Definition mm_init (m : metricsOutputModule) : mm_state :=
  MM MMStart msgStats_zero (if mo_evict m then Some false else None)
    (if mo_evict m then 1 else 0) (SharedStats [] ∅ (mo_statSensorCount m)) [] false [] [].

Inductive mm_label : Type :=
| LSetup
| LTimer                                    (* a timer goroutine wakes and sends *)
| LEvict (now : Z)                          (* the loop receives it *)
| LCtrl (id : msgID)
| LAllGone                                  (* the wait for the workers is over *)
| LFind (w : nat) (key : string) (ts : Z)   (* a worker looks a record up *)
| LUpdate (w : nat)                         (* and updates it *)
| LLeave (w : nat).                         (* a worker sees the shutdown *)

Definition mm_set_table (s : mm_state) (t : shared_stats) (ms : list meta) (w : nat)
    (wk : mm_worker) : mm_state :=
  MM (mm_mode_ s) (mm_stats s) (mm_evict s) (mm_timers s) t (<[w := wk]> (mm_workers s))
    (mm_shutdown s) (mm_replies s) (mm_metas s ++ ms).

Definition mm_to (s : mm_state) (mode : mm_mode) (shut : bool) (replies : list mm_reply)
    : mm_state :=
  MM mode (mm_stats s) (mm_evict s) (mm_timers s) (mm_table s) (mm_workers s) shut
    (mm_replies s ++ replies) (mm_metas s).

Definition worker_gone (w : mm_worker) : bool := if w is MWLeft then true else false.

Definition mm_control (m : metricsOutputModule) (s : mm_state) (l : mm_label) : option mm_state :=
  match l, mm_mode_ s with
  | LSetup, MMStart =>
      match module_setupWorkers m with
      | Ok n => Some (MM MMSelect (mm_stats s) (mm_evict s) (mm_timers s) (mm_table s)
                        (replicate n MWIdle) (mm_shutdown s) (mm_replies s) (mm_metas s))
      | _ => Some (mm_to s MMCrashed (mm_shutdown s) [])
      end
  | LEvict now, MMSelect =>
      match mm_evict s with
      | Some true => Some (MM MMSelect (mm_stats s) (Some false) (1 + mm_timers s)
                             (ss_evict (mm_table s) now) (mm_workers s) (mm_shutdown s)
                             (mm_replies s) (mm_metas s))
      | _ => None
      end
  | LCtrl REPORT, MMSelect => Some (mm_to s MMSelect (mm_shutdown s) [MMStats (mm_stats s)])
  | LCtrl SHUTDOWN, MMSelect => Some (mm_to s MMWaiting true [])
  | LCtrl ACK, MMSelect => Some s
  | LAllGone, MMWaiting =>
      if forallb worker_gone (mm_workers s)
      then Some (mm_to s MMReturned (mm_shutdown s) [MMDone]) else None
  | _, _ => None
  end.

Definition mm_timer (s : mm_state) : option mm_state :=
  match mm_timers s, mm_evict s with
  | S n, Some false => Some (MM (mm_mode_ s) (mm_stats s) (Some true) n (mm_table s)
                          (mm_workers s) (mm_shutdown s) (mm_replies s) (mm_metas s))
  | _, _ => None
  end.

(** the steps of a worker, between which others run *)
Definition mm_work (s : mm_state) (l : mm_label) : option mm_state :=
  match l with
  | LFind w key ts =>
      match mm_workers s !! w with
      | Some MWIdle =>
          Some match ss_find (mm_table s) key ts with
               | (t, Some l) => mm_set_table s t [] w (MWFound key l ts)
               | (t, None) => mm_set_table s t [Inc "statCacheFull" [key]] w MWIdle
               end
      | _ => None
      end
  | LUpdate w =>
      match mm_workers s !! w with
      | Some (MWFound key l ts) =>
          let '(t, ms) := ss_update (mm_table s) key l ts in
          Some (mm_set_table s t ms w MWIdle)
      | _ => None
      end
  | LLeave w =>
      match mm_workers s !! w with
      | Some MWIdle =>
          if mm_shutdown s then Some (mm_set_table s (mm_table s) [] w MWLeft) else None
      | _ => None
      end
  | _ => None
  end.

(** a crash of the control loop ends the process *)
Definition mm_step (m : metricsOutputModule) (s : mm_state) (l : mm_label) : option mm_state :=
  if mm_mode_ s is MMCrashed then None
  else match l with
  | LTimer => mm_timer s
  | LFind _ _ _ | LUpdate _ | LLeave _ => mm_work s l
  | _ => mm_control m s l
  end.

Fixpoint mm_run (m : metricsOutputModule) (s : mm_state) (ls : list mm_label)
    : option mm_state :=
  match ls with
  | [] => Some s
  | l :: ls' => s' ← mm_step m s l; mm_run m s' ls'
  end.

End Module.

(** ** Lemmas: the shared table *)

Record ss_wf (s : shared_stats) : Prop := {
  sw_alloc : forall k l, ss_table s !! k = Some l -> l < length (ss_heap s);
  sw_inj : forall k k' l, ss_table s !! k = Some l -> ss_table s !! k' = Some l -> k = k';
  sw_size : (Z.of_nat (size (ss_table s)) <= Z.max 0 (ss_count s))%Z;
}.

Lemma ss_find_wf s key ts :
  ss_wf s -> ss_wf (ss_find s key ts).1
  /\ ss_count (ss_find s key ts).1 = ss_count s
  /\ (forall l, (ss_find s key ts).2 = Some l -> l < length (ss_heap (ss_find s key ts).1))
  /\ (forall l v, ss_heap s !! l = Some v -> ss_heap (ss_find s key ts).1 !! l = Some v).
Proof.
  intros [Ha Hi Hs]. unfold ss_find. destruct (ss_table s !! key) as [l|] eqn:E; simpl.
  { split; [done|]. split; [done|]. split; [intros ? [= <-]; eauto|done]. }
  case_bool_decide; simpl; [done|]. split; [|split; [done|split]].
  - constructor; simpl.
    + intros k l. rewrite lookup_insert_Some, length_app. simpl.
      intros [[<- <-]|[? Hl]]; [lia|]. apply Ha in Hl. lia.
    + intros k k' l. rewrite !lookup_insert_Some.
      intros [[<- <-]|[? H1]] [[<- H2]|[? H2]]; [done| | |by eauto].
      * by apply Ha in H2; lia.
      * subst. by apply Ha in H1; lia.
    + rewrite map_size_insert_None by done. lia.
  - intros l [= <-]. rewrite length_app. simpl. lia.
  - intros l v Hl. by apply lookup_app_l_Some.
Qed.

Lemma ss_update_wf s key l ts :
  ss_wf s -> ss_wf (ss_update s key l ts).1
  /\ ss_count (ss_update s key l ts).1 = ss_count s
  /\ length (ss_heap (ss_update s key l ts).1) = length (ss_heap s)
  /\ (forall l' v, ss_heap s !! l' = Some v ->
        exists v', ss_heap (ss_update s key l ts).1 !! l' = Some v' /\ (v <= v')%Z).
Proof.
  intros Hw. unfold ss_update. destruct (ss_heap s !! l) as [last|] eqn:E; simpl; cycle 1.
  { repeat split; try apply Hw. eauto using Z.le_refl. }
  case_bool_decide as Hgt; [|case_bool_decide]; simpl;
    try by (split; [done|]; split; [done|]; split; [done|]; eauto using Z.le_refl).
  destruct Hw as [Ha Hi Hs]. split; [|split; [done|split]].
  - constructor; simpl; [|done|done]. intros k l' Hl. rewrite length_insert. eauto.
  - by rewrite length_insert.
  - intros l' v Hl. destruct (decide (l' = l)) as [->|].
    + rewrite list_lookup_insert_eq by (by eapply lookup_lt_Some). simplify_eq. eauto with lia.
    + rewrite list_lookup_insert_ne by done. eauto using Z.le_refl.
Qed.

Lemma ss_evict_wf s now : ss_wf s -> ss_wf (ss_evict s now).
Proof.
  intros [Ha Hi Hs]. constructor; simpl.
  - intros k l [Hl _]%map_lookup_filter_Some. eauto.
  - intros k k' l [Hl _]%map_lookup_filter_Some [Hl' _]%map_lookup_filter_Some. eauto.
  - etransitivity; [|done]. apply inj_le, map_subseteq_size, map_filter_subseteq.
Qed.

(** An eviction of the shared table is an eviction of the table of values. *)
Lemma ss_evict_view s now : ss_wf s -> ss_view (ss_evict s now) = evictStale (ss_view s) now.
Proof.
  intros [Ha _ _]. unfold ss_view, evictStale. simpl. f_equal. apply map_eq. intros k.
  rewrite lookup_omap, !map_lookup_filter, lookup_omap.
  destruct (ss_table s !! k) as [l|] eqn:E; simpl; [|done].
  apply Ha in E as [v Hv]%lookup_lt_is_Some. unfold ss_stale. rewrite Hv. simpl.
  by destruct (stale now v).
Qed.

(** A worker that is not interrupted between its two critical sections updates the table of
    values as [statRecordUpdate] does. *)
Lemma ss_find_update_view s key ts :
  ss_wf s ->
  match ss_find s key ts with
  | (t, None) => (ss_view t, [Inc "statCacheFull" [key]])
  | (t, Some l) => (ss_view (ss_update t key l ts).1, (ss_update t key l ts).2)
  end = statRecordUpdate (ss_view s) key ts.
Proof.
  intros [Ha Hi Hs]. unfold ss_find, statRecordUpdate, statRecordFindOrCreate.
  assert (statRecords (ss_view s) !! key
          = l ← ss_table s !! key; ss_heap s !! l) as Hview by apply lookup_omap.
  assert (size (statRecords (ss_view s)) = size (ss_table s)) as Hsize.
  { simpl. rewrite <- !size_dom. f_equal. apply set_eq. intros k.
    rewrite !elem_of_dom, lookup_omap. destruct (ss_table s !! k) as [l|] eqn:E; simpl; [|done].
    apply Ha in E as Hl%lookup_lt_is_Some. by split; intros; [eexists|]. }
  rewrite Hview, Hsize. change (statSensorCount (ss_view s)) with (ss_count s).
  destruct (ss_table s !! key) as [l|] eqn:E; simpl.
  - pose proof (Ha _ _ E) as [v Hv]%lookup_lt_is_Some. unfold ss_update. rewrite Hv.
    case_bool_decide; [|by case_bool_decide]. f_equal. unfold ss_view. simpl. f_equal.
    apply map_eq. intros k. rewrite lookup_omap. destruct (decide (k = key)) as [->|Hk].
    + rewrite lookup_insert_eq, E. simpl. apply list_lookup_insert_eq.
      by eapply lookup_lt_Some.
    + rewrite lookup_insert_ne, lookup_omap by done.
      destruct (ss_table s !! k) as [l'|] eqn:E'; [|done]. simpl.
      apply list_lookup_insert_ne. intros <-. eauto.
  - case_bool_decide; [done|]. unfold ss_update. simpl.
    rewrite lookup_app_r, Nat.sub_diag by lia. simpl.
    rewrite !bool_decide_eq_false_2 by lia. f_equal. unfold ss_view. simpl. f_equal.
    apply map_eq. intros k. rewrite lookup_omap. destruct (decide (k = key)) as [->|Hk].
    + rewrite !lookup_insert_eq. simpl. by rewrite lookup_app_r, Nat.sub_diag by lia.
    + rewrite !lookup_insert_ne, lookup_omap by done.
      destruct (ss_table s !! k) as [l'|] eqn:E'; [|done]. simpl.
      apply lookup_app_l. eauto.
Qed.

(** ** Theorems: the node *)

Section ModuleTheorems.
Context `{E : Env} `{F : FmtEnv} `{IE : InfluxEnv} `{CE : !CryptEnv} `{SE : SpecEnv}.
Implicit Types (m : metricsOutputModule) (s : mm_state).

Definition mm_stopping (mode : mm_mode) : bool :=
  match mode with MMWaiting | MMReturned => true | _ => false end.

(** Invariant: one eviction is pending, as a sleeping timer or in its channel, when records are
    tracked and none otherwise; the table is well formed; workers hold records that exist and
    leave only after a shutdown; the replies are reports, then one to the shutdown. *)
Record mm_inv m s : Prop := {
  mi_table : ss_wf (mm_table s);
  mi_count : ss_count (mm_table s) = mo_statSensorCount m;
  mi_evict : match mm_evict s with
             | None => mo_evict m = false /\ mm_timers s = 0
             | Some full => mo_evict m = true /\ mm_timers s + (if full then 1 else 0) = 1
             end;
  mi_found : forall w k l ts, mm_workers s !! w = Some (MWFound k l ts) ->
               l < length (ss_heap (mm_table s));
  mi_start : mm_mode_ s = MMStart -> mm_workers s = [];
  mi_shut : mm_shutdown s = mm_stopping (mm_mode_ s);
  mi_left : forall w, mm_workers s !! w = Some MWLeft -> mm_shutdown s = true;
  mi_returned : mm_mode_ s = MMReturned -> forallb worker_gone (mm_workers s) = true;
  mi_stats : mm_stats s = msgStats_zero;
  mi_replies : exists n, mm_replies s = replicate n (MMStats msgStats_zero)
                 ++ (if mm_mode_ s is MMReturned then [MMDone] else []);
}.

Lemma mm_init_inv m : mm_inv m (mm_init m).
Proof.
  constructor; simpl; try done.
  - constructor; simpl; [done..|]. rewrite map_size_empty. lia.
  - by destruct (mo_evict m).
  - by exists 0.
Qed.

(** replacing a worker that has not left, with a larger table *)
Lemma mm_set_table_inv m s t ms w wk0 wk :
  mm_inv m s -> mm_workers s !! w = Some wk0 -> wk0 <> MWLeft ->
  ss_wf t -> ss_count t = ss_count (mm_table s) ->
  length (ss_heap (mm_table s)) <= length (ss_heap t) ->
  (forall k l ts, wk = MWFound k l ts -> l < length (ss_heap t)) ->
  (wk = MWLeft -> mm_shutdown s = true) ->
  mm_inv m (mm_set_table s t ms w wk).
Proof.
  intros [Ht Hc He Hf Hst Hsh Hl Hr Hss Hre] Hw Hne Ht' Hc' Hlen Hfound Hleft.
  assert (forall w' wk', <[w := wk]> (mm_workers s) !! w' = Some wk' ->
            wk' = wk \/ mm_workers s !! w' = Some wk') as Hlook.
  { intros w' wk'. rewrite list_lookup_insert_Some. naive_solver. }
  constructor; simpl; try done.
  - congruence.
  - intros w' k l ts [<-|H]%Hlook; [eauto|]. apply Hf in H. lia.
  - intros Hm. by rewrite (Hst Hm) in Hw.
  - intros w' [<-|H]%Hlook; eauto.
  - intros Hm. specialize (Hr Hm). rewrite forallb_forall in Hr.
    apply list_elem_of_lookup_2, list_elem_of_In, Hr in Hw. by destruct wk0.
Qed.

Lemma mm_control_inv m s l s' : mm_inv m s -> mm_control m s l = Some s' -> mm_inv m s'.
Proof.
  intros Hinv. unfold mm_control.
  destruct l as [| |now|[]| | | |]; destruct (mm_mode_ s) eqn:Hmode; try done.
  all: destruct Hinv as [Ht Hc He Hf Hst Hsh Hl Hr Hss [n Hre]]; rewrite Hmode in *;
    simpl in *.
  - destruct (module_setupWorkers m) as [k| |]; intros [= <-]; constructor; simpl; eauto;
      try (intros *; rewrite lookup_replicate; naive_solver); try done;
      exists n; by rewrite Hre, !app_nil_r.
  - destruct (mm_evict s) as [[]|] eqn:Ev; [|done..]. intros [= <-].
    constructor; simpl; eauto using ss_evict_wf. destruct He as [? He]. split; [done|]. lia.
  - intros [= <-]. constructor; simpl; eauto; try done. exists n. by rewrite Hre, !app_nil_r.
  - intros [= <-]. constructor; simpl; eauto; try done. exists (S n).
    by rewrite Hre, !app_nil_r, Hss, <- replicate_cons_app.
  - intros [= <-]. constructor; rewrite ?Hmode; eauto.
  - destruct (forallb worker_gone (mm_workers s)) eqn:Hg; [|done]. intros [= <-].
    constructor; simpl; eauto; try done. exists n. by rewrite Hre, app_nil_r.
Qed.

Lemma mm_timer_inv m s s' : mm_inv m s -> mm_timer s = Some s' -> mm_inv m s'.
Proof.
  intros [Ht Hc He Hf Hst Hsh Hl Hr Hss Hre]. unfold mm_timer.
  destruct (mm_timers s) as [|n] eqn:Hn; [done|].
  destruct (mm_evict s) as [[]|] eqn:Hev; [done| |done]. intros [= <-].
  constructor; simpl; eauto. destruct He as [? He]. split; [done|]. lia.
Qed.

Lemma mm_work_inv m s l s' : mm_inv m s -> mm_work s l = Some s' -> mm_inv m s'.
Proof.
  intros Hinv. pose proof (mi_table _ _ Hinv) as Hwf.
  destruct l as [| |now|id| |w key ts|w|w]; try done; simpl;
    destruct (mm_workers s !! w) as [[|k l ts'|]|] eqn:Hw; try done.
  - pose proof (ss_find_wf _ key ts Hwf) as (Hwf' & Hcnt & Hlt & Hkeep).
    assert (length (ss_heap (mm_table s)) <= length (ss_heap (ss_find (mm_table s) key ts).1)).
    { apply Nat.le_ngt. intros Hgt. apply lookup_lt_is_Some in Hgt as [v Hv].
      apply Hkeep, lookup_lt_Some in Hv. lia. }
    destruct (ss_find (mm_table s) key ts) as [t [l|]]; simpl in *; intros [= <-];
      (eapply mm_set_table_inv; [done|done|done|done|done|done| |done]); naive_solver.
  - pose proof (ss_update_wf _ k l ts' Hwf) as (Hwf' & Hcnt & Hlen & _).
    destruct (ss_update (mm_table s) k l ts') as [t ms]; simpl in *. intros [= <-].
    eapply mm_set_table_inv; try done. lia.
  - destruct (mm_shutdown s) eqn:Hs; [|done]. intros [= <-].
    by eapply mm_set_table_inv.
Qed.

Lemma mm_step_inv m s l s' : mm_inv m s -> mm_step m s l = Some s' -> mm_inv m s'.
Proof.
  intros Hinv. unfold mm_step.
  destruct (mm_mode_ s); [..|done]; destruct l;
    eauto using mm_timer_inv, mm_work_inv, mm_control_inv.
Qed.

Lemma mm_run_inv m ls : forall s s', mm_inv m s -> mm_run m s ls = Some s' -> mm_inv m s'.
Proof.
  induction ls as [|l ls IH]; intros s s' Hs H; simpl in H; [by simplify_eq|].
  apply bind_Some in H as (s1 & H1 & H2). eauto using mm_step_inv.
Qed.

(** what a configured module took from its section *)
Lemma metrics_configure_fields conductor_ID procs th name nc rounds m :
  metrics_configure conductor_ID procs th name nc rounds = Some (Ok m) ->
  exists file stream specSet ty,
    GetString nc name "file" = Some file /\ readFile file = Ok stream
    /\ json_Unmarshal_spec stream = Ok specSet
    /\ GetString nc name "output" = Some (mo_output m)
    /\ metricsTypeMap !! mo_output m = Some ty
    /\ metrics_handler conductor_ID procs th name nc rounds ty = Some (Ok (mo_outputHandler m))
    /\ module_buildSpecDB (mo_outputHandler m) specSet = Ok (mo_specDB m)
    /\ mo_statSensorCount m = get_int nc name "statsensorcount"
    /\ mo_evict m = bool_decide (mo_statSensorCount m <> 0)%Z
    /\ mo_dataChannelDepth m = default DATACHANNELDEPTH (GetInt nc name "datachanneldepth")
    /\ (0 <= mo_dataChannelDepth m)%Z.
Proof.
  unfold metrics_configure.
  destruct (GetString nc name "file") as [file|]; [|done].
  destruct (readFile file) as [stream| |] eqn:Hread; try done.
  destruct (json_Unmarshal_spec stream) as [specSet| |] eqn:Hjson; try done.
  destruct (GetString nc name "output") as [output|]; [|done].
  destruct (metricsTypeMap !! output) as [ty|] eqn:Hty; [|done].
  destruct (metrics_handler conductor_ID procs th name nc rounds ty) as [[h| |]|] eqn:Hh;
    simpl; try done.
  unfold metrics_finish. intros Hf. injection Hf as Hf. res_inv.
  match goal with H : make_depth _ = Ok _ |- _ => apply make_depth_ok in H end. simplify_eq/=.
  do 4 eexists. repeat split; try done. lia.
Qed.

(** the entry of the specification that counts for a base path: its last *)
Definition last_spec (specSet : list (string * specJSON)) (p : string) : option specJSON :=
  fold_left (fun acc e => if bool_decide (e.1 = p) then Some e.2 else acc) specSet None.

Definition option_built {Ctx} `{MetricsOutputHandler Ctx} (j : option specJSON)
    (n : option metricsSpecNode) : Prop :=
  match j, n with
  | Some j, Some n => buildSpecDBSubtree j "" "__" = Ok n
  | None, None => True
  | _, _ => False
  end.

Lemma buildSpecDB_last {Ctx} `{MetricsOutputHandler Ctx} specSet : forall db0 db acc p,
  buildSpecDB_loop db0 specSet = Ok db -> option_built acc (db0 !! p) ->
  option_built
    (fold_left (fun acc e => if bool_decide (e.1 = p) then Some e.2 else acc) specSet acc)
    (db !! p).
Proof.
  induction specSet as [|[bp j] rest IH]; intros db0 db acc p Hb Hacc; simpl in *; res_inv.
  { done. }
  eapply IH; [done|]. simpl. case_bool_decide as Hp.
  - subst. by rewrite lookup_insert_eq.
  - by rewrite lookup_insert_ne.
Qed.

Definition handler_built (h : outputHandler) (j : option specJSON) (n : option metricsSpecNode)
    : Prop :=
  match h with
  | HPrometheus p => @option_built prom_ctx (prom_handler (pushGWAddress p)) j n
  | HInflux _ => @option_built metricsInfluxOutputContext influx_handler j n
  | HTest t => @option_built unit (test_metrics_handler t) j n
  end.

(** A configured metrics output holds what its section asks for.  Its handler is the
    one named by the output option; the tree used for a base path is the one of the last
    entry the specification file has for that path, with names adapted by that handler, and a
    path the file does not have has none; records are tracked exactly when a number of them
    is configured; the depth of the data channel is not negative. *)
Lemma metrics_configure_ok conductor_ID procs th name nc rounds m :
  metrics_configure conductor_ID procs th name nc rounds = Some (Ok m) ->
  exists file stream specSet ty,
    GetString nc name "file" = Some file /\ readFile file = Ok stream
    /\ json_Unmarshal_spec stream = Ok specSet
    /\ GetString nc name "output" = Some (mo_output m)
    /\ metricsTypeMap !! mo_output m = Some ty
    /\ metrics_handler conductor_ID procs th name nc rounds ty = Some (Ok (mo_outputHandler m))
    /\ (forall p, handler_built (mo_outputHandler m) (last_spec specSet p) (mo_specDB m !! p))
    /\ mo_evict m = bool_decide (get_int nc name "statsensorcount" <> 0)%Z
    /\ (0 <= mo_dataChannelDepth m)%Z.
Proof.
  intros (file & stream & specSet & ty & ? & ? & ? & ? & ? & ? & Hdb & Hc & He & _ & ?)
    %metrics_configure_fields.
  exists file, stream, specSet, ty. repeat split; try done; [|by rewrite He, Hc].
  intros p. unfold last_spec. destruct (mo_outputHandler m); simpl in *;
    (eapply buildSpecDB_last; [exact Hdb|]); by rewrite lookup_empty.
Qed.

Lemma mm_reach_inv m ls s : mm_run m (mm_init m) ls = Some s -> mm_inv m s.
Proof. intros Hr. eapply mm_run_inv; [apply mm_init_inv|done]. Qed.

Lemma ss_view_size t : ss_wf t -> size (statRecords (ss_view t)) <= size (ss_table t).
Proof.
  intros _. simpl. rewrite <- !size_dom. apply subseteq_size.
  intros k. rewrite !elem_of_dom, lookup_omap. destruct (ss_table t !! k); simpl; [eauto|by intros []].
Qed.

(** C6: the metrics output stays within its bounds whatever its goroutines do.  In every state a
    configured module reaches, under any interleaving of its workers, the timer and the
    control loop: no more records are kept than configured; exactly one eviction is pending
    when records are tracked and none otherwise, and a timer that wakes finds room in
    its channel; each report is answered, always with counters at zero; at most one
    shutdown is answered, and when it is every worker has left. *)
Theorem metrics_module_safe conductor_ID procs th name nc rounds m ls s :
  metrics_configure conductor_ID procs th name nc rounds = Some (Ok m) ->
  mm_run m (mm_init m) ls = Some s ->
  (Z.of_nat (size (statRecords (ss_view (mm_table s))))
     <= Z.max 0 (get_int nc name "statsensorcount"))%Z
  /\ mm_timers s + (if mm_evict s is Some true then 1 else 0)
     = (if bool_decide (get_int nc name "statsensorcount" = 0)%Z then 0 else 1)
  /\ (0 < mm_timers s -> is_Some (mm_timer s))
  /\ exists n, mm_replies s = replicate n (MMStats msgStats_zero)
       ++ (if mm_mode_ s is MMReturned then [MMDone] else [])
     /\ (mm_mode_ s = MMReturned -> forallb worker_gone (mm_workers s) = true).
Proof.
  intros (_ & _ & _ & _ & _ & _ & _ & _ & _ & _ & _ & Hc & He & _)%metrics_configure_fields
    Hinv%mm_reach_inv.
  pose proof (mi_evict _ _ Hinv) as Hev. rewrite He, Hc in Hev. clear He.
  split; [|split; [|split]].
  - pose proof (ss_view_size _ (mi_table _ _ Hinv)). pose proof (sw_size _ (mi_table _ _ Hinv)).
    rewrite (mi_count _ _ Hinv), Hc in *. lia.
  - destruct (mm_evict s) as [full|]; destruct Hev as [Hd Hev];
      [apply bool_decide_eq_true in Hd|apply bool_decide_eq_false in Hd];
      case_bool_decide; try done; lia.
  - unfold mm_timer. destruct (mm_timers s) as [|k]; [lia|]. intros _.
    destruct (mm_evict s) as [[]|]; [|by eexists|]; lia.
  - destruct (mi_replies _ _ Hinv) as [n ->]. exists n. split; [done|]. apply (mi_returned _ _ Hinv).
Qed.

(** ** The table under interleaving *)

Lemma ss_view_Some t k v :
  statRecords (ss_view t) !! k = Some v <->
  exists l, ss_table t !! k = Some l /\ ss_heap t !! l = Some v.
Proof.
  simpl. rewrite lookup_omap. destruct (ss_table t !! k) as [l|]; simpl; naive_solver.
Qed.

(** what a step does to the table *)
Lemma mm_step_table m s l s' :
  mm_step m s l = Some s' ->
  mm_table s' = mm_table s
  \/ (exists key ts, mm_table s' = (ss_find (mm_table s) key ts).1)
  \/ (exists w key l' ts, mm_workers s !! w = Some (MWFound key l' ts)
        /\ mm_table s' = (ss_update (mm_table s) key l' ts).1)
  \/ (exists now, l = LEvict now /\ mm_table s' = ss_evict (mm_table s) now).
Proof.
  unfold mm_step, mm_timer, mm_work, mm_control. intros Hs.
  destruct l as [| |now|[]| |w key ts|w|w], (mm_mode_ s) eqn:Hmode; try done.
  all: try by repeat case_match; simplify_eq; simpl; eauto 10.
  all: destruct (mm_workers s !! w) as [[|k l ts'|]|] eqn:Hw; try done.
  all: try (destruct (ss_find (mm_table s) key ts) as [t [l|]] eqn:Ef; simplify_eq; simpl;
    right; left; exists key, ts; by rewrite Ef).
  all: destruct (ss_update (mm_table s) k l ts') as [t ms] eqn:Eu; simplify_eq; simpl;
    right; right; left; exists w, k, l, ts'; by rewrite Eu.
Qed.

Lemma mm_step_view m s l s' k v :
  mm_inv m s -> mm_step m s l = Some s' ->
  statRecords (ss_view (mm_table s)) !! k = Some v ->
  (exists v', statRecords (ss_view (mm_table s')) !! k = Some v' /\ (v <= v')%Z)
  \/ (exists now, l = LEvict now /\ stale now v = true).
Proof.
  intros Hinv Hs Hk. pose proof (mi_table _ _ Hinv) as Hwf.
  pose proof (proj1 (ss_view_Some _ _ _) Hk) as (l' & Hl' & Hv).
  destruct (mm_step_table _ _ _ _ Hs)
    as [->|[(key & ts & ->)|[(w & key & l1 & ts & _ & ->)|(now & -> & ->)]]].
  - left. exists v. split; [done|lia].
  - left. exists v. split; [|lia]. apply ss_view_Some. exists l'.
    destruct (ss_find_wf _ key ts Hwf) as (_ & _ & _ & Hkeep). split; [|by apply Hkeep].
    unfold ss_find. repeat case_match; simpl; try done.
    rewrite lookup_insert_ne; [done|]. intros <-. congruence.
  - left. destruct (ss_update_wf _ key l1 ts Hwf) as (_ & _ & _ & Hup).
    destruct (Hup _ _ Hv) as (v' & Hv' & Hle). exists v'. split; [|done].
    apply ss_view_Some. exists l'. split; [|done].
    unfold ss_update. by repeat case_match.
  - rewrite ss_evict_view by done. unfold evictStale. cbn [statRecords].
    rewrite map_lookup_filter, Hk. simpl. destruct (stale now v) eqn:Hst.
    + right. eauto.
    + left. exists v. split; [|lia]. done.
Qed.

(** C7: tracked timestamps only move forward, under every interleaving.  While workers look
    records up and update them and the loop evicts, a step never moves the timestamp of a
    record back, and takes a record out of the table only when it is an eviction at a time at
    which that record was stale.  An eviction is [evictStale] on the table of values, and a
    worker that is not interrupted between finding a record and updating it does what
    [statRecordUpdate] does. *)
Theorem metrics_stats_interleaved m ls s l s' :
  mm_run m (mm_init m) ls = Some s -> mm_step m s l = Some s' ->
  (forall k v, statRecords (ss_view (mm_table s)) !! k = Some v ->
    (exists v', statRecords (ss_view (mm_table s')) !! k = Some v' /\ (v <= v')%Z)
    \/ (exists now, l = LEvict now /\ stale now v = true))
  /\ (forall now, l = LEvict now -> ss_view (mm_table s') = evictStale (ss_view (mm_table s)) now)
  /\ (forall w key ts s2, l = LFind w key ts ->
       mm_workers s' !! w = Some MWIdle /\ s2 = s' \/ mm_step m s' (LUpdate w) = Some s2 ->
       ss_view (mm_table s2) = (statRecordUpdate (ss_view (mm_table s)) key ts).1
       /\ mm_metas s2 = mm_metas s ++ (statRecordUpdate (ss_view (mm_table s)) key ts).2).
Proof.
  intros Hinv%mm_reach_inv Hs. pose proof (mi_table _ _ Hinv) as Hwf. split; [|split].
  - intros k v. by eapply mm_step_view.
  - intros now ->. rewrite <- ss_evict_view by done. f_equal.
    unfold mm_step, mm_control in Hs. repeat case_match; by simplify_eq.
  - intros w key ts s2 -> Hnext. pose proof (ss_find_update_view _ key ts Hwf) as Hseq.
    unfold mm_step, mm_work in *. destruct (mm_mode_ s) eqn:Hmode; try done.
    all: destruct (mm_workers s !! w) as [[| |]|] eqn:Hw; try done.
    all: destruct (ss_find (mm_table s) key ts) as [t [l|]] eqn:Ef; simpl in Hs; simplify_eq/=;
      rewrite Hmode, list_lookup_insert_eq in Hnext by (by eapply lookup_lt_Some);
      destruct Hnext as [[Hn ->]|Hn]; try done.
    all: rewrite <- Hseq; simpl; rewrite ?app_nil_r; try done.
    all: destruct (ss_update t key l ts) as [t' ms]; simplify_eq/=; by rewrite app_nil_r.
Qed.

(** ** Shutdown *)

(** the steps a worker has left to take *)
Definition worker_todo (w : mm_worker) : nat :=
  match w with MWFound _ _ _ => 2 | MWIdle => 1 | MWLeft => 0 end.
Definition mm_todo s : nat := sum_list_with worker_todo (mm_workers s).

Lemma todo_insert (ws : list mm_worker) w wk wk' :
  ws !! w = Some wk ->
  sum_list_with worker_todo (<[w := wk']> ws) + worker_todo wk
  = sum_list_with worker_todo ws + worker_todo wk'.
Proof.
  revert w. induction ws as [|x ws IH]; intros [|w] Hw; simplify_eq/=; [lia|].
  specialize (IH w Hw). lia.
Qed.

Lemma todo_zero (ws : list mm_worker) :
  sum_list_with worker_todo ws = 0 -> forallb worker_gone ws = true.
Proof.
  induction ws as [|[] ws IH]; simpl; try lia. auto.
Qed.

Lemma todo_pos (ws : list mm_worker) :
  0 < sum_list_with worker_todo ws -> exists w wk, ws !! w = Some wk /\ wk <> MWLeft.
Proof.
  induction ws as [|x ws IH]; simpl; [lia|]. intros Hp.
  destruct x as [| |]; [by exists 0, MWIdle|by eexists 0, _|].
  destruct (IH Hp) as (w & wk & ? & ?). by exists (S w), wk.
Qed.

Lemma mm_waiting_finish m n : forall s,
  mm_mode_ s = MMWaiting -> mm_shutdown s = true -> mm_todo s <= n ->
  exists ls s', length ls <= n + 1 /\ mm_run m s ls = Some s' /\ mm_mode_ s' = MMReturned
    /\ mm_replies s' = mm_replies s ++ [MMDone].
Proof.
  induction n as [|n IH]; intros s Hmode Hsh Hn.
  - exists [LAllGone]. simpl. unfold mm_step, mm_control. rewrite Hmode.
    rewrite todo_zero by (unfold mm_todo in Hn; lia). eexists. split; [lia|]. done.
  - destruct (decide (mm_todo s <= n)) as [Hle|Hgt].
    { destruct (IH s Hmode Hsh Hle) as (ls & s' & ? & ?). exists ls, s'. split; [lia|done]. }
    destruct (todo_pos (mm_workers s)) as (w & wk & Hw & Hne); [unfold mm_todo in *; lia|].
    assert (exists l t ms wk', mm_step m s l = Some (mm_set_table s t ms w wk')
              /\ worker_todo wk' < worker_todo wk) as (l & t & ms & wk' & Hstep & Hlt).
    { destruct wk as [|key l ts|]; [| |done].
      - exists (LLeave w), (mm_table s), [], MWLeft. unfold mm_step, mm_work.
        rewrite Hmode, Hw, Hsh. simpl. split; [done|lia].
      - exists (LUpdate w). unfold mm_step, mm_work. rewrite Hmode, Hw.
        destruct (ss_update (mm_table s) key l ts) as [t ms].
        exists t, ms, MWIdle. simpl. split; [done|lia]. }
    destruct (IH (mm_set_table s t ms w wk')) as (ls & s' & Hlen & Hrun & Hm' & Hr');
      [done|done| |].
    { unfold mm_todo in *. simpl. pose proof (todo_insert _ _ _ wk' Hw). lia. }
    exists (l :: ls), s'. simpl. rewrite Hstep. simpl. split; [lia|done].
Qed.

Lemma mm_worker_stays m w ls : forall s s' wk,
  mm_workers s !! w = Some wk -> wk <> MWLeft -> mm_mode_ s <> MMStart ->
  LLeave w ∉ ls -> mm_run m s ls = Some s' ->
  mm_mode_ s <> MMReturned -> mm_mode_ s' <> MMReturned.
Proof.
  induction ls as [|l ls IH]; intros s s' wk Hw Hne Hst Hl Hr Hm; simpl in Hr.
  { by simplify_eq. }
  apply bind_Some in Hr as (s1 & H1 & H2). apply not_elem_of_cons in Hl as [Hl1 Hl2].
  assert (forall w' wk' t ms, s1 = mm_set_table s t ms w' wk' -> (w' = w -> wk' <> MWLeft) ->
            mm_mode_ s' <> MMReturned) as Hset.
  { intros w' wk' t ms -> Hwk. destruct (decide (w' = w)) as [->|Hww].
    - apply (IH (mm_set_table s t ms w wk') s' wk'); auto.
      simpl. apply list_lookup_insert_eq. by eapply lookup_lt_Some.
    - apply (IH (mm_set_table s t ms w' wk') s' wk); auto.
      simpl. by rewrite list_lookup_insert_ne. }
  assert (mm_workers s1 = mm_workers s -> mm_mode_ s1 <> MMReturned ->
          mm_mode_ s1 <> MMStart -> mm_mode_ s' <> MMReturned) as Hsame.
  { intros Heq ? ?. apply (IH s1 s' wk); auto. by rewrite Heq. }
  clear IH. unfold mm_step, mm_timer, mm_work, mm_control in H1.
  destruct (mm_mode_ s) eqn:Hmode, l as [| |now|[]| |w' key ts|w'|w']; try done.
  all: repeat case_match; try done; injection H1 as <-;
    first [by eapply Hset; [reflexivity|congruence] | apply Hsame; simpl; congruence | idtac].
  all: match goal with H : forallb _ _ = true |- _ => rewrite forallb_forall in H;
    apply list_elem_of_lookup_2, list_elem_of_In, H in Hw; by destruct wk end.
Qed.

(** A shutdown of the metrics output is answered when its workers have left, and only then.
    From any reachable state in which the loop waits, finishing the updates in hand and
    leaving, at most two steps for each worker, lead to the answer; but while a worker
    does not leave, no sequence of steps of the others does. *)
Lemma metrics_shutdown m ls s :
  mm_run m (mm_init m) ls = Some s -> mm_mode_ s = MMWaiting ->
  (exists ls' s', length ls' <= 2 * length (mm_workers s) + 1 /\ mm_run m s ls' = Some s'
     /\ mm_mode_ s' = MMReturned /\ mm_replies s' = mm_replies s ++ [MMDone])
  /\ (forall w wk ls' s', mm_workers s !! w = Some wk -> wk <> MWLeft -> LLeave w ∉ ls' ->
       mm_run m s ls' = Some s' -> mm_mode_ s' <> MMReturned).
Proof.
  intros Hinv%mm_reach_inv Hmode. split.
  - destruct (mm_waiting_finish m (mm_todo s) s) as (ls' & s' & Hlen & ?); try done.
    { by rewrite (mi_shut _ _ Hinv), Hmode. }
    exists ls', s'. split; [|done]. unfold mm_todo in Hlen.
    assert (sum_list_with worker_todo (mm_workers s) <= 2 * length (mm_workers s)); [|lia].
    clear. induction (mm_workers s) as [|[] ws IH]; simpl; lia.
  - intros w wk ls' s' Hw Hne Hl Hr. eapply mm_worker_stays; try done; by rewrite Hmode.
Qed.

End ModuleTheorems.
