(* ===== verification/Gnmi.v ===== *)
(** * gNMI dialin ([xport_gnmi.go], [codec_gnmi.go])

    Sensor paths and their parser, subscriptions, the handling of a stream of replies, the
    message type and its metrics, and the configuration.  The gNMI and gRPC libraries
    are outside the repository: a connection is the sequence of what its calls return. *)
From S2P Require Import Prelude Message Metrics Crypt Router Influx.

(** ** The gNMI messages the code reads

    A pointer to a message is an [option].  The keys of a path element are a Go map:
    they are listed in the order a range over them takes. *)
Record PathElem : Type := MkPathElem { pe_Name : string; pe_Key : list (string * string) }.

Record Path : Type := MkPath { Origin : string; Elem : list PathElem; Target : string }.

Inductive TypedValue : Type :=
| AsciiVal (s : string)
| BoolVal (b : bool)
| BytesVal (b : bytes)
| DecimalVal (digits precision : Z)
| FloatVal (f : spec_float)
| IntVal (z : Z)
| StringVal (s : string)
| UintVal (z : Z)
| OtherVal.

Record Update : Type := MkUpdate { up_Path : option Path; up_Val : option TypedValue }.

Record Notification : Type := MkNotification {
  nt_Timestamp : Z;
  nt_Prefix : option Path;
  nt_Update : list Update;
}.

Inductive SubscriptionMode : Type := ON_CHANGE | SAMPLE | TARGET_DEFINED.

Record Subscription : Type := MkSubscription {
  sub_Origin : string;
  sub_Elem : list PathElem;
  sub_Mode : SubscriptionMode;
  sub_SampleInterval : Z;
  SuppressRedundant : bool;
  HeartbeatInterval : Z;
}.

(** [ParseFloat s] is the value of [strconv.ParseFloat(s, 64)] when it returns no error;
    [float_to_u64] is the conversion of a float to [uint64], which the language leaves to
    the machine out of range. *)
Class GnmiEnv := {
  ParseFloat : string -> option spec_float;
  float_to_u64 : spec_float -> Z;
  marshal_notification : Notification -> res bytes;
  MarshalToString_notification : bool -> Notification -> res bytes;
}.

Section Gnmi.
Context `{E : Env} `{GE : GnmiEnv}.

(** ** Paths *)

Definition decodeGNMIPath (path : Path) : string :=
  (if negb (str_empty (Origin path)) then Origin path +:+ ":"
   else match Elem path with [] => "" | _ => "/" end)
  +:+ join "/" (map pe_Name (Elem path)).

(** the method call on a nil path panics *)
Definition decode_path (path : option Path) : res string :=
  match path with Some p => Ok (decodeGNMIPath p) | None => Panic end.

(** floats: minus one, zero, and the comparisons of the code *)
Definition f_minus_one : spec_float := S754_finite true 4503599627370496 (-52).
Definition f_zero : spec_float := S754_zero false.
Definition f_eq0 (f : spec_float) : bool :=
  match SFcompare f f_zero with Some Eq => true | _ => false end.
Definition f_gt0 (f : spec_float) : bool :=
  match SFcompare f f_zero with Some Gt => true | _ => false end.
Definition f_ge0 (f : spec_float) : bool := f_eq0 f || f_gt0 f.
Definition f_1e9 : spec_float := binary_normalize 53 1024 1000000000 0 false.
(** [uint64(1000000000 * f)] *)
Definition nanoseconds (f : spec_float) : Z := float_to_u64 (SFmul 53 1024 f_1e9 f).

(** the name of an element; an entry in brackets always panics: when it does not match the
    filter expression the match is indexed while nil, and when it does the entry
    is stored in a map that was never made *)
Definition parse_elem (elem : string) : res PathElem :=
  match split_on lbracket elem with
  | [name] => Ok (MkPathElem name [])
  | _ => Panic
  end.

Fixpoint parse_elems (elems : list string) : res (list PathElem) :=
  match elems with
  | [] => Ok []
  | e :: es => let! p := parse_elem e in let! ps := parse_elems es in Ok (p :: ps)
  end.

(** the interval after the at sign: -1 when it does not parse *)
Definition parse_interval (s : option string) : spec_float :=
  match s with
  | None => f_minus_one
  | Some t => if String.eqb t "change" then f_zero else default f_minus_one (ParseFloat t)
  end.

Definition drop_slash (path : string) : string :=
  match path with
  | String c rest => if Ascii.eqb c slash then rest else path
  | EmptyString => path
  end.

Definition parseGnmiSensorPath (sensorPath : string)
    : res (string * (list PathElem * spec_float)) :=
  let '(part0, part1) := splitn2 colon sensorPath in
  let '(origin, path) := match part1 with
                         | Some p => (part0, p)
                         | None => ("", part0)
                         end in
  let '(path, interval) := splitn2 at_sign (drop_slash path) in
  let! elems := parse_elems (split_on slash path) in
  Ok (origin, (elems, parse_interval interval)).

(** ** Subscriptions *)

Record gnmiClient : Type := GnmiClient {
  gc_name : string;
  gc_server : string;
  gc_logData : bool;
  gc_tls : bool;
  gc_tlsPEM : string;
  gc_tlsKey : string;
  gc_tlsHostname : string;
  gc_paths : list string;
  gc_selectors : gset string;
  gc_heartbeatInterval : spec_float;
  gc_auth : cryptUserPasswordCollector;
  gc_jsonUInt64Compat : bool;
}.

Definition subscription (client : gnmiClient) (path : string) : res Subscription :=
  let! r := parseGnmiSensorPath path in
  let '(origin, (elems, interval)) := r in
  let suppress := f_ge0 (gc_heartbeatInterval client) in
  let heartbeat := if suppress then nanoseconds (gc_heartbeatInterval client) else 0%Z in
  let '(mode, sample) :=
    if f_eq0 interval then (ON_CHANGE, 0%Z)
    else if f_gt0 interval then (SAMPLE, nanoseconds interval)
    else (TARGET_DEFINED, 0%Z) in
  Ok (MkSubscription origin elems mode sample suppress heartbeat).

Fixpoint subscriptions (client : gnmiClient) (paths : list string)
    : res (list Subscription) :=
  match paths with
  | [] => Ok []
  | p :: ps => let! s := subscription client p in
               let! ss := subscriptions client ps in Ok (s :: ss)
  end.

(** ** Messages *)

Record dataMsgGNMI : Type := DataMsgGNMI {
  gm_original : bytes;
  gm_source : string;
  gm_notification : Notification;
  gm_jsonUInt64Compat : bool;
}.

Definition gnmi_produceByteStream (m : dataMsgGNMI) (spec : dataMsgStreamSpec E)
    : list meta * res slice :=
  match streamType spec with
  | dMStreamMsgDefault | dMStreamGPB => ([], Ok (Some (gm_original m)))
  | dMStreamJSON =>
      ([], let! json := MarshalToString_notification (gm_jsonUInt64Compat m)
                          (gm_notification m) in Ok (Some json))
  | _ => ([], Err (Errorf "gnmi codec: reformat msg to [%s] is not supported"))
  end.

Definition gnmi_getMetaDataPath (m : dataMsgGNMI) : res string :=
  decode_path (nt_Prefix (gm_notification m)).

#[export] Instance dataMsgGNMI_DataMsg : DataMsg dataMsgGNMI := {
  getDataMsgDescription m :=
    "gnmi message [" +:+ gm_source m +:+ " msg len " +:+ pretty (length (gm_original m)) +:+ "]";
  produceByteStream := gnmi_produceByteStream;
  getDataMsgStreamType _ := dMStreamMsgDefault;
  getMetaDataPath := gnmi_getMetaDataPath;
  getMetaDataIdentifier m := Ok (gm_source m);
  getMetaData m := MetaData (ok_or "" (gnmi_getMetaDataPath m)) (gm_source m);
}.

(** *** Metrics *)

(** the native value, nil for the types not listed *)
Definition typed_value (v : TypedValue) : goval :=
  match v with
  | AsciiVal s | StringVal s => GString s
  | BoolVal b => GBool b
  | BytesVal b => GBytes b
  | DecimalVal d p => GDecimal d p
  | FloatVal f => GF32 f
  | IntVal z => GS64 z
  | UintVal z => GU64 z
  | OtherVal => GNil
  end.

Definition key_atoms (built : string) (elem : PathElem) : list metricsAtom :=
  map (fun kv => Atom (built +:+ kv.1) (GString kv.2)) (pe_Key elem).

(** the elements of the prefix: the text built, and the tags *)
Fixpoint prefix_walk (built : string) (tags : list metricsAtom) (elems : list PathElem)
    : string * list metricsAtom :=
  match elems with
  | [] => (built, tags)
  | e :: es => let built := built +:+ pe_Name e +:+ "/" in
               prefix_walk built (tags ++ key_atoms built e) es
  end.

(** the elements of an update: no slash after the last one *)
Fixpoint update_walk (built : string) (tags : list metricsAtom) (elems : list PathElem)
    : string * list metricsAtom :=
  match elems with
  | [] => (built, tags)
  | [e] => let built := built +:+ pe_Name e in (built, tags ++ key_atoms built e)
  | e :: es => let built := built +:+ pe_Name e +:+ "/" in
               update_walk built (tags ++ key_atoms built e) es
  end.

(** [path[:len(path)-1]] *)
Definition drop_last (s : string) : string := str_take (String.length s - 1) s.

Fixpoint update_metrics (path : string) (tags : list metricsAtom) (ts : Z)
    (written : bool) (updates : list Update) : list mop * res bool :=
  match updates with
  | [] => ([], Ok written)
  | u :: us =>
      match up_Path u, up_Val u with
      | Some p, Some v =>
          let '(sensor, metricTags) := update_walk path tags (Elem p) in
          let emits := negb (bool_decide (typed_value v = GNil)) in
          let '(ops, r) := update_metrics path tags ts (written || emits) us in
          ((if emits then [Emit (BuildMetric metricTags (Atom sensor (typed_value v)) ts)]
            else []) ++ ops, r)
      | _, _ => ([], Panic)
      end
  end.

Definition gnmi_produceMetrics (m : dataMsgGNMI) : list mop * res unit :=
  let n := gm_notification m in
  match nt_Prefix n with
  | None => ([], Panic)
  | Some prefix =>
      let timestamp := u64 (Z.quot (nt_Timestamp n) 1000000) in
      let built := if negb (str_empty (Origin prefix)) then Origin prefix +:+ ":" else "/" in
      let '(path, ptags) := prefix_walk built [] (Elem prefix) in
      let tags := [Atom "EncodingPath" (GString (drop_last path));
                   Atom "Producer" (GString (gm_source m));
                   Atom "Target" (GString (Target prefix))] ++ ptags in
      let '(ops, r) := update_metrics path tags timestamp false (nt_Update n) in
      match r with
      | Ok written =>
          (ops ++ (if written then [Emit (FlushMetric tags timestamp)] else []), Ok tt)
      | Err e => (ops, Err e)
      | Panic => (ops, Panic)
      end
  end.

(** *** The codec *)

(** a failed marshal returns the error; the message slice is then not read *)
Definition notificationToDataMsgs (codec_name : string) (client : gnmiClient)
    (msg : Notification) : list meta * res (list dataMsgGNMI) :=
  match marshal_notification msg with
  | Ok block =>
      ([Inc "codec_decoded_msgs" [codec_name; gc_server client; "gnmi"];
        AddN "codec_decoded_bytes" [codec_name; gc_server client; "gnmi"]
          (Z.of_nat (length block))],
       Ok [DataMsgGNMI block (gc_server client) msg (gc_jsonUInt64Compat client)])
  | Err e => ([], Err e)
  | Panic => ([], Panic)
  end.

(** ** The stream *)

Definition with_target (p : Path) (target : string) : Path := MkPath (Origin p) (Elem p) target.

(** the in-place filter: updates kept are moved to the front, then the slice is cut *)
Fixpoint prefilter_loop (selectors : gset string) (prefix : string) (k : nat)
    (us : list Update) (i n : nat) : res (nat * list Update) :=
  match n with
  | 0 => Ok (k, us)
  | S n' =>
      match us !! i with
      | None => Ok (k, us)
      | Some update =>
          let! p := decode_path (up_Path update) in
          if bool_decide (prefix +:+ p ∈ selectors)
          then prefilter_loop selectors prefix (S k) (<[k := update]> us) (S i) n'
          else prefilter_loop selectors prefix k us (S i) n'
      end
  end.

Definition prefilter (client : gnmiClient) (prefix : Path) (us : list Update)
    : res (list Update) :=
  if bool_decide (gc_selectors client = ∅) then Ok us
  else let! r := prefilter_loop (gc_selectors client) (decodeGNMIPath prefix) 0 us 0
                   (length us) in
       Ok (take r.1 r.2).

(** an update received: the notification passed on *)
Definition gnmi_notification (client : gnmiClient) (n : Notification) : res Notification :=
  match nt_Prefix n with
  | None => Panic
  | Some p =>
      let prefix := with_target p (gc_name client) in
      let! us := prefilter client prefix (nt_Update n) in
      Ok (MkNotification (nt_Timestamp n) (Some prefix) us)
  end.

Inductive reply : Type :=
| UpdateResponse (n : Notification)
| OtherResponse.

(** why the loop ends *)
Inductive loop_end : Type :=
| TLSFailed | DialFailed | SubscribeFailed | SendFailed
| ServerTerminated | ExtractFailed | Cancelled | LoopPanic.

(** what [Recv] returned, with the point of a cancellation: before the reply is handled,
    or after some of the sends of its message *)
Inductive recv_event : Type :=
| Recv (r : res reply)
| RecvThenCancelled
| RecvCancelledAfter (r : reply) (sends : nat).

Record stream_run : Type := StreamRun {
  sr_metas : list meta;
  sr_sends : list (nat * dataMsgGNMI);
  sr_end : option loop_end;
}.

Definition sr_then (ms : list meta) (sends : list (nat * dataMsgGNMI)) (r : stream_run)
    : stream_run := StreamRun (ms ++ sr_metas r) (sends ++ sr_sends r) (sr_end r).
Definition sr_stop (e : loop_end) : stream_run := StreamRun [] [] (Some e).

(** the sends of a reply: its message on every channel, in order *)
Definition gnmi_sends (client : gnmiClient) (nch : nat) (r : reply)
    : list meta * res (list (nat * dataMsgGNMI)) :=
  match r with
  | OtherResponse => ([], Ok [])
  | UpdateResponse n =>
      match gnmi_notification client n with
      | Ok n' =>
          let '(ms, dMs) := notificationToDataMsgs (gc_name client) client n' in
          (ms, let! dMs := dMs in
               Ok (flat_map (fun dM => map (fun c => (c, dM)) (seq 0 nch)) dMs))
      | Err e => ([], Err e)
      | Panic => ([], Panic)
      end
  end.

Fixpoint gnmi_stream (client : gnmiClient) (nch : nat) (evs : list recv_event)
    : stream_run :=
  match evs with
  | [] => StreamRun [] [] None
  | RecvThenCancelled :: _ => sr_stop Cancelled
  | Recv (Err _) :: _ => sr_stop ServerTerminated
  | Recv Panic :: _ => sr_stop LoopPanic
  | Recv (Ok r) :: evs' =>
      match gnmi_sends client nch r with
      | (ms, Ok sends) => sr_then ms sends (gnmi_stream client nch evs')
      | (ms, Err _) => sr_then ms [] (sr_stop ExtractFailed)
      | (ms, Panic) => sr_then ms [] (sr_stop LoopPanic)
      end
  | RecvCancelledAfter r k :: _ =>
      match gnmi_sends client nch r with
      | (ms, Ok sends) => sr_then ms (take k sends) (sr_stop Cancelled)
      | (ms, Err _) => sr_then ms [] (sr_stop ExtractFailed)
      | (ms, Panic) => sr_then ms [] (sr_stop LoopPanic)
      end
  end.

(** what the calls that set the connection up return *)
Record gnmi_conn : Type := GnmiConn {
  co_tls_from_file : bool;
  co_dial : bool;
  co_subscribe : bool;
  co_send : bool;
  co_stream : list recv_event;
}.

(** [loop]: the request sent, if any, and the run *)
Definition gnmi_loop (client : gnmiClient) (nch : nat) (conn : gnmi_conn)
    : option (list Subscription) * stream_run :=
  if gc_tls client && negb (str_empty (gc_tlsPEM client)) && negb (co_tls_from_file conn)
  then (None, sr_stop TLSFailed)
  else if negb (co_dial conn) then (None, sr_stop DialFailed)
  else if negb (co_subscribe conn) then (None, sr_stop SubscribeFailed)
  else match subscriptions client (gc_paths client) with
       | Ok subs =>
           if negb (co_send conn) then (Some subs, sr_stop SendFailed)
           else (Some subs, gnmi_stream client nch (co_stream conn))
       | _ => (None, sr_stop LoopPanic)
       end.

(** ** Configuration *)

Definition gnmi_configure `{CE : !CryptEnv} (name : string) (nc : nodeConfig)
    (rounds : list prompt) : option (res gnmiClient) :=
  let options := default [] (GetOptions nc name) in
  let paths := map (fun k => get_string nc name k)
                 (filter (fun k => has_prefix "path" k = true) options) in
  let selectors := map (fun k => get_string nc name k)
    (filter (fun k => has_prefix "path" k = false /\ has_prefix "select" k = true) options) in
  let server := get_string nc name "server" in
  match handleConfig nc name rounds with
  | None => None
  | Some (_, r) =>
      Some (let! auth := r in
            Ok (GnmiClient name server (get_bool nc name "logdata") (get_bool nc name "tls")
                  (get_string nc name "tls_pem") (get_string nc name "tls_key")
                  (get_string nc name "tls_hostname") paths (list_to_set selectors)
                  (default f_minus_one (GetFloat64 nc name "heartbeat_interval")) auth
                  (get_bool nc name "json_uint64_compat")))
  end.

(** ** Theorems: sensor paths *)

Definition path_part (sensorPath : string) : string :=
  let '(part0, part1) := splitn2 colon sensorPath in
  (splitn2 at_sign (drop_slash (default part0 part1))).1.

Lemma parse_elem_ok e : str_free lbracket e = true -> parse_elem e = Ok (MkPathElem e []).
Proof. intros He. unfold parse_elem. by rewrite split_on_free. Qed.

Lemma parse_elem_panic e : str_free lbracket e = false -> parse_elem e = Panic.
Proof.
  intros He. unfold parse_elem. pose proof (split_on_all_free lbracket e) as Hf.
  pose proof (join_split_on lbracket e) as Hj.
  destruct (split_on lbracket e) as [|w [|w' ws]]; [done| |done].
  simpl in Hj. subst. inversion Hf; subst. congruence.
Qed.

Lemma parse_elems_ok es :
  Forall (fun e => str_free lbracket e = true) es ->
  parse_elems es = Ok (map (fun e => MkPathElem e []) es).
Proof.
  induction 1 as [|e es He Hes IH]; simpl; [done|]. by rewrite parse_elem_ok, IH.
Qed.

Lemma parse_elems_panic es :
  ~ Forall (fun e => str_free lbracket e = true) es -> parse_elems es = Panic.
Proof.
  induction es as [|e es IH]; intros Hn; [destruct Hn; constructor|]. simpl.
  destruct (str_free lbracket e) eqn:He.
  - rewrite parse_elem_ok by done. simpl. rewrite IH; [done|]. intros ?. apply Hn. by constructor.
  - by rewrite parse_elem_panic.
Qed.

Lemma str_free_split sep c s :
  sep <> c -> (str_free c s = true <-> Forall (fun e => str_free c e = true) (split_on sep s)).
Proof.
  intros Hne. induction s as [|d s IH]; simpl; [split; [by repeat constructor|done]|].
  unfold str_free in *. simpl. destruct (Ascii.eqb sep d) eqn:Esd.
  - apply Ascii.eqb_eq in Esd as <-. assert (Ascii.eqb c sep = false) as ->
      by (apply Ascii.eqb_neq; congruence). simpl. rewrite list.Forall_cons. naive_solver.
  - pose proof (split_on_not_nil sep s). destruct (split_on sep s) as [|w ws]; [done|].
    rewrite list.Forall_cons in IH. rewrite list.Forall_cons. cbn [str_forall].
    rewrite !andb_true_iff. tauto.
Qed.

(** A sensor path is refused only by crashing.  The parser returns on exactly the sensor
    paths without a bracket in their path part; a path with a key filter panics,
    whether or not the filter is well formed.  It never returns an error. *)
Lemma gnmi_parse_total (s : string) :
  (str_free lbracket (path_part s) = true -> is_ok (parseGnmiSensorPath s) = true)
  /\ (str_free lbracket (path_part s) = false -> parseGnmiSensorPath s = Panic).
Proof.
  unfold parseGnmiSensorPath, path_part. destruct (splitn2 colon s) as [part0 [p|]];
    cbn [default from_option id]; destruct (splitn2 at_sign (drop_slash _)) as [path iv];
    cbn [fst]; split; intros Hf;
    try (rewrite parse_elems_ok by (by apply (str_free_split slash)); done);
    rewrite parse_elems_panic by (rewrite <- (str_free_split slash) by done; congruence); done.
Qed.

(** an element name the path syntax can carry *)
Definition plain_elem (e : PathElem) : Prop :=
  pe_Key e = [] /\ pe_Name e <> "" /\ str_free slash (pe_Name e) = true
  /\ str_free lbracket (pe_Name e) = true /\ str_free at_sign (pe_Name e) = true
  /\ str_free colon (pe_Name e) = true.

Lemma elems_of_names es :
  Forall plain_elem es -> parse_elems (map pe_Name es) = Ok es.
Proof.
  intros H. rewrite parse_elems_ok.
  - f_equal. induction H as [|[n k] es (Hk & _) Hes IH]; simpl in *; [done|].
    by rewrite Hk, IH.
  - apply Forall_fmap. eapply List.Forall_impl; [|exact H]. by intros e (? & ? & ? & ? & _).
Qed.

Lemma names_free c es :
  Ascii.eqb c slash = false ->
  Forall (fun e => str_free c (pe_Name e) = true) es ->
  str_free c (join "/" (map pe_Name es)) = true.
Proof.
  intros Hc H. apply str_forall_join.
  - simpl. change (Ascii.Ascii true true true true false true false false) with slash.
    by rewrite Hc.
  - apply Forall_fmap. done.
Qed.

(** from the path without its origin and first slash *)
Lemma parse_rest es (iv : option string) :
  es <> [] -> Forall plain_elem es ->
  let path := join "/" (map pe_Name es) +:+ match iv with Some t => "@" +:+ t | None => "" end in
  drop_slash path = path
  /\ (let '(path, interval) := splitn2 at_sign path in
      let! elems := parse_elems (split_on slash path) in
      Ok (elems, parse_interval interval)) = Ok (es, parse_interval iv).
Proof.
  intros Hne Hes path. split.
  - destruct es as [|e es]; [done|]. inversion Hes as [|? ? (_ & Hn & Hs & _) _]; subst.
    unfold path. cbn [map]. destruct (pe_Name e) as [|c n]; [done|].
    unfold str_free in Hs. cbn [str_forall] in Hs. apply andb_true_iff in Hs as [Hs _].
    assert (Ascii.eqb c slash = false) as Hc.
    { apply Ascii.eqb_neq. intros ->. by rewrite Ascii.eqb_refl in Hs. }
    destruct (map pe_Name es); cbn [join String.append drop_slash]; by rewrite Hc.
  - assert (splitn2 at_sign path = (join "/" (map pe_Name es), iv)) as ->.
    { assert (str_free at_sign (join "/" (map pe_Name es)) = true) as Hat.
      { apply names_free; [done|]. eapply List.Forall_impl; [|exact Hes].
        by intros e (? & ? & ? & ? & ? & _). }
      unfold path. destruct iv as [t|].
      - exact (splitn2_app at_sign _ t Hat).
      - rewrite str_app_nil_r. by apply splitn2_free. }
    change "/" with (String slash ""). rewrite split_on_join.
    + by rewrite elems_of_names.
    + by destruct es.
    + apply Forall_fmap. eapply List.Forall_impl; [|exact Hes]. by intros e (? & ? & ? & _).
Qed.

(** C36: sensor paths of plain names round trip.  Take a path of at least one element, whose
    elements have no keys and have names that are not empty and hold no slash, bracket, at sign or
    colon, and whose origin holds no colon.  The text the code prints for it, followed by nothing
    or by an at sign and an interval without a colon, parses back to the same origin and elements
    and to what the interval stands for. *)
Theorem gnmi_path_roundtrip (p : Path) (iv : option string) :
  Elem p <> [] -> Forall plain_elem (Elem p) -> str_free colon (Origin p) = true ->
  match iv with Some t => str_free colon t = true | None => True end ->
  parseGnmiSensorPath (decodeGNMIPath p +:+ match iv with Some t => "@" +:+ t | None => "" end)
  = Ok (Origin p, (Elem p, parse_interval iv)).
Proof.
  destruct p as [o es tgt]. cbn [Elem Origin]. intros Hne Hes Ho Hiv.
  destruct (parse_rest es iv Hne Hes) as [Hdrop Hrest]. cbv zeta in Hdrop, Hrest.
  assert (str_free colon (join "/" (map pe_Name es)) = true) as Hcol.
  { apply names_free; [done|]. eapply List.Forall_impl; [|exact Hes].
    by intros e (? & ? & ? & ? & ? & ?). }
  set (sfx := match iv with Some t => "@" +:+ t | None => "" end) in *.
  assert (str_free colon sfx = true) as Hsfx.
  { unfold sfx. destruct iv; [|done]. unfold str_free in *. simpl. done. }
  assert (forall path origin,
    splitn2 colon path = (origin, Some (join "/" (map pe_Name es) +:+ sfx)) \/
    (splitn2 colon path = (String slash (join "/" (map pe_Name es) +:+ sfx), None) /\ origin = "")
    -> parseGnmiSensorPath path = Ok (origin, (es, parse_interval iv))) as Hfin.
  { intros path origin Hs. unfold parseGnmiSensorPath.
    assert (exists a b, splitn2 colon path = (a, b) /\
      let '(og, pt) := match b with Some q => (a, q) | None => ("", a) end in
      og = origin /\ drop_slash pt = join "/" (map pe_Name es) +:+ sfx) as (a & b & -> & Hab).
    { destruct Hs as [Hs|[Hs ->]]; rewrite Hs; do 2 eexists; (split; [reflexivity|]);
        cbv iota; (split; [reflexivity|]); [exact Hdrop|].
      cbn [drop_slash]. by rewrite Ascii.eqb_refl. }
    destruct b; destruct Hab as [<- ->];
      destruct (splitn2 at_sign _) as [pt iv'];
      apply res_bind_ok in Hrest as (el & Hel & [= -> ->]); by rewrite Hel. }
  unfold decodeGNMIPath. cbn [Elem Origin]. destruct (str_empty o) eqn:Eo; cbn [negb].
  - destruct o; [|done]. apply Hfin. right. split; [|done].
    destruct es as [|e es']; [done|]. cbn [String.append].
    apply splitn2_free. unfold str_free in *. cbn [str_forall].
    rewrite str_forall_app, Hcol, Hsfx. done.
  - apply Hfin. left. rewrite !str_app_assoc. by apply (splitn2_app colon).
Qed.

(** ** Theorems: the prefilter *)

(** an update whose full path is selected *)
Definition selected (selectors : gset string) (prefix : string) (u : Update) : Prop :=
  match up_Path u with
  | Some p => prefix +:+ decodeGNMIPath p ∈ selectors
  | None => False
  end.

#[export] Instance selected_dec selectors prefix u : Decision (selected selectors prefix u).
Proof. unfold selected. destruct (up_Path u); apply _. Defined.

Lemma take_insert_last {A} (l : list A) k x :
  k < length l -> take (S k) (<[k := x]> l) = take k l ++ [x].
Proof.
  intros Hk. erewrite take_S_r; [|by apply list_lookup_insert_eq].
  by rewrite take_insert_ge.
Qed.

Lemma prefilter_loop_spec sel prefix us0 : forall n k us i,
  Forall (fun u => is_Some (up_Path u)) us0 ->
  length us = length us0 -> i + n = length us0 -> k <= i ->
  drop i us = drop i us0 ->
  take k us = filter (selected sel prefix) (take i us0) ->
  exists k' us', prefilter_loop sel prefix k us i n = Ok (k', us')
  /\ take k' us' = filter (selected sel prefix) us0.
Proof.
  induction n as [|n IH]; intros k us i Hall Hlen Hin Hki Hdrop Htake; simpl.
  { exists k, us. split; [done|]. rewrite Htake, take_ge by lia. done. }
  assert (us !! i = us0 !! i) as Hus.
  { rewrite <- (Nat.add_0_r i), <- !lookup_drop. by rewrite Hdrop. }
  destruct (lookup_lt_is_Some_2 us0 i) as [u Hu]; [lia|]. rewrite Hus, Hu.
  assert (take (S i) us0 = take i us0 ++ [u]) as HSi by (by apply take_S_r).
  assert (drop (S i) us = drop (S i) us0) as HdS.
  { replace (S i) with (i + 1) by lia. rewrite <- !drop_drop. by rewrite Hdrop. }
  rewrite Forall_lookup in Hall. destruct (Hall _ _ Hu) as [p Hp].
  rewrite <- Forall_lookup in Hall. rewrite Hp. simpl.
  case_bool_decide as Hsel; apply IH; auto; try lia.
  - by rewrite length_insert.
  - rewrite drop_insert_lt by lia. done.
  - rewrite take_insert_last, HSi, list.filter_app, Htake by lia. f_equal.
    rewrite list.filter_cons, decide_True; [done|]. unfold selected. by rewrite Hp.
  - rewrite HSi, list.filter_app, Htake, list.filter_cons, decide_False.
    + by rewrite app_nil_r.
    + unfold selected. by rewrite Hp.
Qed.

(** C37: the prefilter keeps exactly the selected updates.  With selectors configured, moving
    updates to the front of the slice while reading it and then cutting it gives the selected
    updates, in order, each once; without selectors nothing is filtered.  Every update has a path:
    the code reads through a nil one. *)
Theorem gnmi_prefilter client prefix us :
  Forall (fun u => is_Some (up_Path u)) us ->
  prefilter client prefix us =
  Ok (if bool_decide (gc_selectors client = ∅) then us
      else filter (selected (gc_selectors client) (decodeGNMIPath prefix)) us).
Proof.
  intros Hall. unfold prefilter. case_bool_decide; [done|].
  destruct (prefilter_loop_spec (gc_selectors client) (decodeGNMIPath prefix) us
    (length us) 0 us 0) as (k & us' & -> & Ht); auto with lia.
  simpl. by rewrite Ht.
Qed.

(** ** Theorems: metrics *)

Lemma str_join_cons (a : string) l :
  join "/" (a :: l) = a +:+ match l with [] => "" | _ => "/" +:+ join "/" l end.
Proof. destruct l; simpl; [by rewrite str_app_nil_r|done]. Qed.

Lemma update_walk_cons built tags e e' es :
  update_walk built tags (e :: e' :: es)
  = update_walk (built +:+ pe_Name e +:+ "/")
      (tags ++ key_atoms (built +:+ pe_Name e +:+ "/") e) (e' :: es).
Proof. reflexivity. Qed.

Lemma update_walk_name es : forall built tags,
  (update_walk built tags es).1 = built +:+ join "/" (map pe_Name es).
Proof.
  induction es as [|e es IH]; intros built tags; [simpl; by rewrite str_app_nil_r|].
  destruct es as [|e' es]; [done|].
  rewrite update_walk_cons, IH. cbn [map]. rewrite (str_join_cons (pe_Name e)).
  by rewrite !str_app_assoc.
Qed.

Lemma prefix_walk_name es : forall built tags,
  (prefix_walk built tags es).1
  = built +:+ match es with [] => "" | _ => join "/" (map pe_Name es) +:+ "/" end.
Proof.
  induction es as [|e es IH]; intros built tags; [simpl; by rewrite str_app_nil_r|].
  cbn [prefix_walk]. cbv zeta. rewrite IH. cbn [map]. rewrite str_join_cons.
  destruct es; cbn [map]; by rewrite !str_app_assoc.
Qed.

(** the name of the sensor of an update *)
Definition sensor_name (prefix p : Path) : string :=
  let built := if negb (str_empty (Origin prefix)) then Origin prefix +:+ ":" else "/" in
  (update_walk (prefix_walk built [] (Elem prefix)).1 [] (Elem p)).1.

(** A selector names the sensor it selects.  The path compared with the selectors is the name
    under which the update's metric is exported, unless the prefix has an origin
    and no element. *)
Lemma gnmi_selector_sensor prefix p :
  Origin p = "" -> Elem p <> [] -> (Origin prefix = "" \/ Elem prefix <> []) ->
  decodeGNMIPath prefix +:+ decodeGNMIPath p = sensor_name prefix p.
Proof.
  intros Ho Hne Hpre. unfold sensor_name, decodeGNMIPath.
  rewrite update_walk_name, prefix_walk_name, Ho. cbn [str_empty negb].
  destruct (Elem p) as [|e es]; [done|].
  destruct (str_empty (Origin prefix)) eqn:Eo; cbn [negb].
  - destruct (Elem prefix) as [|e' es']; rewrite ?str_app_assoc; [|done].
    cbn [map join]. done.
  - destruct Hpre as [Hp|Hp]; [by rewrite Hp in Eo|].
    destruct (Elem prefix); [done|]. by rewrite !str_app_assoc.
Qed.

(** a value and names to export, for an update *)
Lemma update_metrics_two path tags ts p1 p2 v1 v2 :
  typed_value v1 <> GNil -> typed_value v2 <> GNil ->
  update_metrics path tags ts false [MkUpdate (Some p1) (Some v1); MkUpdate (Some p2) (Some v2)]
  = ([Emit (BuildMetric (update_walk path tags (Elem p1)).2
              (Atom (update_walk path tags (Elem p1)).1 (typed_value v1)) ts);
      Emit (BuildMetric (update_walk path tags (Elem p2)).2
              (Atom (update_walk path tags (Elem p2)).1 (typed_value v2)) ts)], Ok true).
Proof.
  intros H1 H2. cbn [update_metrics up_Path up_Val].
  destruct (update_walk path tags (Elem p1)) as [s1 t1].
  destruct (update_walk path tags (Elem p2)) as [s2 t2].
  rewrite !bool_decide_eq_false_2 by done. done.
Qed.

(** the tags of a flush: those of the prefix *)
Definition prefix_tags (m : dataMsgGNMI) (prefix : Path) : list metricsAtom :=
  let built := if negb (str_empty (Origin prefix)) then Origin prefix +:+ ":" else "/" in
  let '(path, ptags) := prefix_walk built [] (Elem prefix) in
  [Atom "EncodingPath" (GString (drop_last path));
   Atom "Producer" (GString (gm_source m));
   Atom "Target" (GString (Target prefix))] ++ ptags.

(** List entries of one notification collide in InfluxDB.  Two updates of a notification whose
    paths differ only in their keys give a single point, with the tags of the prefix alone and
    the second value: the first value and the keys that tell the entries apart are
    lost. *)
Lemma gnmi_influx_collision `{F : FmtEnv} `{IE : InfluxEnv}
    (m : dataMsgGNMI) prefix p1 p2 v1 v2 name rt :
  nt_Prefix (gm_notification m) = Some prefix ->
  nt_Update (gm_notification m)
  = [MkUpdate (Some p1) (Some v1); MkUpdate (Some p2) (Some v2)] ->
  map pe_Name (Elem p1) = map pe_Name (Elem p2) ->
  typed_value v1 <> GNil -> typed_value v2 <> GNil ->
  let ts := u64 (Z.quot (nt_Timestamp (gm_notification m)) 1000000) in
  (run_mops (gnmi_produceMetrics m).1 (InfluxCtx name None [], rt)).1
  = InfluxCtx name None (points_of name
      [(prefix_tags m prefix,
        [(Atom (sensor_name prefix p2) (typed_value v2), ts)], ts)]).
Proof.
  intros Hp Hu Hn H1 H2 ts. unfold gnmi_produceMetrics. rewrite Hp, Hu.
  unfold prefix_tags. set (built := if negb _ then _ else _).
  destruct (prefix_walk built [] (Elem prefix)) as [path ptags] eqn:Epw. fold ts.
  assert (sensor_name prefix p2 = (update_walk path [] (Elem p2)).1) as ->
    by (unfold sensor_name; fold built; by rewrite Epw).
  set (tags := (_ :: _) ++ ptags). rewrite update_metrics_two by done.
  rewrite run_mops_events. rewrite !update_walk_name, Hn.
  set (sn := path +:+ _).
  transitivity (run_mevents (batch_events (tags, [(Atom sn (typed_value v1), ts);
    (Atom sn (typed_value v2), ts)], ts)) (InfluxCtx name None [])); [reflexivity|].
  rewrite run_batch by done. f_equal. unfold points_of. cbn [omap list_omap app].
  by rewrite (point_of_last _ _ _ _ _ _ _ ts).
Qed.

End Gnmi.
