(* ===== verification/GnmiRun.v ===== *)
(** * The gNMI input as a node ([gnmiClient.run] of [xport_gnmi.go])

    The outer goroutine starts a worker ([loop], modelled in [Gnmi]) whenever it sees
    [clientDone] closed, and serves the control channel.  A worker closes [clientDone] however
    it returns; unlike the gRPC input, the outer goroutine does not wait for it on a
    shutdown. *)
From S2P Require Import Prelude Message Metrics Crypt Gnmi.

Section Run.
Context `{E : Env} `{GE : GnmiEnv}.
Context (client : gnmiClient) (nch : nat).

(** [GCrashed]: a panic in the worker ended the process *)
Inductive gn_mode : Type := GSelect | GPause | GReturned | GCrashed.

(** A worker: the sends it has left to do and how it ends, or [None] while it waits for more
    than it will get. *)
Record gn_worker : Type := GWorker {
  gw_todo : list (nat * dataMsgGNMI);
  gw_end : option loop_end;
}.

(** [gn_primed] is whether the goroutine that closes the first [clientDone] has run, [gn_done]
    whether [clientDone] is closed, [gn_cancel] whether the variable [cancel] is set and
    [gn_cancelled] whether its context is cancelled; [gn_sends] are the messages
    handed on, with their channel. *)
Record gn_state : Type := GnState {
  gn_mode_ : gn_mode;
  gn_primed : bool;
  gn_done : bool;
  gn_cancel : bool;
  gn_cancelled : bool;
  gn_worker_ : option gn_worker;
  gn_requests : list (list Subscription);
  gn_sends : list (nat * dataMsgGNMI);
  gn_replies : list msgID;
}.

Definition gn_init : gn_state := GnState GSelect false false false false None [] [] [].

(** [GnStart conn]: [clientDone] is seen closed, and the worker started will meet [conn] *)
Inductive gn_label : Type :=
| GnPrime
| GnStart (conn : gnmi_conn)
| GnWake
| GnSend
| GnWorkerEnds
| GnCtrl (id : msgID).

Definition gn_set_worker (s : gn_state) (w : option gn_worker) (done_ : bool)
    (sends : list (nat * dataMsgGNMI)) (mode : gn_mode) : gn_state :=
  GnState mode (gn_primed s) done_ (gn_cancel s) (gn_cancelled s) w (gn_requests s)
    (gn_sends s ++ sends) (gn_replies s).

(** a turn of the outer loop *)
Definition gn_outer (s : gn_state) (l : gn_label) : option gn_state :=
  match l, gn_mode_ s with
  | GnStart conn, GSelect =>
      if gn_done s then
        let '(request, r) := gnmi_loop client nch conn in
        Some (GnState GPause (gn_primed s) false true false
                (Some (GWorker (sr_sends r) (sr_end r)))
                (gn_requests s ++ option_list request) (gn_sends s) (gn_replies s))
      else None
  | GnWake, GPause =>
      Some (GnState GSelect (gn_primed s) (gn_done s) (gn_cancel s) (gn_cancelled s)
              (gn_worker_ s) (gn_requests s) (gn_sends s) (gn_replies s))
  | GnCtrl REPORT, GSelect =>
      Some (GnState GSelect (gn_primed s) (gn_done s) (gn_cancel s) (gn_cancelled s)
              (gn_worker_ s) (gn_requests s) (gn_sends s) (gn_replies s ++ [REPORT]))
  | GnCtrl SHUTDOWN, GSelect =>
      Some (GnState GReturned (gn_primed s) (gn_done s) (gn_cancel s) (gn_cancel s)
              (gn_worker_ s) (gn_requests s) (gn_sends s) (gn_replies s ++ [SHUTDOWN]))
  | GnCtrl ACK, GSelect => Some s
  | _, _ => None
  end.

(** the steps of the worker; it sees a cancellation only of a context that is cancelled *)
Definition gn_worker_step (s : gn_state) (l : gn_label) : option gn_state :=
  match l, gn_worker_ s with
  | GnSend, Some (GWorker (x :: todo) e) =>
      Some (gn_set_worker s (Some (GWorker todo e)) (gn_done s) [x] (gn_mode_ s))
  | GnWorkerEnds, Some (GWorker [] (Some e)) =>
      match e with
      | LoopPanic => Some (gn_set_worker s None (gn_done s) [] GCrashed)
      | Cancelled =>
          if gn_cancelled s then Some (gn_set_worker s None true [] (gn_mode_ s)) else None
      | _ => Some (gn_set_worker s None true [] (gn_mode_ s))
      end
  | _, _ => None
  end.

Definition gn_step (s : gn_state) (l : gn_label) : option gn_state :=
  if gn_mode_ s is GCrashed then None
  else match l with
  | GnPrime =>
      if gn_primed s then None
      else Some (GnState (gn_mode_ s) true true (gn_cancel s) (gn_cancelled s) (gn_worker_ s)
                   (gn_requests s) (gn_sends s) (gn_replies s))
  | GnSend | GnWorkerEnds => gn_worker_step s l
  | _ => gn_outer s l
  end.

Fixpoint gn_run (s : gn_state) (ls : list gn_label) : option gn_state :=
  match ls with
  | [] => Some s
  | l :: ls' => s' ← gn_step s l; gn_run s' ls'
  end.

(** ** Theorems *)

(** what the workers of a run were started with *)
Definition started (ls : list gn_label) : list gnmi_conn :=
  omap (fun l => match l with GnStart c => Some c | _ => None end) ls.

(** the messages of a connection *)
Definition conn_sends (c : gnmi_conn) : list (nat * dataMsgGNMI) :=
  sr_sends (gnmi_loop client nch c).2.

Definition gn_todo (s : gn_state) : list (nat * dataMsgGNMI) :=
  match gn_worker_ s with Some w => gw_todo w | None => [] end.

(** Invariant: [clientDone] is closed exactly when there is no worker, once primed; a worker
    has a context, cancelled exactly by a shutdown; replies are reports, then one to the
    shutdown. *)
Record gn_inv (s : gn_state) : Prop := {
  gi_done : gn_mode_ s <> GCrashed ->
      gn_done s = gn_primed s && (if gn_worker_ s is None then true else false);
  gi_primed : is_Some (gn_worker_ s) -> gn_primed s = true;
  gi_cancel : is_Some (gn_worker_ s) -> gn_cancel s = true;
  gi_cancelled : gn_mode_ s <> GCrashed ->
      gn_cancelled s = gn_cancel s && (if gn_mode_ s is GReturned then true else false);
  gi_replies : gn_mode_ s <> GCrashed -> exists n, gn_replies s = replicate n REPORT
      ++ (if gn_mode_ s is GReturned then [SHUTDOWN] else []);
}.

Lemma gn_init_inv : gn_inv gn_init.
Proof. constructor; simpl; try done; [by intros []..|]. intros _. by exists 0. Qed.

Lemma gn_outer_inv s l s' :
  gn_inv s -> gn_mode_ s <> GCrashed -> gn_outer s l = Some s' -> gn_inv s'.
Proof.
  intros [Hd Hp Hc Hcd Hr] Hm. specialize (Hd Hm). specialize (Hcd Hm).
  destruct (Hr Hm) as [n Hn]. clear Hr.
  destruct s as [mode primed dn cancel cancelled w reqs sends reps]; simpl in *. subst.
  destruct l as [|conn| | | |[]], mode; simpl; try done.
  - destruct primed, w; simpl; try done.
    destruct (gnmi_loop client nch conn) as [request r]. intros [= <-].
    constructor; simpl; try done. intros _. by exists n.
  - intros [= <-]. constructor; simpl; try done. intros _. by exists n.
  - intros [= <-]. constructor; simpl; try done; intros _;
      [by rewrite andb_true_r | exists n; by rewrite app_nil_r].
  - intros [= <-]. constructor; simpl; try done. intros _. exists (S n).
    by rewrite !app_nil_r, <- replicate_cons_app.
  - intros [= <-]. constructor; simpl; try done. intros _. by exists n.
Qed.

Lemma gn_worker_inv s l s' :
  gn_inv s -> gn_mode_ s <> GCrashed -> gn_worker_step s l = Some s' -> gn_inv s'.
Proof.
  intros [Hd Hp Hc Hcd Hr] Hm. specialize (Hd Hm). specialize (Hcd Hm).
  destruct (Hr Hm) as [n Hn]. clear Hr.
  destruct s as [mode primed dn cancel cancelled w reqs sends reps]; simpl in *. subst.
  destruct l as [| | | | |]; try done; destruct w as [[todo e]|]; try done;
    rewrite (Hp ltac:(by eexists)), (Hc ltac:(by eexists)) in *; simpl.
  - destruct todo as [|x todo]; [done|]. intros [= <-]. constructor; simpl; try done.
    intros _. by exists n.
  - destruct todo; [|done]. destruct e as [e|]; [|done].
    assert (gn_inv (GnState mode true true true
              (if mode is GReturned then true else false) None reqs (sends ++ []) 
              (replicate n REPORT ++ (if mode is GReturned then [SHUTDOWN] else [])))) as Hgood.
    { constructor; simpl; try done; try (by intros []). intros _. by exists n. }
    destruct e; try (by intros [= <-]).
    all: first [destruct mode; [done..| |done]; by intros [= <-]
      | intros [= <-]; constructor; simpl; try done; by intros []].
Qed.

Lemma gn_step_inv s l s' : gn_inv s -> gn_step s l = Some s' -> gn_inv s'.
Proof.
  intros Hinv. unfold gn_step. destruct (gn_mode_ s) eqn:Hm; [..|done].
  all: assert (gn_mode_ s <> GCrashed) as Hne by congruence.
  all: destruct l; eauto using gn_outer_inv, gn_worker_inv.
  all: destruct (gn_primed s) eqn:Hp; [done|]; intros [= <-].
  all: assert (gn_worker_ s = None) as Hw by (destruct (gn_worker_ s) eqn:Ew; [|done];
    pose proof (gi_primed _ Hinv ltac:(by rewrite Ew; eexists)); congruence).
  all: destruct Hinv as [Hd Hpr Hc Hcd Hr]; constructor; simpl; rewrite ?Hw, ?Hm in *; auto.
Qed.

Lemma gn_run_inv ls : forall s s', gn_inv s -> gn_run s ls = Some s' -> gn_inv s'.
Proof.
  induction ls as [|l ls IH]; intros s s' Hs H; simpl in H; [by simplify_eq|].
  apply bind_Some in H as (s1 & H1 & H2). eauto using gn_step_inv.
Qed.

(** what was sent and what the worker has left to send is what the connections carried *)
Lemma gn_step_sends s l s' :
  gn_inv s -> gn_step s l = Some s' ->
  gn_sends s' ++ gn_todo s' = gn_sends s ++ gn_todo s ++ flat_map conn_sends (started [l]).
Proof.
  intros Hinv. unfold gn_step. destruct (gn_mode_ s) eqn:Hm; [..|done].
  all: destruct l as [|conn| | | |[]]; unfold gn_outer, gn_worker_step; rewrite ?Hm; try done;
    unfold gn_todo; simpl; rewrite ?app_nil_r.
  all: try (destruct (gn_worker_ s) as [[todo e]|] eqn:Hw; [|done]).
  all: try (by intros Hs; repeat case_match; simplify_eq/=; rewrite ?app_nil_r, <- ?app_assoc).
  destruct (gn_done s) eqn:Hd; [|done]. unfold conn_sends.
  destruct (gnmi_loop client nch conn) as [request r]. intros [= <-]. simpl.
  rewrite (gi_done _ Hinv) in Hd by congruence.
  destruct (gn_primed s), (gn_worker_ s); simpl; try done.
Qed.

Lemma gn_run_sends ls : forall s s',
  gn_inv s -> gn_run s ls = Some s' ->
  gn_sends s' ++ gn_todo s' = gn_sends s ++ gn_todo s ++ flat_map conn_sends (started ls).
Proof.
  induction ls as [|l ls IH]; intros s s' Hs H; simpl in H.
  { simplify_eq. by rewrite app_nil_r. }
  apply bind_Some in H as (s1 & H1 & H2). rewrite (IH _ _ (gn_step_inv _ _ _ Hs H1) H2).
  rewrite app_assoc, (gn_step_sends _ _ _ Hs H1).
  change (started (l :: ls)) with (started ([l] ++ ls)). unfold started.
  rewrite omap_app, flat_map_app, <- !app_assoc. done.
Qed.

Lemma gn_reach_inv ls s : gn_run gn_init ls = Some s -> gn_inv s.
Proof. apply gn_run_inv, gn_init_inv. Qed.

(** C21: the gNMI input delivers what its connections carry, in order, and keeps trying.  Whatever
    the interleaving of the outer goroutine and its workers, what was handed on is the messages
    of the connections made so far, one connection after the other, short of what the
    present worker has still to send; there is a worker exactly when [clientDone] is open; and
    unless it was stopped or the process died, an input without a worker starts the
    next one within three steps of its own. *)
Theorem gnmi_delivers ls s :
  gn_run gn_init ls = Some s ->
  gn_sends s ++ gn_todo s = flat_map conn_sends (started ls)
  /\ (gn_mode_ s = GSelect \/ gn_mode_ s = GPause -> gn_worker_ s = None -> forall conn,
      exists ls' s', Forall (fun l => l = GnPrime \/ l = GnWake) ls' /\ length ls' <= 2
        /\ gn_run s (ls' ++ [GnStart conn]) = Some s' /\ is_Some (gn_worker_ s')).
Proof.
  intros Hrun. pose proof (gn_reach_inv _ _ Hrun) as Hinv. split.
  { by rewrite (gn_run_sends _ _ _ gn_init_inv Hrun). }
  intros Hm Hw conn.
  assert (gn_mode_ s <> GCrashed) as Hne by (destruct Hm; congruence).
  pose proof (gi_done _ Hinv Hne) as Hd. rewrite Hw, andb_true_r in Hd.
  exists ((if gn_primed s then [] else [GnPrime]) ++ (if gn_mode_ s is GPause then [GnWake] else [])).
  destruct s as [mode primed dn cancel cancelled w reqs sends reps]. simpl in *. subst.
  destruct (gnmi_loop client nch conn) as [request r] eqn:El.
  destruct Hm as [-> | ->], primed; simpl; unfold gn_step, gn_outer; simpl; rewrite El;
    (eexists; split; [by repeat constructor; auto|]; split; [lia|]; split; [done|]; by eexists).
Qed.

(** a worker with messages in hand can go on handing them on, unless the process died *)
Lemma gn_keeps_sending k : forall s,
  gn_mode_ s <> GCrashed -> k <= length (gn_todo s) ->
  exists s', gn_run s (replicate k GnSend) = Some s'
    /\ gn_sends s' = gn_sends s ++ take k (gn_todo s).
Proof.
  induction k as [|k IH]; intros s Hm Hk.
  { exists s. split; [done|]. by rewrite app_nil_r. }
  unfold gn_todo in Hk. destruct (gn_worker_ s) as [[[|x todo] e]|] eqn:Hw; simpl in Hk; try lia.
  destruct (IH (gn_set_worker s (Some (GWorker todo e)) (gn_done s) [x] (gn_mode_ s)))
    as (s' & Hrun & Hs'); [done|simpl; unfold gn_todo; simpl; lia|].
  exists s'. split.
  - simpl. unfold gn_step, gn_worker_step. rewrite Hw. by destruct (gn_mode_ s).
  - rewrite Hs'. unfold gn_todo. simpl. by rewrite Hw, <- app_assoc.
Qed.

(** the steps to the answer of a shutdown *)
Lemma gn_shutdown_run s :
  gn_mode_ s = GSelect \/ gn_mode_ s = GPause ->
  exists ls s', Forall (eq GnWake) ls /\ gn_run s (ls ++ [GnCtrl SHUTDOWN]) = Some s'
    /\ gn_mode_ s' = GReturned /\ gn_replies s' = gn_replies s ++ [SHUTDOWN]
    /\ gn_sends s' = gn_sends s /\ gn_todo s' = gn_todo s.
Proof.
  intros [Hm|Hm]; [exists []|exists [GnWake]]; simpl; unfold gn_step, gn_outer; rewrite Hm; simpl;
    (eexists; split; [by repeat constructor|]; split; [done|]); done.
Qed.

(** A gNMI input answers a shutdown without waiting for its worker.  It can always answer,
    after at most the pause it may be in, and does so once; the worker's context is then
    cancelled.  But the answer does not mean that the input is done: with a worker that has
    messages in hand, the answer can come first and the messages after it. *)
Lemma gnmi_shutdown_early ls s :
  gn_run gn_init ls = Some s ->
  (gn_mode_ s = GReturned -> exists n, gn_replies s = replicate n REPORT ++ [SHUTDOWN]
     /\ (is_Some (gn_worker_ s) -> gn_cancelled s = true))
  /\ (gn_mode_ s = GSelect \/ gn_mode_ s = GPause -> exists ls1 s1,
      Forall (eq GnWake) ls1 /\ gn_run s (ls1 ++ [GnCtrl SHUTDOWN]) = Some s1
      /\ gn_mode_ s1 = GReturned /\ gn_replies s1 = gn_replies s ++ [SHUTDOWN]
      /\ gn_sends s1 = gn_sends s
      /\ forall k, k <= length (gn_todo s) -> exists s2,
           gn_run s1 (replicate k GnSend) = Some s2
           /\ gn_sends s2 = gn_sends s1 ++ take k (gn_todo s)).
Proof.
  intros Hrun. pose proof (gn_reach_inv _ _ Hrun) as Hinv. split.
  { intros Hm. destruct (gi_replies _ Hinv) as [n Hn]; [congruence|]. rewrite Hm in Hn.
    exists n. split; [done|]. intros Hw. rewrite (gi_cancelled _ Hinv) by congruence.
    by rewrite (gi_cancel _ Hinv Hw), Hm. }
  intros (ls1 & s1 & ? & ? & Hm1 & ? & ? & Htodo)%gn_shutdown_run.
  exists ls1, s1. split_and!; try done. intros k Hk. rewrite <- Htodo in *.
  apply gn_keeps_sending; [congruence|done].
Qed.
End Run.
