(* ===== verification/Kafka.v ===== *)
(** * Kafka ([xport_kafka.go])

    The output stage (topic and key of a message, the feeder loop, its configuration) and
    the input stage (the source of a message, the consumer loop with its checkpoints, its
    configuration).  The Kafka client is outside the repository: connecting, sending and
    receiving are outcomes carried by events. *)
From S2P Require Import Prelude Message.

Definition KAFKATOPICDEFAULT : string := "telemetry".
Definition KAFKATOPICMAXLEN : nat := 250.

Inductive kafkaKeySpec : Type :=
| KAFKA_KEY_SPEC_NONE
| KAFKA_KEY_SPEC_ID_AND_PATH
| KAFKA_KEY_SPEC_ID.

#[export] Instance kafkaKeySpec_eq_dec : EqDecision kafkaKeySpec.
Proof. solve_decision. Defined.

Definition keyExtractionMethod (opt : string) : option kafkaKeySpec :=
  if String.eqb opt "" then Some KAFKA_KEY_SPEC_NONE
  else if String.eqb opt "path_and_id" then Some KAFKA_KEY_SPEC_ID_AND_PATH
  else if String.eqb opt "id" then Some KAFKA_KEY_SPEC_ID
  else None.

(** [template_Execute_meta] is a topic template executed on meta data. *)
Class KafkaEnv `{E : Env} := {
  template_Execute_meta : template -> dataMsgMetaData -> res string;
  KafkaVersion : Type;
  ParseKafkaVersion : string -> res KafkaVersion;
}.

(** ** Output *)

Section Output.
Context `{KE : KafkaEnv} {M : Type} `{D : !DataMsg M}.

(** the characters a topic may have *)
Definition topic_char (c : char) : bool :=
  is_alnum c || char_in "._-" c.

Definition sanitise_topic (topic : string) : string :=
  replace_runs topic_char "___"
    (if bool_decide (KAFKATOPICMAXLEN < String.length topic)
     then str_take KAFKATOPICMAXLEN topic else topic).

(** the extractor, on meta data or on nil *)
Definition kafkaProducerTopicExtractor (topic : string) (tmpl : option template)
    (m : option dataMsgMetaData) : string :=
  match tmpl with
  | None => topic
  | Some t =>
      match m with
      | None => "metadata template [" +:+ template_Name t +:+ "]"
      | Some md =>
          match template_Execute_meta t md with
          | Ok b => sanitise_topic b
          | _ => topic
          end
      end
  end.

Record kafkaProducerConfig : Type := ProducerConfig {
  kp_name : string;
  kp_topic : string;
  kp_template : option template;
  kp_brokerList : list string;
  kp_keySpec : kafkaKeySpec;
  kp_streamSpec : dataMsgStreamSpec E;
  kp_requiredAcks : Z;
  kp_logData : bool;
  kp_kafkaVersion : KafkaVersion;
}.

Definition fetchTopic (cfg : kafkaProducerConfig) (m : option dataMsgMetaData) : string :=
  kafkaProducerTopicExtractor (kp_topic cfg) (kp_template cfg) m.

(** topic, key and value of a produced message *)
Record ProducerMessage : Type := MkProducerMessage {
  km_Topic : string;
  km_Key : string;
  km_Value : bytes;
}.

Definition kafka_key (spec : kafkaKeySpec) (imsg : M) : string :=
  match spec with
  | KAFKA_KEY_SPEC_ID_AND_PATH =>
      ok_or "" (getMetaDataPath imsg) +:+ ":" +:+ ok_or "" (getMetaDataIdentifier imsg)
  | KAFKA_KEY_SPEC_ID => ok_or "" (getMetaDataIdentifier imsg)
  | KAFKA_KEY_SPEC_NONE => ""
  end.

(** [Ok None] when the message has no stream *)
Definition dataMsgToKafkaMessage (cfg : kafkaProducerConfig) (imsg : M)
    : list meta * res (option ProducerMessage) :=
  let topic := fetchTopic cfg (Some (getMetaData imsg)) in
  let '(ms, r) := produceByteStream imsg (kp_streamSpec cfg) in
  (ms, match r with
       | Ok None => Ok None
       | Ok (Some rawstream) =>
           Ok (Some (MkProducerMessage topic (kafka_key (kp_keySpec cfg) imsg) rawstream))
       | Err e => Err e
       | Panic => Panic
       end).

(** *** The feeder *)

Inductive fmode : Type := FSetup | FRun | FReturned | FCrashed.

Record feeder : Type := Feeder {
  fd_mode : fmode;
  fd_open : bool;                       (* dataChan is not nil *)
  fd_stats : msgStats;
  fd_sent : list ProducerMessage;       (* acknowledged by the client *)
  fd_metas : list meta;
  fd_reports : list msgStats;           (* contents of the answers to REPORT *)
}.

Definition feeder_init : feeder := Feeder FSetup true msgStats_zero [] [] [].

Inductive fevent : Type :=
| FSetupResult (ok : bool)              (* NewSyncProducer returned *)
| FMsg (msg : M) (sent : bool)          (* a message, and what SendMessage returned *)
| FClosed                               (* the data channel was closed *)
| FCtrl (id : msgID).

(** [kafkaHandleCtrlMsg] *)
Definition feeder_ctrl (s : feeder) (id : msgID) : feeder :=
  match id with
  | REPORT => Feeder (fd_mode s) (fd_open s) (fd_stats s) (fd_sent s) (fd_metas s)
                (fd_reports s ++ [fd_stats s])
  | SHUTDOWN => Feeder FReturned (fd_open s) (fd_stats s) (fd_sent s) (fd_metas s)
                  (fd_reports s)
  | ACK => s
  end.

Definition feeder_msg (cfg : kafkaProducerConfig) (s : feeder) (msg : M) (sent : bool)
    : feeder :=
  let '(ms, r) := dataMsgToKafkaMessage cfg msg in
  let metas := fd_metas s ++ ms in
  match r with
  | Panic => Feeder FCrashed (fd_open s) (fd_stats s) (fd_sent s) metas (fd_reports s)
  | Err _ => Feeder FRun (fd_open s) (stats_nok (fd_stats s)) (fd_sent s) metas (fd_reports s)
  | Ok None => Feeder FRun (fd_open s) (fd_stats s) (fd_sent s) metas (fd_reports s)
  | Ok (Some k) =>
      let labels := [kp_name cfg; km_Topic k; km_Key k; "out"] in
      if sent then
        Feeder FRun (fd_open s) (stats_ok (fd_stats s)) (fd_sent s ++ [k])
          (metas ++ [Inc "kafka_messages" labels;
                     AddN "kafka_bytes" labels (Z.of_nat (length (km_Value k)))])
          (fd_reports s)
      else
        Feeder FRun (fd_open s) (stats_nok (fd_stats s)) (fd_sent s)
          (metas ++ [Inc "kafka_errors" labels]) (fd_reports s)
  end.

(** [kafkaFeederLoopSticky] and then [kafkaFeederLoop]; [None] for an event the feeder
    cannot take *)
Definition feeder_step (cfg : kafkaProducerConfig) (s : feeder) (ev : fevent)
    : option feeder :=
  match fd_mode s, ev with
  | FSetup, FSetupResult ok =>
      Some (Feeder (if ok then FRun else FSetup) (fd_open s) (fd_stats s) (fd_sent s)
              (fd_metas s) (fd_reports s))
  | FSetup, FCtrl id | FRun, FCtrl id => Some (feeder_ctrl s id)
  | FRun, FMsg msg sent => if fd_open s then Some (feeder_msg cfg s msg sent) else None
  | FRun, FClosed =>
      if fd_open s
      then Some (Feeder FRun false (fd_stats s) (fd_sent s) (fd_metas s) (fd_reports s))
      else None
  | _, _ => None
  end.

Fixpoint feeder_run (cfg : kafkaProducerConfig) (s : feeder) (evs : list fevent)
    : option feeder :=
  match evs with
  | [] => Some s
  | ev :: evs' => s' ← feeder_step cfg s ev; feeder_run cfg s' evs'
  end.

(** *** Configuration *)

Definition missing_option : goerr := External "option not found".

(** [required_acks]: an unknown value is logged and counts as none *)
Definition required_acks (opt : option string) : Z :=
  match opt with
  | None => 0
  | Some s => if String.eqb s "none" then 0
              else if String.eqb s "local" then 1
              else if String.eqb s "commit" then -1 else 0
  end.

Definition topic_template (nc : nodeConfig) (name : string) : res (option template) :=
  match GetString nc name "topic_metadata_template" with
  | None => Ok None
  | Some file =>
      let! spec := readFile file in
      let! t := template_New_Parse name spec in Ok (Some t)
  end.

(** the configuration and the depth of the data channel *)
Definition kafka_output_configure (name : string) (nc : nodeConfig)
    : res (kafkaProducerConfig * Z) :=
  match GetString nc name "brokers" with
  | None => Err missing_option
  | Some brokers =>
      let depth := default 1000%Z (GetInt nc name "datachanneldepth") in
      let! topicTemplate := topic_template nc name in
      let topic := default KAFKATOPICDEFAULT (GetString nc name "topic") in
      let! streamSpec := dataMsgStreamSpecFromConfig nc name in
      match keyExtractionMethod (get_string nc name "key") with
      | None => Err (Errorf "kafka: key not a valid value")
      | Some keySpec =>
          match GetString nc name "kafkaversion" with
          | None => Err missing_option
          | Some raw =>
              let! version := ParseKafkaVersion raw in
              let! _ := make_depth depth in
              Ok (ProducerConfig name topic topicTemplate (split_on comma brokers) keySpec
                    streamSpec (required_acks (GetString nc name "required_acks"))
                    (get_bool nc name "logdata") version, depth)
          end
      end
  end.

End Output.

(** ** Input *)

Section Input.
Context {C M : Type} `{K : Codec C M}.

Record kafkaConsumerConfig : Type := ConsumerConfig {
  kc_name : string;
  kc_topic : string;
  kc_consumerGroup : string;
  kc_brokerList : list string;
  kc_keySpec : kafkaKeySpec;
  kc_msgEncoding : encoding;
  kc_logData : bool;
}.

Record ConsumerMessage : Type := MkConsumerMessage {
  cm_Partition : Z;
  cm_Offset : Z;
  cm_Key : string;
  cm_Value : slice;
}.

Definition extractKafkaProducer (k_name : string) (spec : kafkaKeySpec) (msgKey : string)
    : string :=
  if str_empty msgKey then k_name
  else match spec with
       | KAFKA_KEY_SPEC_ID => msgKey
       | KAFKA_KEY_SPEC_ID_AND_PATH =>
           match split_on colon msgKey with
           | [_; id] => id
           | _ => k_name
           end
       | KAFKA_KEY_SPEC_NONE => k_name
       end.

(** the sends of a record that are still to be made are part of where the goroutine is *)
Inductive cmode : Type :=
| CConnect
| CSelect
| CSending (todo : list (nat * M))
| CReturned
| CCrashed.

(** what the goroutine does for others to see, in order *)
Inductive caction : Type :=
| ATake (data : ConsumerMessage)         (* a record received from the consumer *)
| ASend (i : nat) (dM : M)               (* [dataChans[i] <- dM] *)
| AMark (data : ConsumerMessage)         (* [MarkOffset] *)
| AAck (id : msgID).                     (* a control message answered *)

(** [cs_consumer] is whether a consumer is set up; [cs_checkpoint] and [cs_scheduled] are the
    checkpoint variables *)
Record consumer : Type := Consumer {
  cs_mode : cmode;
  cs_consumer : bool;
  cs_checkpoint : option ConsumerMessage;
  cs_scheduled : bool;
  cs_stats : msgStats;
  cs_metas : list meta;
  cs_acts : list caction;
}.

(** the sends made, and those of the record in hand that are not *)
Definition cs_sent (s : consumer) : list (nat * M) :=
  omap (fun a => match a with ASend i dM => Some (i, dM) | _ => None end) (cs_acts s).
Definition cs_pending (s : consumer) : list (nat * M) :=
  match cs_mode s with CSending todo => todo | _ => [] end.

Inductive cevent : Type :=
| CConnected (client created : bool)
| CTimeout
| CFlush
| CData (data : ConsumerMessage)
| CSent                                  (* the send in hand goes through *)
| CInstead (id : msgID)                  (* a control message, in the select with that send *)
| CCtrl (id : msgID)                     (* a control message, in the outer select *)
| COther.                                (* a notification or a remote error *)

(** the loops over messages and channels: with no send left they end *)
Definition sending (todo : list (nat * M)) : cmode :=
  match todo with [] => CSelect | _ => CSending todo end.

(** a record is received: it becomes the checkpoint, and its messages are to be sent *)
Definition consumer_data (cfg : kafkaConsumerConfig) (codec : C) (k_name : string) (nch : nat)
    (s : consumer) (data : ConsumerMessage) : consumer :=
  let '(ms, r) := blockToDataMsgs codec
    (Some (extractKafkaProducer k_name (kc_keySpec cfg) (cm_Key data))) (cm_Value data) in
  let labels := [kc_name cfg; kc_topic cfg; cm_Key data; "in"] in
  let counted := cs_metas s ++ ms ++
    [Inc "kafka_messages" labels;
     AddN "kafka_bytes" labels (Z.of_nat (slice_len (cm_Value data)))] in
  let acts := cs_acts s ++ [ATake data] in
  match r with
  | Panic => Consumer CCrashed (cs_consumer s) (Some data) true (cs_stats s) counted acts
  | Err _ => Consumer CSelect (cs_consumer s) (Some data) true (stats_nok (cs_stats s))
               (counted ++ [Inc "kafka_errors" labels]) acts
  | Ok dMs =>
      Consumer (sending (flat_map (fun dM => map (fun i => (i, dM)) (seq 0 nch)) (default [] dMs)))
        (cs_consumer s) (Some data) true
        (if kc_logData cfg then stats_ok (cs_stats s) else cs_stats s) counted acts
  end.

(** [handleCtrlMsg]; the goroutine returns on a shutdown, and else goes on with [next] *)
Definition consumer_ctrl (s : consumer) (id : msgID) (next : cmode) : consumer :=
  Consumer (match id with SHUTDOWN => CReturned | _ => next end) (cs_consumer s)
    (cs_checkpoint s) (cs_scheduled s) (cs_stats s) (cs_metas s) (cs_acts s ++ [AAck id]).

(** a step of the consumer; [None] when it cannot take the event *)
Definition consumer_step (cfg : kafkaConsumerConfig) (codec : C) (k_name : string)
    (nch : nat) (s : consumer) (ev : cevent) : option consumer :=
  match cs_mode s, ev with
  | CConnect, CConnected client created =>
      Some (Consumer CSelect (client && created) (cs_checkpoint s) (cs_scheduled s)
              (cs_stats s) (cs_metas s) (cs_acts s))
  | CSelect, CTimeout =>
      if cs_consumer s then None
      else Some (Consumer CConnect false None (cs_scheduled s) (cs_stats s) (cs_metas s)
                   (cs_acts s))
  | CSelect, CFlush =>
      if cs_scheduled s
      then Some (Consumer CSelect (cs_consumer s) None false (cs_stats s) (cs_metas s)
                   (cs_acts s ++ match cs_checkpoint s with Some m => [AMark m] | None => [] end))
      else None
  | CSelect, CData data =>
      if cs_consumer s then Some (consumer_data cfg codec k_name nch s data) else None
  | CSelect, CCtrl id => Some (consumer_ctrl s id CSelect)
  | CSelect, COther => if cs_consumer s then Some s else None
  | CSending ((i, dM) :: todo), CSent =>
      Some (Consumer (sending todo) (cs_consumer s) (cs_checkpoint s) (cs_scheduled s)
              (cs_stats s) (cs_metas s) (cs_acts s ++ [ASend i dM]))
  | CSending (_ :: todo), CInstead id => Some (consumer_ctrl s id (sending todo))
  | _, _ => None
  end.

(** [maintainKafkaConsumerConnection]: without a codec for the encoding the goroutine ends
    before it listens to anything *)
Definition consumer_start (cfg : kafkaConsumerConfig) (k_name : string) : option C * consumer :=
  match getCodec k_name (kc_msgEncoding cfg) with
  | Ok codec => (Some codec, Consumer CConnect false None false msgStats_zero [] [])
  | _ => (None, Consumer CReturned false None false msgStats_zero [] [])
  end.

Fixpoint consumer_run (cfg : kafkaConsumerConfig) (codec : C) (k_name : string) (nch : nat)
    (s : consumer) (evs : list cevent) : option consumer :=
  match evs with
  | [] => Some s
  | ev :: evs' => s' ← consumer_step cfg codec k_name nch s ev;
                  consumer_run cfg codec k_name nch s' evs'
  end.

(** configuration; [version_ok] is whether the client accepts the version *)
Definition kafka_input_configure (version_ok : string -> bool) (name : string)
    (nc : nodeConfig) : res kafkaConsumerConfig :=
  match GetString nc name "brokers", GetString nc name "consumergroup" with
  | Some brokers, Some group =>
      let! enc := match GetString nc name "encoding" with
                  | None => Ok ENCODING_JSON
                  | Some e => nameToEncoding e
                  end in
      match GetString nc name "kafkaversion" with
      | None => Err (External "option not found")
      | Some raw =>
          if negb (version_ok raw) then Err (External "kafka version")
          else match keyExtractionMethod (get_string nc name "key") with
               | None => Err (Errorf "kafka: key not a valid value")
               | Some keySpec =>
                   Ok (ConsumerConfig name (default KAFKATOPICDEFAULT (GetString nc name "topic"))
                         group (split_on comma brokers) keySpec enc
                         (get_bool nc name "logdata"))
               end
      end
  | _, _ => Err (External "option not found")
  end.

End Input.

(** ** Theorems: output *)

Section OutputTheorems.
Context `{KE : KafkaEnv} {M : Type} `{D : !DataMsg M} `{DL : !DataMsgLaws M}.

Lemma sanitise_length topic : String.length (sanitise_topic topic) <= 3 * KAFKATOPICMAXLEN.
Proof.
  unfold sanitise_topic. set (t := if bool_decide _ then _ else _).
  assert (String.length t <= KAFKATOPICMAXLEN) as Ht.
  { unfold t. case_bool_decide; [rewrite str_take_length|]; lia. }
  etransitivity; [apply replace_runs_length|].
  change (Nat.max 1 (String.length "___")) with 3. lia.
Qed.

(** A topic made from a template is made of allowed characters.  It has at most three times the
    maximum length, since characters are replaced after the cut; a text that already
    conforms is used as it is. *)
Lemma kafka_topic topic t md b :
  template_Execute_meta t md = Ok b ->
  let r := kafkaProducerTopicExtractor topic (Some t) (Some md) in
  str_forall topic_char r = true
  /\ String.length r <= 3 * KAFKATOPICMAXLEN
  /\ (str_forall topic_char b = true -> String.length b <= KAFKATOPICMAXLEN -> r = b).
Proof.
  intros Hb. simpl. rewrite Hb. split; [by apply replace_runs_chars|].
  split; [apply sanitise_length|]. intros Hc Hl. unfold sanitise_topic.
  rewrite bool_decide_eq_false_2 by lia. by apply replace_runs_id.
Qed.

(** the limit is exceeded: 125 segments of one character give 500 characters *)
Lemma kafka_topic_too_long :
  String.length (sanitise_topic (String.concat "" (repeat "a/" 125))) = 500.
Proof. vm_compute. reflexivity. Qed.

Definition sent_of (cfg : kafkaProducerConfig) (ev : fevent (M := M)) : option ProducerMessage :=
  match ev with
  | FMsg msg true => match (dataMsgToKafkaMessage cfg msg).2 with Ok k => k | _ => None end
  | _ => None
  end.

(** The feeder sends what it accounts for.  In any run of the feeder, what it has sent is,
    in order, the messages whose send succeeded, with their topic, key and stream, and
    the count of good messages is their number. *)
Lemma kafka_feeder_accounting cfg evs s :
  feeder_run cfg feeder_init evs = Some s ->
  fd_sent s = omap (sent_of cfg) evs
  /\ MsgsOK (fd_stats s) = u64 (Z.of_nat (length (fd_sent s))).
Proof.
  assert (forall evs s0 s, feeder_run cfg s0 evs = Some s ->
    MsgsOK (fd_stats s0) = u64 (Z.of_nat (length (fd_sent s0))) ->
    fd_sent s = fd_sent s0 ++ omap (sent_of cfg) evs
    /\ MsgsOK (fd_stats s) = u64 (Z.of_nat (length (fd_sent s)))) as Hgen.
  { clear. induction evs as [|ev evs IH]; intros s0 s Hrun Hok; simpl in Hrun.
    { simplify_eq. by rewrite app_nil_r. }
    destruct (feeder_step cfg s0 ev) as [s1|] eqn:Hs; [|done]. simpl in Hrun.
    assert (fd_sent s1 = fd_sent s0 ++ omap (sent_of cfg) [ev]
      /\ MsgsOK (fd_stats s1) = u64 (Z.of_nat (length (fd_sent s1)))) as [E1 E2].
    { clear IH Hrun. unfold feeder_step in Hs.
      destruct (fd_mode s0), ev as [ok|msg sent| |[]]; simplify_eq/=;
        rewrite ?app_nil_r; try done;
        destruct (fd_open s0); simplify_eq; simpl; rewrite ?app_nil_r; try done.
      unfold feeder_msg, dataMsgToKafkaMessage.
      destruct (produceByteStream msg (kp_streamSpec cfg)) as [ms [[b|]|e|]], sent; simpl;
        rewrite ?app_nil_r; try done. split; [done|].
      rewrite Hok, length_app. simpl. unfold u64.
      rewrite Nat2Z.inj_add, Zplus_mod_idemp_l. done. }
    destruct (IH _ _ Hrun E2) as [E3 E4]. split; [|done].
    change (ev :: evs) with ([ev] ++ evs). rewrite omap_app, E3, E1. by rewrite app_assoc. }
  intros Hrun. by destruct (Hgen evs feeder_init s Hrun eq_refl).
Qed.

(** Who the producer was survives Kafka, but for colons.  With keys made of the identifier, the
    consumer finds the producer's identifier again.  With keys made of path and
    identifier it does exactly when neither holds a colon; otherwise, as for every identifier
    of the form address and port, it takes the name of its own section. *)
Lemma kafka_key_roundtrip (m : M) k_name path :
  getMetaDataPath m = Ok path ->
  let id := md_Identifier (getMetaData m) in
  (id <> "" ->
   extractKafkaProducer k_name KAFKA_KEY_SPEC_ID (kafka_key KAFKA_KEY_SPEC_ID m) = id)
  /\ extractKafkaProducer k_name KAFKA_KEY_SPEC_ID_AND_PATH
       (kafka_key KAFKA_KEY_SPEC_ID_AND_PATH m)
     = if str_free colon path && str_free colon id then id else k_name.
Proof.
  intros Hp id. unfold kafka_key. rewrite Hp, identifier_ok. fold id. cbn [ok_or].
  split.
  { intros Hid. unfold extractKafkaProducer. by destruct id. }
  unfold extractKafkaProducer.
  assert (str_empty (path +:+ ":" +:+ id) = false) as -> by by destruct path.
  change (":" +:+ id) with (String colon id).
  destruct (str_free colon path) eqn:Ep; cbn [andb].
  - rewrite split_on_app by done. destruct (str_free colon id) eqn:Ei.
    + by rewrite split_on_free.
    + pose proof (split_on_all_free colon id) as Hf. pose proof (join_split_on colon id) as Hj.
      destruct (split_on colon id) as [|w [|w' ws]] eqn:Es; [done| |done].
      simpl in Hj. subst w. inversion Hf; subst. congruence.
  - pose proof (length_split_on colon (path +:+ String colon id)) as Hl.
    assert (1 <= count_char colon path) as Hc.
    { clear -Ep. unfold str_free in Ep. induction path as [|c p IH]; [done|].
      cbn [str_forall count_char] in *. destruct (Ascii.eqb colon c); [lia|].
      simpl in *. auto. }
    assert (count_char colon (path +:+ String colon id)
            = count_char colon path + S (count_char colon id)) as Hcount.
    { clear. induction path as [|c p IH]; cbn [count_char String.append]; [done|].
      rewrite IH. lia. }
    rewrite Hcount in Hl.
    destruct (split_on colon _) as [|a [|b' [|c l]]]; simpl in Hl; try lia. done.
Qed.
End OutputTheorems.

(** ** Theorems: input *)

Section InputTheorems.
Context {C M : Type} `{K : Codec C M}.
Context (cfg : kafkaConsumerConfig) (codec : C) (k_name : string) (nch : nat).

(** *** Specification: a record that is handed over *)

(** what is to be sent for a record: each message the codec finds in it, on each channel *)
Definition sends_of (data : ConsumerMessage) : list (nat * M) :=
  match (blockToDataMsgs codec
           (Some (extractKafkaProducer k_name (kc_keySpec cfg) (cm_Key data))) (cm_Value data)).2 with
  | Ok (Some dMs) => dM ← dMs; i ← seq 0 nch; [(i, dM)]
  | _ => []
  end.

(** one send: it is made, or a control message that is not a shutdown is answered instead *)
Definition handed (x : nat * M) (a : caction) : Prop :=
  a = ASend x.1 x.2 \/ exists id, id <> SHUTDOWN /\ a = AAck id.

(** every record taken is followed by all its sends, in order *)
Definition served (acts : list caction) : Prop :=
  forall i data, acts !! i = Some (ATake data) ->
  Forall2 handed (sends_of data) (take (length (sends_of data)) (drop (S i) acts)).

(** *** The checkpoint *)

Lemma served_prefix acts l i data :
  served acts -> acts !! i = Some (ATake data) ->
  Forall2 handed (sends_of data) (take (length (sends_of data)) (drop (S i) (acts ++ l))).
Proof.
  intros Hs Hi. specialize (Hs _ _ Hi). pose proof (list.Forall2_length _ _ _ Hs) as Hl.
  apply lookup_lt_Some in Hi. rewrite length_take in Hl.
  rewrite drop_app_le, take_app_le by lia. done.
Qed.

Lemma served_snoc acts a : served acts -> (forall data, a <> ATake data) -> served (acts ++ [a]).
Proof.
  intros Hs Ha i data [Hi|[_ Hi]]%lookup_app_Some; [by apply served_prefix|].
  apply list_lookup_singleton_Some in Hi as [_ Hi]. by destruct (Ha data).
Qed.

Lemma served_take acts data l :
  served acts -> Forall2 handed (sends_of data) l -> served (acts ++ ATake data :: l).
Proof.
  intros Hs Hl i data' [Hi|[Hle Hi]]%lookup_app_Some; [by apply served_prefix|].
  destruct (i - length acts) as [|k] eqn:Ek; simpl in Hi.
  - simplify_eq. assert (S i = length (acts ++ [ATake data'])) as -> by (rewrite length_app; simpl; lia).
    change (ATake data' :: l) with ([ATake data'] ++ l). rewrite app_assoc, drop_app_length.
    by rewrite take_ge by (by rewrite (list.Forall2_length _ _ _ Hl)).
  - destruct (Forall2_lookup_r _ _ _ _ _ Hl Hi) as (x & _ & [?|(id & _ & ?)]); done.
Qed.

Definition marks_served (acts : list caction) : Prop :=
  forall j m, acts !! j = Some (AMark m) -> ATake m ∈ take j acts /\ served (take j acts).

Lemma marks_snoc acts a :
  marks_served acts -> (forall m, a = AMark m -> ATake m ∈ acts /\ served acts) ->
  marks_served (acts ++ [a]).
Proof.
  intros Hm Ha j m [Hj|[Hle Hj]]%lookup_app_Some.
  - pose proof (lookup_lt_Some _ _ _ Hj). rewrite take_app_le by lia. by apply Hm.
  - apply list_lookup_singleton_Some in Hj as [Hj E].
    assert (j = length acts) as -> by lia. rewrite take_app_length. by apply Ha.
Qed.

(** a consumer at its select has served what it took; one that sends has made or lost the first
    sends of the record in hand *)
Definition consumer_inv (s : consumer (M := M)) : Prop :=
  marks_served (cs_acts s)
  /\ (cs_mode s <> CReturned -> cs_mode s <> CCrashed ->
      forall m, cs_checkpoint s = Some m -> ATake m ∈ cs_acts s)
  /\ match cs_mode s with
     | CConnect | CSelect => served (cs_acts s)
     | CSending todo => exists acts data made l,
         cs_acts s = acts ++ ATake data :: l /\ served acts
         /\ sends_of data = made ++ todo /\ Forall2 handed made l
     | CReturned | CCrashed => True
     end.

(** the record in hand after one more of its sends *)
Lemma sending_inv acts data made x todo l a co cp sc st ms :
  marks_served (acts ++ ATake data :: l) -> served acts ->
  sends_of data = made ++ x :: todo -> Forall2 handed made l -> handed x a ->
  (forall m, cp = Some m -> ATake m ∈ acts ++ ATake data :: l) ->
  consumer_inv (Consumer (sending todo) co cp sc st ms ((acts ++ ATake data :: l) ++ [a])).
Proof.
  intros Hm Hs Hd Hl Ha Hc.
  assert (forall m, a <> AMark m) as Hnm by (destruct Ha as [->|(? & _ & ->)]; done).
  assert (Forall2 handed (made ++ [x]) (l ++ [a])) as Hl'
    by (apply Forall2_app; [done|by constructor]).
  split; [|split].
  - apply marks_snoc; [done|]. intros m E. by destruct (Hnm m).
  - intros _ _ m E. apply elem_of_app. left. by apply Hc.
  - cbn [cs_mode cs_acts]. rewrite <- app_assoc. cbn [app].
    change (x :: todo) with ([x] ++ todo) in Hd. rewrite app_assoc in Hd.
    destruct todo as [|y todo]; cbn [sending]; [|by eexists acts, data, _, _].
    rewrite app_nil_r in Hd. apply served_take; [done|]. by rewrite Hd.
Qed.

Lemma consumer_ctrl_inv s id next :
  marks_served (cs_acts s) ->
  (id <> SHUTDOWN -> consumer_inv (consumer_ctrl s id next)) ->
  consumer_inv (consumer_ctrl s id next).
Proof.
  intros Hm Hi. destruct id; try (by apply Hi). split; [|done]. by apply marks_snoc.
Qed.

Lemma consumer_data_inv s data :
  consumer_inv s -> cs_mode s = CSelect ->
  consumer_inv (consumer_data cfg codec k_name nch s data).
Proof.
  intros (Hm & Hc & Hi) Em. rewrite Em in Hi.
  assert (forall co sc st ms mode,
    match mode with
    | CSelect => sends_of data = []
    | CSending todo => sends_of data = todo
    | CConnect => False
    | CReturned | CCrashed => True
    end ->
    consumer_inv (Consumer mode co (Some data) sc st ms (cs_acts s ++ [ATake data]))) as Hinv.
  { intros co sc st ms mode Hmode. split; [by apply marks_snoc|]. split.
    - intros _ _ m [= <-]. simpl. set_solver.
    - destruct mode as [| |todo| |]; cbn; try done.
      + apply served_take; [done|]. rewrite Hmode. constructor.
      + exists (cs_acts s), data, [], []. by rewrite Hmode. }
  unfold consumer_data. destruct (blockToDataMsgs _ _ _) as [ms r] eqn:Eb.
  destruct r as [dMs|e|]; apply Hinv; unfold sends_of; rewrite ?Eb; [|done..]. cbn [snd].
  destruct dMs as [dMs|]; [|done]. change (default [] (Some dMs)) with dMs.
  assert (flat_map (fun dM => map (fun i => (i, dM)) (seq 0 nch)) dMs
          = (dM ← dMs; i ← seq 0 nch; [(i, dM)])) as ->.
  { clear. induction dMs as [|dM dMs IH]; [done|]. cbn [flat_map mbind list_bind]. by rewrite IH. }
  by destruct (dM ← dMs; _).
Qed.

Lemma consumer_step_inv s ev s' :
  consumer_inv s -> consumer_step cfg codec k_name nch s ev = Some s' -> consumer_inv s'.
Proof.
  intros Hinv Hs. pose proof Hinv as (Hm & Hc & Hi). unfold consumer_step in Hs.
  destruct (cs_mode s) as [| |[|[i dM] todo]| |] eqn:Em, ev as [cl co| | |data| |id|id|];
    simplify_eq.
  - split; [done|]. split; [|done]. intros _ _. by apply Hc.
  - destruct (cs_consumer s); simplify_eq. by split.
  - destruct (cs_scheduled s); simplify_eq.
    destruct (cs_checkpoint s) as [m|]; [|by rewrite app_nil_r].
    split; [|split; [done|by apply served_snoc]].
    apply marks_snoc; [done|]. intros m' [= <-]. split; [|done]. by apply Hc.
  - destruct (cs_consumer s); simplify_eq. by apply consumer_data_inv.
  - apply consumer_ctrl_inv; [done|]. intros Hid.
    split; [by apply marks_snoc|]. split; cbn [consumer_ctrl cs_checkpoint cs_acts cs_mode].
    + intros _ _ m E. apply elem_of_app. left. by apply Hc.
    + destruct id; [done|by apply served_snoc..].
  - by destruct (cs_consumer s); simplify_eq.
  - destruct Hi as (acts & data & made & l & E & Hsv & Hd & Hl). rewrite E in *.
    eapply sending_inv; [done|done|exact Hd|done|by left|by apply Hc].
  - destruct Hi as (acts & data & made & l & E & Hsv & Hd & Hl).
    apply consumer_ctrl_inv; [done|]. intros Hid. unfold consumer_ctrl. rewrite E in *.
    assert (match id with SHUTDOWN => CReturned | _ => sending todo end = sending (M := M) todo) as ->
      by (by destruct id).
    eapply sending_inv; [done|done|exact Hd|done|right; by exists id|by apply Hc].
Qed.

Lemma consumer_run_inv evs s :
  consumer_run cfg codec k_name nch (consumer_start (C := C) (M := M) cfg k_name).2 evs = Some s ->
  consumer_inv s.
Proof.
  assert (consumer_inv (consumer_start (C := C) (M := M) cfg k_name).2) as Hi.
  { unfold consumer_start. destruct (getCodec _ _); (split; [|split]); simpl; done. }
  revert Hi. generalize (consumer_start (C := C) (M := M) cfg k_name).2.
  induction evs as [|ev evs IH]; intros s0 Hi Hrun; simpl in Hrun; [by simplify_eq|].
  destruct (consumer_step cfg codec k_name nch s0 ev) as [s1|] eqn:Hs; [|done].
  eapply IH; [|exact Hrun]. by eapply consumer_step_inv.
Qed.

(** C26: no offset is marked early.  In any run of the consumer, when it marks the offset of a
    record it has taken that record before, and every record it has taken by then, this one
    and those before it, was handed over right after it was taken: each message the codec finds in
    it was sent on each data channel, in order, but for sends whose place a control message took
    that was answered meanwhile.  So a consumer that is stopped with a record in hand loses no part
    of it to a checkpoint. *)
Theorem kafka_checkpoint_safe evs s j m :
  consumer_run cfg codec k_name nch (consumer_start (C := C) (M := M) cfg k_name).2 evs = Some s ->
  cs_acts s !! j = Some (AMark m) ->
  ATake m ∈ take j (cs_acts s) /\ served (take j (cs_acts s)).
Proof. intros (Hm & _)%consumer_run_inv. apply Hm. Qed.

(** A control message answered during a blocked send costs that send.  When no shutdown is among
    them, every control message taken while a record is being handed over takes the
    place of one send, which is never made; the others are made in order. *)
Lemma kafka_report_drops evs : forall s todo s',
  cs_mode s = sending todo -> length evs = length todo ->
  Forall (fun ev => ev = CSent \/ exists id, id <> SHUTDOWN /\ ev = CInstead id) evs ->
  consumer_run cfg codec k_name nch s evs = Some s' ->
  cs_mode s' = CSelect
  /\ cs_sent s' = cs_sent s
       ++ omap (fun x => match x.2 with CSent => Some x.1 | _ => None end) (zip todo evs).
Proof.
  induction evs as [|ev evs IH]; intros s [|[i dM] todo] s' Em Hl HF Hrun; simplify_eq/=.
  { by rewrite app_nil_r. }
  apply list.Forall_cons in HF as [Hev HF]. unfold consumer_step in Hrun. rewrite Em in Hrun.
  destruct Hev as [->|(id & Hid & ->)].
  - eapply IH in Hrun as [Hm Hs]; [|reflexivity|exact Hl|exact HF]. split; [done|].
    rewrite Hs. unfold cs_sent. cbn [cs_acts]. rewrite omap_app. simpl. by rewrite <- app_assoc.
  - cbn [mbind option_bind] in Hrun. unfold consumer_ctrl in Hrun.
    assert (match id with SHUTDOWN => CReturned | _ => sending todo end = sending (M := M) todo) as E
      by (by destruct id).
    rewrite E in Hrun.
    eapply IH in Hrun as [Hm Hs]; [|reflexivity|exact Hl|exact HF]. split; [done|].
    rewrite Hs. unfold cs_sent. cbn [cs_acts]. rewrite omap_app. simpl. by rewrite app_nil_r.
Qed.

(** Without data logging no message is counted as good.  In any run with
    [logdata] off, the count of good messages the consumer reports is zero, however many it
    has handed on. *)
Lemma kafka_ok_count evs s :
  kc_logData cfg = false ->
  consumer_run cfg codec k_name nch (consumer_start (C := C) (M := M) cfg k_name).2 evs = Some s ->
  MsgsOK (cs_stats s) = 0%Z.
Proof.
  intros Hlog.
  assert (MsgsOK (cs_stats (consumer_start (C := C) (M := M) cfg k_name).2) = 0%Z) as Hi
    by (unfold consumer_start; by destruct (getCodec _ _)).
  revert Hi. generalize (consumer_start (C := C) (M := M) cfg k_name).2.
  induction evs as [|ev evs IH]; intros s0 Hi Hrun; simpl in Hrun; [by simplify_eq|].
  destruct (consumer_step cfg codec k_name nch s0 ev) as [s1|] eqn:Hs; [|done].
  eapply IH; [|exact Hrun]. unfold consumer_step in Hs.
  destruct (cs_mode s0) as [| |[|[i dM] todo]| |], ev as [cl co| | |data| |id|id|]; simplify_eq;
    try done; try (destruct (cs_consumer s0); by simplify_eq);
    try (destruct (cs_scheduled s0); by simplify_eq).
  destruct (cs_consumer s0); simplify_eq. unfold consumer_data.
  destruct (blockToDataMsgs _ _ _) as [ms [dMs|e|]]; by rewrite ?Hlog.
Qed.
End InputTheorems.
