(* ===== verification/Block.v ===== *)
(** * The retry loop of the gRPC input and output
    ([grpcBlock.run] of [xport_grpc.go], [outermostLoop] of [xport_grpc_out.go])

    The outer goroutine starts a worker ([stickyLoop]), starts another when the worker is done, and
    serves the control channel.  Worker and outer goroutine share the channel [childrenDone],
    which the worker closes when it is done.  Some failures make a worker return
    without closing it ("fatal, no retry"). *)
From S2P Require Import Prelude Message.

(** where the outer goroutine is: in its [select]; in the pause after starting a worker; waiting
    for the worker on a shutdown; returned *)
Inductive block_mode : Type := BSelect | BPause | BClosing | BReturned.
Inductive block_worker : Type := NoWorker | WorkerRuns | WorkerLost.

(** [bk_primed] is whether the goroutine that closes the first [childrenDone] has run, [bk_done]
    whether [childrenDone] is closed, [bk_cancel] whether the variable [cancel] is set *)
Record block : Type := Block {
  bk_mode : block_mode;
  bk_primed : bool;
  bk_done : bool;
  bk_cancel : bool;
  bk_worker : block_worker;
  bk_acks : list msgID;
}.

Definition block_init : block := Block BSelect false false false NoWorker [].

Inductive block_label : Type :=
| BPrime
| BStart           (* [childrenDone] is seen closed *)
| BWake            (* the pause is over *)
| BWorkerDone      (* the worker closes [childrenDone] and returns *)
| BWorkerFatal     (* the worker returns without doing so *)
| BCtrl (id : msgID)
| BDone.           (* shutting down, [childrenDone] is seen closed *)

Definition block_step (s : block) (l : block_label) : option block :=
  let '(Block mode primed dn cancel worker acks) := s in
  match l, mode with
  | BPrime, _ =>
      if primed then None else Some (Block mode true true cancel worker acks)
  | BStart, BSelect =>
      if dn then Some (Block BPause primed false true WorkerRuns acks) else None
  | BWake, BPause => Some (Block BSelect primed dn cancel worker acks)
  | BWorkerDone, _ =>
      match worker with
      | WorkerRuns => Some (Block mode primed true cancel NoWorker acks)
      | _ => None
      end
  | BWorkerFatal, _ =>
      match worker with
      | WorkerRuns => Some (Block mode primed dn cancel WorkerLost acks)
      | _ => None
      end
  | BCtrl REPORT, BSelect => Some (Block BSelect primed dn cancel worker (acks ++ [REPORT]))
  | BCtrl SHUTDOWN, BSelect =>
      if cancel then Some (Block BClosing primed dn cancel worker acks)
      else Some (Block BReturned primed dn cancel worker (acks ++ [SHUTDOWN]))
  | BCtrl ACK, BSelect => Some s
  | BDone, BClosing =>
      if dn then Some (Block BReturned primed dn cancel worker (acks ++ [SHUTDOWN])) else None
  | _, _ => None
  end.

Fixpoint block_run (s : block) (ls : list block_label) : option block :=
  match ls with
  | [] => Some s
  | l :: ls' => s' ← block_step s l; block_run s' ls'
  end.

(** ** Theorems *)

(** Invariant: once a worker was started [childrenDone] is closed exactly when there is none, a
    wait for it is the wait for a started worker, and the answers are reports, followed
    by one to the shutdown. *)
Record block_inv (s : block) : Prop := {
  bi_done : bk_cancel s = true -> bk_done s = (if bk_worker s is NoWorker then true else false);
  bi_first : bk_cancel s = false -> bk_worker s = NoWorker;
  bi_primed : bk_cancel s = true -> bk_primed s = true;
  bi_closing : bk_mode s = BClosing -> bk_cancel s = true;
  bi_pause : bk_mode s = BPause -> bk_cancel s = true;
  bi_first_done : bk_done s = true -> bk_primed s = true;
  bi_returned : bk_mode s = BReturned -> bk_worker s = NoWorker;
  bi_acks : exists n, bk_acks s = replicate n REPORT
              ++ (if bk_mode s is BReturned then [SHUTDOWN] else []);
}.

Lemma block_init_inv : block_inv block_init.
Proof. constructor; simpl; try done. by exists 0. Qed.

Lemma block_step_inv s l s' : block_inv s -> block_step s l = Some s' -> block_inv s'.
Proof.
  intros [Hd Hf Hp Hcl Hpa Hfd Hr [n Ha]]. destruct s as [mode primed dn cancel worker acks].
  simpl in *. subst acks.
  destruct l as [| | | | |[]|], mode, worker, cancel, dn, primed; simpl; intros Hs;
    try discriminate Hs; try discriminate (Hd eq_refl); try discriminate (Hf eq_refl);
    try discriminate (Hp eq_refl); try discriminate (Hfd eq_refl);
    try discriminate (Hcl eq_refl); try discriminate (Hpa eq_refl);
    try discriminate (Hr eq_refl);
    injection Hs as <-; constructor; simpl; try done.
  all: try (exists n; by rewrite ?app_nil_r).
  all: exists (S n); by rewrite !app_nil_r, <- replicate_cons_app.
Qed.

Lemma block_run_inv ls : forall s s', block_inv s -> block_run s ls = Some s' -> block_inv s'.
Proof.
  induction ls as [|l ls IH]; intros s s' Hs H; simpl in H; [by simplify_eq|].
  apply bind_Some in H as (s1 & H1 & H2). eauto using block_step_inv.
Qed.

(** a lost worker is never replaced, and the shutdown never answered *)
Lemma block_step_lost s l s' :
  block_inv s -> bk_worker s = WorkerLost -> block_step s l = Some s' ->
  bk_worker s' = WorkerLost.
Proof.
  intros [Hd Hf Hp _ _ _ _ _]. destruct s as [mode primed dn cancel worker acks].
  simpl in *. intros ->. destruct cancel; [|discriminate (Hf eq_refl)].
  rewrite (Hd eq_refl). rewrite (Hp eq_refl).
  destruct l as [| | | | |[]|], mode; simpl; intros [= <-]; done.
Qed.

Lemma block_run_lost ls : forall s s',
  block_inv s -> bk_worker s = WorkerLost -> block_run s ls = Some s' ->
  bk_worker s' = WorkerLost.
Proof.
  induction ls as [|l ls IH]; intros s s' Hs Hw H; simpl in H; [by simplify_eq|].
  apply bind_Some in H as (s1 & H1 & H2). eauto using block_step_inv, block_step_lost.
Qed.

Lemma block_no_ack s : block_inv s -> bk_worker s = WorkerLost -> ~ (SHUTDOWN ∈ bk_acks s).
Proof.
  intros [_ _ _ _ _ _ Hr [n ->]] Hw [[? _]%elem_of_replicate|Hin]%elem_of_app; [done|].
  destruct (bk_mode s); try by apply elem_of_nil in Hin. by rewrite (Hr eq_refl) in Hw.
Qed.

(** C20: a gRPC input or output stops exactly when no worker failed for good.  Whatever the loop
    and its workers have been through: if no worker has returned without a sign, the loop can be
    stopped within four steps, of which only the return of a running worker is not its
    own, and it answers once no worker runs; if one has, the loop never starts another
    and never answers a shutdown, whatever happens. *)
Theorem block_shutdown ls s :
  block_run block_init ls = Some s ->
  (bk_mode s = BReturned -> bk_worker s = NoWorker)
  /\ (bk_worker s <> WorkerLost -> bk_mode s <> BReturned ->
      exists ls' s', block_run s ls' = Some s' /\ bk_mode s' = BReturned
        /\ SHUTDOWN ∈ bk_acks s' /\ length ls' <= 4
        /\ Forall (fun l => l ∈ [BWake; BCtrl SHUTDOWN; BWorkerDone; BDone]) ls')
  /\ (bk_worker s = WorkerLost -> forall ls' s', block_run s ls' = Some s' ->
      bk_worker s' = WorkerLost /\ bk_mode s' <> BReturned /\ ~ (SHUTDOWN ∈ bk_acks s')).
Proof.
  intros Hs%(block_run_inv _ _ _ block_init_inv). split_and!.
  - by destruct Hs.
  - intros Hw Hm. pose proof Hs as [Hd Hf Hp Hcl Hpa _ _ _].
    destruct s as [mode primed dn cancel worker acks]. simpl in *.
    assert (exists ls' s', block_run (Block mode primed dn cancel worker acks) ls' = Some s'
      /\ bk_mode s' = BReturned /\ SHUTDOWN ∈ bk_acks s' /\
      ls' = (if mode is BPause then [BWake] else [])
            ++ (if mode is BClosing then [] else [BCtrl SHUTDOWN])
            ++ (if worker is WorkerRuns then [BWorkerDone] else [])
            ++ (if cancel then [BDone] else [])) as (ls' & s' & H1 & H2 & H3 & ->).
    { destruct cancel; [specialize (Hd eq_refl)|rewrite (Hf eq_refl) in *]; subst;
        destruct mode; try destruct (Hm eq_refl); try discriminate (Hcl eq_refl);
        try discriminate (Hpa eq_refl); destruct worker; try destruct (Hw eq_refl);
        (eexists _, _; split_and!; [|..|reflexivity]; [reflexivity|done|]);
        simpl; set_solver. }
    eexists _, s'. split_and!; [done..| |].
    + destruct mode, worker, cancel; simpl; lia.
    + destruct mode, worker, cancel; simpl; repeat constructor; set_solver.
  - intros Hw ls' s' Hrun. pose proof (block_run_lost _ _ _ Hs Hw Hrun) as Hw'.
    pose proof (block_run_inv _ _ _ Hs Hrun) as Hs'. split_and!; [done| |by apply block_no_ack].
    intros Hr. by rewrite (bi_returned _ Hs' Hr) in Hw'.
Qed.
