(* ===== verification/Grpc.v ===== *)
(** * The gRPC input ([xport_grpc.go])

    Dialin (the pipeline subscribes to a router) and dialout (routers stream to the pipeline):
    the handlers of one stream, as functions of what they receive; what a worker does before
    it serves, and how it ends; the configuration.  The loop that restarts workers is in
    [Block].  The gRPC library is outside the repository: dialling, listening, subscribing and
    loading certificates are outcomes. *)
From S2P Require Import Prelude Message EncapST Tcp Crypt Block.

Definition GRPC_ENCODE_GPB : Z := 2.
Definition GRPC_ENCODE_GPBKV : Z := 3.
Definition GRPC_ENCODE_JSON : Z := 4.

Definition mapEncapToGRPCEncode (encap : encoding) : res Z :=
  let mapping : list (encoding * Z) :=
    [(ENCODING_GPB_COMPACT, GRPC_ENCODE_GPB);
     (ENCODING_GPB_KV, GRPC_ENCODE_GPBKV);
     (ENCODING_JSON, GRPC_ENCODE_JSON)] in
  match head (filter (fun kv => kv.1 = encap) mapping) with
  | Some kv => Ok kv.2
  | None => Err (Errorf "gRPC: Failed to map requested encap %v to gRPC")
  end.

Definition extractSubscriptions (subcfg : string) : list string :=
  map trim_space (split_on comma subcfg).

(** ** Configuration *)

(** [grpcRemoteServer] and [grpcLocalServer] *)
Inductive grpcServer : Type :=
| RemoteServer (server : string) (subscriptions : list string)
    (auth : cryptUserPasswordCollector)
| LocalServer (server : string).

Definition grpcServer_String (s : grpcServer) : string :=
  match s with RemoteServer server _ _ | LocalServer server => server end.

(** the dialout server, which listens only when its worker runs *)
Definition configureLocalServer (name serverSockAddr : string) : res grpcServer :=
  Ok (LocalServer serverSockAddr).

Record grpcBlock : Type := GrpcBlock {
  gb_name : string;
  gb_server : grpcServer;
  gb_encap : encoding;
  gb_encodingRequest : encoding;
  gb_logData : bool;
  gb_tls : bool;
  gb_tls_pem : string;
  gb_tls_key : string;
  gb_tls_servername : string;
}.

Section Configure.
Context `{CE : CryptEnv}.

(** what goes with every call on a dialin connection, and the error that fails it: the
    user name, and the password decrypted anew *)
Definition GetRequestMetadata (auth : cryptUserPasswordCollector)
    : option (list (string * string)) * option goerr :=
  match getUP auth with
  | Ok (username, pw) => (Some [("username", username); ("password", pw)], None)
  | Err e => (Some [("username", up_username auth); ("password", "")], Some e)
  | Panic => (None, None)
  end.

(** [None] while credentials are being collected *)
Definition configureRemoteServer (name serverSockAddr : string) (nc : nodeConfig)
    (rounds : list prompt) : option (res grpcServer) :=
  match GetString nc name "subscriptions" with
  | None => Some (Err (External "option not found"))
  | Some subcfg =>
      match handleConfig nc name rounds with
      | None => None
      | Some (_, r) =>
          Some (let! auth := r in
                Ok (RemoteServer serverSockAddr (extractSubscriptions subcfg) auth))
      end
  end.

Definition grpc_configure (name : string) (nc : nodeConfig) (rounds : list prompt)
    : option (res grpcBlock) :=
  let encoding := get_string nc name "encoding" in
  let encap := get_string nc name "encap" in
  let encap := if str_empty encap then "gpb" else encap in
  let finish (encodingRequest : Message.encoding) (server : res grpcServer) : res grpcBlock :=
    let! server := server in
    let! streamType := nameToEncoding encap in
    Ok (GrpcBlock name server streamType encodingRequest (get_bool nc name "logdata")
          (get_bool nc name "tls") (get_string nc name "tls_pem") (get_string nc name "tls_key")
          (get_string nc name "tls_servername")) in
  match GetString nc name "server" with
  | Some serverSockAddr =>
      let encoding := if str_empty encoding then "gpbkv" else encoding in
      let encoding := if String.eqb encoding "gpb" then "gpbcompact" else encoding in
      if negb (String.eqb encap "gpb") && negb (String.eqb encap encoding)
      then Some (Err (Errorf "grpc misconfiguration, 'encap' and 'encoding' do not match"))
      else match nameToEncoding encoding with
      | Ok encodingRequest =>
          finish encodingRequest <$> configureRemoteServer name serverSockAddr nc rounds
      | Err e => Some (Err e)
      | Panic => Some Panic
      end
  | None =>
      match GetString nc name "listen" with
      | Some serverSockAddr =>
          Some (finish ENCODING_GPB_COMPACT (configureLocalServer name serverSockAddr))
      | None => Some (Err (Errorf "attribute 'server' or 'listen' must be specified"))
      end
  end.
End Configure.

(** ** One stream *)

Section Stream.
Context {C M : Type} `{K : Codec C M}.

Record grpc_reply : Type := Reply { rp_Data : slice; rp_Errors : string }.

(** why a handler returned *)
Inductive stream_end : Type :=
| StreamCancelled              (* by the pipeline *)
| StreamClosed (e : goerr)     (* the other end, or the library, ended it *)
| StreamRefused                (* it reported an error *)
| StreamBlock (e : goerr)      (* the codec refused what was received *)
| StreamPanic.

Record stream_run : Type := StreamRun {
  sr_metas : list meta;
  sr_sends : list (nat * M);
  sr_end : option stream_end;    (* [None]: it still runs *)
}.
Definition stream_then (ms : list meta) (sends : list (nat * M)) (r : stream_run) : stream_run :=
  StreamRun (ms ++ sr_metas r) (sends ++ sr_sends r) (sr_end r).
Definition stream_stop (e : stream_end) : stream_run := StreamRun [] [] (Some e).

(** the sends of the loops over messages and channels: [cancel k] tells that the [select] of the
    [k]-th takes the cancellation; [true] when all went through *)
Fixpoint push_all (cancel : nat -> bool) (k : nat) (todo : list (nat * M))
    : list (nat * M) * bool :=
  match todo with
  | [] => ([], true)
  | x :: todo' =>
      if cancel k then ([], false)
      else let '(sent, ok) := push_all cancel (S k) todo' in (x :: sent, ok)
  end.

(** handling of the data of one reply; [rest] is the remainder of the loop *)
Definition stream_data (codec : C) (source : string) (nch : nat) (data : slice)
    (cancel : nat -> bool) (rest : stream_run) : stream_run :=
  let '(ms, r) := blockToDataMsgs codec (Some source) data in
  match r with
  | Err e => stream_then ms [] (stream_stop (StreamBlock e))
  | Panic => stream_then ms [] (stream_stop StreamPanic)
  | Ok dMs =>
      let '(sent, ok) := push_all cancel 0 (spray nch (default [] dMs)) in
      stream_then ms sent (if ok then rest else stream_stop StreamCancelled)
  end.

(** A receive: what it returned, whether the context is done by then, and the choices of the
    [select]s of the sends. *)
Record recv : Type := Recv {
  rv_result : res grpc_reply;
  rv_done : bool;
  rv_cancel : nat -> bool;
}.

(** dialin: on a cancellation the stream is drained before the handler returns *)
Fixpoint singleSubscription (codec : C) (server : string) (nch : nat) (recvs : list recv)
    : stream_run :=
  match recvs with
  | [] => StreamRun [] [] None
  | rv :: recvs' =>
      if rv_done rv then stream_stop StreamCancelled
      else match rv_result rv with
      | Err e => stream_stop (StreamClosed e)
      | Panic => stream_stop StreamPanic
      | Ok reply =>
          if negb (str_empty (rp_Errors reply)) then stream_stop StreamRefused
          else stream_data codec server nch (rp_Data reply) (rv_cancel rv)
                 (singleSubscription codec server nch recvs')
      end
  end.

(** dialout; the handler does not look at the context but in its sends *)
Fixpoint MdtDialout (codec : C) (peer : string) (nch : nat) (recvs : list recv) : stream_run :=
  match recvs with
  | [] => StreamRun [] [] None
  | rv :: recvs' =>
      match rv_result rv with
      | Err e => stream_stop (StreamClosed e)
      | Panic => stream_stop StreamPanic
      | Ok reply =>
          if bool_decide (slice_len (rp_Data reply) = 0) && negb (str_empty (rp_Errors reply))
          then stream_stop StreamRefused
          else stream_data codec peer nch (rp_Data reply) (rv_cancel rv)
                 (MdtDialout codec peer nch recvs')
      end
  end.

(** ** The workers ([stickyLoop]) *)

(** the request made for a subscription *)
Record CreateSubsArgs : Type := MkCreateSubsArgs { ReqId : Z; Encode : Z; Subidstr : string }.

(** the loop over subscriptions, from a request number *)
Fixpoint create_subs (encode : Z) (reqID : Z) (subs : list string) : list CreateSubsArgs :=
  match subs with
  | [] => []
  | sub :: subs' =>
      MkCreateSubsArgs reqID encode sub :: create_subs encode (i64 (reqID + 1)) subs'
  end.

(** how a worker that is let run ends: with or without closing [childrenDone] *)
Inductive worker_end : Type := WorkerDone | WorkerFatal.

Definition worker_label (e : worker_end) : block_label :=
  match e with WorkerDone => BWorkerDone | WorkerFatal => BWorkerFatal end.

(** [creds_ok]: the certificates load; [dial_ok]: dialling, or listening, succeeds *)
Definition grpc_worker (c : grpcBlock) (creds_ok dial_ok : bool) (reqID : Z)
    : list CreateSubsArgs * worker_end :=
  match gb_server c with
  | RemoteServer _ subscriptions _ =>
      match mapEncapToGRPCEncode (gb_encodingRequest c), getCodec (gb_name c) (gb_encap c) with
      | Ok encode, Ok codec =>
          if gb_tls c && negb (str_empty (gb_tls_pem c)) && negb creds_ok then ([], WorkerFatal)
          else if negb dial_ok then ([], WorkerDone)
          else (create_subs encode reqID subscriptions, WorkerDone)
      | _, _ => ([], WorkerFatal)
      end
  | LocalServer _ =>
      match getCodec (gb_name c) (gb_encap c) with
      | Ok codec => ([], if gb_tls c && negb creds_ok then WorkerFatal else WorkerDone)
      | _ => ([], WorkerFatal)
      end
  end.
End Stream.
Arguments stream_run M : clear implicits.

(** ** Theorems *)

Section Theorems.
Context {C M : Type} `{KL : CodecLaws C M}.

(** a receive that yields data which decodes to [msgs], and is handed on without a
    cancellation *)
Definition good_recv (codec : C) (source : string) (rv : recv) (msgs : list M) : Prop :=
  rv_done rv = false /\ (forall k, rv_cancel rv k = false)
  /\ exists reply ms, rv_result rv = Ok reply /\ rp_Errors reply = ""
     /\ blockToDataMsgs codec (Some source) (rp_Data reply) = (ms, Ok (Some msgs)).

Lemma push_all_sent (cancel : nat -> bool) (todo : list (nat * M)) : forall k,
  (forall i, cancel i = false) -> push_all cancel k todo = (todo, true).
Proof.
  induction todo as [|x todo IH]; intros k Hc; [done|]. simpl. by rewrite Hc, IH.
Qed.

Lemma stream_data_good codec source nch rv reply ms msgs rest :
  (forall k, rv_cancel rv k = false) ->
  blockToDataMsgs codec (Some source) (rp_Data reply) = (ms, Ok (Some msgs)) ->
  stream_data codec source nch (rp_Data reply) (rv_cancel rv) rest
  = stream_then ms (spray nch msgs) rest.
Proof.
  intros Hc Hb. unfold stream_data. rewrite Hb. by rewrite push_all_sent.
Qed.

(** C33: what a stream carries is delivered whole and in order.  For dialin and for dialout, as
    long as what is received decodes and nothing is cancelled, every output gets the messages of
    every reply, reply after reply; whatever comes then is treated as at the start of a
    stream. *)
Theorem grpc_streams codec source nch recvs msgss :
  Forall2 (good_recv codec source) recvs msgss ->
  exists ms, forall rest,
  singleSubscription codec source nch (recvs ++ rest)
  = stream_then ms (concat (map (spray nch) msgss)) (singleSubscription codec source nch rest)
  /\ MdtDialout codec source nch (recvs ++ rest)
  = stream_then ms (concat (map (spray nch) msgss)) (MdtDialout codec source nch rest).
Proof.
  induction 1 as [|rv msgs recvs msgss (Hd & Hc & reply & ms & Hr & He & Hb) HF [ms' IH]].
  { exists []. intros rest. unfold stream_then. simpl.
    by destruct (singleSubscription _ _ _ rest), (MdtDialout _ _ _ rest). }
  exists (ms ++ ms'). intros rest. cbn [app singleSubscription MdtDialout].
  rewrite Hd, Hr, He, andb_false_r. cbn [str_empty negb].
  rewrite !(stream_data_good _ _ _ _ _ ms msgs) by done.
  destruct (IH rest) as [-> ->]. unfold stream_then. simpl. by rewrite !app_assoc.
Qed.

(** what an accepted dialin section asks for *)
Lemma configure_dialin `{CE : CryptEnv} name nc rounds b addr :
  grpc_configure name nc rounds = Some (Ok b) -> GetString nc name "server" = Some addr ->
  let enc := get_string nc name "encoding" in
  let enc := if str_empty enc then "gpbkv" else enc in
  let enc := if String.eqb enc "gpb" then "gpbcompact" else enc in
  gb_encodingRequest b <> ENCODING_GPB /\ gb_encodingRequest b <> ENCODING_MAX
  /\ enc = encodingToName (gb_encodingRequest b)
  /\ (gb_encap b = ENCODING_GPB \/ gb_encap b = gb_encodingRequest b)
  /\ exists subs auth, gb_server b = RemoteServer addr subs auth.
Proof.
  unfold grpc_configure. intros H Hs. rewrite Hs in H.
  set (enc := if str_empty _ then "gpbkv" else _) in *.
  set (encap := if str_empty (get_string nc name "encap") then "gpb" else _) in *.
  cbv zeta in *. set (enc' := if String.eqb enc "gpb" then "gpbcompact" else enc) in *.
  assert (enc' <> "gpb") as Hne.
  { unfold enc'. destruct (String.eqb_spec enc "gpb"); [done|done]. }
  clearbody enc' encap. clear enc.
  destruct (negb (String.eqb encap "gpb") && negb (String.eqb encap enc')) eqn:Ec; [done|].
  destruct (nameToEncoding enc') as [e| |] eqn:Ee; [|done..].
  apply encoding_name_roundtrip in Ee as [He ->].
  unfold configureRemoteServer in H.
  destruct (GetString nc name "subscriptions") as [subcfg|]; [|done].
  destruct (handleConfig nc name rounds) as [[added r]|]; [|done].
  simpl in H. injection H as H. apply res_bind_ok in H as (srv & Hsrv & H).
  apply res_bind_ok in Hsrv as (auth & _ & [= <-]).
  apply res_bind_ok in H as (st & Hst & [= <-]). simpl.
  apply encoding_name_roundtrip in Hst as [Hst ->].
  split_and!; [by intros ->|done|done| |eauto].
  apply andb_false_iff in Ec as [Ec|Ec]; apply negb_false_iff, String.eqb_eq in Ec;
    destruct st, e; simpl in Ec; try done; auto.
Qed.

(** whether the codec of an accepted section exists, and what its worker comes to *)
Lemma dialin_worker b addr subs auth creds_ok dial_ok reqID :
  gb_server b = RemoteServer addr subs auth -> gb_tls b = false ->
  gb_encap b = ENCODING_GPB \/ gb_encap b = gb_encodingRequest b ->
  ((grpc_worker (C := C) (M := M) b creds_ok dial_ok reqID).2 = WorkerFatal
   <-> is_ok (mapEncapToGRPCEncode (gb_encodingRequest b)) = false).
Proof.
  intros Hsrv Htls Hencap. unfold grpc_worker. rewrite Hsrv, Htls. simpl.
  destruct (mapEncapToGRPCEncode (gb_encodingRequest b)) as [z|e|] eqn:Em; [|done..].
  assert (gb_encap b ∈ codec_support) as Hsup.
  { destruct Hencap as [-> | ->]; [set_solver|].
    destruct (gb_encodingRequest b); try discriminate Em; set_solver. }
  pose proof (getCodec_support (gb_name b) _ Hsup) as Hok.
  destruct (getCodec (gb_name b) (gb_encap b)); [|done..]. by destruct dial_ok.
Qed.

(** the option a request was made from *)
Lemma encoding_option enc e :
  e <> ENCODING_GPB -> e <> ENCODING_MAX ->
  (let enc := if str_empty enc then "gpbkv" else enc in
   if String.eqb enc "gpb" then "gpbcompact" else enc) = encodingToName e ->
  (is_ok (mapEncapToGRPCEncode e) = false <-> enc = "json_events" \/ enc = "template").
Proof.
  intros Hg Hm. cbv zeta. destruct (str_empty enc) eqn:E0.
  - destruct enc; [|done]. intros He. destruct e; try discriminate He; simpl;
      (split; [done|by intros [|]]).
  - destruct (String.eqb_spec enc "gpb") as [->|Hne]; intros He.
    + destruct e; try discriminate He. simpl. split; [done|by intros [|]].
    + subst enc. destruct e; simpl; try done; split; try done; auto; by intros [|].
Qed.

(** A dialin section that asks for a format routers do not produce is accepted, and then cannot be
    stopped.  Without TLS, the worker of an accepted dialin section fails for good
    exactly when its encoding is one of the two that only outputs know; the loop then
    answers no shutdown, whatever happens. *)
Lemma grpc_dialin_fatal `{CE : CryptEnv} name nc rounds b addr creds_ok dial_ok reqID :
  grpc_configure name nc rounds = Some (Ok b) -> GetString nc name "server" = Some addr ->
  gb_tls b = false ->
  let w := (grpc_worker (C := C) (M := M) b creds_ok dial_ok reqID).2 in
  (w = WorkerFatal <-> get_string nc name "encoding" = "json_events"
                       \/ get_string nc name "encoding" = "template")
  /\ (w = WorkerFatal -> forall ls s,
      block_run block_init (BPrime :: BStart :: worker_label w :: ls) = Some s ->
      bk_mode s <> BReturned /\ ~ (SHUTDOWN ∈ bk_acks s)).
Proof.
  intros Hc Hs Htls w. split.
  - destruct (configure_dialin _ _ _ _ _ Hc Hs) as (Hng & Hnm & Henc & Hencap & subs & auth & Hsrv).
    unfold w. rewrite (dialin_worker b addr subs auth) by done. by apply encoding_option.
  - intros -> ls s Hrun.
    change (block_run (Block BPause true false true WorkerLost []) ls = Some s) in Hrun.
    assert (block_inv (Block BPause true false true WorkerLost [])) as Hinv.
    { apply (block_run_inv [BPrime; BStart; BWorkerFatal] block_init); [|done].
      apply block_init_inv. }
    pose proof (block_run_lost _ _ _ Hinv eq_refl Hrun) as Hw.
    pose proof (block_run_inv _ _ _ Hinv Hrun) as Hinv'.
    split; [|by apply block_no_ack]. intros Hr. by rewrite (bi_returned _ Hinv' Hr) in Hw.
Qed.
End Theorems.
