(* ===== verification/GrpcOut.v ===== *)
(** * The gRPC output ([xport_grpc_out.go])

    Downstream clients connect and pull; every message of the pipeline is rendered once and
    offered to all of them.  The main goroutine, the goroutine of each client and the gRPC
    server run concurrently and share the table of children under a mutex: the model is a
    machine whose steps are the critical sections and the receives and sends of the clients.
    The loop that restarts all this and serves the control channel is in [Block]. *)
From S2P Require Import Prelude Message.

Definition DRAINTIMEOUT : Z := 5.

(** [grpcOutLocalServerConfig] *)
Record grpcOutLocalServerConfig `{E : Env} : Type := GrpcOutConfig {
  gc_name : string;
  gc_server : string;
  gc_streamSpec : dataMsgStreamSpec E;
  gc_tls : bool;
  gc_tls_pem : string;
  gc_tls_key : string;
  gc_tls_servername : string;
  gc_dataChannelDepth : Z;
  gc_logData : bool;
}.

(** A client: [grpcOutConnToClient] together with the variables of the call of [Pull] that serves
    it: its [childId], whether it still runs, what it has sent; [cl_joined] is how much
    had been fed when it connected. *)
Record client : Type := Client {
  cl_id : Z;
  cl_endpoint : string;
  cl_dataChan : chan slice;
  cl_live : bool;
  cl_sent : list slice;
  cl_joined : nat;
}.

(** where [stickyLoop] is: serving, waiting for the clients to drain, or not running *)
Inductive sticky_mode : Type := Stopped | Serving | Draining.

(** [grpcOutLocalServer]: the table maps an index to a client, by its place in
    [go_clients], the clients in the order they came.  [go_fed] is everything fed so far. *)
Record grpcOut : Type := GrpcOut {
  go_mode : sticky_mode;
  go_index : Z;
  go_children : gmap Z nat;
  go_clients : list client;
  go_wg : Z;
  go_fed : list slice;
  go_metas : list meta;
  go_crashed : bool;
}.

(** [grpcOutLocalServerFromConfig] *)
Definition grpcOut_init : grpcOut := GrpcOut Stopped 0 ∅ [] 0 [] [] false.

Section Server.
Context `{E : Env} {M : Type} `{D : !DataMsg M} (cfg : grpcOutLocalServerConfig).

Definition set_chan (c : client) (ch : chan slice) : client :=
  Client (cl_id c) (cl_endpoint c) ch (cl_live c) (cl_sent c) (cl_joined c).

Definition go_crash (s : grpcOut) : grpcOut :=
  GrpcOut (go_mode s) (go_index s) (go_children s) (go_clients s) (go_wg s) (go_fed s)
    (go_metas s) true.
Definition set_clients (s : grpcOut) (cs : list client) : grpcOut :=
  GrpcOut (go_mode s) (go_index s) (go_children s) cs (go_wg s) (go_fed s) (go_metas s)
    (go_crashed s).
Definition go_set_mode (s : grpcOut) (m : sticky_mode) : grpcOut :=
  GrpcOut m (go_index s) (go_children s) (go_clients s) (go_wg s) (go_fed s) (go_metas s)
    (go_crashed s).
Definition go_add_metas (s : grpcOut) (ms : list meta) : grpcOut :=
  GrpcOut (go_mode s) (go_index s) (go_children s) (go_clients s) (go_wg s) (go_fed s)
    (go_metas s ++ ms) (go_crashed s).

(** [addChild], for a new call of [Pull] *)
Definition addChild (s : grpcOut) (endpoint : string) : grpcOut :=
  let index := u64 (go_index s + 1) in
  GrpcOut (go_mode s) index (<[index := length (go_clients s)]> (go_children s))
    (go_clients s ++ [Client index endpoint (make_chan (Z.to_nat (gc_dataChannelDepth cfg)))
                        true [] (length (go_fed s))])
    (go_wg s + 1) (go_fed s) (go_metas s) (go_crashed s).

(** [close] of a channel: closing it again panics *)
Definition close_chan (s : grpcOut) (p : nat) : grpcOut :=
  match go_clients s !! p with
  | None => go_crash s
  | Some c => if ch_closed (cl_dataChan c) then go_crash s
              else set_clients s (<[p := set_chan c (ch_close (cl_dataChan c))]> (go_clients s))
  end.

(** [removeChild], and [removeChildUnprotected] *)
Definition removeChild (s : grpcOut) (index : Z) : grpcOut :=
  match go_children s !! index with
  | None => s
  | Some p =>
      close_chan (GrpcOut (go_mode s) (go_index s) (delete index (go_children s)) (go_clients s)
                    (go_wg s) (go_fed s) (go_metas s) (go_crashed s)) p
  end.

(** [removeAllChildren], in the order of the range *)
Definition removeAllChildren (s : grpcOut) (order : list Z) : grpcOut :=
  fold_left removeChild order s.

(** the body of the loop of [feedAllChildren] *)
Definition feedChild (data : slice) (s : grpcOut) (index : Z) : grpcOut :=
  match go_children s !! index with
  | None => s
  | Some p =>
      match go_clients s !! p with
      | None => go_crash s
      | Some c =>
          let ch := cl_dataChan c in
          let labels := [gc_name cfg; cl_endpoint c] in
          if bool_decide (length (ch_buf ch) = ch_cap ch)
          then go_add_metas s [Inc "grpcOut_drops" labels]
          else if ch_closed ch then go_crash s
          else go_add_metas (set_clients s (<[p := set_chan c (ch_push ch data)]> (go_clients s)))
                 [Inc "grpcOut_messages" labels;
                  AddN "grpcOut_bytes" labels (Z.of_nat (slice_len data))]
      end
  end.

Definition feedAllChildren (s : grpcOut) (data : slice) (order : list Z) : grpcOut :=
  let s := fold_left (feedChild data) order s in
  GrpcOut (go_mode s) (go_index s) (go_children s) (go_clients s) (go_wg s)
    (go_fed s ++ [data]) (go_metas s) (go_crashed s).

(** a range visits every index of the table once *)
Definition go_range (s : grpcOut) (order : list Z) : bool :=
  bool_decide (NoDup order) && bool_decide (list_to_set order =@{gset Z} dom (go_children s)).

(** the end of [Pull]: [removeChild], then [childrenWG.Done()], which panics below zero *)
Definition quit (s : grpcOut) (p : nat) (c : client) : grpcOut :=
  let s := removeChild s (cl_id c) in
  let clients := alter (fun c => Client (cl_id c) (cl_endpoint c) (cl_dataChan c) false
                                   (cl_sent c) (cl_joined c)) p (go_clients s) in
  GrpcOut (go_mode s) (go_index s) (go_children s) clients (go_wg s - 1) (go_fed s) (go_metas s)
    (go_crashed s || bool_decide (go_wg s <= 0)%Z).

Inductive go_label : Type :=
| GoServe                                 (* a worker starts and listens *)
| GoConnect (endpoint : string)           (* a client calls [Pull] *)
| GoMessage (m : M) (order : list Z)      (* a message arrives *)
| GoSend (p : nat) (ok : bool)            (* a client's call receives and sends *)
| GoClosed (p : nat)                      (* it sees its channel closed and empty *)
| GoGone (p : nat)                        (* it sees its stream's context done *)
| GoStop (order : list Z)                 (* the worker is cancelled, or its accept failed *)
| GoDrained                               (* all calls have returned *)
| GoTimeout.                              (* the time to drain is over *)

Definition go_step (s : grpcOut) (l : go_label) : option grpcOut :=
  if go_crashed s then None
  else match l with
  | GoServe =>
      match go_mode s with Stopped => Some (go_set_mode s Serving) | _ => None end
  | GoConnect endpoint =>
      match go_mode s with Stopped => None | _ => Some (addChild s endpoint) end
  | GoMessage m order =>
      match go_mode s with
      | Serving =>
          let '(ms, r) := produceByteStream m (gc_streamSpec cfg) in
          let s := go_add_metas s ms in
          match r with
          | Ok rawstream =>
              if go_range s order then Some (feedAllChildren s rawstream order) else None
          | Err _ => Some s
          | Panic => Some (go_crash s)
          end
      | _ => None
      end
  | GoSend p ok =>
      c ← go_clients s !! p;
      if negb (cl_live c) then None
      else match ch_buf (cl_dataChan c) with
      | [] => None
      | x :: rest =>
          let ch := Chan (ch_cap (cl_dataChan c)) rest (ch_closed (cl_dataChan c)) in
          if ok
          then Some (set_clients s (<[p := Client (cl_id c) (cl_endpoint c) ch true
                                             (cl_sent c ++ [x]) (cl_joined c)]> (go_clients s)))
          else
            let c := set_chan c ch in
            Some (quit (go_add_metas (set_clients s (<[p := c]> (go_clients s)))
                          [Inc "grpcOut_errors" [gc_name cfg; cl_endpoint c]]) p c)
      end
  | GoClosed p =>
      c ← go_clients s !! p;
      if cl_live c && bool_decide (ch_buf (cl_dataChan c) = []) && ch_closed (cl_dataChan c)
      then Some (quit s p c) else None
  | GoGone p =>
      c ← go_clients s !! p;
      if cl_live c then Some (quit s p c) else None
  | GoStop order =>
      match go_mode s with
      | Serving => if go_range s order
                   then Some (go_set_mode (removeAllChildren s order) Draining) else None
      | _ => None
      end
  | GoDrained =>
      match go_mode s with
      | Draining => if bool_decide (go_wg s = 0%Z) then Some (go_set_mode s Stopped) else None
      | _ => None
      end
  | GoTimeout =>
      match go_mode s with Draining => Some (go_set_mode s Stopped) | _ => None end
  end.

Fixpoint go_run (s : grpcOut) (ls : list go_label) : option grpcOut :=
  match ls with
  | [] => Some s
  | l :: ls' => s' ← go_step s l; go_run s' ls'
  end.

End Server.
Arguments go_label M : clear implicits.

(** [configure] *)
Definition grpc_out_configure `{E : Env} (name : string) (nc : nodeConfig)
    : res grpcOutLocalServerConfig :=
  match GetString nc name "listen" with
  | None => Err (External "option not found")
  | Some server =>
      let! streamSpec := dataMsgStreamSpecFromConfig nc name in
      let depth := default 1000%Z (GetInt nc name "datachanneldepth") in
      let! _ := make_depth depth in
      Ok (GrpcOutConfig _ name server streamSpec (get_bool nc name "tls")
            (get_string nc name "tls_pem") (get_string nc name "tls_key")
            (get_string nc name "tls_servername")
            depth (get_bool nc name "logdata"))
  end.

(** ** Theorems *)

Section Theorems.
Context `{E : Env} {M : Type} `{D : !DataMsg M} (cfg : grpcOutLocalServerConfig).
Implicit Types (s : grpcOut) (c : client).

Definition is_open c : bool := negb (ch_closed (cl_dataChan c)).
Definition live_count (cs : list client) : nat := length (filter (fun c => cl_live c = true) cs).

(** the structural invariant: the table holds exactly the clients whose channel is open, under
    their indices; these still run; channels keep their bounds; the wait group counts the
    clients that run; nothing has panicked *)
Record go_inv s : Prop := {
  gi_index : go_index s = Z.of_nat (length (go_clients s));
  gi_ids : forall p c, go_clients s !! p = Some c -> cl_id c = (Z.of_nat p + 1)%Z;
  gi_children : forall k p, go_children s !! k = Some p <->
    exists c, go_clients s !! p = Some c /\ cl_id c = k /\ is_open c = true;
  gi_live : forall p c, go_clients s !! p = Some c -> is_open c = true -> cl_live c = true;
  gi_wf : forall p c, go_clients s !! p = Some c -> ch_wf (cl_dataChan c);
  gi_wg : go_wg s = Z.of_nat (live_count (go_clients s));
  gi_ok : go_crashed s = false;
}.

(** what a client has sent and what waits for it are messages fed since it came, in order *)
Definition lane_ok (fed : list slice) c : Prop :=
  (cl_sent c ++ ch_buf (cl_dataChan c)) `sublist_of` drop (cl_joined c) fed
  /\ cl_joined c <= length fed.
Definition lanes_ok s : Prop := Forall (lane_ok (go_fed s)) (go_clients s).

Lemma go_init_inv : go_inv grpcOut_init.
Proof.
  constructor; simpl; try done.
  intros k p. rewrite lookup_empty. split; [done|]. by intros (? & ? & _).
Qed.

Lemma live_count_insert cs p c c' :
  cs !! p = Some c ->
  live_count (<[p := c']> cs) + (if cl_live c then 1 else 0)
  = live_count cs + (if cl_live c' then 1 else 0).
Proof.
  revert p. induction cs as [|a cs IH]; intros [|p] Hp; simplify_eq/=; unfold live_count in *.
  - rewrite !list.filter_cons. repeat case_decide; destruct (cl_live c), (cl_live c');
      simpl; try done; lia.
  - specialize (IH p Hp). rewrite !list.filter_cons. case_decide; simpl; lia.
Qed.

Lemma live_count_app a b : live_count (a ++ b) = live_count a + live_count b.
Proof. unfold live_count. by rewrite list.filter_app, length_app. Qed.

Lemma alter_as_insert (f : client -> client) (cs : list client) (p : nat) c :
  cs !! p = Some c -> alter f p cs = <[p := f c]> cs.
Proof. revert p. induction cs as [|a cs IH]; intros [|p] H; simplify_eq/=; auto using f_equal. Qed.

(** a client changes, but for its index and the state of its channel *)
Lemma update_inv s p c c' :
  go_inv s -> go_clients s !! p = Some c ->
  cl_id c' = cl_id c -> is_open c' = is_open c -> cl_live c' = cl_live c ->
  ch_wf (cl_dataChan c') -> go_inv (set_clients s (<[p := c']> (go_clients s))).
Proof.
  intros [Hi Hids Hch Hl Hw Hwg Hok] Hp Eid Eop El Hc'.
  pose proof (lookup_lt_Some _ _ _ Hp) as Hlt.
  assert (forall q a, <[p := c']> (go_clients s) !! q = Some a ->
    exists b, go_clients s !! q = Some b /\ cl_id a = cl_id b /\ is_open a = is_open b
      /\ cl_live a = cl_live b /\ (a = b \/ a = c')) as Hback.
  { intros q a. destruct (decide (q = p)) as [->|Hne].
    - rewrite list_lookup_insert_eq by done. intros [= <-]. eauto 10.
    - rewrite list_lookup_insert_ne by done. eauto 10. }
  constructor; simpl.
  - by rewrite length_insert.
  - intros q a (b & Hb & -> & _)%Hback. eauto.
  - intros k q. rewrite Hch. split.
    + intros (b & Hb & Hid & Ho). destruct (decide (q = p)) as [->|Hne].
      * exists c'. rewrite list_lookup_insert_eq by done. simplify_eq. by rewrite Eid, Eop.
      * exists b. by rewrite list_lookup_insert_ne.
    + intros (a & (b & Hb & H1 & H2 & _)%Hback & Hid & Ho). exists b. by rewrite <- H1, <- H2.
  - intros q a (b & Hb & _ & -> & -> & _)%Hback. eauto.
  - intros q a (b & Hb & _ & _ & _ & [->| ->])%Hback; eauto.
  - rewrite Hwg. pose proof (live_count_insert (go_clients s) p c c' Hp) as H.
    rewrite El in H. f_equal. lia.
  - done.
Qed.

(** a child leaves the table and its channel is closed *)
Lemma removeChild_inv s k :
  go_inv s ->
  go_inv (removeChild s k)
  /\ go_children (removeChild s k) = delete k (go_children s)
  /\ go_fed (removeChild s k) = go_fed s
  /\ (forall p c, go_clients (removeChild s k) !! p = Some c ->
      exists b, go_clients s !! p = Some b /\ cl_id c = cl_id b /\ cl_live c = cl_live b
        /\ cl_sent c = cl_sent b /\ ch_buf (cl_dataChan c) = ch_buf (cl_dataChan b)
        /\ cl_joined c = cl_joined b)
  /\ length (go_clients (removeChild s k)) = length (go_clients s).
Proof.
  intros Hs. pose proof Hs as [Hi Hids Hch Hl Hw Hwg Hok]. unfold removeChild.
  destruct (go_children s !! k) as [p|] eqn:Ek; cycle 1.
  { split_and!; [done| |done| |done]; [by rewrite delete_id|eauto 10]. }
  apply Hch in Ek as (c & Hp & Hid & Ho). unfold close_chan. cbn [go_clients]. rewrite Hp.
  unfold is_open in Ho. apply negb_true_iff in Ho as Hcl. rewrite Hcl.
  set (c' := set_chan c (ch_close (cl_dataChan c))).
  pose proof (lookup_lt_Some _ _ _ Hp) as Hlt.
  assert (forall q a, <[p := c']> (go_clients s) !! q = Some a ->
    exists b, go_clients s !! q = Some b /\ ((q <> p /\ a = b) \/ (q = p /\ b = c /\ a = c')))
    as Hback.
  { intros q a. destruct (decide (q = p)) as [->|Hne].
    - rewrite list_lookup_insert_eq by done. intros [= <-]. eauto 10.
    - rewrite list_lookup_insert_ne by done. eauto 10. }
  split_and!; [|done|done| |by rewrite <- (length_insert (go_clients s) p c')].
  2: { intros q a (b & Hb & [[_ ->]|(-> & -> & ->)])%Hback; eauto 10. }
  constructor; simpl.
  - by rewrite length_insert.
  - intros q a (b & Hb & [[_ ->]|(-> & -> & ->)])%Hback; [eauto|exact (Hids _ _ Hb)].
  - intros k' q. split.
    + intros [Hne (b & Hb & Hidb & Hob)%Hch]%lookup_delete_Some.
      exists b. rewrite list_lookup_insert_ne; [done|]. intros ->. simplify_eq.
    + intros (a & (b & Hb & [[Hne ->]|(-> & -> & ->)])%Hback & Hida & Hoa); [|done].
      apply lookup_delete_Some. split; [|apply Hch; eauto].
      intros ->. apply Hids in Hb. apply Hids in Hp. lia.
  - intros q a (b & Hb & [[_ ->]|(-> & -> & ->)])%Hback; [eauto|done].
  - intros q a (b & Hb & [[_ ->]|(-> & -> & ->)])%Hback; [eauto|exact (Hw _ _ Hb)].
  - rewrite Hwg. pose proof (live_count_insert (go_clients s) p c c' Hp) as H.
    simpl in H. f_equal. lia.
  - done.
Qed.

Lemma lanes_back s s' :
  go_fed s' = go_fed s ->
  (forall p c, go_clients s' !! p = Some c -> exists b, go_clients s !! p = Some b
     /\ cl_sent c = cl_sent b /\ ch_buf (cl_dataChan c) = ch_buf (cl_dataChan b)
     /\ cl_joined c = cl_joined b) ->
  lanes_ok s -> lanes_ok s'.
Proof.
  unfold lanes_ok. rewrite !Forall_lookup. intros -> Hback H p c Hp.
  destruct (Hback p c Hp) as (b & Hb & E1 & E2 & E3). specialize (H p b Hb).
  unfold lane_ok in *. by rewrite E1, E2, E3.
Qed.

Lemma removeAll_inv order : forall s,
  go_inv s -> lanes_ok s -> go_inv (removeAllChildren s order)
  /\ lanes_ok (removeAllChildren s order)
  /\ go_children (removeAllChildren s order)
     = foldr delete (go_children s) (rev order).
Proof.
  unfold removeAllChildren.
  induction order as [|k order IH]; intros s Hs Hl; [done|]. simpl.
  destruct (removeChild_inv s k Hs) as (H1 & H2 & H3 & H4 & _).
  destruct (IH (removeChild s k) H1) as (H5 & H6 & H7).
  { apply (lanes_back s); [done| |done]. intros p c Hp.
    destruct (H4 p c Hp) as (b & ? & ? & ? & ? & ? & ?). eauto. }
  split_and!; [done..|]. by rewrite H7, H2, foldr_app.
Qed.

(** the end of a call of [Pull] *)
Lemma quit_inv s p c :
  go_inv s -> lanes_ok s -> go_clients s !! p = Some c -> cl_live c = true ->
  go_inv (quit s p c) /\ lanes_ok (quit s p c).
Proof.
  intros Hs Hl Hp Hlive. pose proof Hs as [Hi Hids Hch Hlv Hw Hwg Hok].
  destruct (removeChild_inv s (cl_id c) Hs) as (H1 & H2 & H3 & H4 & H5).
  assert (lanes_ok (removeChild s (cl_id c))) as Hl1.
  { apply (lanes_back s); [done| |done]. intros q b Hq.
    destruct (H4 q b Hq) as (b' & ? & ? & ? & ? & ? & ?). eauto. }
  unfold quit. set (s1 := removeChild s (cl_id c)) in *. clearbody s1.
  destruct (lookup_lt_is_Some_2 (go_clients s1) p) as [c1 Hc1].
  { rewrite H5. by eapply lookup_lt_Some. }
  destruct (H4 p c1 Hc1) as (b & Hb & E1 & E2 & E3 & E4 & E5).
  assert (b = c) as -> by congruence.
  assert (is_open c1 = false) as Hcl1.
  { destruct (is_open c1) eqn:Eo; [|done]. exfalso.
    assert (go_children s1 !! cl_id c = Some p) as Hk by (apply (gi_children _ H1); eauto).
    by rewrite H2, lookup_delete_eq in Hk. }
  rewrite (alter_as_insert _ _ _ _ Hc1).
  set (c2 := Client _ _ _ _ _ _).
  pose proof (live_count_insert (go_clients s1) p c1 c2 Hc1) as Hcount.
  rewrite E2, Hlive in Hcount. simpl in Hcount.
  pose proof H1 as [Ji Jids Jch Jlv Jw Jwg Jok].
  assert (forall q a, <[p := c2]> (go_clients s1) !! q = Some a ->
    exists b, go_clients s1 !! q = Some b
      /\ ((q <> p /\ a = b) \/ (q = p /\ b = c1 /\ a = c2))) as Hback.
  { intros q a. destruct (decide (q = p)) as [->|Hne].
    - rewrite list_lookup_insert_eq by (by eapply lookup_lt_Some). intros [= <-]. eauto 10.
    - rewrite list_lookup_insert_ne by done. eauto 10. }
  split; [constructor; simpl|].
  - by rewrite length_insert.
  - intros q a (b & Hq & [[_ ->]|(-> & -> & ->)])%Hback; [eauto|exact (Jids _ _ Hq)].
  - intros k q. rewrite Jch. split.
    + intros (b & Hq & Hid & Ho). exists b. rewrite list_lookup_insert_ne; [done|].
      intros ->. simplify_eq. by rewrite Hcl1 in Ho.
    + intros (a & (b & Hq & [[_ ->]|(-> & -> & ->)])%Hback & Hid & Ho); [eauto|].
      unfold is_open, c2 in Ho. simpl in Ho. unfold is_open in Hcl1. by rewrite Hcl1 in Ho.
  - intros q a (b & Hq & [[_ ->]|(-> & -> & ->)])%Hback; [eauto|].
    unfold is_open, c2. simpl. unfold is_open in Hcl1. by rewrite Hcl1.
  - intros q a (b & Hq & [[_ ->]|(-> & -> & ->)])%Hback; [eauto|exact (Jw _ _ Hq)].
  - rewrite Jwg. lia.
  - rewrite Jok, Jwg. simpl. apply bool_decide_eq_false. lia.
  - apply (lanes_back s1); [done| |done]. simpl.
    intros q a (b & Hq & [[_ ->]|(-> & -> & ->)])%Hback; eauto 10.
Qed.

(** a new client *)
Lemma addChild_inv s endpoint :
  go_inv s -> lanes_ok s -> (Z.of_nat (length (go_clients s)) + 1 < 2 ^ 64)%Z ->
  go_inv (addChild cfg s endpoint) /\ lanes_ok (addChild cfg s endpoint).
Proof.
  intros [Hi Hids Hch Hl Hw Hwg Hok] Hlane Hlt. unfold addChild.
  rewrite Hi. unfold u64. rewrite Z.mod_small by lia. set (c := Client _ _ _ _ _ _).
  set (n := length (go_clients s)) in *.
  assert (forall q a, (go_clients s ++ [c]) !! q = Some a ->
    go_clients s !! q = Some a \/ (q = n /\ a = c)) as Hback.
  { intros q a [?|[Hq Hc]]%lookup_app_Some; [by left|right].
    apply list_lookup_singleton_Some in Hc as [? <-]. split; [unfold n; lia|done]. }
  split; [constructor; simpl|].
  - rewrite length_app. simpl. unfold n. lia.
  - intros q a [Hq|[-> ->]]%Hback; [eauto|done].
  - intros k q. rewrite lookup_insert_Some. split.
    + intros [[<- <-]|[Hne (b & Hb & Hid & Ho)%Hch]].
      * exists c. by rewrite list_lookup_middle.
      * exists b. by rewrite lookup_app_l by (by eapply lookup_lt_Some).
    + intros (a & [Hq|[-> ->]]%Hback & Hid & Ho); [right|by left].
      split; [|apply Hch; eauto]. rewrite (Hids _ _ Hq) in Hid.
      apply lookup_lt_Some in Hq. unfold n in *. lia.
  - intros q a [Hq|[-> ->]]%Hback; eauto.
  - intros q a [Hq|[-> ->]]%Hback; [eauto|apply make_chan_wf].
  - rewrite live_count_app, Hwg. unfold live_count at 3. simpl. lia.
  - done.
  - unfold lanes_ok. simpl. apply Forall_app. split; [exact Hlane|].
    apply Forall_singleton. split; simpl; [apply sublist_nil_l|lia].
Qed.

(** *** Feeding *)

(** what being offered a message does to a client *)
Definition offered (data : slice) c : client :=
  if is_open c
  then if bool_decide (length (ch_buf (cl_dataChan c)) = ch_cap (cl_dataChan c)) then c
       else set_chan c (ch_push (cl_dataChan c) data)
  else c.

(** what it counts *)
Definition counted (data : slice) c : list meta :=
  let labels := [gc_name cfg; cl_endpoint c] in
  if bool_decide (length (ch_buf (cl_dataChan c)) = ch_cap (cl_dataChan c))
  then [Inc "grpcOut_drops" labels]
  else [Inc "grpcOut_messages" labels;
        AddN "grpcOut_bytes" labels (Z.of_nat (slice_len data))].

Lemma offered_same data c :
  cl_id (offered data c) = cl_id c /\ is_open (offered data c) = is_open c
  /\ cl_live (offered data c) = cl_live c /\ cl_joined (offered data c) = cl_joined c
  /\ cl_sent (offered data c) = cl_sent c
  /\ (ch_wf (cl_dataChan c) -> ch_wf (cl_dataChan (offered data c))).
Proof.
  unfold offered, is_open. destruct (ch_closed (cl_dataChan c)) eqn:E0; simpl; [by rewrite E0|].
  case_bool_decide as Hfull; simpl; [by rewrite E0|]. rewrite E0. split_and!; try done.
  unfold ch_wf. simpl. rewrite length_app. simpl. lia.
Qed.

(** the client at an index of the table *)
Definition client_at s (k : Z) : option client := p ← go_children s !! k; go_clients s !! p.
Definition counted_at (data : slice) s (k : Z) : list meta :=
  match client_at s k with Some c => counted data c | None => [] end.

(** the clients whose index is in [order] are offered the message, the others unchanged *)
Definition offered_in (data : slice) (order : list Z) c : client :=
  if bool_decide (cl_id c ∈ order) then offered data c else c.

Lemma feedChild_spec data s k :
  go_inv s -> k ∈ dom (go_children s) ->
  let s' := feedChild cfg data s k in
  go_inv s' /\ go_children s' = go_children s /\ go_fed s' = go_fed s /\ go_mode s' = go_mode s
  /\ go_clients s' = map (offered_in data [k]) (go_clients s)
  /\ go_metas s' = go_metas s ++ counted_at data s k.
Proof.
  intros Hs [p Hk]%elem_of_dom. unfold feedChild, counted_at, client_at. rewrite Hk. cbn [mbind option_bind].
  pose proof Hs as [_ Hids Hch _ Hw _ _].
  apply Hch in Hk as (c & Hp & Hid & Ho). rewrite Hp.
  destruct (offered_same data c) as (E1 & E2 & E3 & _ & _ & E4).
  specialize (E4 (Hw _ _ Hp)).
  assert (map (offered_in data [k]) (go_clients s)
          = <[p := offered data c]> (go_clients s)) as Hmap.
  { apply list_eq. intros q. rewrite list_lookup_fmap.
    destruct (decide (q = p)) as [->|Hne].
    - rewrite list_lookup_insert_eq by (by eapply lookup_lt_Some). rewrite Hp. simpl.
      unfold offered_in. by rewrite bool_decide_eq_true_2 by set_solver.
    - rewrite list_lookup_insert_ne by done.
      destruct (go_clients s !! q) as [b|] eqn:Hq; [|done]. simpl. unfold offered_in.
      rewrite bool_decide_eq_false_2; [done|]. rewrite list_elem_of_singleton.
      apply Hids in Hq. apply Hids in Hp. lia. }
  rewrite Hmap. unfold offered, counted in *. rewrite Ho in *.
  unfold is_open in Ho. apply negb_true_iff in Ho. rewrite Ho.
  case_bool_decide.
  - rewrite list_insert_id by done. split_and!; [|done..]. by destruct Hs.
  - split_and!; [|done..]. apply (update_inv s p c) in E4; [by destruct E4|done..].
Qed.

Lemma offered_in_cons data k order c :
  k ∉ order -> offered_in data order (offered_in data [k] c) = offered_in data (k :: order) c.
Proof.
  intros Hk. unfold offered_in. destruct (decide (cl_id c = k)) as [E1|E1].
  - rewrite (bool_decide_eq_true_2 (cl_id c ∈ [k])) by set_solver.
    destruct (offered_same data c) as (-> & _). rewrite E1.
    rewrite (bool_decide_eq_false_2 (k ∈ order)), bool_decide_eq_true_2 by set_solver. done.
  - rewrite (bool_decide_eq_false_2 (cl_id c ∈ [k])) by set_solver.
    by rewrite (bool_decide_ext (cl_id c ∈ k :: order) (cl_id c ∈ order)) by set_solver.
Qed.

Lemma feed_fold data order : forall s,
  go_inv s -> NoDup order -> (forall k, k ∈ order -> k ∈ dom (go_children s)) ->
  let s' := fold_left (feedChild cfg data) order s in
  go_inv s' /\ go_children s' = go_children s /\ go_fed s' = go_fed s /\ go_mode s' = go_mode s
  /\ go_clients s' = map (offered_in data order) (go_clients s)
  /\ go_metas s' = go_metas s ++ flat_map (counted_at data s) order.
Proof.
  induction order as [|k order IH]; intros s Hs Hnd Hdom.
  { split_and!; [done..| |by rewrite app_nil_r]. symmetry. etransitivity; [|apply map_id]. apply map_ext. intros c. unfold offered_in.
    by rewrite bool_decide_eq_false_2 by set_solver. }
  apply list.NoDup_cons in Hnd as [Hk Hnd]. cbn [fold_left].
  destruct (feedChild_spec data s k Hs) as (H1 & H2 & H3 & H4 & H5 & H6); [set_solver|].
  destruct (IH (feedChild cfg data s k) H1 Hnd) as (I1 & I2 & I3 & I4 & I5 & I6).
  { intros k' Hk'. rewrite H2. set_solver. }
  rewrite I2, I3, I4, I5, I6, H2, H3, H4, H5, H6. split_and!; [done..| |].
  - rewrite map_map. apply map_ext. intros c. by apply offered_in_cons.
  - cbn [flat_map]. rewrite <- app_assoc. do 2 f_equal.
    rewrite !flat_map_concat_map. f_equal. apply map_ext_in. intros k' Hk'%list_elem_of_In.
    unfold counted_at, client_at. rewrite H2, H5.
    destruct (go_children s !! k') as [q|] eqn:Eq; [|done]. cbn [mbind option_bind].
    rewrite list_lookup_fmap. apply (gi_children _ Hs) in Eq as (c & -> & Hid & _). simpl.
    unfold offered_in. rewrite bool_decide_eq_false_2; [done|].
    rewrite list_elem_of_singleton, Hid. by intros ->.
Qed.

Lemma go_range_spec s order :
  go_range s order = true ->
  NoDup order /\ forall k, k ∈ order <-> k ∈ dom (go_children s).
Proof.
  unfold go_range. intros [H1%bool_decide_eq_true H2%bool_decide_eq_true]%andb_true_iff.
  split; [done|]. intros k. by rewrite <- H2, elem_of_list_to_set.
Qed.

Lemma lane_mono fed data c : lane_ok fed c -> lane_ok (fed ++ [data]) c.
Proof.
  intros [H1 H2]. split; [|rewrite length_app; lia]. rewrite drop_app_le by done.
  etransitivity; [exact H1|]. apply sublist_inserts_r. reflexivity.
Qed.

Lemma lane_offered fed data c : lane_ok fed c -> lane_ok (fed ++ [data]) (offered data c).
Proof.
  intros Hl. unfold offered. destruct (is_open c); [|by apply lane_mono].
  case_bool_decide; [by apply lane_mono|]. destruct Hl as [H1 H2].
  split; simpl; [|rewrite length_app; lia]. rewrite drop_app_le by done.
  rewrite app_assoc. by apply sublist_app.
Qed.

(** a range offers the message to every client that is not closed *)
Lemma offered_all data s order :
  go_inv s -> go_range s order = true ->
  map (offered_in data order) (go_clients s) = map (offered data) (go_clients s).
Proof.
  intros Hs [_ Hdom]%go_range_spec. apply list_eq. intros p. rewrite !list_lookup_fmap.
  destruct (go_clients s !! p) as [c|] eqn:Hp; [|done]. simpl. f_equal. unfold offered_in.
  case_bool_decide as Hin; [done|]. unfold offered. destruct (is_open c) eqn:Eo; [|done].
  exfalso. apply Hin, Hdom, elem_of_dom. exists p. apply (gi_children _ Hs). eauto.
Qed.

Lemma feedAll_spec data s order :
  go_inv s -> lanes_ok s -> go_range s order = true ->
  let s' := feedAllChildren cfg s data order in
  go_inv s' /\ lanes_ok s' /\ go_mode s' = go_mode s
  /\ go_clients s' = map (offered data) (go_clients s)
  /\ go_metas s' = go_metas s ++ flat_map (counted_at data s) order.
Proof.
  intros Hs Hl Hr. pose proof (go_range_spec s order Hr) as [Hnd Hdom].
  destruct (feed_fold data order s Hs Hnd) as (H1 & H2 & H3 & H4 & H5 & H6).
  { intros k. apply Hdom. }
  rewrite (offered_all _ _ _ Hs Hr) in H5. unfold feedAllChildren.
  split_and!; [by destruct H1| |done..]. unfold lanes_ok. simpl. rewrite H5, H3.
  apply Forall_map. eapply Forall_impl; [|exact Hl]. intros c. apply lane_offered.
Qed.

(** *** Runs *)

Context (render_total : forall m, is_panic (produceByteStream m (gc_streamSpec cfg)).2 = false).

Lemma go_step_inv s l s' :
  go_inv s -> lanes_ok s -> (Z.of_nat (length (go_clients s)) + 1 < 2 ^ 64)%Z ->
  go_step cfg s l = Some s' -> go_inv s' /\ lanes_ok s'.
Proof.
  intros Hs Hl Hlt. unfold go_step. rewrite (gi_ok _ Hs).
  destruct l as [|ep|m order|p ok|p|p|order| |].
  - case_match; [|done..]. intros [= <-]. split; [by destruct Hs|done].
  - case_match; [done|..]; intros [= <-]; by apply addChild_inv.
  - case_match; [done| |done]. specialize (render_total m).
    destruct (produceByteStream m _) as [ms [raw|e|]]; simpl in render_total; [| |done].
    + case_match eqn:Er; [|done]. intros [= <-].
      destruct (feedAll_spec raw (go_add_metas s ms) order) as (H1 & H2 & _); [by destruct Hs|done..].
    + intros [= <-]. split; [by destruct Hs|done].
  - intros (c & Hp & H)%bind_Some. destruct (cl_live c) eqn:El; [|done]. simpl in H.
    destruct (ch_buf (cl_dataChan c)) as [|x rest] eqn:Eb; [done|].
    set (ch := Chan (ch_cap (cl_dataChan c)) rest (ch_closed (cl_dataChan c))) in H.
    pose proof (gi_wf _ Hs _ _ Hp) as Hw. unfold ch_wf in Hw. rewrite Eb in Hw. simpl in Hw.
    assert (ch_wf ch) as Hwch by (unfold ch_wf, ch; simpl; lia).
    pose proof Hl as Hlane. unfold lanes_ok in Hlane. rewrite Forall_lookup in Hlane.
    pose proof (Hlane _ _ Hp) as [Hsub Hj]. rewrite Eb in Hsub.
    assert (forall c', cl_joined c' = cl_joined c ->
      (cl_sent c' ++ ch_buf (cl_dataChan c')) `sublist_of` (cl_sent c ++ x :: rest) ->
      lanes_ok (set_clients s (<[p := c']> (go_clients s)))) as Hupd.
    { intros c' Ej Hs'. apply Forall_insert; [done|]. split; rewrite Ej; [|done].
      by etransitivity. }
    destruct ok; injection H as <-.
    + split; [apply (update_inv s p c); done|].
      apply Hupd; simpl; [done|]. by rewrite <- app_assoc.
    + set (c' := set_chan c ch).
      apply quit_inv; simpl; try done.
      * pose proof (update_inv s p c c' Hs Hp eq_refl eq_refl eq_refl Hwch) as Hinv.
        by destruct Hinv.
      * apply Hupd; simpl; [done|]. apply sublist_app; [done|]. by apply sublist_cons.
      * apply list_lookup_insert_eq. by eapply lookup_lt_Some.
  - intros (c & Hp & H)%bind_Some. destruct (cl_live c) eqn:El; [|done]. simpl in H.
    case_match; [|done]. injection H as <-. by apply quit_inv.
  - intros (c & Hp & H)%bind_Some. destruct (cl_live c) eqn:El; [|done].
    injection H as <-. by apply quit_inv.
  - case_match; [done| |done]. case_match; [|done]. intros [= <-].
    destruct (removeAll_inv order s Hs Hl) as (H1 & H2 & _). split; [by destruct H1|done].
  - case_match; [done..|]. case_match; [|done]. intros [= <-]. split; [by destruct Hs|done].
  - case_match; [done..|]. intros [= <-]. split; [by destruct Hs|done].
Qed.

Lemma removeChild_length s k : length (go_clients (removeChild s k)) = length (go_clients s).
Proof.
  unfold removeChild, close_chan. repeat (case_match; [|done]); simpl; try done.
  case_match; [done|]. simpl. by rewrite length_insert.
Qed.

Lemma go_step_length s l s' :
  go_inv s -> lanes_ok s -> go_step cfg s l = Some s' ->
  length (go_clients s') <= S (length (go_clients s)).
Proof.
  intros Hs Hl. unfold go_step. rewrite (gi_ok _ Hs).
  destruct l as [|ep|m order|p ok|p|p|order| |].
  - case_match; [|done..]. intros [= <-]. simpl. lia.
  - case_match; [done|..]; intros [= <-]; simpl; rewrite length_app; simpl; lia.
  - case_match; [done| |done].
    destruct (produceByteStream m _) as [ms [raw|e|]]; [|intros [= <-]; simpl; lia..].
    case_match eqn:Er; [|done]. intros [= <-].
    destruct (feedAll_spec raw (go_add_metas s ms) order) as (_ & _ & _ & -> & _);
      [by destruct Hs|done..|]. rewrite length_map. simpl. lia.
  - intros (c & Hp & H)%bind_Some. repeat case_match; simplify_eq/=;
      rewrite ?length_alter, ?removeChild_length; simpl; rewrite length_insert; lia.
  - intros (c & Hp & H)%bind_Some. case_match; simplify_eq/=.
    rewrite length_alter, removeChild_length. lia.
  - intros (c & Hp & H)%bind_Some. case_match; simplify_eq/=.
    rewrite length_alter, removeChild_length. lia.
  - case_match; [done| |done]. case_match; [|done]. intros [= <-]. simpl.
    unfold removeAllChildren. clear. revert s.
    induction order as [|k order IH]; intros s; simpl; [lia|].
    specialize (IH (removeChild s k)). rewrite removeChild_length in IH. lia.
  - case_match; [done..|]. case_match; [|done]. intros [= <-]. simpl. lia.
  - case_match; [done..|]. intros [= <-]. simpl. lia.
Qed.

Lemma go_run_inv ls : forall s s',
  go_inv s -> lanes_ok s ->
  (Z.of_nat (length (go_clients s)) + Z.of_nat (length ls) < 2 ^ 64)%Z ->
  go_run cfg s ls = Some s' -> go_inv s' /\ lanes_ok s'.
Proof.
  induction ls as [|l ls IH]; intros s s' Hs Hl Hlt H; simpl in H; [by simplify_eq|].
  apply bind_Some in H as (s1 & H1 & H2). cbn [length] in Hlt.
  destruct (go_step_inv s l s1 Hs Hl) as [Hs1 Hl1]; [lia|done|].
  pose proof (go_step_length s l s1 Hs Hl H1). apply (IH s1); [done..|lia|done].
Qed.

(** C18: the table of clients is safe under every interleaving.  Whatever the order in which clients
    come, read, fail and leave, messages arrive and workers stop and start, in fewer than
    2^64 steps and if rendering does not panic: nothing panics (no send on a closed channel, no second
    close, no wait group below zero); the table holds exactly the clients whose channel
    is open, and these still run; the wait group counts the calls that run; and what a client
    has sent, followed by what waits for it within the depth of its channel, is a
    subsequence of what was fed since it came: nothing made up, repeated or out of order. *)
Theorem grpc_out_safe ls s :
  (Z.of_nat (length ls) < 2 ^ 64)%Z -> go_run cfg grpcOut_init ls = Some s ->
  go_crashed s = false
  /\ go_wg s = Z.of_nat (live_count (go_clients s))
  /\ forall p c, go_clients s !! p = Some c ->
     (is_open c = true <-> go_children s !! cl_id c = Some p)
     /\ (is_open c = true -> cl_live c = true)
     /\ ch_wf (cl_dataChan c)
     /\ (cl_sent c ++ ch_buf (cl_dataChan c)) `sublist_of` drop (cl_joined c) (go_fed s).
Proof.
  intros Hlt Hrun. destruct (go_run_inv ls grpcOut_init s) as [Hs Hl]; [|constructor|done|done|].
  { apply go_init_inv. }
  pose proof Hs as [_ Hids Hch Hlv Hw Hwg Hok]. split_and!; [done..|]. intros p c Hp. split_and!.
  - rewrite Hch. split; [eauto|]. intros (b & Hb & _ & Ho). by simplify_eq.
  - eauto.
  - eauto.
  - unfold lanes_ok in Hl. rewrite Forall_lookup in Hl. by destruct (Hl p c Hp).
Qed.

(** C19: a message is offered to every client, and to each on its own account.  In any state a run
    leads to, a message that renders is taken without blocking whatever the order of the
    range over the table: every open client with room gets the bytes, every open client without
    room loses them and is counted, and no client's channel has an effect on another's. *)
Theorem grpc_out_feed ls s m ms data order :
  (Z.of_nat (length ls) < 2 ^ 64)%Z -> go_run cfg grpcOut_init ls = Some s ->
  go_mode s = Serving -> produceByteStream m (gc_streamSpec cfg) = (ms, Ok data) ->
  go_range s order = true ->
  exists s', go_step cfg s (GoMessage m order) = Some s'
  /\ go_clients s' = map (offered data) (go_clients s)
  /\ go_fed s' = go_fed s ++ [data]
  /\ go_metas s' = go_metas s ++ ms ++ flat_map (counted_at data s) order.
Proof.
  intros Hlt Hrun Hm Hp Hr.
  destruct (go_run_inv ls grpcOut_init s) as [Hs Hl]; [|constructor|done|done|].
  { apply go_init_inv. }
  unfold go_step. rewrite (gi_ok _ Hs), Hm, Hp.
  change (go_range (go_add_metas s ms) order) with (go_range s order). rewrite Hr.
  assert (go_inv (go_add_metas s ms)) as Hs' by by destruct Hs.
  destruct (feedAll_spec data (go_add_metas s ms) order Hs' Hl Hr) as (_ & _ & _ & H1 & H2).
  eexists. split_and!; [done|exact H1| |rewrite H2; simpl; by rewrite app_assoc].
  destruct (feed_fold data order (go_add_metas s ms) Hs') as (_ & _ & H3 & _).
  { by apply go_range_spec in Hr as [? _]. }
  { intros k. by apply go_range_spec in Hr as [_ ->]. }
  unfold feedAllChildren. cbn [go_fed]. by rewrite H3.
Qed.
End Theorems.
