(* ===== verification/Conductor.v ===== *)
(** * The conductor ([pipeline.go])

    Loading the configuration: the sections, in the order [GetSections] gives them, turned
    into output and input nodes and the channels between them; and stopping: the requests to
    the nodes, in the order of the range over the conductor's maps.  What a module's
    [configure] returns is an argument, since each module is modelled in its own file; so is
    whether a node answers a request. *)
From S2P Require Import Prelude Message.

(** ** Loading *)

(** a channel a module returned: nil, or the channel of a node *)
Inductive node_chan : Type := NilChan | NodeChan (node : string).

#[export] Instance node_chan_eq_dec : EqDecision node_chan.
Proof. solve_decision. Defined.

(** [configure] of an output module: an error, or data and control channels, either of
    which may be nil *)
Definition out_result : Type := res (node_chan * node_chan).
(** [configure] of an input module, given the data channels *)
Definition in_result : Type := res node_chan.

Record outputNode : Type := OutputNode { on_name : string; on_data : node_chan; on_ctrl : node_chan }.
Record inputNode : Type := InputNode { in_name : string; in_ctrl : node_chan }.

(** the nodes by instance name, and the data channels collected while loading *)
Record conductorState : Type := Conductor {
  outputNodes : gmap string outputNode;
  inputNodes : gmap string inputNode;
  dataChans : list node_chan;
}.

(** The configuration: the sections, the options of each; and the modules. *)
Record pipeline_env : Type := PipelineEnv {
  cfg_sections : list string;
  cfg_GetString : string -> string -> option string;
  outputNodeModules : string -> option (string -> option out_result);
  inputNodeModules : string -> option (string -> list node_chan -> option in_result);
}.

(** Loading does not return, [None], while a module that is configured asks for
    credentials. *)
Definition loading (A : Type) : Type := option (res A).
Definition load_bind {A B} (c : loading A) (k : A -> loading B) : loading B :=
  match c with
  | Some (Ok a) => k a
  | Some (Err e) => Some (Err e)
  | Some Panic => Some Panic
  | None => None
  end.

Section Load.
Context (env : pipeline_env).

(** one section of the first loop *)
Definition load_output (s : conductorState) (section : string) : loading conductorState :=
  if String.eqb section "default" then Some (Ok s)
  else match cfg_GetString env section "stage" with
  | None => Some (Err (Errorf "Sections require a 'stage' attribute: %v"))
  | Some modstage =>
      if negb (String.eqb modstage "xport_output") then Some (Ok s)
      else match cfg_GetString env section "type" with
      | None => Some (Err (Errorf "Sections require a 'type' attribute: %v"))
      | Some modtype =>
          match outputNodeModules env modtype with
          | None => Some (Err (Errorf "Unsupported 'type' attribute for output module [%s]"))
          | Some configure =>
              match configure section with
              | Some (Ok (o_data, o_ctrl)) =>
                  Some (Ok (Conductor (<[section := OutputNode section o_data o_ctrl]> (outputNodes s))
                        (inputNodes s) (dataChans s ++ [o_data])))
              | Some (Err _) => Some (Ok s)
              | Some Panic => Some Panic
              | None => None
              end
          end
      end
  end.

(** one section of the second loop *)
Definition load_input (s : conductorState) (section : string) : loading conductorState :=
  if String.eqb section "default" then Some (Ok s)
  else match cfg_GetString env section "stage" with
  | None => Some (Err (Errorf "Sections require a 'stage' attribute: %v"))
  | Some modstage =>
      if negb (String.eqb modstage "xport_input") then Some (Ok s)
      else match cfg_GetString env section "type" with
      | None => Some (Err (Errorf "Sections require a 'type' attribute: %v"))
      | Some modtype =>
          match inputNodeModules env modtype with
          | None => Some (Err (Errorf "Unsupported 'type' attribute for input module [%s]"))
          | Some configure =>
              match configure section (dataChans s) with
              | Some (Ok i_ctrl) =>
                  Some (Ok (Conductor (outputNodes s)
                        (<[section := InputNode section i_ctrl]> (inputNodes s))
                        (dataChans s)))
              | Some (Err _) => Some (Ok s)
              | Some Panic => Some Panic
              | None => None
              end
          end
      end
  end.

Fixpoint load_loop (f : conductorState -> string -> loading conductorState)
    (s : conductorState) (sections : list string) : loading conductorState :=
  match sections with
  | [] => Some (Ok s)
  | x :: xs => load_bind (f s x) (fun s' => load_loop f s' xs)
  end.

(** the two loops over the sections *)
Definition load_sections : loading conductorState :=
  load_bind (load_loop load_output (Conductor ∅ ∅ []) (cfg_sections env))
    (fun s => load_loop load_input s (cfg_sections env)).

Lemma load_bind_ok {A B} (c : loading A) (k : A -> loading B) b :
  load_bind c k = Some (Ok b) <-> exists a, c = Some (Ok a) /\ k a = Some (Ok b).
Proof. destruct c as [[a|e|]|]; simpl; naive_solver. Qed.

(** *** Theorems *)

(** the node an output section contributes *)
Definition output_of (section : string) : option outputNode :=
  match cfg_GetString env section "stage", cfg_GetString env section "type" with
  | Some stage, Some modtype =>
      if String.eqb stage "xport_output" && negb (String.eqb section "default")
      then match outputNodeModules env modtype with
           | Some configure => match configure section with
                               | Some (Ok (d, c)) => Some (OutputNode section d c)
                               | _ => None
                               end
           | None => None
           end
      else None
  | _, _ => None
  end.

(** the node an input section contributes: what its module's [configure] makes of [chans] *)
Definition input_of (chans : list node_chan) (section : string) : option inputNode :=
  match cfg_GetString env section "stage", cfg_GetString env section "type" with
  | Some stage, Some modtype =>
      if String.eqb stage "xport_input" && negb (String.eqb section "default")
      then match inputNodeModules env modtype with
           | Some configure => match configure section chans with
                               | Some (Ok c) => Some (InputNode section c)
                               | _ => None
                               end
           | None => None
           end
      else None
  | _, _ => None
  end.

(** a table after a section that contributes [o] *)
Definition with_node {A} (section : string) (o : option A) (m : gmap string A) : gmap string A :=
  match o with Some n => <[section := n]> m | None => m end.

Lemma load_output_step s x s' :
  load_output s x = Some (Ok s') ->
  outputNodes s' = with_node x (output_of x) (outputNodes s)
  /\ inputNodes s' = inputNodes s
  /\ dataChans s' = dataChans s ++ map on_data (omap output_of [x]).
Proof.
  unfold load_output, output_of. simpl. intros H.
  destruct (String.eqb x "default"); simpl in *.
  { simplify_eq. rewrite ?app_nil_r.
    destruct (cfg_GetString env x "stage"), (cfg_GetString env x "type");
      rewrite ?andb_false_r, ?app_nil_r; done. }
  destruct (cfg_GetString env x "stage") as [st|]; [|done].
  destruct (String.eqb st "xport_output"); simpl in *; cycle 1.
  { simplify_eq. destruct (cfg_GetString env x "type"); simpl; by rewrite ?app_nil_r. }
  destruct (cfg_GetString env x "type") as [ty|]; [|done].
  destruct (outputNodeModules env ty) as [configure|]; [|done].
  destruct (configure x) as [[[d c]|e|]|]; simplify_eq; simpl; by rewrite ?app_nil_r.
Qed.

Lemma load_input_step s x s' :
  load_input s x = Some (Ok s') ->
  inputNodes s' = with_node x (input_of (dataChans s) x) (inputNodes s)
  /\ outputNodes s' = outputNodes s /\ dataChans s' = dataChans s.
Proof.
  unfold load_input, input_of. simpl. intros H.
  destruct (String.eqb x "default"); simpl in *.
  { simplify_eq. rewrite ?app_nil_r.
    destruct (cfg_GetString env x "stage"), (cfg_GetString env x "type");
      rewrite ?andb_false_r, ?app_nil_r; done. }
  destruct (cfg_GetString env x "stage") as [st|]; [|done].
  destruct (String.eqb st "xport_input"); simpl in *; cycle 1.
  { simplify_eq. destruct (cfg_GetString env x "type"); simpl; by rewrite ?app_nil_r. }
  destruct (cfg_GetString env x "type") as [ty|]; [|done].
  destruct (inputNodeModules env ty) as [configure|]; [|done].
  destruct (configure x _) as [[c|e|]|]; simplify_eq; simpl; by rewrite ?app_nil_r.
Qed.

(** the table after all sections *)
Lemma with_nodes_lookup {A} (contrib : string -> option A) sections : forall (m : gmap string A) y n,
  fold_left (fun m x => with_node x (contrib x) m) sections m !! y = Some n <->
  (y ∈ sections /\ contrib y = Some n) \/ ((y ∈ sections -> contrib y = None) /\ m !! y = Some n).
Proof.
  induction sections as [|x xs IH]; intros m y n; simpl.
  { rewrite elem_of_nil. naive_solver. }
  rewrite IH, elem_of_cons. unfold with_node.
  destruct (decide (y ∈ xs)), (contrib x) as [o|] eqn:Eo; rewrite ?lookup_insert_Some;
    destruct (decide (y = x)) as [->|]; rewrite ?Eo; naive_solver.
Qed.

Lemma load_outputs sections : forall s s',
  load_loop load_output s sections = Some (Ok s') ->
  outputNodes s' = fold_left (fun m x => with_node x (output_of x) m) sections (outputNodes s)
  /\ inputNodes s' = inputNodes s
  /\ dataChans s' = dataChans s ++ map on_data (omap output_of sections).
Proof.
  induction sections as [|x xs IH]; intros s s' H; simpl in H.
  { simplify_eq. by rewrite app_nil_r. }
  apply load_bind_ok in H as (s1 & H1 & H2).
  destruct (load_output_step _ _ _ H1) as (E1 & E2 & E3).
  destruct (IH _ _ H2) as (F1 & F2 & F3). rewrite F1, F2, F3, E1, E2, E3, <- app_assoc, <- map_app.
  split_and!; [done..|]. simpl. by destruct (output_of x).
Qed.

Lemma load_inputs sections : forall s s',
  load_loop load_input s sections = Some (Ok s') ->
  inputNodes s' = fold_left (fun m x => with_node x (input_of (dataChans s) x) m) sections
                    (inputNodes s)
  /\ outputNodes s' = outputNodes s /\ dataChans s' = dataChans s.
Proof.
  induction sections as [|x xs IH]; intros s s' H; simpl in H; [by simplify_eq|].
  apply load_bind_ok in H as (s1 & H1 & H2).
  destruct (load_input_step _ _ _ H1) as (E1 & E2 & E3).
  destruct (IH _ _ H2) as (F1 & F2 & F3). by rewrite F1, F2, F3, E1, E2, E3.
Qed.

Lemma load_sections_nodes s :
  load_sections = Some (Ok s) ->
  (forall x n, outputNodes s !! x = Some n <-> x ∈ cfg_sections env /\ output_of x = Some n)
  /\ dataChans s = map on_data (omap output_of (cfg_sections env))
  /\ (forall x n, inputNodes s !! x = Some n
        <-> x ∈ cfg_sections env /\ input_of (dataChans s) x = Some n).
Proof.
  unfold load_sections. intros (s1 & H1 & H2)%load_bind_ok.
  destruct (load_outputs _ _ _ H1) as (E1 & E2 & E3). simpl in *.
  destruct (load_inputs _ _ _ H2) as (F1 & F2 & F3).
  rewrite F1, F2, F3, E1, E2. split_and!; [|done|]; intros x n;
    rewrite with_nodes_lookup, lookup_empty; naive_solver.
Qed.

(** when modules name their control channel after the section, so does the table of inputs *)
Lemma load_inputs_ctrl sections : forall s s',
  (forall ty configure x chans c, inputNodeModules env ty = Some configure ->
     configure x chans = Some (Ok c) -> c = NodeChan x) ->
  load_loop load_input s sections = Some (Ok s') ->
  map_Forall (fun x n => in_ctrl n = NodeChan x) (inputNodes s) ->
  map_Forall (fun x n => in_ctrl n = NodeChan x) (inputNodes s').
Proof.
  induction sections as [|x xs IH]; intros s s' Hmod H Hs; simpl in H; [by simplify_eq|].
  apply load_bind_ok in H as (s1 & H1 & H2). eapply IH; [done..|].
  unfold load_input in H1. repeat case_match; simplify_eq/=; try done.
  apply map_Forall_insert_2; [|done]. simpl. eauto.
Qed.

(** C38: every input feeds every output.  When the configuration loads, the output nodes are
    exactly those of the output sections whose module configured; there is one data channel
    for each of them; and the input nodes are exactly those that the modules of the input sections
    configured when they were handed all these channels, wherever a section stands in the file. *)
Theorem load_connects s :
  load_sections = Some (Ok s) ->
  (forall x n, outputNodes s !! x = Some n <-> x ∈ cfg_sections env /\ output_of x = Some n)
  /\ dataChans s = map on_data (omap output_of (cfg_sections env))
  /\ (forall x n, inputNodes s !! x = Some n
        <-> x ∈ cfg_sections env /\ input_of (dataChans s) x = Some n).
Proof. apply load_sections_nodes. Qed.
End Load.

(** ** Stopping *)

(** the requests the conductor makes of the nodes on a signal: to each the shutdown, an
    acknowledgement, the close of its channel *)
Inductive stop_event : Type := Stopping (node : string) | Acked (node : string) | ClosedCtrl (node : string).

(** [answers c] is whether the goroutine behind a control channel takes a request and
    acknowledges it; nobody does on a nil channel.  [true] when all are stopped. *)
Fixpoint stop_nodes (answers : string -> bool) (nodes : list (string * node_chan))
    : list stop_event * bool :=
  match nodes with
  | [] => ([], true)
  | (name, c) :: rest =>
      if match c with NilChan => false | NodeChan n => answers n end
      then let '(evs, ok) := stop_nodes answers rest in
           (Stopping name :: Acked name :: ClosedCtrl name :: evs, ok)
      else ([Stopping name], false)
  end.

(** inputs and then outputs, each in the order [inputs], [outputs] of a range over the
    conductor's maps *)
Definition shutdown (answers : string -> bool) (inputs outputs : list (string * node_chan))
    : list stop_event * bool :=
  let '(evs, ok) := stop_nodes answers inputs in
  if ok then let '(evs', ok') := stop_nodes answers outputs in (evs ++ evs', ok')
  else (evs, false).

Definition live (answers : string -> bool) (n : string * node_chan) : Prop :=
  exists c, n.2 = NodeChan c /\ answers c = true.

Lemma stop_nodes_ok answers nodes :
  Forall (live answers) nodes ->
  stop_nodes answers nodes
  = (flat_map (fun n => [Stopping n.1; Acked n.1; ClosedCtrl n.1]) nodes, true).
Proof.
  induction 1 as [|[name c] nodes (c' & Hc & Ha) HF IH]; [done|]. simpl in *. subst.
  by rewrite Ha, IH.
Qed.

Lemma stop_nodes_stuck answers pre name c post :
  Forall (live answers) pre -> ~ live answers (name, c) ->
  stop_nodes answers (pre ++ (name, c) :: post)
  = (flat_map (fun n => [Stopping n.1; Acked n.1; ClosedCtrl n.1]) pre ++ [Stopping name], false).
Proof.
  intros Hpre Hn. induction Hpre as [|[name' c'] pre (c'' & Hc & Ha) HF IH]; simpl.
  - assert (match c with NilChan => false | NodeChan n => answers n end = false) as ->; [|done].
    destruct c as [|n]; [done|]. apply not_true_is_false. intros H. apply Hn. by exists n.
  - simpl in *. subst. by rewrite Ha, IH.
Qed.

(** C39: inputs stop before outputs, and one silent node stops the stopping.  If every node
    answers, all inputs and then all outputs are stopped, one after the other.  If some input
    does not answer, its predecessors are stopped, and neither a later input nor any output
    ever is: the conductor waits forever. *)
Theorem shutdown_order answers inputs outputs :
  (Forall (live answers) (inputs ++ outputs) ->
   shutdown answers inputs outputs
   = (flat_map (fun n => [Stopping n.1; Acked n.1; ClosedCtrl n.1]) (inputs ++ outputs), true))
  /\ (forall pre name c post, inputs = pre ++ (name, c) :: post ->
      Forall (live answers) pre -> ~ live answers (name, c) ->
      shutdown answers inputs outputs
      = (flat_map (fun n => [Stopping n.1; Acked n.1; ClosedCtrl n.1]) pre ++ [Stopping name],
         false)).
Proof.
  unfold shutdown. split.
  - intros [H1 H2]%Forall_app. rewrite !stop_nodes_ok by done. by rewrite flat_map_app.
  - intros pre name c post -> Hpre Hn. by rewrite stop_nodes_stuck.
Qed.
