(* ===== verification/Pipeline.v ===== *)
(** * The program as a whole ([pipeline.go], [codec_init] of [codec.go])

    What the conductor does around the two loops of [Conductor]: the environment a
    configuration may refer to, the name of the instance, the log sink, the translation of base
    paths, the table of modules with the [configure] of every module of the repository, the
    gauges it collects, and [main]. *)
From S2P Require Import Prelude Message EncapST Tcp TcpServer Udp Tap Replay Metrics Crypt Influx.
From S2P Require Import Prom Gnmi Kafka Grpc GrpcOut MetricsModule Conductor.

(** ** The environment of a configuration ([ConfigEnvironment]) *)

(** [strings.Index(pair, "=")] and the two sides of it; without a separator, [pair[0:-1]]
    panics *)
Definition env_pair (entry : string) : res (string * string) :=
  match splitn2 (char_of "=") entry with
  | (k, Some v) => Ok (k, v)
  | (_, None) => Panic
  end.

Fixpoint env_map (env : gmap string string) (environ : list string) : res (gmap string string) :=
  match environ with
  | [] => Ok env
  | entry :: rest => let! kv := env_pair entry in env_map (<[kv.1 := kv.2]> env) rest
  end.

Definition ConfigEnvironment_Env (environ : list string) (k : string) : res string :=
  let! env := env_map ∅ environ in
  match env !! k with
  | Some v => Ok v
  | None => Err (Errorf "config includes '%s', but not set in environment variable.")
  end.

(** ** The host and the libraries

    [template_Execute file Env] is what expanding the template in [file] yields, where
    [Env] is the method templates may call; [goconf_ReadConfigBytes] parses the result.
    [json_Unmarshal_map] is the value the decoder leaves in a nil map, and its error: it may
    leave one although it fails.  [os_OpenFile] opens the log file to append to it. *)
Class HostEnv := {
  environ : list string;
  hostname : res string;
  template_Execute : string -> (string -> res string) -> res string;
  goconf_ReadConfigBytes : string -> res nodeConfig;
  json_Unmarshal_map : string -> option (gmap string string) * option goerr;
  net_Listen : string -> res unit;
  net_ResolveUDPAddr : string -> res string;
  sarama_version_ok : string -> bool;
  gomaxprocs : Z;
  os_OpenFile : string -> res unit;
}.

Section Pipeline.
Context `{E : Env} `{HE : HostEnv} `{F : FmtEnv} `{IE : InfluxEnv} `{CE : !CryptEnv}
  `{SE : SpecEnv} `{KE : !KafkaEnv}.

(** [codec_init]: the value of the variable [basePathXlation] from then on *)
Definition codec_init (nc : nodeConfig) : option (gmap string string) :=
  match GetString nc "default" "base_path_xlation" with
  | None => None
  | Some bpxFilename =>
      match readFile bpxFilename with
      | Ok bpxJSON => (json_Unmarshal_map bpxJSON).1
      | _ => None
      end
  end.

Definition conductor_ID (nc : nodeConfig) : string :=
  match GetString nc "default" "id" with
  | Some id => id
  | None => "pipeline." +:+ ok_or "unknown" hostname
  end.

(** where the log goes besides the file: host and port of fluentd *)
Definition fluentd_hook (nc : nodeConfig) : option (string * Z) :=
  match GetString nc "default" "fluentd" with
  | None => None
  | Some logsocket =>
      match split_on colon logsocket with
      | [host; port] => port ← atoi port; Some (host, port)
      | _ => None
      end
  end.

(** ** The modules ([startupConductor])

    The channels of a node are named after its section.  [rounds section] is what the operator
    answers when that section asks for credentials. *)
Section Modules.
Context (nc : nodeConfig) (rounds : string -> list prompt).

Definition node_chans (section : string) : node_chan * node_chan :=
  (NodeChan section, NodeChan section).

Definition tap_node (section : string) : out_result :=
  match tap_configure section nc with
  | CfgOk _ => Ok (node_chans section)
  | CfgErr e => Err e
  | CfgNilNil => Ok (NilChan, NilChan)
  | CfgPanic => Panic
  end.

Definition activeOutputNodeModule (modtype : string)
    : option (string -> option out_result) :=
  if String.eqb modtype "kafka" then
    Some (fun s => Some (let! _ := kafka_output_configure s nc in Ok (node_chans s)))
  else if String.eqb modtype "tap" then Some (fun s => Some (tap_node s))
  else if String.eqb modtype "metrics" then
    Some (fun s => match metrics_configure (conductor_ID nc) gomaxprocs None s nc (rounds s) with
                   | Some r => Some (let! _ := r in Ok (node_chans s))
                   | None => None
                   end)
  else if String.eqb modtype "grpc" then
    Some (fun s => Some (let! _ := grpc_out_configure s nc in Ok (node_chans s)))
  else None.

Definition input_node {A} (s : string) (r : option (res A)) : option in_result :=
  match r with
  | Some r => Some (let! _ := r in Ok (NodeChan s))
  | None => None
  end.

Definition activeInputNodeModule (modtype : string)
    : option (string -> list node_chan -> option in_result) :=
  if String.eqb modtype "replay" then
    Some (fun s _ => input_node s (Some (replay_configure s nc)))
  else if String.eqb modtype "tcp" then
    Some (fun s _ => input_node s (Some (tcp_configure net_Listen s nc)))
  else if String.eqb modtype "grpc" then
    Some (fun s _ => input_node s (grpc_configure s nc (rounds s)))
  else if String.eqb modtype "kafka" then
    Some (fun s _ => input_node s (Some (kafka_input_configure sarama_version_ok s nc)))
  else if String.eqb modtype "udp" then
    Some (fun s _ => input_node s (Some (udp_configure net_ResolveUDPAddr s nc)))
  else if String.eqb modtype "gnmi" then
    Some (fun s _ => input_node s (gnmi_configure s nc (rounds s)))
  else None.

Definition pipeline_modules : pipeline_env :=
  PipelineEnv (GetSections nc) (GetString nc) activeOutputNodeModule activeInputNodeModule.

End Modules.

(** ** Loading ([loadConfig]) and [main] *)

(** the conductor once loaded: its nodes, and what the head of [loadConfig] set up *)
Record loaded : Type := Loaded {
  ld_ID : string;
  ld_fluentd : option (string * Z);
  ld_basePathXlation : option (gmap string string);
  ld_nodes : conductorState;
}.

Definition loadConfig (Configfile : string) (rounds : string -> list prompt) : loading loaded :=
  load_bind (Some (template_Execute Configfile (ConfigEnvironment_Env environ))) (fun text =>
  load_bind (Some (goconf_ReadConfigBytes text)) (fun nc =>
  load_bind (load_sections (pipeline_modules nc rounds)) (fun nodes =>
  Some (Ok (Loaded (conductor_ID nc) (fluentd_hook nc) (codec_init nc) nodes))))).

(** ** Starting ([startup])

    The options of the command line, and where the log goes from then on and whether it shows
    debugging. *)
Record options : Type := Options { op_debug : bool; op_log : string; op_config : string }.
Record logging : Type := Logging { logging2Stdout : bool; lg_debug : bool }.

Inductive startup_result : Type :=
| StartupAgain                  (* the conductor is configured already *)
| StartupExit (status : Z)
| StartupLogs (l : logging).

Definition startup (configured : bool) (o : options) : startup_result :=
  if configured then StartupAgain
  else if str_empty (op_log o) then StartupLogs (Logging true (op_debug o))
  else match os_OpenFile (op_log o) with
       | Ok _ => StartupLogs (Logging false (op_debug o))
       | _ => StartupExit (-1)
       end.

(** what a run of the program shows: the stopping of its nodes on a signal, and its exit status
    unless it waits forever or crashes *)
Inductive main_result : Type :=
| MainExit (stopped : list stop_event) (status : Z)
| MainWaits (stopped : list stop_event)
| MainAsking
| MainCrash.

(** [answers], [inputs] and [outputs] as in [shutdown] *)
Definition main (o : options) (rounds : string -> list prompt)
    (answers : string -> bool)
    (order : conductorState -> list (string * node_chan) * list (string * node_chan))
    : main_result :=
  match startup false o with
  | StartupExit status => MainExit [] status
  | _ =>
      match loadConfig (op_config o) rounds with
      | None => MainAsking
      | Some Panic => MainCrash
      | Some (Err _) => MainExit [] (-1)
      | Some (Ok l) =>
          let '(inputs, outputs) := order (ld_nodes l) in
          match shutdown answers inputs outputs with
          | (evs, true) => MainExit evs 0
          | (evs, false) => MainWaits evs
          end
      end
  end.

(** ** The gauges of the conductor ([Collect]) *)

(** what the run-time system reports *)
Record runtime_stats : Type := RuntimeStats {
  rt_NumGoroutine : Z; rt_NumCPU : Z; rt_Alloc : Z; rt_TotalAlloc : Z; rt_Mallocs : Z;
  rt_Frees : Z; rt_NumGC : Z; rt_uptime : Z;
}.

(** a metric sent: its name, its label if any, its value *)
Record const_metric : Type := ConstMetric {
  cm_name : string; cm_section : option string; cm_value : Z }.

(** [len] and [cap] of a channel; of a nil channel both are zero *)
Definition chan_len_cap (chans : string -> Z * Z) (c : node_chan) : Z * Z :=
  match c with NilChan => (0, 0)%Z | NodeChan n => chans n end.

Fixpoint chan_occupancies (chans : string -> Z * Z) (outputs : list (string * outputNode))
    : res (list const_metric) :=
  match outputs with
  | [] => Ok []
  | (nodename, node) :: rest =>
      let '(len, cap) := chan_len_cap chans (on_data node) in
      if bool_decide (cap = 0)%Z then Panic
      else let! ms := chan_occupancies chans rest in
           Ok (ConstMetric "chanoccupancy" (Some nodename) (Z.quot (100 * len) cap) :: ms)
  end.

(** [outputs] is the range over the map of outputs, in some order *)
Definition Collect (rt : runtime_stats) (chans : string -> Z * Z) (s : conductorState)
    (outputs : list (string * outputNode)) : res (list const_metric) :=
  let gauge name v := ConstMetric name None v in
  let! ms := chan_occupancies chans outputs in
  Ok ([gauge "goroutines" (rt_NumGoroutine rt); gauge "cpus" (rt_NumCPU rt);
       gauge "alloc" (rt_Alloc rt); gauge "totalalloc" (rt_TotalAlloc rt);
       gauge "mallocs" (rt_Mallocs rt); gauge "frees" (rt_Frees rt);
       gauge "gcruns" (rt_NumGC rt); gauge "uptime" (rt_uptime rt);
       gauge "cfginputs" (Z.of_nat (size (inputNodes s)));
       gauge "cfgoutputs" (Z.of_nat (size (outputNodes s)))] ++ ms).

End Pipeline.

(** ** Theorems: environment and head of the configuration *)

Definition env_key (entry : string) : string := (splitn2 (char_of "=") entry).1.
Definition env_val (entry : string) : string := default "" (splitn2 (char_of "=") entry).2.
Definition env_entry (entry : string) : bool := bool_decide (is_Some (splitn2 (char_of "=") entry).2).

Lemma env_map_spec es : forall env,
  env_map env es
  = if forallb env_entry es
    then Ok (fold_left (fun m e => <[env_key e := env_val e]> m) es env) else Panic.
Proof.
  induction es as [|e es IH]; intros env; [done|]. simpl.
  unfold env_pair, env_entry, env_key, env_val.
  destruct (splitn2 (char_of "=") e) as [k [v|]]; simpl; [|done].
  exact (IH _).
Qed.

Lemma fold_env_lookup es k :
  fold_left (fun m e => <[env_key e := env_val e]> m) es (∅ : gmap string string) !! k
  = env_val <$> list.last (filter (fun e => env_key e = k) es).
Proof.
  induction es as [|e es IH] using rev_ind; [done|].
  rewrite fold_left_app, list.filter_app. simpl.
  destruct (decide (env_key e = k)) as [<-|Hne].
  - rewrite filter_cons_True, filter_nil, last_snoc by done. apply lookup_insert_eq.
  - rewrite filter_cons_False, filter_nil by done. by rewrite lookup_insert_ne, IH, app_nil_r.
Qed.

(** What a template reads from the environment.  If every entry of the environment has an
    equals sign, the value of a variable is that of its last entry, cut at the first equals
    sign, and a variable without an entry is an error; if some entry has none, reading
    any variable panics. *)
Lemma config_environment (es : list string) (k : string) :
  ConfigEnvironment_Env es k
  = if forallb env_entry es
    then match list.last (filter (fun e => env_key e = k) es) with
         | Some e => Ok (env_val e)
         | None => Err (Errorf "config includes '%s', but not set in environment variable.")
         end
    else Panic.
Proof.
  unfold ConfigEnvironment_Env. rewrite env_map_spec. destruct (forallb env_entry es); [|done].
  simpl. rewrite fold_env_lookup. by destruct (list.last _).
Qed.

(** A log sink written as host and port is the one used. *)
Lemma fluentd_of `{E : Env} nc (host : string) (port : N) :
  str_free colon host = true -> (Z.of_N port < 2 ^ 63)%Z ->
  GetString nc "default" "fluentd" = Some (host +:+ String colon (pretty port)) ->
  fluentd_hook nc = Some (host, Z.of_N port).
Proof.
  intros Hh Hp Hg. unfold fluentd_hook. rewrite Hg, split_on_app by done.
  rewrite split_on_free by (apply str_free_digits; [done|apply pretty_digits]).
  by rewrite atoi_N.
Qed.

(** ** Theorems: nil channels, stopping and gauges *)

Section Theorems.
Context `{E : Env} `{HE : HostEnv} `{F : FmtEnv} `{IE : InfluxEnv} `{CE : !CryptEnv}
  `{SE : SpecEnv} `{KE : !KafkaEnv}.
Context (nc : nodeConfig) (rounds : string -> list prompt).

(** an output section of type tap that reports no error, and no channels *)
Definition nil_tap (x : string) : Prop :=
  x ∈ GetSections nc /\ x <> "default"
  /\ GetString nc x "stage" = Some "xport_output" /\ GetString nc x "type" = Some "tap"
  /\ tap_configure x nc = CfgNilNil.

Lemma output_of_pipeline x n :
  output_of (pipeline_modules nc rounds) x = Some n ->
  x <> "default" /\ GetString nc x "stage" = Some "xport_output"
  /\ (n = OutputNode x (NodeChan x) (NodeChan x)
        /\ ~ (GetString nc x "type" = Some "tap" /\ tap_configure x nc = CfgNilNil)
      \/ n = OutputNode x NilChan NilChan
        /\ GetString nc x "type" = Some "tap" /\ tap_configure x nc = CfgNilNil).
Proof.
  unfold output_of. cbn [cfg_GetString pipeline_modules outputNodeModules].
  destruct (GetString nc x "stage") as [st|]; [|done].
  destruct (GetString nc x "type") as [ty|]; [|done].
  destruct (String.eqb_spec st "xport_output") as [->|]; [|done].
  destruct (String.eqb_spec x "default") as [|Hx]; [done|]. cbn [andb negb].
  unfold activeOutputNodeModule.
  destruct (String.eqb_spec ty "kafka") as [->|]; [|destruct (String.eqb_spec ty "tap") as [->|];
    [|destruct (String.eqb_spec ty "metrics") as [->|];
      [|destruct (String.eqb_spec ty "grpc") as [->|]; [|done]]]]; intros Hn;
    (split; [done|]; split; [done|]).
  - destruct (kafka_output_configure x nc); simplify_eq/=; left; naive_solver.
  - unfold tap_node in Hn. destruct (tap_configure x nc) eqn:Et; simplify_eq/=; [left|right];
      naive_solver.
  - destruct (metrics_configure _ _ _ _ _ _) as [[| |]|]; simplify_eq/=; left; naive_solver.
  - destruct (grpc_out_configure x nc); simplify_eq/=; left; naive_solver.
Qed.

Lemma output_of_nil_tap x :
  nil_tap x -> output_of (pipeline_modules nc rounds) x = Some (OutputNode x NilChan NilChan).
Proof.
  intros (_ & Hx & Hst & Hty & Ht). unfold output_of.
  cbn [cfg_GetString pipeline_modules outputNodeModules]. rewrite Hst, Hty.
  destruct (String.eqb_spec x "default"); [done|]. simpl. unfold tap_node. by rewrite Ht.
Qed.

Lemma pipeline_outputs s x n :
  load_sections (pipeline_modules nc rounds) = Some (Ok s) ->
  outputNodes s !! x = Some n ->
  n = OutputNode x (NodeChan x) (NodeChan x) /\ ~ nil_tap x
  \/ n = OutputNode x NilChan NilChan /\ nil_tap x.
Proof.
  intros (Hout & _ & _)%load_sections_nodes [Hin Hn]%Hout. cbn in Hin.
  unfold nil_tap. apply output_of_pipeline in Hn. naive_solver.
Qed.

Lemma pipeline_nil_tap s x :
  load_sections (pipeline_modules nc rounds) = Some (Ok s) -> nil_tap x ->
  outputNodes s !! x = Some (OutputNode x NilChan NilChan).
Proof.
  intros (Hout & _ & _)%load_sections_nodes Hx. apply Hout. split; [apply Hx|].
  by apply output_of_nil_tap.
Qed.

Lemma pipeline_inputs s :
  load_sections (pipeline_modules nc rounds) = Some (Ok s) ->
  map_Forall (fun x n => in_ctrl n = NodeChan x) (inputNodes s).
Proof.
  unfold load_sections. intros (s1 & H1 & H2)%load_bind_ok.
  eapply load_inputs_ctrl; [|exact H2|].
  - intros ty configure x chans c Hty Hc. cbn [inputNodeModules pipeline_modules] in Hty.
    unfold activeInputNodeModule, input_node in Hty.
    repeat case_match; simplify_eq/=; repeat case_match; simplify_eq/=; res_inv; done.
  - destruct (load_outputs _ _ _ _ H1) as (_ & -> & _). apply map_Forall_empty.
Qed.

(** the nodes in the order a range over the maps may give them *)
Definition range_order (s : conductorState)
    (o : list (string * node_chan) * list (string * node_chan)) : Prop :=
  o.1 ≡ₚ map (fun kn => (kn.1, in_ctrl kn.2)) (map_to_list (inputNodes s))
  /\ o.2 ≡ₚ map (fun kn => (kn.1, on_ctrl kn.2)) (map_to_list (outputNodes s)).

(** stopping goes through exactly when every node answers *)
Lemma stop_nodes_iff answers nodes :
  (stop_nodes answers nodes).2 = true <-> Forall (live answers) nodes.
Proof.
  split.
  - induction nodes as [|[name c] nodes IH]; simpl; [done|].
    destruct c as [|n]; [done|]. destruct (answers n) eqn:Ha; [|done].
    destruct (stop_nodes answers nodes) as [evs ok]. simpl in *. intros ->.
    constructor; [by exists n|auto].
  - intros H. by rewrite stop_nodes_ok.
Qed.

Lemma shutdown_iff answers inputs outputs :
  (shutdown answers inputs outputs).2 = true <-> Forall (live answers) (inputs ++ outputs).
Proof.
  unfold shutdown. rewrite Forall_app, <- !stop_nodes_iff.
  destruct (stop_nodes answers inputs) as [evs []], (stop_nodes answers outputs) as [evs' []];
    simpl; intuition.
Qed.

Lemma pipeline_live s o :
  load_sections (pipeline_modules nc rounds) = Some (Ok s) -> range_order s o ->
  Forall (live (fun _ => true)) (o.1 ++ o.2) <-> ~ exists x, nil_tap x.
Proof.
  intros Hl [Hi Ho]. rewrite Forall_app, Hi, Ho, !Forall_fmap, !list.Forall_forall. split.
  - intros [_ HF] [x Hx]. pose proof (pipeline_nil_tap _ _ Hl Hx) as Hn%elem_of_map_to_list.
    apply HF in Hn as (c & Hc & _). done.
  - intros Hno. split; intros [x n] Hn%elem_of_map_to_list; exists x; (split; [|done]); simpl.
    + by apply (pipeline_inputs _ Hl).
    + destruct (pipeline_outputs _ _ _ Hl Hn) as [[-> _]|[_ Ht]]; [done|]. destruct Hno. eauto.
Qed.

(** C8: one tap section can keep the whole program from stopping.  Take a log that opens
    and a configuration that loads, and let every goroutine that serves a control channel answer.  On a signal the
    program stops its nodes and exits with status zero, unless some tap output is
    configured raw together with an encoding, or with count-only and a channel depth: its module
    reports neither an error nor channels, the conductor keeps it as a node, and waits for it
    forever. *)
Theorem main_stops o text order l :
  op_log o = "" \/ os_OpenFile (op_log o) = Ok tt ->
  template_Execute (op_config o) (ConfigEnvironment_Env environ) = Ok text ->
  goconf_ReadConfigBytes text = Ok nc ->
  loadConfig (op_config o) rounds = Some (Ok l) -> range_order (ld_nodes l) (order (ld_nodes l)) ->
  (~ (exists x, nil_tap x) ->
     exists evs, main o rounds (fun _ => true) order = MainExit evs 0)
  /\ ((exists x, nil_tap x) ->
     exists evs, main o rounds (fun _ => true) order = MainWaits evs).
Proof.
  intros Hlog Ht Hc Hload Hord. unfold main. rewrite Hload.
  assert (exists lg, startup false o = StartupLogs lg) as [lg ->].
  { unfold startup. destruct Hlog as [-> | ->]; [|destruct (str_empty _)]; eauto. }
  unfold loadConfig in Hload. rewrite Ht in Hload. simpl in Hload. rewrite Hc in Hload.
  simpl in Hload. apply load_bind_ok in Hload as (nodes & Hn & [= <-]). simpl in *.
  pose proof (pipeline_live _ _ Hn Hord) as Hlive.
  destruct (order nodes) as [inputs outputs]. simpl in Hlive. rewrite <- shutdown_iff in Hlive.
  destruct (shutdown _ inputs outputs) as [evs []]; simpl in Hlive; split; intros H; eauto.
  - exfalso. by apply Hlive.
  - exfalso. apply Hlive in H. done.
Qed.

End Theorems.

Lemma chan_occupancies_spec chans outputs :
  (forall n, 0 <= (chans n).1 <= (chans n).2)%Z ->
  match chan_occupancies chans outputs with
  | Ok ms => Forall2 (fun (kn : string * outputNode) m =>
        let lc := chan_len_cap chans (on_data kn.2) in
        cm_section m = Some kn.1 /\ (0 <= cm_value m <= 100)%Z
        /\ (cm_value m * lc.2 <= 100 * lc.1 < (cm_value m + 1) * lc.2)%Z) outputs ms
  | Panic => exists kn, kn ∈ outputs /\ (chan_len_cap chans (on_data kn.2)).2 = 0%Z
  | Err _ => False
  end.
Proof.
  intros Hch. induction outputs as [|[k n] outputs IH]; simpl; [constructor|].
  assert (0 <= (chan_len_cap chans (on_data n)).1 <= (chan_len_cap chans (on_data n)).2)%Z as Hlc
    by (destruct (on_data n); simpl; [lia|apply Hch]).
  destruct (chan_len_cap chans (on_data n)) as [len cap] eqn:El. simpl in Hlc.
  case_bool_decide as H0.
  { exists (k, n). simpl. rewrite El. split; [set_solver|done]. }
  destruct (chan_occupancies chans outputs) as [ms| |]; simpl; [|done|].
  - constructor; [|done]. simpl. rewrite El. simpl. split; [done|].
    rewrite Z.quot_div_nonneg by lia.
    pose proof (Z.div_mod (100 * len) cap H0).
    pose proof (Z.mod_pos_bound (100 * len) cap ltac:(lia)). nia.
  - destruct IH as (kn & Hin & ?). exists kn. split; [set_solver|done].
Qed.

(** C40: the gauge of channel occupancy is a percentage, when there is one.  With channels that hold no
    more than their capacity, collecting reports for every output the whole percentage of
    its channel in use, between zero and a hundred; it panics, for a division by
    zero, exactly when some output has no channel or one of depth zero. *)
Theorem occupancy_bounds rt chans s outputs :
  (forall n, 0 <= (chans n).1 <= (chans n).2)%Z ->
  (Collect rt chans s outputs = Panic <->
     exists kn, kn ∈ outputs /\ (chan_len_cap chans (on_data kn.2)).2 = 0%Z)
  /\ (forall ms, Collect rt chans s outputs = Ok ms ->
      ms !! 8 = Some (ConstMetric "cfginputs" None (Z.of_nat (size (inputNodes s))))
      /\ ms !! 9 = Some (ConstMetric "cfgoutputs" None (Z.of_nat (size (outputNodes s))))
      /\ Forall2 (fun (kn : string * outputNode) m =>
           let lc := chan_len_cap chans (on_data kn.2) in
           cm_section m = Some kn.1 /\ (0 <= cm_value m <= 100)%Z
           /\ (cm_value m * lc.2 <= 100 * lc.1 < (cm_value m + 1) * lc.2)%Z) outputs (drop 10 ms)).
Proof.
  intros Hch. pose proof (chan_occupancies_spec chans outputs Hch) as Hspec. unfold Collect.
  destruct (chan_occupancies chans outputs) as [ms| |]; simpl; [|done|].
  - split; [|by intros ? [= <-]].
    split; [done|]. intros (kn & Hin & H0). exfalso.
    apply list_elem_of_lookup in Hin as [i Hi].
    destruct (Forall2_lookup_l _ _ _ _ _ Hspec Hi) as (m & _ & _ & _ & Hb). lia.
  - split; [done|]. done.
Qed.
