(* ===== verification/Json.v ===== *)
(** * JSON texts

    What the printers of the repository take from [encoding/json]: the escaping of strings,
    base64 for bytes, decimal numbers; and the grammar of JSON texts (RFC 8259) the theorems
    about those printers refer to.  Strings are byte strings. *)
From S2P Require Import Prelude.

(** ** Characters *)

Abbreviation code := Ascii.nat_of_ascii.
Definition chr (n : nat) : char := Ascii.ascii_of_nat n.
Definition quote_char : char := chr 34.
Definition backslash : char := chr 92.
Definition quoted (s : string) : string := String quote_char (s +:+ String quote_char "").

Definition between (lo hi : nat) (c : char) : bool :=
  (lo <=? code c) && (code c <=? hi).

(** the size of the UTF-8 sequence a string starts with ([utf8.DecodeRuneInString]), or 0 when it
    starts with none *)
Definition utf8_size (s : string) : nat :=
  match s with
  | EmptyString => 0
  | String a s1 =>
      if between 0 127 a then 1
      else match s1 with
      | EmptyString => 0
      | String b s2 =>
          if between 194 223 a then (if between 128 191 b then 2 else 0)
          else match s2 with
          | EmptyString => 0
          | String c s3 =>
              if between 224 239 a then
                let lo := if between 224 224 a then 160 else 128 in
                let hi := if between 237 237 a then 159 else 191 in
                if between lo hi b && between 128 191 c then 3 else 0
              else match s3 with
              | EmptyString => 0
              | String d _ =>
                  if between 240 244 a then
                    let lo := if between 240 240 a then 144 else 128 in
                    let hi := if between 244 244 a then 143 else 191 in
                    if between lo hi b && between 128 191 c && between 128 191 d then 4 else 0
                  else 0
              end
          end
      end
  end.

(** ** Strings ([json.Marshal] of a string) *)

Definition hex_digit (n : nat) : char := if n <? 10 then chr (48 + n) else chr (87 + n).

(** an ASCII character; those of [htmlSafeSet] stand for themselves *)
Definition html_safe (c : char) : bool :=
  between 32 127 c
  && negb (between 34 34 c || between 38 38 c || between 60 60 c || between 62 62 c
           || between 92 92 c).

Definition esc_ascii (c : char) : string :=
  if html_safe c then String c ""
  else if between 34 34 c || between 92 92 c then String backslash (String c "")
  else if between 10 10 c then "\n"
  else if between 13 13 c then "\r"
  else if between 9 9 c then "\t"
  else "\u00" +:+ String (hex_digit (code c / 16)) (String (hex_digit (code c mod 16)) "").

(** whether a string starts with U+2028 or U+2029, and which *)
Definition line_sep (s : string) : option char :=
  match s with
  | String a (String b (String c _)) =>
      if between 226 226 a && between 128 128 b && between 168 169 c
      then Some (hex_digit (code c - 160)) else None
  | _ => None
  end.

(** [copy] bytes are copied and [skip] dropped before the next rune is looked at *)
Fixpoint json_esc (copy skip : nat) (s : string) : string :=
  match s with
  | EmptyString => ""
  | String c s' =>
      match skip, copy with
      | S k, _ => json_esc copy k s'
      | O, S k => String c (json_esc k 0 s')
      | O, O =>
          if between 0 127 c then esc_ascii c +:+ json_esc 0 0 s'
          else match line_sep s with
          | Some h => "\u202" +:+ String h (json_esc 0 2 s')
          | None =>
              match utf8_size s with
              | O => "\ufffd" +:+ json_esc 0 0 s'
              | S k => String c (json_esc k 0 s')
              end
          end
      end
  end.

Definition json_string (s : string) : string := quoted (json_esc 0 0 s).

Definition replacement : string := String (chr 239) (String (chr 191) (String (chr 189) "")).

(** what the body of a JSON string stands for, or none if it is not one; bytes that are no UTF-8
    are still as they are *)
Definition hex_val (c : char) : option nat :=
  if between 48 57 c then Some (code c - 48)
  else if between 97 102 c then Some (code c - 87)
  else if between 65 70 c then Some (code c - 55)
  else None.

Definition utf8_encode (r : nat) : string :=
  if r <? 128 then String (chr r) ""
  else if r <? 2048 then String (chr (192 + r / 64)) (String (chr (128 + r mod 64)) "")
  else String (chr (224 + r / 4096))
         (String (chr (128 + r / 64 mod 64)) (String (chr (128 + r mod 64)) "")).

(** UTF-16 surrogates: ten bits each, the pair plus 2^16 is a code point of four bytes *)
Definition low_surrogate (h1 h2 h3 h4 : char) : option nat :=
  a ← hex_val h1; b ← hex_val h2; c ← hex_val h3; d ← hex_val h4;
  if (a =? 13) && (12 <=? b) then Some ((b - 12) * 256 + c * 16 + d) else None.

Definition utf8_pair (hi lo : nat) : string :=
  let u := hi / 64 + 1 in
  String (chr (240 + u / 4))
    (String (chr (128 + u mod 4 * 16 + hi / 4 mod 16))
       (String (chr (128 + hi mod 4 * 16 + lo / 64)) (String (chr (128 + lo mod 64)) ""))).

Definition simple_escape (e : char) : option char :=
  if between 34 34 e || between 47 47 e || between 92 92 e then Some e
  else if between 98 98 e then Some (chr 8)
  else if between 102 102 e then Some (chr 12)
  else if between 110 110 e then Some (chr 10)
  else if between 114 114 e then Some (chr 13)
  else if between 116 116 e then Some (chr 9)
  else None.

Fixpoint json_unesc (s : string) : option string :=
  match s with
  | EmptyString => Some ""
  | String c s' =>
      if between 92 92 c then
        match s' with
        | String e s'' =>
            match simple_escape e with
            | Some d => String d <$> json_unesc s''
            | None =>
                if between 117 117 e then
                  match s'' with
                  | String h1 (String h2 (String h3 (String h4 s3))) =>
                      a ← hex_val h1; b ← hex_val h2; c ← hex_val h3; d ← hex_val h4;
                      if (a =? 13) && (8 <=? b) then
                        match s3 with
                        | String e1 (String e2 (String h5 (String h6 (String h7 (String h8 s4))))) =>
                            match (if between 92 92 e1 && between 117 117 e2 && (b <=? 11)
                                   then low_surrogate h5 h6 h7 h8 else None) with
                            | Some lo => String.append (utf8_pair ((b - 8) * 256 + c * 16 + d) lo)
                                         <$> json_unesc s4
                            | None => String.append replacement <$> json_unesc s3
                            end
                        | _ => String.append replacement <$> json_unesc s3
                        end
                      else
                        String.append (utf8_encode (((a * 16 + b) * 16 + c) * 16 + d))
                        <$> json_unesc s3
                  | _ => None
                  end
                else None
            end
        | EmptyString => None
        end
      else if between 0 31 c || between 34 34 c then None
      else String c <$> json_unesc s'
  end.

(** a string with every byte that is not part of a UTF-8 sequence replaced by U+FFFD *)
Fixpoint utf8_clean (copy : nat) (s : string) : string :=
  match s with
  | EmptyString => ""
  | String c s' =>
      match copy with
      | S k => String c (utf8_clean k s')
      | O => match utf8_size s with
             | O => replacement +:+ utf8_clean 0 s'
             | S k => String c (utf8_clean k s')
             end
      end
  end.

Fixpoint utf8_valid_from (copy : nat) (s : string) : bool :=
  match s with
  | EmptyString => true
  | String c s' =>
      match copy with
      | S k => utf8_valid_from k s'
      | O => match utf8_size s with O => false | S k => utf8_valid_from k s' end
      end
  end.
Definition utf8_valid (s : string) : bool := utf8_valid_from 0 s.

Example json_string_ex : json_string "a<" = quoted "a\u003c".
Proof. reflexivity. Qed.

(** ** Bytes ([json.Marshal] of a byte slice) *)

Definition b64_char (n : nat) : char :=
  if n <? 26 then chr (65 + n) else if n <? 52 then chr (71 + n)
  else if n <? 62 then chr (n - 4) else if n <? 63 then char_of "+" else char_of "/".

Definition byte_n (b : byte) : nat := N.to_nat (Byte.to_N b).

Fixpoint base64 (l : bytes) : string :=
  match l with
  | [] => ""
  | [a] => let x := byte_n a in
      String (b64_char (x / 4)) (String (b64_char (x mod 4 * 16)) "==")
  | [a; b] => let x := byte_n a in let y := byte_n b in
      String (b64_char (x / 4)) (String (b64_char (x mod 4 * 16 + y / 16))
        (String (b64_char (y mod 16 * 4)) "="))
  | a :: b :: c :: l' => let x := byte_n a in let y := byte_n b in let z := byte_n c in
      String (b64_char (x / 4)) (String (b64_char (x mod 4 * 16 + y / 16))
        (String (b64_char (y mod 16 * 4 + z / 64)) (String (b64_char (z mod 64)) (base64 l'))))
  end.

Definition json_bytes (b : slice) : string :=
  match b with None => "null" | Some l => quoted (base64 l) end.

(** ** The grammar *)

Definition json_ws (s : string) : Prop :=
  str_forall (fun c => between 32 32 c || between 9 9 c || between 10 10 c || between 13 13 c) s
  = true.

Definition json_digits (s : string) : Prop := str_forall is_digit s = true /\ s <> "".
Definition json_int (s : string) : Prop :=
  s = "0" \/ exists c s', s = String c s' /\ between 49 57 c = true /\ str_forall is_digit s' = true.
Definition json_frac (s : string) : Prop := s = "" \/ exists d, s = "." +:+ d /\ json_digits d.
Definition json_exp (s : string) : Prop :=
  s = "" \/ exists e sign d, s = e +:+ sign +:+ d /\ (e = "e" \/ e = "E")
            /\ (sign = "" \/ sign = "+" \/ sign = "-") /\ json_digits d.
Definition json_number (s : string) : Prop :=
  exists sign i f e, s = sign +:+ i +:+ f +:+ e /\ (sign = "" \/ sign = "-")
    /\ json_int i /\ json_frac f /\ json_exp e.

Definition json_body (s : string) : Prop := is_Some (json_unesc s).

(** A text, an element of an array and a member of an object, with their white space. *)
Inductive json_text : string -> Prop :=
| JT_null : json_text "null"
| JT_true : json_text "true"
| JT_false : json_text "false"
| JT_number s : json_number s -> json_text s
| JT_string b : json_body b -> json_text (quoted b)
| JT_empty_array w : json_ws w -> json_text ("[" +:+ w +:+ "]")
| JT_array es : es <> [] -> Forall json_elem es -> json_text ("[" +:+ join "," es +:+ "]")
| JT_empty_object w : json_ws w -> json_text ("{" +:+ w +:+ "}")
| JT_object ms : ms <> [] -> Forall json_member ms -> json_text ("{" +:+ join "," ms +:+ "}")
with json_elem : string -> Prop :=
| JE w1 t w2 : json_ws w1 -> json_text t -> json_ws w2 -> json_elem (w1 +:+ t +:+ w2)
with json_member : string -> Prop :=
| JM w1 k w2 w3 t w4 :
    json_ws w1 -> json_body k -> json_ws w2 -> json_ws w3 -> json_text t -> json_ws w4 ->
    json_member (w1 +:+ quoted k +:+ w2 +:+ ":" +:+ w3 +:+ t +:+ w4).

(** ** Lemmas: strings *)

Definition high (c : char) : bool := between 128 255 c.

Lemma between_eq n c : between n n c = true -> c = chr n.
Proof.
  unfold between. intros [H1%Nat.leb_le H2%Nat.leb_le]%andb_true_iff.
  rewrite <- (Ascii.ascii_nat_embedding c). unfold chr. f_equal. lia.
Qed.

Lemma not_ascii c : between 0 127 c = false -> high c = true.
Proof. destruct c as [[] [] [] [] [] [] [] []]; done. Qed.

Lemma between_high lo c : between (128 + lo) 191 c = true -> high c = true.
Proof.
  unfold high, between. intros [H1%Nat.leb_le H2%Nat.leb_le]%andb_true_iff.
  apply andb_true_iff. split; apply Nat.leb_le; lia.
Qed.

Lemma unesc_ascii c r :
  between 0 127 c = true -> json_unesc (esc_ascii c +:+ r) = String c <$> json_unesc r.
Proof.
  destruct c as [[] [] [] [] [] [] [] []]; try done; intros _; cbn;
    destruct (json_unesc r); reflexivity.
Qed.

Lemma unesc_high c r : high c = true -> json_unesc (String c r) = String c <$> json_unesc r.
Proof. destruct c as [[] [] [] [] [] [] [] []]; try done. Qed.

Lemma unesc_highs t r :
  str_forall high t = true -> json_unesc (t +:+ r) = String.append t <$> json_unesc r.
Proof.
  induction t as [|c t IH]; simpl; [by destruct (json_unesc r)|].
  intros [Hc Ht]%andb_true_iff.
  change (json_unesc (String c (t +:+ r)) = String.append (String c t) <$> json_unesc r).
  rewrite unesc_high, IH by done. by destruct (json_unesc r).
Qed.

Lemma utf8_size_ascii c s : between 0 127 c = true -> utf8_size (String c s) = 1.
Proof. intros H. simpl. by rewrite H. Qed.

(** after the first byte of a longer sequence come as many high bytes as its size says *)
Lemma utf8_size_tail c s k :
  between 0 127 c = false -> utf8_size (String c s) = S k ->
  exists t r, s = t +:+ r /\ String.length t = k /\ str_forall high t = true.
Proof.
  intros Hc. simpl. rewrite Hc.
  destruct s as [|b s]; [done|]. destruct (between 194 223 c).
  { destruct (between 128 191 b) eqn:Hb; [|done]. intros [= <-].
    exists (String b ""), s. simpl. by rewrite (between_high 0 b Hb). }
  destruct s as [|d s]; [done|]. destruct (between 224 239 c).
  { destruct (between _ _ b && between 128 191 d) eqn:Hb; [|done].
    apply andb_true_iff in Hb as [Hb Hd]. intros [= <-].
    exists (String b (String d "")), s. simpl. rewrite (between_high 0 d Hd).
    split; [done|]. split; [done|]. rewrite andb_true_r. clear -Hb. unfold high, between in *.
    apply andb_true_iff in Hb as [H1%Nat.leb_le H2%Nat.leb_le].
    apply andb_true_iff. split; apply Nat.leb_le; repeat case_match; lia. }
  destruct s as [|e s]; [done|]. destruct (between 240 244 c); [|done].
  destruct (between _ _ b && between 128 191 d && between 128 191 e) eqn:Hb; [|done].
  apply andb_true_iff in Hb as [[Hb Hd]%andb_true_iff He]. intros [= <-].
  exists (String b (String d (String e ""))), s. simpl.
  rewrite (between_high 0 d Hd), (between_high 0 e He).
  split; [done|]. split; [done|]. rewrite !andb_true_r. clear -Hb. unfold high, between in *.
  apply andb_true_iff in Hb as [H1%Nat.leb_le H2%Nat.leb_le].
  apply andb_true_iff. split; apply Nat.leb_le; repeat case_match; lia.
Qed.

Lemma esc_copy t : forall r, json_esc (String.length t) 0 (t +:+ r) = t +:+ json_esc 0 0 r.
Proof. induction t as [|c t IH]; intros r; [by destruct r|]. simpl. by rewrite IH. Qed.

Lemma clean_copy t : forall r, utf8_clean (String.length t) (t +:+ r) = t +:+ utf8_clean 0 r.
Proof. induction t as [|c t IH]; intros r; [by destruct r|]. simpl. by rewrite IH. Qed.

Lemma unesc_u2028 h r :
  h = 168 \/ h = 169 ->
  json_unesc ("\u202" +:+ String (hex_digit (h - 160)) r)
  = String.append (String (chr 226) (String (chr 128) (String (chr h) ""))) <$> json_unesc r.
Proof.
  assert (utf8_encode (((2 * 16 + 0) * 16 + 2) * 16 + 8)
          = String (chr 226) (String (chr 128) (String (chr 168) ""))
       /\ utf8_encode (((2 * 16 + 0) * 16 + 2) * 16 + 9)
          = String (chr 226) (String (chr 128) (String (chr 169) ""))) as [H8 H9]
    by (split; vm_compute; reflexivity).
  intros [-> | ->]; [rewrite <- H8|rewrite <- H9]; cbn -[utf8_encode Nat.mul Nat.add];
    by destruct (json_unesc r).
Qed.

Lemma unesc_ufffd r :
  json_unesc ("\ufffd" +:+ r) = String.append replacement <$> json_unesc r.
Proof.
  assert (utf8_encode (((15 * 16 + 15) * 16 + 15) * 16 + 13) = replacement) as Hr
    by (vm_compute; reflexivity).
  rewrite <- Hr. cbn -[utf8_encode Nat.mul Nat.add]. by destruct (json_unesc r).
Qed.

Lemma line_sep_some c s h :
  line_sep (String c s) = Some h -> exists n r, (n = 168 \/ n = 169)
  /\ String c s = String (chr 226) (String (chr 128) (String (chr n) r)) /\ h = hex_digit (n - 160).
Proof.
  destruct s as [|b [|d s]]; simpl; try done.
  destruct (between 226 226 c && between 128 128 b && between 168 169 d) eqn:H; [|done].
  apply andb_true_iff in H as [[H1 H2]%andb_true_iff H3]. intros [= <-].
  exists (code d), s. apply between_eq in H1 as ->. apply between_eq in H2 as ->.
  unfold between in H3. apply andb_true_iff in H3 as [H3%Nat.leb_le H4%Nat.leb_le].
  split; [lia|]. split; [|done]. unfold chr at 3. by rewrite Ascii.ascii_nat_embedding.
Qed.

(** a string begins with an ASCII character, a line separator, a byte that is no UTF-8, or a
    longer sequence *)
Lemma string_start c s :
  between 0 127 c = true
  \/ (exists n r, (n = 168 \/ n = 169)
        /\ String c s = String (chr 226) (String (chr 128) (String (chr n) r)))
  \/ (between 0 127 c = false /\ line_sep (String c s) = None
        /\ (utf8_size (String c s) = 0
            \/ exists t r, s = t +:+ r /\ str_forall high t = true
                 /\ utf8_size (String c s) = S (String.length t))).
Proof.
  destruct (between 0 127 c) eqn:Hc; [by left|right].
  destruct (line_sep (String c s)) as [h|] eqn:Hl.
  { left. destruct (line_sep_some _ _ _ Hl) as (n & r & ? & ? & _). eauto. }
  right. split; [done|]. split; [done|].
  destruct (utf8_size (String c s)) as [|k] eqn:Hs; [by left|right].
  destruct (utf8_size_tail _ _ _ Hc Hs) as (t & r & ? & <- & ?). eauto.
Qed.

Lemma esc_high c s :
  between 0 127 c = false -> line_sep (String c s) = None ->
  json_esc 0 0 (String c s)
  = match utf8_size (String c s) with
    | O => "\ufffd" +:+ json_esc 0 0 s
    | S k => String c (json_esc k 0 s)
    end.
Proof. intros H1 H2. cbn [json_esc]. by rewrite H1, H2. Qed.

Lemma clean_cons c s :
  utf8_clean 0 (String c s)
  = match utf8_size (String c s) with
    | O => replacement +:+ utf8_clean 0 s
    | S k => String c (utf8_clean k s)
    end.
Proof. done. Qed.

(** A printed string reads back as the string, its bytes that are no UTF-8 replaced. *)
Lemma unesc_esc s : json_unesc (json_esc 0 0 s) = Some (utf8_clean 0 s).
Proof.
  remember (String.length s) as n eqn:Hn. revert s Hn.
  induction (Nat.lt_wf_0 n) as [n _ IH]. intros s ->.
  destruct s as [|c s]; [done|].
  assert (forall t r, s = t +:+ r -> json_unesc (json_esc 0 0 r) = Some (utf8_clean 0 r)) as IHr.
  { intros t r ->. eapply IH; [|reflexivity]. simpl. rewrite str_length_app. lia. }
  rewrite clean_cons.
  destruct (string_start c s)
    as [Hc|[(m & r & Hm & Hs)|(Hc & Hl & [H0|(t & r & -> & Ht & Hs)])]].
  - rewrite utf8_size_ascii by done. cbn [json_esc]. rewrite Hc, unesc_ascii by done.
    by rewrite (IHr "" s).
  - injection Hs as -> ->.
    assert (utf8_size (String (chr 226) (String (chr 128) (String (chr m) r))) = 3) as ->
      by (by destruct Hm as [-> | ->]).
    assert (json_esc 0 0 (String (chr 226) (String (chr 128) (String (chr m) r)))
            = "\u202" +:+ String (hex_digit (m - 160)) (json_esc 0 0 r)) as ->
      by (by destruct Hm as [-> | ->]; destruct r).
    rewrite unesc_u2028 by done.
    rewrite (IHr (String (chr 128) (String (chr m) "")) r) by done. by destruct r.
  - rewrite esc_high, H0, unesc_ufffd by done. by rewrite (IHr "" s).
  - rewrite esc_high, Hs, unesc_high by (by try apply not_ascii). rewrite esc_copy, unesc_highs by done.
    rewrite (IHr t r), clean_copy by done. done.
Qed.

Lemma clean_valid s : forall k, utf8_valid_from k s = true -> utf8_clean k s = s.
Proof.
  induction s as [|c s IH]; intros k; [done|].
  destruct k as [|k]; [|intros H; simpl in *; by rewrite IH].
  rewrite clean_cons. cbn [utf8_valid_from].
  destruct (utf8_size (String c s)) as [|k]; [done|]. intros H. by rewrite IH.
Qed.

Lemma json_string_text s : json_text (json_string s).
Proof. apply JT_string. unfold json_body. rewrite unesc_esc. eauto. Qed.

(** plain characters stand for themselves *)
Definition plain_char (c : char) : bool :=
  between 32 255 c && negb (between 34 34 c || between 92 92 c).

Lemma unesc_plain s : str_forall plain_char s = true -> json_unesc s = Some s.
Proof.
  induction s as [|c s IH]; [done|]. simpl. intros [Hc Hs]%andb_true_iff.
  unfold plain_char in Hc. apply andb_true_iff in Hc as [H1 H2].
  apply negb_true_iff, orb_false_iff in H2 as [H2 ->]. rewrite H2.
  assert (between 0 31 c = false) as ->.
  { unfold between in *. apply andb_true_iff in H1 as [H1%Nat.leb_le _].
    apply andb_false_iff. right. apply Nat.leb_gt. lia. }
  simpl. by rewrite IH.
Qed.

Lemma plain_body s : str_forall plain_char s = true -> json_body s.
Proof. intros H. unfold json_body. rewrite unesc_plain by done. eauto. Qed.

(** ** Lemmas: numbers and bytes *)

Lemma pretty_go_head (x : N) : forall s, (0 < x)%N ->
  exists c s', pretty_N_go x s = String c s' /\ between 49 57 c = true.
Proof.
  induction (N.lt_wf_0 x) as [x _ IH]; intros s Hx. rewrite pretty_N_go_step by done.
  destruct (decide (x / 10 = 0)%N) as [H0|H0].
  - rewrite H0, pretty_N_go_0. eexists _, _. split; [done|].
    pose proof (N.div_mod x 10 ltac:(lia)).
    assert ((x mod 10)%N ∈ [1; 2; 3; 4; 5; 6; 7; 8; 9]%N) as Hin.
    { rewrite !elem_of_cons. pose proof (N.mod_lt x 10 ltac:(lia)). lia. }
    by repeat (apply elem_of_cons in Hin as [->|Hin]; [done|]); apply elem_of_nil in Hin.
  - apply IH; [by apply N.div_lt|by apply N.neq_0_lt_0].
Qed.

Lemma pretty_json_int (x : N) : json_int (pretty x).
Proof.
  destruct (pretty_digits x) as [Hd _]. unfold pretty, pretty_N in *.
  destruct (decide (x = 0)%N) as [->|H0]; [by left|right].
  destruct (pretty_go_head x "") as (c & s' & Hs & Hc); [lia|]. rewrite Hs in *.
  exists c, s'. simpl in Hd. apply andb_true_iff in Hd as [_ Hd]. done.
Qed.

Lemma pretty_json_number (z : Z) : json_number (pretty z).
Proof.
  destruct z as [|p|p].
  - exists "", "0", "", "". repeat split; try (by left); by left.
  - exists "", (pretty (N.pos p)), "", "". split; [by rewrite !str_app_nil_r|].
    split; [by left|]. split; [apply pretty_json_int|]. split; by left.
  - exists "-", (pretty (N.pos p)), "", "". split; [by rewrite !str_app_nil_r|].
    split; [by right|]. split; [apply pretty_json_int|]. split; by left.
Qed.

Lemma b64_plain n : n < 64 -> plain_char (b64_char n) = true.
Proof.
  intros H. do 64 (destruct n as [|n]; [reflexivity|]). lia.
Qed.

Lemma byte_n_lt b : byte_n b < 256.
Proof. unfold byte_n. pose proof (Byte.to_N_bounded b). lia. Qed.

(** characters of base64 text *)
Lemma base64_forall (P : char -> bool) l :
  (forall n, n < 64 -> P (b64_char n) = true) -> P (char_of "=") = true ->
  str_forall P (base64 l) = true.
Proof.
  intros HP He. cbn in He.
  remember (length l) as n eqn:Hn. revert l Hn.
  induction (Nat.lt_wf_0 n) as [n _ IH]. intros l ->.
  destruct l as [|a [|b [|c l]]]; [done| | |]; cbn [base64 str_forall]; rewrite ?He;
    pose proof (byte_n_lt a).
  - rewrite !HP; [done| |]; [pose proof (Nat.mod_upper_bound (byte_n a) 4); lia|].
    apply Nat.Div0.div_lt_upper_bound; lia.
  - pose proof (byte_n_lt b). pose proof (Nat.mod_upper_bound (byte_n a) 4 ltac:(lia)).
    pose proof (Nat.mod_upper_bound (byte_n b) 16 ltac:(lia)).
    rewrite !HP; [done|lia| |apply Nat.Div0.div_lt_upper_bound; lia].
    assert (byte_n b / 16 < 16) by (apply Nat.Div0.div_lt_upper_bound; lia). lia.
  - pose proof (byte_n_lt b). pose proof (byte_n_lt c).
    pose proof (Nat.mod_upper_bound (byte_n a) 4 ltac:(lia)).
    pose proof (Nat.mod_upper_bound (byte_n b) 16 ltac:(lia)).
    assert (byte_n b / 16 < 16) by (apply Nat.Div0.div_lt_upper_bound; lia).
    assert (byte_n c / 64 < 4) by (apply Nat.Div0.div_lt_upper_bound; lia).
    pose proof (Nat.mod_upper_bound (byte_n c) 64 ltac:(lia)).
    rewrite !HP; [|lia..|apply Nat.Div0.div_lt_upper_bound; lia].
    rewrite (IH (length l)); [done|simpl; lia|done].
Qed.

Lemma base64_plain l : str_forall plain_char (base64 l) = true.
Proof. apply base64_forall; [exact b64_plain|done]. Qed.

Lemma json_bytes_text b : json_text (json_bytes b).
Proof. destruct b as [l|]; [apply JT_string, plain_body, base64_plain|constructor]. Qed.
