(* ===== verification/JsonTree.v ===== *)
(** * Reading JSON

    A JSON text as a tree, the parser ([encoding/json] reads a value and leaves the rest), and the
    proof that the parser reads every text of a tree.  The strings of a tree are kept as they
    stand between their quotes, and so are the numbers. *)
From S2P Require Import Prelude Json.

Inductive jval : Type :=
| JNull
| JBool (b : bool)
| JNum (text : string)
| JStr (body : string)
| JArr (l : list jval)
| JObj (l : list (string * jval)).

(** what a string stands for *)
Definition json_decode (body : string) : option string := utf8_clean 0 <$> json_unesc body.

(** ** The parser *)

Definition is_ws (c : char) : bool :=
  between 32 32 c || between 9 9 c || between 10 10 c || between 13 13 c.

Fixpoint skip_ws (s : string) : string :=
  match s with
  | String c s' => if is_ws c then skip_ws s' else s
  | EmptyString => ""
  end.

(** the body of a string and what comes after its closing quote *)
Fixpoint scan_string (s : string) : option (string * string) :=
  match s with
  | EmptyString => None
  | String c s' =>
      if between 34 34 c then Some ("", s')
      else if between 92 92 c then
        match s' with
        | String e s'' =>
            match simple_escape e with
            | Some _ => p ← scan_string s''; Some (String c (String e p.1), p.2)
            | None =>
                match s'' with
                | String h1 (String h2 (String h3 (String h4 s3))) =>
                    if between 117 117 e then
                      _ ← hex_val h1; _ ← hex_val h2; _ ← hex_val h3; _ ← hex_val h4;
                      p ← scan_string s3;
                      Some (String c (String e (String h1 (String h2 (String h3 (String h4 p.1))))),
                            p.2)
                    else None
                | _ => None
                end
            end
        | EmptyString => None
        end
      else if between 0 31 c then None
      else p ← scan_string s'; Some (String c p.1, p.2)
  end.

Fixpoint span_digits (s : string) : string * string :=
  match s with
  | String c s' => if is_digit c then let p := span_digits s' in (String c p.1, p.2) else ("", s)
  | EmptyString => ("", "")
  end.

Definition scan_digits (s : string) : option (string * string) :=
  let p := span_digits s in if str_empty p.1 then None else Some p.

Definition scan_int (s : string) : option (string * string) :=
  match s with
  | String c s' =>
      if between 48 48 c then Some (String c "", s')
      else if between 49 57 c then Some (span_digits s)
      else None
  | EmptyString => None
  end.

Definition scan_frac (s : string) : option (string * string) :=
  match s with
  | String c s' =>
      if between 46 46 c then p ← scan_digits s'; Some (String c p.1, p.2) else Some ("", s)
  | EmptyString => Some ("", s)
  end.

Definition is_sign (c : char) : bool := between 43 43 c || between 45 45 c.

Definition scan_exp (s : string) : option (string * string) :=
  match s with
  | String c s' =>
      if between 101 101 c || between 69 69 c then
        match s' with
        | String g s'' =>
            if is_sign g then p ← scan_digits s''; Some (String c (String g p.1), p.2)
            else p ← scan_digits s'; Some (String c p.1, p.2)
        | EmptyString => None
        end
      else Some ("", s)
  | EmptyString => Some ("", s)
  end.

Definition scan_number (s : string) : option (string * string) :=
  let '(sign, s) := match s with
                    | String c s' => if between 45 45 c then ("-", s') else ("", s)
                    | EmptyString => ("", s)
                    end in
  i ← scan_int s; f ← scan_frac i.2; e ← scan_exp f.2;
  Some (sign +:+ i.1 +:+ f.1 +:+ e.1, e.2).

(** [s] after the text it starts with *)
Fixpoint after_lit (lit s : string) : option string :=
  match lit, s with
  | EmptyString, _ => Some s
  | String c lit', String c' s' => if Ascii.eqb c c' then after_lit lit' s' else None
  | _, _ => None
  end.

Fixpoint jp_value (n : nat) (s : string) : option (jval * string) :=
  match n, s with
  | S n', String c s' =>
      if between 123 123 c then
        match after_lit "}" (skip_ws s') with
        | Some r => Some (JObj [], r)
        | None => p ← jp_members n' s'; Some (JObj p.1, p.2)
        end
      else if between 91 91 c then
        match after_lit "]" (skip_ws s') with
        | Some r => Some (JArr [], r)
        | None => p ← jp_elems n' s'; Some (JArr p.1, p.2)
        end
      else if between 34 34 c then p ← scan_string s'; Some (JStr p.1, p.2)
      else match after_lit "null" s, after_lit "true" s, after_lit "false" s with
      | Some r, _, _ => Some (JNull, r)
      | _, Some r, _ => Some (JBool true, r)
      | _, _, Some r => Some (JBool false, r)
      | _, _, _ => p ← scan_number s; Some (JNum p.1, p.2)
      end
  | _, _ => None
  end
with jp_elems (n : nat) (s : string) : option (list jval * string) :=
  match n with
  | O => None
  | S n' =>
      v ← jp_value n' (skip_ws s);
      match skip_ws v.2 with
      | String c r =>
          if between 44 44 c then p ← jp_elems n' r; Some (v.1 :: p.1, p.2)
          else if between 93 93 c then Some ([v.1], r)
          else None
      | EmptyString => None
      end
  end
with jp_members (n : nat) (s : string) : option (list (string * jval) * string) :=
  match n with
  | O => None
  | S n' =>
      q ← after_lit (String quote_char "") (skip_ws s);
      k ← scan_string q;
      c ← after_lit ":" (skip_ws k.2);
      v ← jp_value n' (skip_ws c);
      match skip_ws v.2 with
      | String c r =>
          if between 44 44 c then p ← jp_members n' r; Some ((k.1, v.1) :: p.1, p.2)
          else if between 125 125 c then Some ([(k.1, v.1)], r)
          else None
      | EmptyString => None
      end
  end.

(** the first value of a stream ([Decoder.Decode]) *)
Definition json_Decode (s : string) : res (jval * string) :=
  match skip_ws s with
  | EmptyString => Err EOF
  | s' => match jp_value (String.length s') s' with
          | Some p => Ok p
          | None => Err (External "encoding/json")
          end
  end.

(** a text that is one value ([json.Unmarshal] looks at it first) *)
Definition json_parse (s : string) : res jval :=
  match json_Decode s with
  | Ok (j, r) => if str_empty (skip_ws r) then Ok j else Err (External "encoding/json")
  | Err _ => Err (External "encoding/json")
  | Panic => Panic
  end.

(** ** The texts of a tree *)

Fixpoint all2 {A B} (P : A -> B -> Prop) (l : list A) (es : list B) : Prop :=
  match l, es with
  | [], [] => True
  | x :: l', e :: es' => P x e /\ all2 P l' es'
  | _, _ => False
  end.

Definition elem_is (P : string -> Prop) (e : string) : Prop :=
  exists w1 t w2, json_ws w1 /\ P t /\ json_ws w2 /\ e = w1 +:+ t +:+ w2.
Definition member_is (k : string) (P : string -> Prop) (e : string) : Prop :=
  exists w1 w2 w3 t w4, json_ws w1 /\ json_body k /\ json_ws w2 /\ json_ws w3 /\ P t
  /\ json_ws w4 /\ e = w1 +:+ quoted k +:+ w2 +:+ ":" +:+ w3 +:+ t +:+ w4.

Fixpoint json_is (j : jval) (s : string) : Prop :=
  match j with
  | JNull => s = "null"
  | JBool b => s = if b then "true" else "false"
  | JNum t => s = t /\ json_number t
  | JStr b => s = quoted b /\ json_body b
  | JArr [] => exists w, json_ws w /\ s = "[" +:+ w +:+ "]"
  | JArr l => exists es, s = "[" +:+ join "," es +:+ "]"
                /\ all2 (fun j e => elem_is (json_is j) e) l es
  | JObj [] => exists w, json_ws w /\ s = "{" +:+ w +:+ "}"
  | JObj l => exists es, s = "{" +:+ join "," es +:+ "}"
                /\ all2 (fun kj e => member_is kj.1 (json_is kj.2) e) l es
  end.

Section Ind.
Context (P : jval -> Prop) (HNull : P JNull) (HBool : forall b, P (JBool b))
  (HNum : forall t, P (JNum t)) (HStr : forall b, P (JStr b))
  (HArr : forall l, Forall P l -> P (JArr l))
  (HObj : forall l, Forall (fun kj => P kj.2) l -> P (JObj l)).

Fixpoint jval_ind' (j : jval) : P j :=
  match j with
  | JNull => HNull | JBool b => HBool b | JNum t => HNum t | JStr b => HStr b
  | JArr l => HArr l
      ((fix go l : Forall P l := match l with
        | [] => Forall_nil _ | x :: l' => Forall_cons _ _ _ (jval_ind' x) (go l') end) l)
  | JObj l => HObj l
      ((fix go l : Forall (fun kj => P kj.2) l := match l with
        | [] => Forall_nil _ | kj :: l' => Forall_cons _ _ _ (jval_ind' kj.2) (go l') end) l)
  end.
End Ind.

(** ** Lemmas: strings and white space *)

Lemma str_ind_len (P : string -> Prop) :
  (forall s, (forall s', String.length s' < String.length s -> P s') -> P s) -> forall s, P s.
Proof.
  intros H s. remember (String.length s) as n eqn:Hn. revert s Hn.
  induction (Nat.lt_wf_0 n) as [n _ IH]. intros s ->. apply H. intros s' Hl. by eapply IH.
Qed.

Lemma low_surrogate_hex h1 h2 h3 h4 lo :
  low_surrogate h1 h2 h3 h4 = Some lo ->
  exists a b c d, hex_val h1 = Some a /\ hex_val h2 = Some b /\ hex_val h3 = Some c
  /\ hex_val h4 = Some d /\ (a =? 13) && (12 <=? b) = true.
Proof.
  unfold low_surrogate. intros (a & Ha & (b & Hb & (c & Hc & (d & Hd & H)%bind_Some)%bind_Some)%bind_Some)%bind_Some.
  exists a, b, c, d. by case_match.
Qed.

(** a low surrogate on its own reads, whatever follows it *)
Lemma unesc_low e1 e2 h1 h2 h3 h4 lo r s :
  between 92 92 e1 = true -> between 117 117 e2 = true ->
  low_surrogate h1 h2 h3 h4 = Some lo -> json_unesc s = Some r ->
  is_Some (json_unesc (String e1 (String e2 (String h1 (String h2 (String h3 (String h4 s))))))).
Proof.
  intros E1 E2 (a & b & c & d & Ha & Hb & Hc & Hd & Hlo)%low_surrogate_hex Hr.
  apply andb_true_iff in Hlo as [Hlo1 Hlo2%Nat.leb_le].
  cbn [json_unesc]. rewrite E1, E2. apply between_eq in E2 as ->.
  change (simple_escape (chr 117)) with (@None char).
  cbv iota. rewrite Ha, Hb, Hc, Hd. cbn [mbind option_bind].
  assert ((8 <=? b) = true) as Hb8 by (apply Nat.leb_le; lia).
  assert ((b <=? 11) = false) as Hb11 by (apply Nat.leb_gt; lia).
  rewrite Hlo1, Hb8. cbn [andb].
  destruct s as [|x1 [|x2 [|x3 [|x4 [|x5 [|x6 s]]]]]]; rewrite ?Hr, ?Hb11, ?andb_false_r;
    cbn [fmap option_fmap option_map]; try (eexists; reflexivity).
  all: cbv iota; cbn in Hr |- *; rewrite ?Hr; eexists; reflexivity.
Qed.

(** the body of a string begins with an escape, an escaped code or a character *)
Lemma body_cases c s :
  json_body (String c s) ->
  (c = backslash /\ exists e s', s = String e s' /\ is_Some (simple_escape e) /\ json_body s')
  \/ (c = backslash /\ exists e h1 h2 h3 h4 s',
        s = String e (String h1 (String h2 (String h3 (String h4 s'))))
        /\ between 117 117 e = true /\ simple_escape e = None
        /\ is_Some (hex_val h1) /\ is_Some (hex_val h2) /\ is_Some (hex_val h3)
        /\ is_Some (hex_val h4) /\ json_body s')
  \/ (between 92 92 c = false /\ between 0 31 c = false /\ between 34 34 c = false /\ json_body s).
Proof.
  unfold json_body. cbn [json_unesc]. destruct (between 92 92 c) eqn:Ec.
  - apply between_eq in Ec as ->. destruct s as [|e s]; [by intros [? ?]|].
    destruct (simple_escape e) as [d|] eqn:Ee.
    { intros [? (r & Hr & _)%fmap_Some]. left. split; [done|]. exists e, s. eauto. }
    destruct (between 117 117 e) eqn:Eu; [|by intros [? ?]].
    destruct s as [|h1 [|h2 [|h3 [|h4 s]]]]; try by intros [? ?].
    intros [u (a & Ha & (b & Hb & (c' & Hc & (d & Hd & H)%bind_Some)%bind_Some)%bind_Some)%bind_Some].
    right. left. split; [done|]. exists e, h1, h2, h3, h4, s.
    split; [done|]. split; [done|]. split; [done|]. split; [by exists a|]. split; [by exists b|].
    split; [by exists c'|]. split; [by exists d|].
    assert (forall (f : string -> string) u, f <$> json_unesc s = Some u ->
      exists r, json_unesc s = Some r) as Hf by (intros f v (r & Hr & _)%fmap_Some; eauto).
    destruct ((a =? 13) && (8 <=? b)); [|by eapply Hf].
    destruct s as [|e1 [|e2 [|h5 [|h6 [|h7 [|h8 s4]]]]]]; try (by eapply Hf).
    destruct (between 92 92 e1 && between 117 117 e2 && (b <=? 11)) eqn:E12; [|by eapply Hf].
    destruct (low_surrogate h5 h6 h7 h8) as [lo|] eqn:El; [|by eapply Hf].
    apply andb_true_iff in E12 as [[E1 E2]%andb_true_iff _].
    apply fmap_Some in H as (r & Hr & _). eapply unesc_low; eauto.
  - destruct (between 0 31 c || between 34 34 c) eqn:E; [by intros [? ?]|].
    apply orb_false_iff in E as [E0 E34]. intros H%fmap_is_Some.
    right. right. auto.
Qed.

Lemma scan_string_body b rest :
  json_body b -> scan_string (b +:+ String quote_char rest) = Some (b, rest).
Proof.
  revert rest. induction b as [b IH] using str_ind_len. intros rest Hb.
  destruct b as [|c b]; [done|].
  destruct (body_cases c b Hb) as [(-> & e & b' & -> & [d Hd] & Hb')|
    [(-> & e & h1 & h2 & h3 & h4 & b' & -> & Hu & He & [x1 H1] & [x2 H2] & [x3 H3] & [x4 H4] & Hb')|
     (H92 & H0 & H34 & Hb')]]; cbn [String.append scan_string].
  - change (between 34 34 backslash) with false. change (between 92 92 backslash) with true.
    cbv iota. rewrite Hd, IH by (done || (simpl; lia)). done.
  - change (between 34 34 backslash) with false. change (between 92 92 backslash) with true.
    cbv iota. rewrite He, Hu, H1, H2, H3, H4. cbn [mbind option_bind].
    rewrite IH by (done || (simpl; lia)). done.
  - rewrite H34, H92, H0, IH by (done || (simpl; lia)). done.
Qed.

Lemma skip_ws_app w s : json_ws w -> skip_ws (w +:+ s) = skip_ws s.
Proof.
  unfold json_ws. induction w as [|c w IH]; [done|]. cbn [str_forall String.append skip_ws].
  intros [Hc Hw]%andb_true_iff. unfold is_ws. rewrite Hc. by apply IH.
Qed.

(** a text begins with a character that is neither white space nor a closing bracket *)
Definition starts (s : string) : Prop :=
  exists c s', s = String c s' /\ is_ws c = false /\ between 93 93 c = false
  /\ between 125 125 c = false.

Lemma skip_ws_starts s r : starts s -> skip_ws (s +:+ r) = s +:+ r.
Proof. intros (c & s' & -> & Hc & _). cbn [String.append skip_ws]. by rewrite Hc. Qed.

Lemma starts_nonempty s : starts s -> 0 < String.length s.
Proof. intros (c & s' & -> & _). simpl. lia. Qed.

(** ** Lemmas: numbers *)

(** what may follow a number *)
Definition num_end (s : string) : bool :=
  match s with
  | String c _ => negb (is_digit c || between 46 46 c || between 101 101 c || between 69 69 c)
  | EmptyString => true
  end.

Definition no_digit (s : string) : bool :=
  match s with String c _ => negb (is_digit c) | EmptyString => true end.

Lemma span_digits_app d r :
  str_forall is_digit d = true -> no_digit r = true -> span_digits (d +:+ r) = (d, r).
Proof.
  intros Hd Hr. induction d as [|c d IH]; cbn [String.append span_digits].
  - destruct r as [|c r]; [done|]. simpl in Hr. apply negb_true_iff in Hr. cbn [span_digits].
    by rewrite Hr.
  - simpl in Hd. apply andb_true_iff in Hd as [Hc Hd]. rewrite Hc, IH by done. done.
Qed.

Lemma scan_digits_app d r :
  json_digits d -> no_digit r = true -> scan_digits (d +:+ r) = Some (d, r).
Proof.
  intros [Hd Hne] Hr. unfold scan_digits. rewrite span_digits_app by done. by destruct d.
Qed.

Lemma digit_range c : between 49 57 c = true -> is_digit c = true /\ between 48 48 c = false.
Proof. destruct c as [[] [] [] [] [] [] [] []]; done. Qed.

Lemma num_end_no_digit r : num_end r = true -> no_digit r = true.
Proof. destruct r as [|c r]; [done|]. simpl. by destruct (is_digit c). Qed.

Lemma exp_tail e r : json_exp e -> num_end r = true -> 
  no_digit (e +:+ r) = true /\ match e +:+ r with String c _ => between 46 46 c = false | _ => True end.
Proof.
  intros [->|(x & g & d & -> & [-> | ->] & _)] Hr; [|done..]. cbn [String.append].
  split; [by apply num_end_no_digit|]. destruct r as [|c r]; [done|]. simpl in Hr.
  by destruct (is_digit c), (between 46 46 c).
Qed.

Lemma scan_exp_app e r : json_exp e -> num_end r = true -> scan_exp (e +:+ r) = Some (e, r).
Proof.
  intros [->|(x & g & d & -> & Hx & Hg & Hd)] Hr.
  { destruct r as [|c r]; [done|]. simpl in Hr |- *.
    by destruct (is_digit c), (between 46 46 c), (between 101 101 c), (between 69 69 c). }
  pose proof (num_end_no_digit _ Hr) as Hn.
  assert (exists c d', d = String c d' /\ is_sign c = false) as (c & d' & -> & Hc).
  { destruct Hd as [Hd Hne]. destruct d as [|c d']; [done|]. exists c, d'. split; [done|].
    simpl in Hd. apply andb_true_iff in Hd as [Hd _]. clear -Hd.
    destruct c as [[] [] [] [] [] [] [] []]; done. }
  destruct Hx as [-> | ->], Hg as [->|[-> | ->]]; cbn [String.append scan_exp];
    repeat match goal with |- context [between ?a ?b ?x] =>
      is_constructor x || (let v := eval vm_compute in (between a b x) in
        match v with true => idtac | false => idtac end; change (between a b x) with v) end;
    cbn [orb]; try rewrite Hc.
  all: try (change (is_sign "+") with true); try (change (is_sign "-") with true); cbv iota.
  all: change (String c (d' +:+ r)) with (String c d' +:+ r); by rewrite scan_digits_app.
Qed.

Lemma scan_frac_app f e r :
  json_frac f -> json_exp e -> num_end r = true ->
  scan_frac (f +:+ e +:+ r) = Some (f, e +:+ r).
Proof.
  intros Hf He Hr. destruct (exp_tail e r He Hr) as [Hn Hd].
  destruct Hf as [->|(d & -> & Hds)].
  - cbn [String.append]. destruct (e +:+ r) as [|c s]; [done|]. cbn [scan_frac]. by rewrite Hd.
  - rewrite str_app_assoc.
    change (scan_frac ("." +:+ d +:+ e +:+ r))
      with (p ← scan_digits (d +:+ e +:+ r); Some ("." +:+ p.1, p.2)).
    by rewrite scan_digits_app.
Qed.

(** a fraction or an exponent does not begin with a digit *)
Lemma frac_no_digit f e r :
  json_frac f -> json_exp e -> num_end r = true -> no_digit (f +:+ e +:+ r) = true.
Proof.
  intros [->|(d & -> & _)] He Hr; [|done]. exact (proj1 (exp_tail e r He Hr)).
Qed.

Lemma scan_int_app i s : json_int i -> no_digit s = true -> scan_int (i +:+ s) = Some (i, s).
Proof.
  intros [->|(c & d & -> & Hc & Hd)] Hs; [done|].
  destruct (digit_range c Hc) as [Hdc H0]. cbn [String.append scan_int]. rewrite H0, Hc.
  change (String c (d +:+ s)) with (String c d +:+ s).
  rewrite span_digits_app; [done| |done]. simpl. by rewrite Hdc.
Qed.

Lemma int_no_minus i s : json_int i ->
  match i +:+ s with String c _ => between 45 45 c = false | _ => True end.
Proof.
  intros [->|(c & d & -> & Hc & _)]; [done|]. simpl. clear -Hc.
  destruct c as [[] [] [] [] [] [] [] []]; done.
Qed.

Lemma scan_number_app t r : json_number t -> num_end r = true -> scan_number (t +:+ r) = Some (t, r).
Proof.
  intros (sg & i & f & e & -> & Hs & Hi & Hf & He) Hr.
  pose proof (int_no_minus i (f +:+ e +:+ r) Hi) as Hm.
  assert (scan_number ((sg +:+ i +:+ f +:+ e) +:+ r)
          = (i' ← scan_int (i +:+ f +:+ e +:+ r); f' ← scan_frac i'.2; e' ← scan_exp f'.2;
             Some (sg +:+ i'.1 +:+ f'.1 +:+ e'.1, e'.2))) as ->.
  { rewrite !str_app_assoc. destruct Hs as [-> | ->]; [|done]. cbn [String.append].
    unfold scan_number. destruct (i +:+ f +:+ e +:+ r) as [|c s]; [done|]. by rewrite Hm. }
  rewrite scan_int_app by (done || by apply frac_no_digit). cbn [mbind option_bind fst snd].
  rewrite scan_frac_app by done. cbn [mbind option_bind fst snd].
  rewrite scan_exp_app by done. done.
Qed.

(** a number begins with a minus or a digit *)
Lemma number_start t : json_number t ->
  exists c s, t = String c s /\ (between 45 45 c || between 48 57 c) = true.
Proof.
  intros (sg & i & f & e & -> & [-> | ->] & Hi & _).
  - destruct Hi as [->|(c & d & -> & Hc & _)]; eexists _, _; (split; [reflexivity|]); [done|].
    clear -Hc. destruct c as [[] [] [] [] [] [] [] []]; done.
  - eexists _, _. split; [reflexivity|]. done.
Qed.

(** ** The parser reads every text of a tree *)

Lemma json_is_start j s : json_is j s -> starts s.
Proof.
  unfold starts. destruct j as [|b|t|b|l|l]; cbn [json_is].
  - intros ->. eexists _, _. split; [reflexivity|done].
  - intros ->. destruct b; eexists _, _; (split; [reflexivity|done]).
  - intros [-> (c & s' & -> & Hc)%number_start]. eexists _, _. split; [reflexivity|]. clear -Hc.
    destruct c as [[] [] [] [] [] [] [] []]; done.
  - intros [-> _]. eexists _, _. split; [reflexivity|done].
  - destruct l; [intros (w & _ & ->)|intros (es & -> & _)]; eexists _, _; (split; [reflexivity|done]).
  - destruct l; [intros (w & _ & ->)|intros (es & -> & _)]; eexists _, _; (split; [reflexivity|done]).
Qed.

(** the parser reads a tree's texts, given the fuel of their length *)
Definition reads (j : jval) : Prop :=
  forall s rest n, json_is j s -> num_end rest = true -> String.length s <= n ->
  jp_value n (s +:+ rest) = Some (j, rest).

(** what follows a value in a list ends a number *)
Lemma ws_num_end w s : json_ws w -> num_end s = true -> num_end (w +:+ s) = true.
Proof.
  unfold json_ws. destruct w as [|c w]; [done|]. cbn [str_forall String.append num_end].
  intros [Hc _]%andb_true_iff _. clear -Hc. destruct c as [[] [] [] [] [] [] [] []]; done.
Qed.

Lemma all2_cons {A B} (P : A -> B -> Prop) x l es :
  all2 P (x :: l) es -> exists e es', es = e :: es' /\ P x e /\ all2 P l es'.
Proof. destruct es as [|e es']; [done|]. intros [? ?]. eauto. Qed.
Lemma all2_nil {A B} (P : A -> B -> Prop) es : all2 P [] es -> es = [].
Proof. by destruct es. Qed.

Lemma skip_comma s : skip_ws ("," +:+ s) = String comma s.
Proof. done. Qed.

Lemma reads_elems l : Forall reads l -> l <> [] -> forall es rest n,
  all2 (fun j e => elem_is (json_is j) e) l es -> String.length (join "," es) < n ->
  jp_elems n (join "," es +:+ String (chr 93) rest) = Some (l, rest).
Proof.
  intros HF Hne. induction HF as [|j l Hj HF IH]; [done|]. clear Hne. intros es rest n H2 Hn.
  apply all2_cons in H2 as (e & es' & -> & (w1 & t & w2 & H1 & Ht & Hw2 & ->) & H2).
  pose proof (json_is_start _ _ Ht) as Hst. destruct n as [|n]; [lia|].
  destruct l as [|j' l].
  { apply all2_nil in H2 as ->. cbn [join] in *. rewrite !str_length_app in Hn.
    cbn [jp_elems]. rewrite !str_app_assoc, skip_ws_app, skip_ws_starts by done.
    rewrite (Hj t _ n); [|done|by apply ws_num_end|lia]. cbn [mbind option_bind snd].
    rewrite skip_ws_app by done. done. }
  destruct (all2_cons _ _ _ _ H2) as (e' & es'' & -> & _).
  change (join "," ((w1 +:+ t +:+ w2) :: e' :: es''))
    with ((w1 +:+ t +:+ w2) +:+ "," +:+ join "," (e' :: es'')) in *.
  rewrite !str_length_app in Hn. cbn [String.length] in Hn. cbn [jp_elems].
  rewrite !str_app_assoc, skip_ws_app, skip_ws_starts by done.
  rewrite (Hj t _ n); [|done|by apply ws_num_end|lia]. cbn [mbind option_bind snd fst].
  rewrite skip_ws_app, skip_comma by done. change (between 44 44 comma) with true. cbv iota.
  rewrite (IH ltac:(done) (e' :: es'') rest n H2) by lia. done.
Qed.

Lemma after_quote k r : after_lit (String quote_char "") (quoted k +:+ r) = Some (k +:+ String quote_char r).
Proof. unfold quoted. cbn. by rewrite str_app_assoc. Qed.

(** one member of an object *)
Definition jp_member (n : nat) (s : string) : option (string * jval * string) :=
  q ← after_lit (String quote_char "") (skip_ws s);
  k ← scan_string q;
  c ← after_lit ":" (skip_ws k.2);
  v ← jp_value n (skip_ws c);
  Some (k.1, v.1, v.2).

Lemma jp_members_unfold n s :
  jp_members (S n) s
  = (m ← jp_member n s;
     match skip_ws m.2 with
     | String c r =>
         if between 44 44 c then p ← jp_members n r; Some (m.1 :: p.1, p.2)
         else if between 125 125 c then Some ([m.1], r)
         else None
     | EmptyString => None
     end).
Proof.
  unfold jp_member. cbn [jp_members].
  destruct (after_lit _ (skip_ws s)) as [q|]; [|done]. cbn [mbind option_bind].
  destruct (scan_string q) as [p|]; [|done]. cbn [mbind option_bind].
  destruct (after_lit _ (skip_ws p.2)) as [c|]; [|done]. cbn [mbind option_bind].
  by destruct (jp_value n (skip_ws c)) as [v|].
Qed.

Lemma member_read k j e tail n :
  reads j -> member_is k (json_is j) e -> num_end tail = true -> String.length e <= n ->
  exists w, json_ws w /\ jp_member n (e +:+ tail) = Some (k, j, w +:+ tail).
Proof.
  intros Hj (w1 & w2 & w3 & t & w4 & H1 & Hk & Hw2 & Hw3 & Ht & Hw4 & ->) Htail Hn.
  pose proof (json_is_start _ _ Ht) as Hst. rewrite !str_length_app in Hn. exists w4.
  split; [done|]. unfold jp_member.
  rewrite !str_app_assoc, skip_ws_app, skip_ws_starts
    by (done || (eexists _, _; split; [reflexivity|done])).
  rewrite after_quote. cbn [mbind option_bind]. rewrite scan_string_body by done.
  cbn [mbind option_bind snd]. rewrite skip_ws_app by done.
  change (after_lit ":" (skip_ws (":" +:+ w3 +:+ t +:+ w4 +:+ tail)))
    with (Some (w3 +:+ t +:+ w4 +:+ tail)). cbn [mbind option_bind].
  rewrite skip_ws_app, skip_ws_starts by done.
  rewrite (Hj t _ n); [done|done|by apply ws_num_end|lia].
Qed.

Lemma reads_members l : Forall (fun kj => reads kj.2) l -> l <> [] -> forall es rest n,
  all2 (fun kj e => member_is kj.1 (json_is kj.2) e) l es -> String.length (join "," es) < n ->
  jp_members n (join "," es +:+ String (chr 125) rest) = Some (l, rest).
Proof.
  intros HF Hne. induction HF as [|[k j] l Hj HF IH]; [done|]. clear Hne. intros es rest n H2 Hn.
  apply all2_cons in H2 as (e & es' & -> & He & H2). cbn [fst snd] in *.
  destruct n as [|n]; [lia|]. rewrite jp_members_unfold. destruct l as [|[k' j'] l].
  - apply all2_nil in H2 as ->. cbn [join] in *.
    destruct (member_read k j e (String (chr 125) rest) n Hj He) as (w & Hw & ->); [done|lia|].
    cbn [mbind option_bind fst snd]. by rewrite skip_ws_app.
  - destruct (all2_cons _ _ _ _ H2) as (e' & es'' & -> & _).
    change (join "," (e :: e' :: es'')) with (e +:+ "," +:+ join "," (e' :: es'')) in *.
    rewrite !str_length_app in Hn. cbn [String.length] in Hn.
    rewrite !(str_app_assoc e), (str_app_assoc ",").
    destruct (member_read k j e ("," +:+ join "," (e' :: es'') +:+ String (chr 125) rest) n Hj He)
      as (w & Hw & ->); [done|lia|].
    cbn [mbind option_bind fst snd]. rewrite skip_ws_app, skip_comma by done.
    change (between 44 44 comma) with true. cbv iota.
    rewrite (IH ltac:(done) (e' :: es'') rest n H2) by lia. done.
Qed.

(** a text inside brackets does not start with the closing one *)
Lemma elems_start l es r :
  l <> [] -> all2 (fun j e => elem_is (json_is j) e) l es ->
  after_lit "]" (skip_ws (join "," es +:+ r)) = None.
Proof.
  intros Hne H2. destruct l as [|j l]; [done|].
  apply all2_cons in H2 as (e & es' & -> & (w1 & t & w2 & H1 & Ht & _ & ->) & _).
  assert (exists r', join "," ((w1 +:+ t +:+ w2) :: es') +:+ r = w1 +:+ t +:+ r') as [r' ->].
  { destruct es' as [|e' es']; cbn [join]; rewrite !str_app_assoc; eauto. }
  pose proof (json_is_start _ _ Ht) as Hst. rewrite skip_ws_app, skip_ws_starts by done.
  destruct Hst as (c & s & -> & _ & Hc & _). cbn. clear -Hc.
  destruct c as [[] [] [] [] [] [] [] []]; done.
Qed.

Lemma members_start l es r :
  l <> [] -> all2 (fun kj e => member_is kj.1 (json_is kj.2) e) l es ->
  after_lit "}" (skip_ws (join "," es +:+ r)) = None.
Proof.
  intros Hne H2. destruct l as [|[k j] l]; [done|].
  apply all2_cons in H2 as (e & es' & -> & (w1 & w2 & w3 & t & w4 & H1 & _ & _ & _ & _ & _ & ->) & _).
  cbn [fst]. set (rest := w2 +:+ ":" +:+ w3 +:+ t +:+ w4).
  assert (exists r', join "," ((w1 +:+ quoted k +:+ rest) :: es') +:+ r
                     = w1 +:+ quoted k +:+ r') as [r' ->].
  { destruct es' as [|e' es']; cbn [join]; rewrite !str_app_assoc; eauto. }
  rewrite skip_ws_app, skip_ws_starts by (done || (eexists _, _; split; [reflexivity|done])). done.
Qed.

(** the parser on a bracket *)
Lemma jp_array n s :
  jp_value (S n) ("[" +:+ s)
  = match after_lit "]" (skip_ws s) with
    | Some r => Some (JArr [], r)
    | None => p ← jp_elems n s; Some (JArr p.1, p.2)
    end.
Proof. done. Qed.
Lemma jp_object n s :
  jp_value (S n) ("{" +:+ s)
  = match after_lit "}" (skip_ws s) with
    | Some r => Some (JObj [], r)
    | None => p ← jp_members n s; Some (JObj p.1, p.2)
    end.
Proof. done. Qed.

Lemma jp_number n t rest :
  json_number t -> num_end rest = true -> jp_value (S n) (t +:+ rest) = Some (JNum t, rest).
Proof.
  intros Ht Hr. pose proof (scan_number_app t rest Ht Hr) as Hscan.
  destruct (number_start t Ht) as (c & s & -> & Hc). cbn [String.append jp_value] in *.
  assert (between 123 123 c = false /\ between 91 91 c = false /\ between 34 34 c = false
    /\ forall r, after_lit "null" (String c r) = None /\ after_lit "true" (String c r) = None
       /\ after_lit "false" (String c r) = None) as (-> & -> & -> & Hlit).
  { clear -Hc. destruct c as [[] [] [] [] [] [] [] []]; done. }
  destruct (Hlit (s +:+ rest)) as (-> & -> & ->). by rewrite Hscan.
Qed.

Lemma json_reads j : reads j.
Proof.
  induction j as [|b|t|b|l HF|l HF] using jval_ind'; intros s rest n His Hr Hn;
    pose proof (starts_nonempty _ (json_is_start _ _ His)) as Hpos;
    (destruct n as [|n]; [lia|]); cbn [json_is] in His.
  - by subst.
  - subst. by destruct b.
  - destruct His as [-> Ht]. by apply jp_number.
  - destruct His as [-> Hb]. unfold quoted.
    change (jp_value (S n) (String quote_char (b +:+ String quote_char "") +:+ rest))
      with (p ← scan_string ((b +:+ String quote_char "") +:+ rest); Some (JStr p.1, p.2)).
    rewrite str_app_assoc. change (String quote_char "" +:+ rest) with (String quote_char rest).
    by rewrite scan_string_body.
  - destruct l as [|j l].
    { destruct His as (w & Hw & ->). rewrite !str_app_assoc, jp_array, skip_ws_app by done. done. }
    destruct His as (es & -> & H2). rewrite !str_length_app in Hn. cbn [String.length] in Hn.
    rewrite !str_app_assoc, jp_array, (elems_start (j :: l)) by done.
    change ("]" +:+ rest) with (String (chr 93) rest).
    by rewrite (reads_elems (j :: l) HF ltac:(done) es rest n H2) by lia.
  - destruct l as [|kj l].
    { destruct His as (w & Hw & ->). rewrite !str_app_assoc, jp_object, skip_ws_app by done. done. }
    destruct His as (es & -> & H2). rewrite !str_length_app in Hn. cbn [String.length] in Hn.
    rewrite !str_app_assoc, jp_object, (members_start (kj :: l)) by done.
    change ("}" +:+ rest) with (String (chr 125) rest).
    by rewrite (reads_members (kj :: l) HF ltac:(done) es rest n H2) by lia.
Qed.

(** a text of a tree between white space is read as the tree *)
Lemma json_Decode_is j s w1 w2 :
  json_is j s -> json_ws w1 -> json_ws w2 -> json_Decode (w1 +:+ s +:+ w2) = Ok (j, w2).
Proof.
  intros Hj H1 H2. pose proof (json_is_start _ _ Hj) as Hst.
  unfold json_Decode. rewrite skip_ws_app, skip_ws_starts by done.
  assert (jp_value (String.length (s +:+ w2)) (s +:+ w2) = Some (j, w2)) as Hp.
  { apply json_reads; [done| |rewrite str_length_app; lia].
    rewrite <- (str_app_nil_r w2). by apply ws_num_end. }
  destruct Hst as (c & s' & -> & _). cbn [String.append] in *. by rewrite Hp.
Qed.

Lemma json_parse_is j s w1 w2 :
  json_is j s -> json_ws w1 -> json_ws w2 -> json_parse (w1 +:+ s +:+ w2) = Ok j.
Proof.
  intros Hj H1 H2. unfold json_parse. rewrite (json_Decode_is j) by done.
  rewrite <- (str_app_nil_r w2), skip_ws_app by done. done.
Qed.
