(* ===== verification/Jsonpb.v ===== *)
(** * Marshalling protocol buffers to JSON ([jsonpb.go])

    The copy of the library's marshaler the codecs use, with its option to leave 64-bit
    integers unquoted.  The Go code walks messages by reflection; here a message is the tree
    of values that reflection shows, with what the generated code and the protobuf library say of
    its fields.  Every function yields the writes it makes, in order, and its result. *)
From S2P Require Import Prelude Message Json.

(** ** What reflection shows *)

(** [proto.Properties] of a field, as its tag parses *)
Inductive properties : Type :=
| Props (Name OrigName JSONName Enum : string) (Required Repeated : bool)
        (MapKeyProp MapValProp : option properties).

Definition pr_Name (p : properties) : string := let '(Props x _ _ _ _ _ _ _) := p in x.
Definition pr_OrigName (p : properties) : string := let '(Props _ x _ _ _ _ _ _) := p in x.
Definition pr_JSONName (p : properties) : string := let '(Props _ _ x _ _ _ _ _) := p in x.
Definition pr_Enum (p : properties) : string := let '(Props _ _ _ x _ _ _ _) := p in x.
Definition pr_Required (p : properties) : bool := let '(Props _ _ _ _ x _ _ _) := p in x.
Definition pr_Repeated (p : properties) : bool := let '(Props _ _ _ _ _ x _ _) := p in x.
Definition pr_MapKeyProp (p : properties) : option properties :=
  let '(Props _ _ _ _ _ _ x _) := p in x.
Definition pr_MapValProp (p : properties) : option properties :=
  let '(Props _ _ _ _ _ _ _ x) := p in x.
Definition with_JSONName (p : properties) (j : string) : properties :=
  let '(Props n o _ e rq rp mk mv) := p in Props n o j e rq rp mk mv.

Definition no_props : properties := Props "" "" "" "" false false None None.

(** a field of a generated struct; [fi_tag] is whether it has a protobuf tag *)
Record field_info : Type := FieldInfo {
  fi_Name : string;
  fi_PkgPath : string;
  fi_tag : bool;
  fi_props : properties;
}.

(** a registered extension of a message: its number and name, whether the message has it and
    what fetching it returns but the value *)
Record ext_info : Type := ExtInfo {
  ei_id : Z;
  ei_Name : string;
  ei_has : bool;
  ei_get : option goerr;
  ei_props : properties;
}.

(** a message type: the name of a well-known type it has, and what a custom marshaler of it
    returns *)
Record msg_info : Type := MsgInfo {
  mi_wkt : option string;
  mi_MarshalJSONPB : option (res string);
}.

(** A value, by its kind.  An enumeration carries what its [String] method returns, and whether it is
    the well-known [NullValue].  [VOneof] is the interface of a oneof field, nil or holding
    a struct with one field.  Slices of bytes, other slices, maps and pointers may be nil; no type that
    protoc generates points to a pointer. *)
Inductive gval : Type :=
| VBool (b : bool)
| VInt32 (z : Z) | VInt64 (z : Z) | VUint32 (z : Z) | VUint64 (z : Z)
| VFloat32 (f : spec_float) | VFloat64 (f : spec_float)
| VString (s : string)
| VEnum (null : bool) (str : string) (z : Z)
| VBytes (b : slice)
| VSlice (l : option (list gval))
| VMap (m : option (list (gval * gval)))
| VPtr (p : option gval)
| VOneof (o : option (field_info * gval))
| VMsg (info : msg_info) (fields : list (field_info * gval)) (exts : list (ext_info * gval)).

(** ** The settings and the environment *)

(** [AnyResolver], like the registry of message types, turns a type URL into a fresh message;
    what matters of it is what unmarshalling bytes into it gives. *)
Definition resolver : Type := string -> res (bytes -> res gval).

Record Marshaler : Type := MkMarshaler {
  mr_EnumsAsInts : bool;
  mr_EmitDefaults : bool;
  mr_Indent : string;
  mr_OrigName : bool;
  mr_AnyResolver : option resolver;
  mr_EmitUInt64Unquoted : bool;
}.

(** [MessageType] is the registry of the protobuf library; the texts of finite floats are the
    standard library's, and so are the objects of raw messages: [json_add_type b url] is [b] read
    as one, with the member [@type] set, printed again with the indentation given. *)
Class JsonpbEnv := {
  MessageType : string -> option (bytes -> res gval);
  json_float32 : spec_float -> string;
  json_float64 : spec_float -> string;
  json_add_type : string -> string -> option (string * string) -> res string;
}.

(** ** Writes

    [errWriter]: after a failed write nothing is written any more.  A function of the marshaler is
    the list of its writes and of the points where it returns early if one has failed
    ([return out.err]), with its own result: [None] when the fuel for nested [Any] messages
    ran out. *)
Inductive wact : Type := Write (s : string) | CheckErr.

#[export] Instance wact_eq_dec : EqDecision wact.
Proof. solve_decision. Defined.

Definition trace : Type := list wact * option (res unit).

Definition t_ret : trace := ([], Some (Ok tt)).
Definition t_fail (e : goerr) : trace := ([], Some (Err e)).
Definition t_panic : trace := ([], Some Panic).
Definition t_end : trace := ([CheckErr], Some (Ok tt)).
Definition out_write (s : string) : trace := ([Write s], Some (Ok tt)).
Definition t_seq (a b : trace) : trace :=
  match a.2 with
  | Some (Ok _) => (a.1 ++ b.1, b.2)
  | _ => a
  end.
Notation "a >;> b" := (t_seq a b) (at level 60, right associativity) : go_scope.

Definition t_of_res (r : res string) (k : string -> trace) : trace :=
  match r with Ok s => k s | Err e => t_fail e | Panic => t_panic end.

Record errWriter (W : Type) : Type := ErrWriter { ew_writer : W; ew_err : option goerr }.
Arguments ErrWriter {W} ew_writer ew_err.
Arguments ew_writer {W} e.
Arguments ew_err {W} e.

Section Writer.
Context {W : Type} (Writer_Write : W -> string -> W * option goerr).

Definition ew_write (w : errWriter W) (str : string) : errWriter W :=
  match ew_err w with
  | Some _ => w
  | None => let '(x, err) := Writer_Write (ew_writer w) str in ErrWriter x err
  end.

(** the writer after the writes, and the error of an early return *)
Fixpoint run_acts (w : errWriter W) (acts : list wact) : errWriter W * option goerr :=
  match acts with
  | [] => (w, None)
  | Write s :: acts' => run_acts (ew_write w s) acts'
  | CheckErr :: acts' =>
      match ew_err w with Some e => (w, Some e) | None => run_acts w acts' end
  end.

Definition run_trace (w : W) (t : trace) : W * option (res unit) :=
  let '(ew, early) := run_acts (ErrWriter w None) t.1 in
  (ew_writer ew, match early with Some e => Some (Err e) | None => t.2 end).
End Writer.

(** [bytes.Buffer] takes every write *)
Definition buffer_Write (b : string) (s : string) : string * option goerr := (b +:+ s, None).

(** ** Scalars, times and keys *)

Section Marshal.
Context `{JE : JsonpbEnv} (m : Marshaler).

Definition indented : bool := negb (str_empty (mr_Indent m)).
Definition t_ind (ss : list string) : trace :=
  if indented then (map Write ss, Some (Ok tt)) else t_ret.
Definition nl : string := String (chr 10) "".

(** [json.Marshal] of a scalar *)
Definition json_scalar (v : gval) : res string :=
  match v with
  | VBool b => Ok (if b then "true" else "false")
  | VInt32 z | VInt64 z | VUint32 z | VUint64 z | VEnum _ _ z => Ok (pretty z)
  | VFloat32 f => Ok (json_float32 f)
  | VFloat64 f => Ok (json_float64 f)
  | VString s => Ok (json_string s)
  | VBytes b => Ok (json_bytes b)
  | _ => Panic
  end.

Definition is_int64 (v : gval) : bool :=
  match v with VInt64 _ | VUint64 _ => true | _ => false end.

(** the last part of [marshalValue] *)
Definition marshal_default (v : gval) : trace :=
  t_of_res (json_scalar v) (fun b =>
    let needToQuote := negb (has_prefix (String quote_char "") b)
                       && (negb (mr_EmitUInt64Unquoted m) && is_int64 v) in
    (if needToQuote then out_write (String quote_char "") else t_ret) >;>
    out_write b >;>
    (if needToQuote then out_write (String quote_char "") else t_ret) >;> t_end).

Definition non_finite (f : spec_float) : option string :=
  match f with
  | S754_infinity false => Some (quoted "Infinity")
  | S754_infinity true => Some (quoted "-Infinity")
  | S754_nan => Some (quoted "NaN")
  | _ => None
  end.

Definition marshal_float (f : spec_float) (v : gval) : trace :=
  match non_finite f with
  | Some sval => out_write sval >;> t_end
  | None => marshal_default v
  end.

(** an enumeration, where the field's properties name one *)
Definition marshal_enum (str : string) (z : Z) : trace :=
  let isKnownEnum := negb (String.eqb str (pretty z)) in
  (if isKnownEnum then out_write (String quote_char "") else t_ret) >;>
  out_write str >;>
  (if isKnownEnum then out_write (String quote_char "") else t_ret) >;> t_end.

Definition as_enum (prop : properties) : bool :=
  negb (mr_EnumsAsInts m) && negb (str_empty (pr_Enum prop)).

(** [strings.TrimSuffix] *)
Fixpoint trim_suffix (suffix s : string) : string :=
  if String.eqb s suffix then ""
  else match s with EmptyString => "" | String c s' => String c (trim_suffix suffix s') end.

Fixpoint zeros (n : nat) : string := match n with O => "" | S k => String (chr 48) (zeros k) end.
Definition pad (n : nat) (s : string) : string := zeros (n - String.length s) +:+ s.

(** [%0nd]: the sign counts towards the width *)
Definition fmt_0d (n : nat) (z : Z) : string :=
  if bool_decide (z < 0)%Z then "-" +:+ pad (n - 1) (pretty (- z)%Z) else pad n (pretty z).

Definition secondInNanos : Z := 1000000000.

Definition trim_fraction (x : string) : string :=
  trim_suffix ".000" (trim_suffix "000" (trim_suffix "000" x)).

Definition marshal_duration (s ns : Z) : trace :=
  if bool_decide (ns <= - secondInNanos)%Z || bool_decide (ns >= secondInNanos)%Z
  then t_fail (Errorf "ns out of range (%v, %v)")
  else if (bool_decide (s > 0)%Z && bool_decide (ns < 0)%Z)
          || (bool_decide (s < 0)%Z && bool_decide (ns > 0)%Z)
  then t_fail (Errorf "signs of seconds and nanos do not match")
  else
    let ns := if bool_decide (s < 0)%Z then (- ns)%Z else ns in
    out_write (String quote_char "") >;>
    out_write (trim_fraction (pretty s +:+ "." +:+ fmt_0d 9 ns)) >;>
    out_write ("s" +:+ String quote_char "") >;> t_end.

(** the proleptic Gregorian calendar in UTC: year, month and day of a day since 1970 *)
Definition civil (days : Z) : Z * Z * Z :=
  (let z := days + 719468 in
   let era := z / 146097 in
   let doe := z mod 146097 in
   let yoe := (doe - doe / 1460 + doe / 36524 - doe / 146096) / 365 in
   let doy := doe - (365 * yoe + yoe / 4 - yoe / 100) in
   let mp := (5 * doy + 2) / 153 in
   let d := doy - (153 * mp + 2) / 5 + 1 in
   let mon := if mp <? 10 then mp + 3 else mp - 9 in
   (yoe + era * 400 + (if mon <=? 2 then 1 else 0), mon, d))%Z.

(** package [time] counts seconds in a [uint64] from its zero year, -292277022399: a time before
    that is as much after the last one it can hold *)
Definition unixToAbsolute : Z := 9223372028715321600.
Definition wrap_seconds (s : Z) : Z := ((s + unixToAbsolute) mod 2 ^ 64 - unixToAbsolute)%Z.

(** [time.Unix(s, ns).UTC().Format("2006-01-02T15:04:05.000000000")] *)
Definition format_seconds (s : Z) : string :=
  let s := wrap_seconds s in
  let '(y, mon, d) := civil (s / 86400) in
  let t := (s mod 86400)%Z in
  (if bool_decide (y < 0)%Z then "-" +:+ fmt_0d 4 (- y) else fmt_0d 4 y)
  +:+ "-" +:+ fmt_0d 2 mon +:+ "-" +:+ fmt_0d 2 d +:+ "T"
  +:+ fmt_0d 2 (t / 3600)%Z +:+ ":" +:+ fmt_0d 2 (t / 60 mod 60)%Z
  +:+ ":" +:+ fmt_0d 2 (t mod 60)%Z.

Definition format_time (s ns : Z) : string := format_seconds s +:+ "." +:+ fmt_0d 9 ns.

Definition marshal_timestamp (s ns : Z) : trace :=
  if bool_decide (ns < 0)%Z || bool_decide (ns >= secondInNanos)%Z
  then t_fail (Errorf "ns out of range [0, %v)")
  else
    out_write (String quote_char "") >;>
    out_write (trim_fraction (format_time s ns)) >;>
    out_write ("Z" +:+ String quote_char "") >;> t_end.

(** [Field(i).Int()] *)
Definition field_int (v : gval) : res Z :=
  match v with VInt32 z | VInt64 z | VEnum _ _ z => Ok z | _ => Panic end.

(** the order of map keys ([mapKeys]) *)
Definition sprint (v : gval) : string :=
  match v with
  | VBool b => if b then "true" else "false"
  | VInt32 z | VInt64 z | VUint32 z | VUint64 z => pretty z
  | VString s => s
  | VEnum _ str _ => str
  | _ => ""
  end.

Definition Less (a b : gval) : bool :=
  match a, b with
  | VString s, VString t => String.ltb s t
  | VInt32 x, VInt32 y | VInt64 x, VInt64 y
  | VUint32 x, VUint32 y | VUint64 x, VUint64 y => (x <? y)%Z
  | _, _ => String.ltb (sprint a) (sprint b)
  end.

Section Sort.
Context {A K : Type} (less : K -> K -> bool).

Fixpoint insert_by (x : K * A) (l : list (K * A)) : list (K * A) :=
  match l with
  | [] => [x]
  | y :: l' => if less y.1 x.1 then y :: insert_by x l' else x :: l
  end.
Definition sort_by (l : list (K * A)) : list (K * A) := foldr insert_by [] l.
End Sort.

(** the text of a map key; what is not a string is made one *)
Definition key_text (k : gval) : res string :=
  let! b := json_scalar k in
  Ok (if has_prefix (String quote_char "") b then b else json_string b).

(** ** Names *)

Definition jsonProperties (f : field_info) : properties :=
  let prop := fi_props f in
  if mr_OrigName m || str_empty (pr_JSONName prop) then with_JSONName prop (pr_OrigName prop)
  else prop.

(** the type name a URL ends in *)
Fixpoint after_last_slash (s : string) : string :=
  match s with
  | EmptyString => ""
  | String c s' => if char_in s slash then (if Ascii.eqb c slash && negb (char_in s' slash) then s'
                                            else after_last_slash s') else s
  end.

Definition defaultResolveAny (typeUrl : string) : res (bytes -> res gval) :=
  match MessageType (after_last_slash typeUrl) with
  | None => Err (Errorf "unknown message type %q")
  | Some f => Ok f
  end.

Definition resolve_any (turl : string) (val : bytes) : res gval :=
  let! f := match mr_AnyResolver m with
            | Some r => r turl
            | None => defaultResolveAny turl
            end in
  f val.

(** ** The marshaler *)

Definition writeSep : trace := out_write (if indented then "," +:+ nl else ",").

Definition marshalTypeURL (indent typeURL : string) : trace :=
  t_ind [indent; mr_Indent m] >;> out_write (quoted "@type" +:+ ":") >;> t_ind [" "] >;>
  out_write (json_string typeURL) >;> t_end.

(** [value] is the call of [marshalValue] *)
Definition marshalField (prop : properties) (indent : string) (value : trace) : trace :=
  t_ind [indent; mr_Indent m] >;> out_write (String quote_char "") >;> out_write (pr_JSONName prop) >;>
  out_write (String quote_char ":") >;> t_ind [" "] >;> value.

(** fields, each with its separator if it is not the first; skipped ones are [None] *)
Fixpoint write_fields (firstField : bool) (fields : list (option trace)) : trace :=
  match fields with
  | [] => t_ret
  | None :: rest => write_fields firstField rest
  | Some f :: rest => (if firstField then t_ret else writeSep) >;> f >;> write_fields false rest
  end.

(** [IsNil] and the zero value of a kind, as the loop over fields has them *)
Definition is_zero (v : gval) : bool :=
  match v with
  | VBool b => negb b
  | VInt32 z | VInt64 z | VUint32 z | VUint64 z | VEnum _ _ z => bool_decide (z = 0)%Z
  | VFloat32 f | VFloat64 f => match f with S754_zero _ => true | _ => false end
  | VString s => str_empty s
  | VBytes None | VSlice None | VMap None | VPtr None => true
  | _ => false
  end.

Definition skip_field (f : field_info) (v : gval) : bool :=
  has_prefix "XXX_" (fi_Name f)
  || match v with VOneof None => true | _ => false end
  || (negb (mr_EmitDefaults m) && is_zero v).

(** elements of an array, and entries of a map, each a trace *)
Fixpoint write_elems (indent comma : string) (elems : list trace) : trace :=
  match elems with
  | [] => t_ret
  | e :: rest =>
      out_write comma >;> t_ind [nl; indent; mr_Indent m; mr_Indent m] >;> e >;>
      write_elems indent "," rest
  end.

Fixpoint write_entries (indent : string) (first : bool) (entries : list (gval * trace)) : trace :=
  match entries with
  | [] => t_ret
  | (k, value) :: rest =>
      (if first then t_ret else out_write ",") >;>
      t_ind [nl; indent; mr_Indent m; mr_Indent m] >;>
      t_of_res (key_text k) (fun s => out_write s >;> out_write ":" >;> t_ind [" "] >;> value) >;>
      write_entries indent false rest
  end.

(** a message with a custom marshaler *)
Definition marshal_custom (r : res string) (indent typeURL : string) : trace :=
  t_of_res r (fun b =>
    if str_empty typeURL then out_write b >;> t_end
    else t_of_res (json_add_type b typeURL
                     (if indented then Some (indent, mr_Indent m) else None))
           (fun b => out_write b >;> t_end)).

(** the braces of an object around its members *)
Definition marshal_braces (indent typeURL : string) (fields : list (option trace)) : trace :=
  out_write "{" >;> t_ind [nl] >;>
  (if str_empty typeURL then write_fields true fields
   else marshalTypeURL indent typeURL >;> write_fields false fields) >;>
  t_ind [nl; indent] >;> out_write "}" >;> t_end.

Definition is_wrapper (w : string) : bool :=
  bool_decide (w ∈ ["DoubleValue"; "FloatValue"; "Int64Value"; "UInt64Value"; "Int32Value";
                    "UInt32Value"; "BoolValue"; "StringValue"; "BytesValue"]).

(** [marshalObject] or [marshalValue] *)
Inductive mode : Type := AsObject (typeURL : string) | AsValue (prop : properties).

(** whether a message has a well-known type *)
Definition is_wkt (v : gval) : bool :=
  match v with VMsg info _ _ => bool_decide (is_Some (mi_wkt info)) | _ => false end.

(** [go] is the call of [marshalObject] or [marshalValue] on a part of the value, [nested] that on
    the message in an [Any], if there is fuel for it *)
Section Body.
Context (go : gval -> mode -> string -> trace)
  (nested : option (gval -> mode -> string -> trace)).

(** an object of a type URL and a value *)
Definition any_object (indent turl : string) (value : trace) : trace :=
  out_write "{" >;> t_ind [nl] >;> marshalTypeURL indent turl >;> writeSep >;>
  (if indented
   then out_write indent >;> out_write (mr_Indent m) >;> out_write (quoted "value" +:+ ": ")
   else out_write (quoted "value" +:+ ":")) >;>
  value >;> t_ind [nl; indent] >;> out_write "}" >;> t_end.

Definition marshalAny (fields : list (field_info * gval)) (indent : string) : trace :=
  match fields with
  | (_, VString turl) :: (_, VBytes val) :: _ =>
      match resolve_any turl (slice_bytes val) with
      | Err e => t_fail e
      | Panic => t_panic
      | Ok msg =>
          match nested with
          | None => ([], None)
          | Some nested =>
              if is_wkt msg
              then any_object indent turl (nested msg (AsObject "") (indent +:+ mr_Indent m))
              else nested msg (AsObject turl) indent
          end
      end
  | _ => t_panic
  end.

(** [f] of the first two fields, as [Field(i).Int()] reads them *)
Definition two_ints (fields : list (field_info * gval)) (f : Z -> Z -> trace) : trace :=
  match fields with
  | (_, a) :: (_, b) :: _ =>
      match field_int a, field_int b with Ok s, Ok ns => f s ns | _, _ => t_panic end
  | _ => t_panic
  end.

(** the well-known type [w]; [regular] is what any other message does *)
Definition marshal_wkt (w : string) (fields : list (field_info * gval)) (indent : string)
    (regular : trace) : trace :=
  if is_wrapper w then
    match fields with
    | (f, x) :: _ => go x (AsValue (fi_props f)) indent
    | [] => t_panic
    end
  else if String.eqb w "Any" then marshalAny fields indent
  else if String.eqb w "Duration" then two_ints fields marshal_duration
  else if String.eqb w "Struct" || String.eqb w "ListValue" then
    match fields with
    | (_, x) :: _ => go x (AsValue no_props) indent
    | [] => t_panic
    end
  else if String.eqb w "Timestamp" then two_ints fields marshal_timestamp
  else if String.eqb w "Value" then
    match fields with
    | (_, VOneof None) :: _ => t_fail (Errorf "nil Value")
    | (_, VOneof (Some (_, x))) :: _ => go x (AsValue no_props) indent
    | _ => t_panic
    end
  else regular.

(** the traces of a message's fields, none for a field left out *)
Definition field_trace (f : field_info) (x : gval) (indent : string) : trace :=
  let prop := jsonProperties f in marshalField prop indent (go x (AsValue prop) indent).

Definition field_traces (fields : list (field_info * gval)) (indent : string)
    : list (option trace) :=
  map (fun fx => let '(f, x) := fx in
    if skip_field f x then None
    else match x with
         | VOneof (Some (f', x')) => Some (field_trace f' x' indent)
         | _ => Some (field_trace f x indent)
         end) fields.

(** those of its extensions, by number *)
Definition ext_traces (exts : list (ext_info * gval)) (indent : string) : list (option trace) :=
  map snd (sort_by Z.ltb (map (fun ex => let '(e, x) := ex in
    (ei_id e,
     if ei_has e then
       Some match ei_get e with
            | Some err => t_fail err
            | None =>
                let prop := with_JSONName (ei_props e) ("[" +:+ ei_Name e +:+ "]") in
                marshalField prop indent (go x (AsValue prop) indent)
            end
     else None)) exts)).

Definition marshal_body (v : gval) (md : mode) (indent : string) : trace :=
  let inner := indent +:+ mr_Indent m in
  let obj_indent := match md with AsObject _ => indent | AsValue _ => inner end in
  let typeURL := match md with AsObject u => u | AsValue _ => "" end in
  let prop := match md with AsObject _ => no_props | AsValue p => p end in
  match v with
  | VPtr None => out_write "null" >;> t_end
  | VPtr (Some w) => go w md indent
  | VSlice l =>
      out_write "[" >;>
      write_elems indent ""
        (match l with Some l => map (fun x => go x (AsValue prop) inner) l | None => [] end) >;>
      t_ind [nl; indent; mr_Indent m] >;> out_write "]" >;> t_end
  | VEnum null str z =>
      if null then out_write "null" >;> t_end
      else if as_enum prop then marshal_enum str z else marshal_default v
  | VMap entries =>
      if as_enum prop then t_panic else
      let vprop := default prop (pr_MapValProp prop) in
      out_write "{" >;>
      write_entries indent true (sort_by Less
        (match entries with
         | Some l => map (fun kv => (kv.1, go kv.2 (AsValue vprop) inner)) l
         | None => []
         end)) >;>
      t_ind [nl; indent; mr_Indent m] >;> out_write "}" >;> t_end
  | VOneof _ => t_panic
  | VMsg info fields exts =>
      if as_enum prop then t_panic else
      match mi_MarshalJSONPB info with
      | Some r => marshal_custom r obj_indent typeURL
      | None =>
      let regular :=
        marshal_braces obj_indent typeURL
          (field_traces fields obj_indent ++ ext_traces exts obj_indent) in
      match mi_wkt info with
      | None => regular
      | Some w => marshal_wkt w fields obj_indent regular
      end
      end
  | VFloat32 f | VFloat64 f =>
      if as_enum prop then t_panic else marshal_float f v
  | _ => if as_enum prop then t_panic else marshal_default v
  end.

End Body.

(** [n] bounds the depth of [Any] messages in [Any] messages *)
Fixpoint marshal (n : nat) : gval -> mode -> string -> trace :=
  fix go (v : gval) (md : mode) (indent : string) {struct v} : trace :=
    marshal_body go (match n with O => None | S n' => Some (marshal n') end) v md indent.

(** ** Required fields ([checkRequiredFields]) *)

Fixpoint all_ok (l : list (res unit)) : res unit :=
  match l with
  | [] => Ok tt
  | r :: l' => let! _ := r in all_ok l'
  end.

Definition required_error : goerr := Errorf "required field %q is not set".

(** the check of one field, its value and properties; [below] are the checks of what it holds *)
Definition check_field (prop : properties) (v : gval) (below : list (res unit)) : res unit :=
  match v with
  | VMap (Some _) => all_ok below
  | VBytes None | VSlice None =>
      if negb (pr_Repeated prop) && pr_Required prop then Err required_error else Ok tt
  | VSlice (Some _) => if pr_Repeated prop then all_ok below else Ok tt
  | VPtr None => if pr_Required prop then Err required_error else Ok tt
  | VPtr (Some _) => all_ok below
  | _ => Ok tt
  end.

Definition field_skipped (f : field_info) : bool :=
  negb (str_empty (fi_PkgPath f)) || has_prefix "XXX_" (fi_Name f).

(** [checkRequiredFieldsInValue]: only a pointer to a message is one *)
Fixpoint checkRequiredFieldsInValue (v : gval) : res unit :=
  let below (x : gval) : list (res unit) :=
    match x with
    | VMap (Some l) => map (fun kv => checkRequiredFieldsInValue kv.2) l
    | VSlice (Some l) => map checkRequiredFieldsInValue l
    | VPtr (Some _) => [checkRequiredFieldsInValue x]
    | _ => []
    end in
  match v with
  | VPtr (Some (VMsg info fields exts)) =>
      if bool_decide (is_Some (mi_wkt info)) then Ok tt
      else
        let! _ := all_ok (map (fun fx => let '(f, x) := fx in
          if field_skipped f then Ok tt
          else match x with
               | VOneof None => Ok tt
               | VOneof (Some (f', x')) =>
                   if fi_tag f' then check_field (fi_props f') x' (below x') else Ok tt
               | _ => if fi_tag f then check_field (fi_props f) x (below x) else Ok tt
               end) fields) in
        all_ok (map (fun ex => let '(e, x) := ex in
          if ei_has e then
            match ei_get e with Some err => Err err | None => checkRequiredFieldsInValue x end
          else Ok tt) exts)
  | _ => Ok tt
  end.

Definition checkRequiredFields (pb : gval) : res unit :=
  checkRequiredFieldsInValue (VPtr (Some pb)).

(** ** [Marshal] and [MarshalToString] *)

Definition Marshal_trace (n : nat) (pb : option gval) : trace :=
  match pb with
  | None => t_fail (Errorf "Marshal called with nil")
  | Some v =>
      match checkRequiredFields v with
      | Ok _ => marshal n v (AsObject "") ""
      | Err e => t_fail e
      | Panic => t_panic
      end
  end.

Definition Marshal {W} (Writer_Write : W -> string -> W * option goerr) (n : nat) (out : W)
    (pb : option gval) : W * option (res unit) :=
  run_trace Writer_Write out (Marshal_trace n pb).

Definition MarshalToString (n : nat) (pb : option gval) : option (res string) :=
  match Marshal buffer_Write n "" pb with
  | (b, Some (Ok _)) => Some (Ok b)
  | (_, Some (Err e)) => Some (Err e)
  | (_, Some Panic) => Some Panic
  | (_, None) => None
  end.

End Marshal.
