(* ===== verification/JsonpbFacts.v ===== *)
(** * What the JSON marshaler of protocol buffers writes

    Induction on the values of [Jsonpb], the writes of a trace, and the marshaler on writers that
    fail. *)
From S2P Require Import Prelude Message Json Jsonpb.

(** ** Values: induction *)

Section Ind.
Context (P : gval -> Prop).
Context (HBool : forall b, P (VBool b)) (HInt32 : forall z, P (VInt32 z))
  (HInt64 : forall z, P (VInt64 z)) (HUint32 : forall z, P (VUint32 z))
  (HUint64 : forall z, P (VUint64 z)) (HFloat32 : forall f, P (VFloat32 f))
  (HFloat64 : forall f, P (VFloat64 f)) (HString : forall s, P (VString s))
  (HEnum : forall b s z, P (VEnum b s z)) (HBytes : forall b, P (VBytes b))
  (HSlice0 : P (VSlice None)) (HSlice : forall l, Forall P l -> P (VSlice (Some l)))
  (HMap0 : P (VMap None))
  (HMap : forall l, Forall (fun kv => P kv.2) l -> P (VMap (Some l)))
  (HPtr0 : P (VPtr None)) (HPtr : forall v, P v -> P (VPtr (Some v)))
  (HOneof0 : P (VOneof None)) (HOneof : forall f v, P v -> P (VOneof (Some (f, v))))
  (HMsg : forall info fields exts,
     Forall (fun fx => P fx.2
       /\ match fx.2 with VOneof (Some (_, x)) => P x | _ => True end) fields ->
     Forall (fun ex => P ex.2) exts -> P (VMsg info fields exts)).

Fixpoint gval_ind' (v : gval) : P v :=
  match v with
  | VBool b => HBool b | VInt32 z => HInt32 z | VInt64 z => HInt64 z
  | VUint32 z => HUint32 z | VUint64 z => HUint64 z | VFloat32 f => HFloat32 f
  | VFloat64 f => HFloat64 f | VString s => HString s | VEnum b s z => HEnum b s z
  | VBytes b => HBytes b
  | VSlice None => HSlice0
  | VSlice (Some l) => HSlice l
      ((fix go l : Forall P l := match l with
        | [] => Forall_nil _
        | x :: l' => Forall_cons _ _ _ (gval_ind' x) (go l')
        end) l)
  | VMap None => HMap0
  | VMap (Some l) => HMap l
      ((fix go l : Forall (fun kv => P kv.2) l := match l with
        | [] => Forall_nil _
        | kv :: l' => Forall_cons _ _ _ (gval_ind' kv.2) (go l')
        end) l)
  | VPtr None => HPtr0
  | VPtr (Some v) => HPtr v (gval_ind' v)
  | VOneof None => HOneof0
  | VOneof (Some (f, v)) => HOneof f v (gval_ind' v)
  | VMsg info fields exts => HMsg info fields exts
      ((fix go l : Forall (fun fx => P fx.2
           /\ match fx.2 with VOneof (Some (_, x)) => P x | _ => True end) l := match l with
        | [] => Forall_nil _
        | fx :: l' => Forall_cons _ _ _
            (conj (gval_ind' fx.2)
               (match fx.2 as x return match x with VOneof (Some (_, y)) => P y | _ => True end with
                | VOneof (Some (_, y)) => gval_ind' y
                | _ => I
                end)) (go l')
        end) fields)
      ((fix go l : Forall (fun ex => P ex.2) l := match l with
        | [] => Forall_nil _
        | ex :: l' => Forall_cons _ _ _ (gval_ind' ex.2) (go l')
        end) exts)
  end.
End Ind.

(** [P] of the parts of a value: what it holds directly, and what the oneofs of a message hold *)
Definition parts (P : gval -> Prop) (v : gval) : Prop :=
  match v with
  | VSlice (Some l) => Forall P l
  | VMap (Some l) => Forall (fun kv => P kv.2) l
  | VPtr (Some x) | VOneof (Some (_, x)) => P x
  | VMsg info fields exts =>
      Forall (fun fx => P fx.2
                /\ match fx.2 with VOneof (Some (_, x)) => P x | _ => True end) fields
      /\ Forall (fun ex => P ex.2) exts
  | _ => True
  end.

Lemma gval_parts_ind (P : gval -> Prop) : (forall v, parts P v -> P v) -> forall v, P v.
Proof. intros H. by induction v using gval_ind'; apply H. Qed.

Lemma Forall_mp {A} (P Q R : A -> Prop) l :
  Forall P l -> Forall Q l -> (forall x, P x -> Q x -> R x) -> Forall R l.
Proof. intros H1 H2 H. induction H1; inversion_clear H2; constructor; auto. Qed.

Lemma parts_mp (P Q R : gval -> Prop) v :
  parts P v -> parts Q v -> (forall x, P x -> Q x -> R x) -> parts R v.
Proof.
  intros HP HQ H. destruct v as [| | | | | | | | | |[l|]|[l|]|[x|]|[[f x]|]|info fields exts];
    simpl in *; auto; try (eapply Forall_mp; [exact HP|exact HQ|]; simpl; auto).
  destruct HP as [HP1 HP2], HQ as [HQ1 HQ2].
  split; [|eapply Forall_mp; [exact HP2|exact HQ2|]; simpl; auto].
  eapply Forall_mp; [exact HP1|exact HQ1|]. intros [f x] [H1 H2] [H3 H4]. simpl in *.
  split; [auto|]. destruct x as [| | | | | | | | | | | | |[[f1 y]|]|]; auto.
Qed.

(** ** Traces *)

Definition t_writes (t : trace) : list string :=
  omap (fun a => match a with Write s => Some s | CheckErr => None end) t.1.

Fixpoint concat_str (l : list string) : string :=
  match l with [] => "" | s :: l' => s +:+ concat_str l' end.

Definition t_text (t : trace) : string := concat_str (t_writes t).

Lemma concat_str_app a b : concat_str (a ++ b) = concat_str a +:+ concat_str b.
Proof. induction a as [|x a IH]; simpl; [done|]. by rewrite IH, str_app_assoc. Qed.

(** [t] goes through and writes [s] *)
Definition yields (t : trace) (s : string) : Prop := t.2 = Some (Ok tt) /\ t_text t = s.

Lemma yields_seq a b s :
  yields (a >;> b) s <-> exists s1 s2, yields a s1 /\ yields b s2 /\ s = s1 +:+ s2.
Proof.
  unfold yields, t_seq, t_text, t_writes. destruct a as [aa ar], b as [ba br]. simpl. split.
  - destruct ar as [[[]| |]|]; simpl; try (by intros [? _]). intros [-> <-].
    eexists _, _. split; [done|]. split; [done|]. by rewrite omap_app, concat_str_app.
  - intros (s1 & s2 & [-> <-] & [-> <-] & ->). simpl. split; [done|].
    by rewrite omap_app, concat_str_app.
Qed.

Lemma yields_write x s : yields (out_write x) s <-> s = x.
Proof. unfold yields, out_write, t_text. simpl. rewrite str_app_nil_r. naive_solver. Qed.
Lemma yields_end s : yields t_end s <-> s = "".
Proof. unfold yields, t_end, t_text. simpl. naive_solver. Qed.
Lemma yields_ret s : yields t_ret s <-> s = "".
Proof. unfold yields, t_ret, t_text. simpl. naive_solver. Qed.
Lemma yields_fail e s : yields (t_fail e) s <-> False.
Proof. unfold yields. simpl. naive_solver. Qed.
Lemma yields_panic s : yields t_panic s <-> False.
Proof. unfold yields. simpl. naive_solver. Qed.
Lemma yields_fuel s : yields ([], None) s <-> False.
Proof. unfold yields. simpl. naive_solver. Qed.

Definition ind_text (m : Marshaler) (ss : list string) : string :=
  if indented m then concat_str ss else "".

Lemma yields_ind m ss s : yields (t_ind m ss) s <-> s = ind_text m ss.
Proof.
  unfold yields, t_ind, ind_text, t_text, t_writes.
  destruct (indented m); simpl; [|naive_solver].
  assert (omap (fun a => match a with Write s => Some s | CheckErr => None end) (map Write ss)
          = ss) as -> by (induction ss as [|x ss IH]; [done|cbn; f_equal; exact IH]).
  naive_solver.
Qed.

Lemma yields_if (b : bool) t1 t2 s :
  yields (if b then t1 else t2) s <-> (if b then yields t1 s else yields t2 s).
Proof. by destruct b. Qed.

Create Rewrite HintDb yields_rw.
#[export] Hint Rewrite yields_seq yields_write yields_end yields_ret yields_fail yields_panic
  yields_fuel yields_ind : yields_rw.

(** a trace that goes through, taken apart *)
Ltac yields_inv :=
  repeat match goal with
  | H : yields (_ >;> _) _ |- _ => apply yields_seq in H as (? & ? & ? & H & ->)
  | H : yields (out_write _) _ |- _ => apply yields_write in H as ->
  | H : yields t_end _ |- _ => apply yields_end in H as ->
  | H : yields t_ret _ |- _ => apply yields_ret in H as ->
  | H : yields (t_fail _) _ |- _ => by apply yields_fail in H
  | H : yields t_panic _ |- _ => by apply yields_panic in H
  | H : yields ([], None) _ |- _ => by apply yields_fuel in H
  | H : yields (t_ind _ _) _ |- _ => apply yields_ind in H as ->
  end.

(** ** Writers *)

Section Writers.
Context {W : Type} (Writer_Write : W -> string -> W * option goerr).

(** the writes one after the other, up to the first that fails *)
Fixpoint write_all (w : W) (ss : list string) : W * option goerr :=
  match ss with
  | [] => (w, None)
  | s :: ss' => match Writer_Write w s with
                | (w', None) => write_all w' ss'
                | (w', Some e) => (w', Some e)
                end
  end.

Lemma run_failed w e acts :
  run_acts Writer_Write (ErrWriter w (Some e)) acts
  = (ErrWriter w (Some e), if bool_decide (CheckErr ∈ acts) then Some e else None).
Proof.
  induction acts as [|[s|] acts IH]; simpl; [done| |].
  - unfold ew_write. simpl. rewrite IH.
    case_bool_decide; case_bool_decide; try done; exfalso; set_solver.
  - done.
Qed.

Lemma run_acts_spec acts : forall w,
  match write_all w (t_writes (acts, None)) with
  | (w', None) => run_acts Writer_Write (ErrWriter w None) acts = (ErrWriter w' None, None)
  | (w', Some e) => exists k, run_acts Writer_Write (ErrWriter w None) acts
      = (ErrWriter w' (Some e), if bool_decide (CheckErr ∈ drop k acts) then Some e else None)
      /\ k <= length acts /\ exists s, acts !! (k - 1) = Some (Write s) /\ 0 < k
  end.
Proof.
  unfold t_writes. induction acts as [|[s|] acts IH]; intros w; simpl; [done| |].
  - unfold ew_write. simpl. destruct (Writer_Write w s) as [w1 [e|]]; simpl.
    + exists 1. rewrite run_failed. simpl. split; [done|]. split; [lia|]. exists s. split; [done|lia].
    + specialize (IH w1). simpl in IH.
      destruct (write_all w1 _) as [w2 [e|]]; [|done].
      destruct IH as (k & -> & Hk & s' & Hs & H0). exists (S k). simpl. split; [done|].
      split; [lia|]. exists s'. replace (k - 0) with (S (k - 1)) by lia. split; [done|lia].
  - specialize (IH w). simpl in IH. destruct (write_all w _) as [w2 [e|]]; [|done].
    destruct IH as (k & -> & Hk & s' & Hs & H0). exists (S k). simpl. split; [done|].
    split; [lia|]. exists s'. replace (k - 0) with (S (k - 1)) by lia. split; [done|lia].
Qed.
End Writers.

(** a trace that goes through returns early on a failed write before it does *)
Definition checked (t : trace) : Prop :=
  t.2 = Some (Ok tt) -> exists a, t.1 = a ++ [CheckErr].

Lemma checked_seq a b : checked b -> checked (a >;> b).
Proof.
  unfold checked, t_seq. destruct a as [aa [[[]| |]|]]; simpl; try done.
  intros Hb Hr. destruct (Hb Hr) as [l ->]. exists (aa ++ l). by rewrite app_assoc.
Qed.

Lemma checked_end : checked t_end.
Proof. by exists []. Qed.
Lemma checked_fail e : checked (t_fail e).
Proof. done. Qed.
Lemma checked_panic : checked t_panic.
Proof. done. Qed.
Lemma checked_fuel : checked ([], None).
Proof. done. Qed.
Lemma checked_of_res r k : (forall s, checked (k s)) -> checked (t_of_res r k).
Proof. destruct r; simpl; auto using checked_fail, checked_panic. Qed.

Create HintDb checked discriminated.
#[export] Hint Resolve checked_seq checked_end checked_fail checked_panic checked_fuel
  checked_of_res : checked.

Section Checked.
Context `{JE : JsonpbEnv} (m : Marshaler).

Lemma checked_default v : checked (marshal_default m v).
Proof. unfold marshal_default. auto with checked. Qed.
Lemma checked_float f v : checked (marshal_float m f v).
Proof. unfold marshal_float. case_match; auto using checked_default with checked. Qed.
Lemma checked_enum str z : checked (marshal_enum str z).
Proof. unfold marshal_enum. auto with checked. Qed.
Lemma checked_duration s ns : checked (marshal_duration s ns).
Proof. unfold marshal_duration. repeat case_match; auto 6 with checked. Qed.
Lemma checked_timestamp s ns : checked (marshal_timestamp s ns).
Proof. unfold marshal_timestamp. repeat case_match; auto 6 with checked. Qed.
Lemma checked_custom r i u : checked (marshal_custom m r i u).
Proof.
  unfold marshal_custom. apply checked_of_res. intros s. case_match; auto with checked.
Qed.
Lemma checked_braces i u fs : checked (marshal_braces m i u fs).
Proof. unfold marshal_braces. auto 8 with checked. Qed.
End Checked.
#[export] Hint Resolve checked_default checked_float checked_enum checked_duration
  checked_timestamp checked_custom checked_braces : checked.

Lemma marshal_unfold `{JE : JsonpbEnv} m n v md indent :
  marshal m n v md indent
  = marshal_body m (marshal m n) (match n with O => None | S n' => Some (marshal m n') end)
      v md indent.
Proof. by destruct n, v. Qed.

Lemma marshal_checked `{JE : JsonpbEnv} m n : forall v md indent, checked (marshal m n v md indent).
Proof.
  induction n as [|n IHn]; intros v; induction v using gval_ind'; intros md indent;
    rewrite marshal_unfold; unfold marshal_body, marshal_wkt, marshalAny, any_object, two_ints;
    repeat case_match; eauto 9 with checked.
  all: match goal with HF : Forall _ (_ :: _) |- _ =>
    apply list.Forall_cons in HF as [[? ?] _]; simpl in *; eauto end.
Qed.

Lemma Marshal_trace_checked `{JE : JsonpbEnv} m n pb : checked (Marshal_trace m n pb).
Proof.
  unfold Marshal_trace. repeat case_match; auto using marshal_checked with checked.
Qed.

Lemma buffer_write_all ss : forall b, write_all buffer_Write b ss = (b +:+ concat_str ss, None).
Proof.
  induction ss as [|s ss IH]; intros b; simpl; [by rewrite str_app_nil_r|].
  by rewrite IH, str_app_assoc.
Qed.

Lemma run_trace_spec {W} (Writer_Write : W -> string -> W * option goerr) w t :
  checked t ->
  match write_all Writer_Write w (t_writes t) with
  | (w', None) => run_trace Writer_Write w t = (w', t.2)
  | (w', Some e) => exists r, run_trace Writer_Write w t = (w', r)
      /\ (r = Some (Err e) \/ r = t.2 /\ r <> Some (Ok tt))
  end.
Proof.
  intros Hc. destruct t as [acts r]. pose proof (run_acts_spec Writer_Write acts w) as Hrun.
  unfold run_trace. simpl. change (t_writes (acts, r)) with (t_writes (acts, None)).
  destruct (write_all Writer_Write w (t_writes (acts, None))) as [w' [e|]]; cycle 1.
  { by rewrite Hrun. }
  destruct Hrun as (k & -> & Hk & s & Hs & H0). simpl.
  case_bool_decide as Hlate; [by eauto|]. exists r. split; [done|]. right. split; [done|].
  intros ->. destruct (Hc eq_refl) as [a Ha]. simpl in Ha. subst acts. apply Hlate.
  destruct (decide (k <= length a)) as [Hle|Hgt].
  - rewrite drop_app_le by lia. set_solver.
  - rewrite length_app in Hk. simpl in Hk.
    assert (k - 1 = length a) as Hl by lia. rewrite Hl, list_lookup_middle in Hs by done. done.
Qed.

(** into a buffer *)
Lemma MarshalToString_result `{JE : JsonpbEnv} m n pb :
  MarshalToString m n pb
  = match (Marshal_trace m n pb).2 with
    | Some (Ok _) => Some (Ok (t_text (Marshal_trace m n pb)))
    | Some (Err e) => Some (Err e)
    | Some Panic => Some Panic
    | None => None
    end.
Proof.
  unfold MarshalToString, Marshal.
  pose proof (run_trace_spec buffer_Write "" _ (Marshal_trace_checked m n pb)) as Hb.
  rewrite buffer_write_all in Hb. by rewrite Hb.
Qed.

(** C22: the marshaler and writers that fail.  Given any writer, the marshaler makes its writes one
    after the other up to the first that fails, and no more.  If none fails it returns its own
    result; if one does, it returns that error or an error of its own, and never
    success.  Into a buffer, [MarshalToString] returns the whole text or the error. *)
Theorem jsonpb_writer `{JE : JsonpbEnv} {W} (Writer_Write : W -> string -> W * option goerr) m n
    out pb :
  match write_all Writer_Write out (t_writes (Marshal_trace m n pb)) with
  | (out', None) => Marshal m Writer_Write n out pb = (out', (Marshal_trace m n pb).2)
  | (out', Some e) => exists r, Marshal m Writer_Write n out pb = (out', r)
      /\ (r = Some (Err e) \/ r = (Marshal_trace m n pb).2 /\ r <> Some (Ok tt))
  end
  /\ MarshalToString m n pb
     = match (Marshal_trace m n pb).2 with
       | Some (Ok _) => Some (Ok (t_text (Marshal_trace m n pb)))
       | Some (Err e) => Some (Err e)
       | Some Panic => Some Panic
       | None => None
       end.
Proof.
  split; [apply run_trace_spec, Marshal_trace_checked|apply MarshalToString_result].
Qed.

Lemma MarshalToString_yields `{JE : JsonpbEnv} m n pb s :
  MarshalToString m n pb = Some (Ok s) <-> yields (Marshal_trace m n pb) s.
Proof.
  rewrite MarshalToString_result. unfold yields.
  destruct (Marshal_trace m n pb).2 as [[[]| |]|]; simpl; naive_solver.
Qed.

(** ** Sorting *)

Lemma insert_by_perm {A K} (less : K -> K -> bool) x (l : list (K * A)) :
  insert_by less x l ≡ₚ x :: l.
Proof. induction l as [|y l IH]; simpl; [done|]. case_match; [|done]. rewrite IH. constructor. Qed.
Lemma sort_by_perm {A K} (less : K -> K -> bool) (l : list (K * A)) : sort_by less l ≡ₚ l.
Proof. induction l as [|x l IH]; simpl; [done|]. by rewrite insert_by_perm, IH. Qed.
