(* ===== verification/JsonSeq.v ===== *)
(** * Sequences in JSON

    Elements of an array and members of an object as the marshaler writes them: separated by
    commas, each between white space.  [P a e] says that the text [e] is an item for [a]. *)
From S2P Require Import Prelude Message Json Jsonpb JsonpbFacts.

Lemma ws_app a b : json_ws a -> json_ws b -> json_ws (a +:+ b).
Proof. unfold json_ws. rewrite str_forall_app. intros -> ->. done. Qed.
Lemma ws_nil : json_ws "".
Proof. done. Qed.
Lemma nl_ws : json_ws nl.
Proof. done. Qed.

Lemma ind_text_ws m ss : Forall json_ws ss -> json_ws (ind_text m ss).
Proof.
  intros H. unfold ind_text. case_match; [|done].
  induction H; simpl; [done|]. by apply ws_app.
Qed.

Section Items.
Context {A : Type} (P : A -> string -> Prop).

(** a text that is an item for [a] with any white space around it *)
Definition padded (a : A) (e : string) : Prop :=
  forall w1 w2, json_ws w1 -> json_ws w2 -> P a (w1 +:+ e +:+ w2).

(** the items of [l], with commas between them *)
Definition sep_list (l : list A) (s : string) : Prop :=
  exists es, l <> [] /\ Forall2 P l es /\ s = join "," es.

Lemma sep_one a w1 e w2 : padded a e -> json_ws w1 -> json_ws w2 -> sep_list [a] (w1 +:+ e +:+ w2).
Proof.
  intros He H1 H2. exists [w1 +:+ e +:+ w2]. split; [done|]. split; [|done].
  constructor; [by apply He|constructor].
Qed.

Lemma sep_cons a l w1 e w2 r :
  padded a e -> json_ws w1 -> json_ws w2 -> sep_list l r ->
  sep_list (a :: l) (w1 +:+ e +:+ w2 +:+ "," +:+ r).
Proof.
  intros He H1 H2 (es & Hne & HF & ->). exists ((w1 +:+ e +:+ w2) :: es).
  split; [done|]. split; [constructor; [by apply He|done]|].
  destruct HF as [|a' e' l' es' Ha' HF]; [done|].
  change (join "," ((w1 +:+ e +:+ w2) :: e' :: es'))
    with ((w1 +:+ e +:+ w2) +:+ "," +:+ join "," (e' :: es')).
  by rewrite !str_app_assoc.
Qed.

(** what may follow an item: nothing, or a comma and more items *)
Definition list_tail (l : list A) (s : string) : Prop :=
  forall a w1 e w2, padded a e -> json_ws w1 -> json_ws w2 ->
  sep_list (a :: l) (w1 +:+ e +:+ s +:+ w2).

Lemma tail_nil : list_tail [] "".
Proof. intros a w1 e w2 He H1 H2. by apply sep_one. Qed.

Lemma tail_cons a l w e s :
  padded a e -> json_ws w -> list_tail l s -> list_tail (a :: l) ("," +:+ w +:+ e +:+ s).
Proof.
  intros He Hw Hs a1 w1 e1 w2 He1 H1 H2.
  replace (w1 +:+ e1 +:+ ("," +:+ w +:+ e +:+ s) +:+ w2)
    with (w1 +:+ e1 +:+ "" +:+ "," +:+ (w +:+ e +:+ s +:+ w2)) by (rewrite !str_app_assoc; done).
  apply sep_cons; auto using ws_nil.
Qed.

(** the text of a list: nothing, or its first item and what follows it *)
Definition list_body (l : list A) (s : string) : Prop :=
  (l = [] /\ s = "")
  \/ exists a l' w e r, l = a :: l' /\ s = w +:+ e +:+ r /\ padded a e /\ json_ws w
     /\ list_tail l' r.

(** a list with white space around it, between its brackets *)
Lemma list_body_sep l w1 s w2 :
  list_body l s -> json_ws w1 -> json_ws w2 ->
  (l = [] /\ json_ws (w1 +:+ s +:+ w2)) \/ sep_list l (w1 +:+ s +:+ w2).
Proof.
  intros [[-> ->]|(a & l' & w & e & r & -> & -> & He & Hw & Hr)] H1 H2.
  - left. split; [done|]. by apply ws_app.
  - right. replace (w1 +:+ (w +:+ e +:+ r) +:+ w2) with ((w1 +:+ w) +:+ e +:+ r +:+ w2)
      by (rewrite !str_app_assoc; done).
    apply Hr; auto using ws_app.
Qed.

(** ** What the marshaler writes

    [writes R t] says that what the trace [t] writes is an item for an [a] in the relation [R] to
    [t], and [opt_writes] the same of a field left out, for which there is none. *)
Section Traces.
Context `{JE : JsonpbEnv} {T : Type} (R : T -> A -> Prop) (m : Marshaler).

Definition writes (k : T) (t : trace) : Prop :=
  forall s, yields t s -> exists a, R k a /\ padded a s.

Definition opt_writes (ko : T * option trace) : Prop :=
  match ko.2 with Some t => writes ko.1 t | None => True end.

(** those that are written *)
Definition written (fields : list (T * option trace)) : list T :=
  omap (fun ko => match ko.2 with Some _ => Some ko.1 | None => None end) fields.

Lemma write_fields_tail fields s :
  Forall opt_writes fields -> yields (write_fields m false (map snd fields)) s ->
  exists l, Forall2 R (written fields) l /\ list_tail l s.
Proof.
  intros HF. revert s. induction HF as [|[k o] fields Ho HF IH]; simpl; intros s H.
  - yields_inv. exists []. split; [constructor|apply tail_nil].
  - unfold opt_writes in Ho. simpl in Ho. destruct o as [f|]; [|by apply IH].
    unfold writeSep in H. yields_inv.
    match goal with H : yields f _ |- _ => apply Ho in H as (a & Ha & Hp) end.
    destruct (IH _ H) as (l & Hl & Ht). exists (a :: l). split; [by constructor|].
    destruct (indented m).
    + rewrite (str_app_assoc "," nl). apply tail_cons; auto using nl_ws.
    + apply (tail_cons _ _ ""); auto using ws_nil.
Qed.

Lemma write_fields_body fields s :
  Forall opt_writes fields -> yields (write_fields m true (map snd fields)) s ->
  exists l, Forall2 R (written fields) l /\ list_body l s.
Proof.
  intros HF. revert s. induction HF as [|[k o] fields Ho HF IH]; simpl; intros s H.
  - yields_inv. exists []. split; [constructor|by left].
  - unfold opt_writes in Ho. simpl in Ho. destruct o as [f|]; [|by apply IH]. yields_inv.
    match goal with H : yields f _ |- _ => apply Ho in H as (a & Ha & Hp) end.
    destruct (write_fields_tail fields _ HF H) as (l & Hl & Ht). exists (a :: l).
    split; [by constructor|]. right. exists a, l, "". eexists _, _. done.
Qed.

Lemma indent_ws indent :
  json_ws (mr_Indent m) -> json_ws indent ->
  json_ws (ind_text m [nl; indent; mr_Indent m; mr_Indent m]).
Proof. intros Hm Hi. apply ind_text_ws. by repeat constructor. Qed.

Lemma write_elems_tail indent es s :
  json_ws (mr_Indent m) -> json_ws indent -> Forall (fun kt => writes kt.1 kt.2) es ->
  yields (write_elems m indent "," (map snd es)) s ->
  exists l, Forall2 R (map fst es) l /\ list_tail l s.
Proof.
  intros Hm Hi HF. revert s. induction HF as [|[k e] es He HF IH]; simpl; intros s H; yields_inv.
  - exists []. split; [constructor|apply tail_nil].
  - match goal with H : yields e _ |- _ => apply He in H as (a & Ha & Hp) end.
    destruct (IH _ H) as (l & Hl & Ht). exists (a :: l). split; [by constructor|].
    apply tail_cons; auto. by apply indent_ws.
Qed.

Lemma write_elems_body indent es s :
  json_ws (mr_Indent m) -> json_ws indent -> Forall (fun kt => writes kt.1 kt.2) es ->
  yields (write_elems m indent "" (map snd es)) s ->
  exists l, Forall2 R (map fst es) l /\ list_body l s.
Proof.
  intros Hm Hi HF. destruct HF as [|[k e] es He HF]; simpl; intros H; yields_inv.
  { exists []. split; [constructor|by left]. }
  match goal with H : yields e _ |- _ => apply He in H as (a & Ha & Hp) end.
  destruct (write_elems_tail indent es _ Hm Hi HF H) as (l & Hl & Ht). exists (a :: l).
  split; [by constructor|]. right. exists a, l, (ind_text m [nl; indent; mr_Indent m; mr_Indent m]).
  eexists _, _. split_and!; [done..|by apply indent_ws|done].
Qed.

(** an entry of a map, its key and the colon included *)
Definition entry_trace (kt : gval * trace) : trace :=
  t_of_res (key_text kt.1) (fun s => out_write s >;> out_write ":" >;> t_ind m [" "] >;> kt.2).

Lemma write_entries_tail indent (es : list (T * (gval * trace))) s :
  json_ws (mr_Indent m) -> json_ws indent ->
  Forall (fun kt => writes kt.1 (entry_trace kt.2)) es ->
  yields (write_entries m indent false (map snd es)) s ->
  exists l, Forall2 R (map fst es) l /\ list_tail l s.
Proof.
  intros Hm Hi HF. revert s. induction HF as [|[k [g e]] es He HF IH]; simpl; intros s H.
  - yields_inv. exists []. split; [constructor|apply tail_nil].
  - yields_inv.
    match goal with H : yields (t_of_res _ _) _ |- _ => apply He in H as (a & Ha & Hp) end.
    destruct (IH _ H) as (l & Hl & Ht). exists (a :: l). split; [by constructor|].
    apply tail_cons; auto. by apply indent_ws.
Qed.

Lemma write_entries_body indent (es : list (T * (gval * trace))) s :
  json_ws (mr_Indent m) -> json_ws indent ->
  Forall (fun kt => writes kt.1 (entry_trace kt.2)) es ->
  yields (write_entries m indent true (map snd es)) s ->
  exists l, Forall2 R (map fst es) l /\ list_body l s.
Proof.
  intros Hm Hi HF. destruct HF as [|[k [g e]] es He HF]; simpl; intros H; yields_inv.
  { exists []. split; [constructor|by left]. }
  match goal with H : yields (t_of_res _ _) _ |- _ => apply He in H as (a & Ha & Hp) end.
  destruct (write_entries_tail indent es _ Hm Hi HF H) as (l & Hl & Ht). exists (a :: l).
  split; [by constructor|]. right. exists a, l, (ind_text m [nl; indent; mr_Indent m; mr_Indent m]).
  eexists _, _. split_and!; [done..|by apply indent_ws|done].
Qed.
End Traces.
End Items.
