(* ===== verification/JsonpbText.v ===== *)
(** * The marshaler of protocol buffers writes JSON

    The texts of the parts of a value, put together by the grammar of [Json]. *)
From S2P Require Import Prelude Message Json Jsonpb JsonpbFacts JsonSeq.

(** ** Texts and white space *)

(** elements and members as items of nothing in particular *)
Definition an_elem (_ : unit) : string -> Prop := json_elem.
Definition a_member (_ : unit) : string -> Prop := json_member.

Lemma elem_padded t : json_text t -> padded an_elem tt t.
Proof. intros Ht w1 w2 H1 H2. by constructor. Qed.

Lemma member_padded w1 k w3 t :
  json_ws w1 -> json_body k -> json_ws w3 -> json_text t ->
  padded a_member tt (w1 +:+ quoted k +:+ ":" +:+ w3 +:+ t).
Proof.
  intros H1 Hk H3 Ht u1 u2 Hu1 Hu2.
  replace (u1 +:+ (w1 +:+ quoted k +:+ ":" +:+ w3 +:+ t) +:+ u2)
    with ((u1 +:+ w1) +:+ quoted k +:+ "" +:+ ":" +:+ w3 +:+ t +:+ u2)
    by (rewrite !str_app_assoc; done).
  apply JM; auto using ws_app, ws_nil.
Qed.

Lemma unit_items (P : string -> Prop) (l : list unit) es :
  Forall2 (fun _ => P) l es -> Forall P es.
Proof. by induction 1; constructor. Qed.

Lemma object_text l s : sep_list a_member l s -> json_text ("{" +:+ s +:+ "}").
Proof.
  intros (es & Hne & HF & ->). apply JT_object; [by destruct HF|by eapply unit_items].
Qed.
Lemma array_text l s : sep_list an_elem l s -> json_text ("[" +:+ s +:+ "]").
Proof.
  intros (es & Hne & HF & ->). apply JT_array; [by destruct HF|by eapply unit_items].
Qed.

(** texts of numbers and times are of any class of characters that has the digits and the
    characters between them *)
Section Digits.
Context (P : char -> bool) (Hdigit : forall c, is_digit c = true -> P c = true).
Context (Hsign : str_forall P "-.:T" = true).

Lemma pretty_forall (z : Z) : str_forall P (pretty z) = true.
Proof using Hdigit Hsign.
  assert (forall x : N, str_forall P (pretty x) = true) as HN.
  { intros x. destruct (pretty_digits x) as [Hd _]. eapply str_forall_impl; [|exact Hd]. done. }
  destruct z as [|p|p]; [apply (HN 0%N)|apply (HN (N.pos p))|].
  change (pretty (Z.neg p)) with ("-" +:+ pretty (N.pos p)). rewrite str_forall_app, HN.
  cbn in Hsign |- *. by destruct (P _).
Qed.

Lemma fmt_0d_forall n z : str_forall P (fmt_0d n z) = true.
Proof using Hdigit Hsign.
  assert (forall k, str_forall P (zeros k) = true) as Hz.
  { induction k as [|k IH]; [done|]. cbn. by rewrite IH, Hdigit. }
  unfold fmt_0d, pad. case_bool_decide; rewrite !str_forall_app, Hz, pretty_forall; [|done].
  cbn in Hsign |- *. by destruct (P _).
Qed.

Lemma trim_suffix_forall suf s : str_forall P s = true -> str_forall P (trim_suffix suf s) = true.
Proof using.
  clear. induction s as [|c s IH]; simpl; intros Hs; case_match; try done.
  apply andb_true_iff in Hs as [Hc Hs]. simpl. by rewrite Hc, IH.
Qed.

Lemma trim_fraction_forall s : str_forall P s = true -> str_forall P (trim_fraction s) = true.
Proof using. intros Hs. unfold trim_fraction. by repeat apply trim_suffix_forall. Qed.

Lemma format_time_forall s ns : str_forall P (format_time s ns) = true.
Proof using Hdigit Hsign.
  pose proof Hsign as Hs. cbn in Hs. rewrite !andb_true_iff in Hs.
  destruct Hs as (H1 & H2 & H3 & H4 & _).
  unfold format_time, format_seconds. destruct (civil _) as [[y mon] d].
  case_bool_decide; rewrite !str_forall_app, !fmt_0d_forall; cbn; by rewrite ?H1, ?H2, ?H3, ?H4.
Qed.
End Digits.

Lemma digit_plain c : is_digit c = true -> plain_char c = true.
Proof. destruct c as [[] [] [] [] [] [] [] []]; done. Qed.

Lemma pretty_plain (z : Z) : str_forall plain_char (pretty z) = true.
Proof. by apply pretty_forall; [apply digit_plain|]. Qed.

Lemma plain_no_quote s :
  str_forall plain_char s = true -> has_prefix (String quote_char "") s = false.
Proof. destruct s as [|[[] [] [] [] [] [] [] []] s]; done. Qed.

(** a string between quotes written in pieces *)
Lemma quoted_parts s t :
  String quote_char "" +:+ s +:+ t +:+ String quote_char "" = quoted (s +:+ t).
Proof. unfold quoted. by rewrite <- (str_app_assoc s t). Qed.

Section Grammar.
Context `{JE : JsonpbEnv} (m : Marshaler).

(** all of a list *)
Definition all {A} (P : A -> Prop) (l : list A) : Prop := foldr (fun x R => P x /\ R) True l.

Lemma all_Forall {A} (P : A -> Prop) l : all P l <-> Forall P l.
Proof.
  induction l as [|x l IH]; simpl; [split; constructor|].
  rewrite IH, list.Forall_cons. done.
Qed.

Definition clean_name (f : field_info) : Prop :=
  str_forall plain_char (pr_JSONName (jsonProperties m f)) = true.

(** a map key: not a float nor an enumeration *)
Definition key_kind (k : gval) : bool :=
  match k with
  | VBool _ | VInt32 _ | VInt64 _ | VUint32 _ | VUint64 _ | VString _ => true
  | _ => false
  end.

(** names without quotes, backslashes and control characters, and custom marshalers that write
    JSON *)
Fixpoint clean (v : gval) : Prop :=
  match v with
  | VEnum _ str _ => str_forall plain_char str = true
  | VSlice (Some l) => all clean l
  | VMap (Some l) => all (fun kv => key_kind kv.1 = true /\ clean kv.2) l
  | VPtr (Some x) => clean x
  | VOneof (Some (f, x)) => clean_name f /\ clean x
  | VMsg info fields exts =>
      (forall b, mi_MarshalJSONPB info = Some (Ok b) -> json_text b)
      /\ all (fun fx => clean_name fx.1 /\ clean fx.2) fields
      /\ all (fun ex => str_forall plain_char (ei_Name ex.1) = true /\ clean ex.2) exts
  | _ => True
  end.

(** what is assumed of the standard library, of messages unpacked and of the indentation *)
Record jsonpb_laws : Prop := {
  jl_float32 : forall f, non_finite f = None -> json_number (json_float32 f);
  jl_float64 : forall f, non_finite f = None -> json_number (json_float64 f);
  jl_add_type : forall b u i r, json_add_type b u i = Ok r -> json_text r;
  jl_any : forall turl val msg, resolve_any m turl val = Ok msg -> clean msg;
  jl_indent : json_ws (mr_Indent m);
}.

Lemma yields_default v s :
  yields (marshal_default m v) s ->
  exists b, json_scalar v = Ok b
  /\ s = if negb (has_prefix (String quote_char "") b)
            && (negb (mr_EmitUInt64Unquoted m) && is_int64 v) then quoted b else b.
Proof.
  unfold marshal_default. destruct (json_scalar v) as [b| |]; simpl; intros H;
    [|by apply yields_fail in H|by apply yields_panic in H].
  exists b. split; [done|].
  destruct (negb _ && _); yields_inv; unfold quoted; by rewrite ?str_app_nil_r.
Qed.

Lemma scalar_text v b :
  jsonpb_laws -> json_scalar v = Ok b ->
  match v with VFloat32 f | VFloat64 f => non_finite f = None | _ => True end ->
  json_text b.
Proof.
  intros L H Hf. destruct v; simplify_eq/=;
    try (apply JT_number; first [apply pretty_json_number | by apply L]).
  - destruct b0; constructor.
  - apply json_string_text.
  - apply json_bytes_text.
Qed.

Lemma default_text v s :
  jsonpb_laws ->
  match v with VFloat32 f | VFloat64 f => non_finite f = None | _ => True end ->
  yields (marshal_default m v) s -> json_text s.
Proof.
  intros L Hf (b & Hb & ->)%yields_default. pose proof (scalar_text _ _ L Hb Hf) as Ht.
  destruct (negb _ && _) eqn:E; [|done]. apply andb_true_iff in E as [_ [_ Hi]%andb_true_iff].
  destruct v; simplify_eq/=; apply JT_string, plain_body, pretty_plain.
Qed.

Lemma float_text f v s :
  jsonpb_laws -> v = VFloat32 f \/ v = VFloat64 f ->
  yields (marshal_float m f v) s -> json_text s.
Proof.
  intros L Hv. unfold marshal_float. destruct (non_finite f) as [sval|] eqn:E.
  - intros H. yields_inv. rewrite str_app_nil_r.
    destruct f as [| [] | |]; simplify_eq/=; apply JT_string; eexists; reflexivity.
  - apply default_text; [done|]. by destruct Hv as [-> | ->].
Qed.

Lemma enum_text str z s :
  str_forall plain_char str = true -> yields (marshal_enum str z) s -> json_text s.
Proof.
  intros Hp. unfold marshal_enum. destruct (String.eqb_spec str (pretty z)) as [->|]; simpl;
    intros H; yields_inv.
  - rewrite !str_app_nil_r. apply JT_number, pretty_json_number.
  - rewrite str_app_nil_r. change (json_text (quoted str)). by apply JT_string, plain_body.
Qed.

Lemma times_text (x unit_ : string) :
  str_forall plain_char x = true -> str_forall plain_char unit_ = true ->
  json_text (String quote_char "" +:+ trim_fraction x +:+ (unit_ +:+ String quote_char "") +:+ "").
Proof.
  intros Hx Hu. rewrite str_app_nil_r, quoted_parts.
  apply JT_string, plain_body. rewrite str_forall_app, Hu, andb_true_r.
  by apply trim_fraction_forall.
Qed.

Lemma duration_text s0 ns s : yields (marshal_duration s0 ns) s -> json_text s.
Proof.
  unfold marshal_duration. repeat case_match; intros Hy; yields_inv.
  all: apply (times_text (_ +:+ "." +:+ _) "s"); [|done]; rewrite !str_forall_app;
    by rewrite pretty_plain, (fmt_0d_forall _ digit_plain).
Qed.

Lemma timestamp_text s0 ns s : yields (marshal_timestamp s0 ns) s -> json_text s.
Proof.
  unfold marshal_timestamp. case_match; intros Hy; yields_inv.
  apply (times_text _ "Z"); [by apply format_time_forall; [apply digit_plain|]|done].
Qed.

Lemma custom_text r i u s :
  jsonpb_laws -> (forall b, r = Ok b -> json_text b) -> yields (marshal_custom m r i u) s ->
  json_text s.
Proof.
  intros L Hr. unfold marshal_custom. destruct r as [b| |]; simpl; intros H;
    [|by apply yields_fail in H|by apply yields_panic in H].
  destruct (str_empty u); [yields_inv; rewrite str_app_nil_r; auto|].
  destruct (json_add_type b u _) as [b'| |] eqn:E; simpl in H;
    [|by apply yields_fail in H|by apply yields_panic in H].
  yields_inv. rewrite str_app_nil_r. by eapply jl_add_type.
Qed.

Lemma inner_ws indent : jsonpb_laws -> json_ws indent -> json_ws (indent +:+ mr_Indent m).
Proof. intros L H. apply ws_app; [done|apply L]. Qed.

Lemma key_text_quoted k s :
  key_kind k = true -> key_text k = Ok s -> exists b, json_body b /\ s = quoted b.
Proof.
  intros Hk. unfold key_text. destruct (json_scalar k) as [b| |] eqn:Hb; simpl; [|done..].
  assert (exists c, json_body c /\ json_string b = quoted c) as Hs.
  { eexists. split; [|reflexivity]. unfold json_body. rewrite unesc_esc. eauto. }
  destruct (has_prefix _ b) eqn:Hp; intros [= <-]; [|done].
  destruct k; simplify_eq/=.
  1: by destruct b0.
  1-4: by rewrite plain_no_quote in Hp by apply pretty_plain.
  eexists. split; [|reflexivity]. unfold json_body. rewrite unesc_esc. eauto.
Qed.

(** a trace that writes a member of an object *)
Definition member_trace (t : trace) : Prop := forall s, yields t s -> padded a_member tt s.

Lemma marshalTypeURL_member indent u :
  jsonpb_laws -> json_ws indent -> member_trace (marshalTypeURL m indent u).
Proof.
  intros L Hi s. unfold marshalTypeURL. intros H. yields_inv.
  rewrite str_app_nil_r.
  match goal with |- padded _ _ (?a +:+ ?b +:+ ?c +:+ ?d) =>
    replace (a +:+ b +:+ c +:+ d) with (a +:+ quoted "@type" +:+ ":" +:+ c +:+ d)
      by (rewrite !str_app_assoc; done) end.
  apply member_padded; [| | |apply json_string_text].
  - apply ind_text_ws. repeat constructor; [done|apply L].
  - by apply plain_body.
  - apply ind_text_ws. repeat constructor.
Qed.

Lemma marshalField_member prop indent value :
  jsonpb_laws -> json_ws indent -> str_forall plain_char (pr_JSONName prop) = true ->
  (forall s, yields value s -> json_text s) ->
  member_trace (marshalField m prop indent value).
Proof.
  intros L Hi Hn Hv s. unfold marshalField. intros H. yields_inv.
  match goal with |- padded _ _ (?a +:+ ?q +:+ ?n +:+ String ?c ":" +:+ ?d +:+ ?e) =>
    replace (a +:+ q +:+ n +:+ String c ":" +:+ d +:+ e)
      with (a +:+ quoted n +:+ ":" +:+ d +:+ e)
      by (unfold quoted; simpl; rewrite !str_app_assoc; done) end.
  apply member_padded; [|by apply plain_body| |by apply Hv].
  - apply ind_text_ws. repeat constructor; [done|apply L].
  - apply ind_text_ws. repeat constructor.
Qed.

Definition opt_member (o : option trace) : Prop :=
  match o with Some t => member_trace t | None => True end.

Lemma as_items {T} (fields : list T) : map snd (map (pair tt) fields) = fields.
Proof. rewrite map_map. apply map_id. Qed.

Lemma fields_opt fields :
  Forall opt_member fields ->
  Forall (opt_writes a_member (fun _ _ => True)) (map (pair tt) fields).
Proof.
  intros HF. apply Forall_fmap. eapply list.Forall_impl; [exact HF|]. intros [t|]; [|done].
  intros Ht s Hs. exists tt. split; [done|]. by apply Ht.
Qed.

Definition entry_ok (kt : gval * trace) : Prop :=
  key_kind kt.1 = true /\ forall s, yields kt.2 s -> json_text s.

Lemma entry_member kt s :
  entry_ok kt -> yields (entry_trace m kt) s -> padded a_member tt s.
Proof.
  destruct kt as [k t]. intros [Hk Ht]. unfold entry_trace. simpl in *.
  destruct (key_text k) as [ks| |] eqn:E; simpl; intros H; yields_inv.
  destruct (key_text_quoted _ _ Hk E) as (b & Hb & ->).
  apply (member_padded ""); auto using ws_nil. apply ind_text_ws. repeat constructor.
Qed.

Lemma elems_body indent es s :
  jsonpb_laws -> json_ws indent -> Forall (fun t => forall s, yields t s -> json_text s) es ->
  yields (write_elems m indent "" es) s -> exists l, list_body an_elem l s.
Proof.
  intros L Hi HF H. rewrite <- (as_items es) in H.
  apply (write_elems_body an_elem (fun _ _ => True)) in H as (l & _ & Hb);
    [by exists l|apply L|done|].
  apply Forall_fmap. eapply list.Forall_impl; [exact HF|]. intros t Ht s' Hs. exists tt.
  split; [done|]. by apply elem_padded, Ht.
Qed.

Lemma entries_body indent es s :
  jsonpb_laws -> json_ws indent -> Forall entry_ok es ->
  yields (write_entries m indent true es) s -> exists l, list_body a_member l s.
Proof.
  intros L Hi HF H. rewrite <- (as_items es) in H.
  apply (write_entries_body a_member (fun _ _ => True)) in H as (l & _ & Hb);
    [by exists l|apply L|done|].
  apply Forall_fmap. eapply list.Forall_impl; [exact HF|]. intros kt Hk s' Hs. exists tt.
  split; [done|]. by eapply entry_member.
Qed.

Lemma object_body_text l w1 s w2 :
  list_body a_member l s -> json_ws w1 -> json_ws w2 ->
  json_text ("{" +:+ (w1 +:+ s +:+ w2) +:+ "}").
Proof.
  intros Hs H1 H2. destruct (list_body_sep _ _ _ _ _ Hs H1 H2) as [[_ H]|H];
    [by constructor|by eapply object_text].
Qed.
Lemma array_body_text l w1 s w2 :
  list_body an_elem l s -> json_ws w1 -> json_ws w2 ->
  json_text ("[" +:+ (w1 +:+ s +:+ w2) +:+ "]").
Proof.
  intros Hs H1 H2. destruct (list_body_sep _ _ _ _ _ Hs H1 H2) as [[_ H]|H];
    [by constructor|by eapply array_text].
Qed.

Lemma braces_text indent u fields s :
  jsonpb_laws -> json_ws indent -> Forall opt_member fields ->
  yields (marshal_braces m indent u fields) s -> json_text s.
Proof.
  intros L Hi HF%fields_opt. unfold marshal_braces. intros H. yields_inv.
  rewrite str_app_nil_r.
  match goal with |- json_text ("{" +:+ ?a +:+ ?b +:+ ?c +:+ "}") =>
    replace ("{" +:+ a +:+ b +:+ c +:+ "}") with ("{" +:+ (a +:+ b +:+ c) +:+ "}")
      by (rewrite !str_app_assoc; done) end.
  assert (forall b s, yields (write_fields m b fields) s
    = yields (write_fields m b (map snd (map (pair tt) fields))) s) as Hmap
    by (intros; by rewrite as_items).
  destruct (str_empty u).
  - match goal with H : yields (write_fields _ _ _) _ |- _ =>
      rewrite Hmap in H; apply write_fields_body with (1 := HF) in H as (l & _ & Hb) end.
    eapply object_body_text; [exact Hb|apply ind_text_ws; repeat constructor; done..].
  - yields_inv. match goal with H : yields (write_fields _ _ _) _ |- _ =>
      rewrite Hmap in H; apply write_fields_tail with (1 := HF) in H as (l & _ & Ht) end.
    eapply (object_body_text (tt :: l)); [|apply ind_text_ws; repeat constructor; done..].
    right. exists tt, l, "". eexists _, _. split_and!; [done|reflexivity| |done|exact Ht].
    by eapply (marshalTypeURL_member indent).
Qed.

(** what [Any] writes around a message of a well-known type *)
Lemma any_text turl v indent s :
  jsonpb_laws -> json_ws indent -> (forall s, yields v s -> json_text s) ->
  yields (any_object m indent turl v) s -> json_text s.
Proof.
  intros L Hi Hv. unfold any_object, writeSep. intros H. yields_inv. rewrite str_app_nil_r.
  match goal with H : yields v ?t |- json_text ("{" +:+ ?a +:+ ?u +:+ ?c +:+ ?k +:+ _ +:+ ?e +:+ "}") =>
    assert (exists w1 w2, c +:+ k = "," +:+ (w1 +:+ quoted "value" +:+ ":" +:+ w2)
              /\ json_ws w1 /\ json_ws w2) as (w1 & w2 & Hck & Hw1 & Hw2);
    [|replace ("{" +:+ a +:+ u +:+ c +:+ k +:+ t +:+ e +:+ "}")
      with ("{" +:+ (a +:+ (u +:+ "," +:+ "" +:+ (w1 +:+ quoted "value" +:+ ":" +:+ w2 +:+ t) +:+ "")
                     +:+ e) +:+ "}")
      by (rewrite !str_app_nil_r; trans ("{" +:+ a +:+ u +:+ (c +:+ k) +:+ t +:+ e +:+ "}");
          [rewrite Hck|]; rewrite !str_app_assoc; done)]
  end.
  - destruct (indented m); yields_inv.
    + exists (nl +:+ indent +:+ mr_Indent m), " ". split; [by rewrite !str_app_assoc|].
      split; [|done]. apply ws_app; [done|]. by apply inner_ws.
    + exists "", "". by rewrite str_app_nil_r.
  - eapply object_body_text; [|apply ind_text_ws; repeat constructor; done..].
    right. exists tt, [tt], "". eexists _, _. split_and!; [done|reflexivity| |done|].
    { by eapply (marshalTypeURL_member indent). }
    apply tail_cons; [|done|apply tail_nil].
    apply member_padded; auto. by apply plain_body.
Qed.

Lemma object_body_text' l s w :
  list_body a_member l s -> json_ws w -> json_text ("{" +:+ s +:+ w +:+ "}").
Proof.
  intros Hs Hw. rewrite <- (str_app_assoc s w). by apply (object_body_text l "").
Qed.
Lemma array_body_text' l s w :
  list_body an_elem l s -> json_ws w -> json_text ("[" +:+ s +:+ w +:+ "]").
Proof.
  intros Hs Hw. rewrite <- (str_app_assoc s w). by apply (array_body_text l "").
Qed.
Lemma tail_ws indent :
  jsonpb_laws -> json_ws indent -> json_ws (ind_text m [nl; indent; mr_Indent m]).
Proof. intros L Hi. apply ind_text_ws. repeat constructor; [done|apply L]. Qed.

(** a writer of parts that writes JSON for clean parts *)
Definition texts (go : gval -> mode -> string -> trace) (v : gval) : Prop :=
  forall md indent s, clean v -> json_ws indent -> yields (go v md indent) s -> json_text s.

Lemma fields_members go indent fields :
  jsonpb_laws -> json_ws indent ->
  Forall (fun fx => texts go fx.2
            /\ match fx.2 with VOneof (Some (_, x)) => texts go x | _ => True end) fields ->
  all (fun fx => clean_name fx.1 /\ clean fx.2) fields ->
  Forall opt_member (field_traces m go fields indent).
Proof.
  intros L Hi HF Hc%all_Forall. induction HF as [|[f x] fields [Hx Ho] HF IH]; simpl;
    [constructor|]. apply list.Forall_cons in Hc as [[Hn Hcx] Hc].
  constructor; [|by apply IH]. destruct (skip_field m f x); [done|]. simpl in *.
  destruct x as [| | | | | | | | | | | | |[[f' x']|]|];
    try (apply marshalField_member; [done..|]; intros t; by apply Hx).
  destruct Hcx as [Hn' Hcx]. apply marshalField_member; [done..|]. intros s. by apply Ho.
Qed.

Lemma exts_members go indent exts :
  jsonpb_laws -> json_ws indent -> Forall (fun ex => texts go ex.2) exts ->
  all (fun ex => str_forall plain_char (ei_Name ex.1) = true /\ clean ex.2) exts ->
  Forall opt_member (ext_traces m go exts indent).
Proof.
  intros L Hi HF Hc%all_Forall. unfold ext_traces. rewrite Forall_fmap, sort_by_perm.
  induction HF as [|[e x] exts Hx HF IH]; simpl; [constructor|].
  apply list.Forall_cons in Hc as [[Hn Hcx] Hc]. constructor; [|by apply IH]. simpl in *.
  case_match; [|done]. intros s. case_match; [intros H1; by apply yields_fail in H1|].
  apply marshalField_member; [done..| |].
  - destruct (ei_props e). simpl. by rewrite str_forall_app, Hn.
  - intros s'. by apply Hx.
Qed.

(** the well-known types *)
Lemma ints_text fields f s :
  (forall a b s, yields (f a b) s -> json_text s) -> yields (two_ints fields f) s -> json_text s.
Proof.
  intros Hf. unfold two_ints. destruct fields as [|[? a] [|[? b] ?]];
    try (intros H; by apply yields_panic in H).
  destruct (field_int a), (field_int b); try (intros H; by apply yields_panic in H). apply Hf.
Qed.

Lemma wkt_text nested go w fields oi regular s :
  jsonpb_laws -> json_ws oi ->
  (forall f, nested = Some f -> forall x, texts f x) ->
  Forall (fun fx => texts go fx.2
            /\ match fx.2 with VOneof (Some (_, x)) => texts go x | _ => True end) fields ->
  all (fun fx => clean_name fx.1 /\ clean fx.2) fields ->
  (forall s, yields regular s -> json_text s) ->
  yields (marshal_wkt m go nested w fields oi regular) s -> json_text s.
Proof.
  intros L Hi Hnest HF Hc%all_Forall Hreg. unfold marshal_wkt.
  assert (forall f x fs md, fields = (f, x) :: fs -> yields (go x md oi) s -> json_text s) as Hfirst.
  { intros f x fs md ->. apply list.Forall_cons in HF as [[Hx _] _], Hc as [[_ Hcx] _]. by apply Hx. }
  destruct (is_wrapper w).
  { destruct fields as [|[f x] fs]; intros H; [by apply yields_panic in H|eauto]. }
  destruct (String.eqb w "Any").
  { unfold marshalAny.
    destruct fields as [|[? [| | | | | | |turl| | | | | | |]] [|[? [| | | | | | | | |val| | | | |]] ?]];
      try (intros H; by apply yields_panic in H).
    destruct (resolve_any m turl _) as [msg| |] eqn:E;
      [|intros H; by (apply yields_fail in H || apply yields_panic in H)..].
    destruct nested as [nested|]; [|intros H; by apply yields_fuel in H].
    pose proof (jl_any L _ _ _ E) as Hm. specialize (Hnest _ eq_refl msg).
    destruct (is_wkt msg); [apply any_text; auto|by apply Hnest].
    intros t. apply Hnest; auto using inner_ws. }
  destruct (String.eqb w "Duration"); [apply ints_text, duration_text|].
  destruct (String.eqb w "Struct" || String.eqb w "ListValue").
  { destruct fields as [|[f x] fs]; intros H; [by apply yields_panic in H|eauto]. }
  destruct (String.eqb w "Timestamp"); [apply ints_text, timestamp_text|].
  destruct (String.eqb w "Value"); [|auto].
  destruct fields as [|[f [| | | | | | | | | | | | |[[f' x']|]|]] fs]; intros H;
    try (by (apply yields_fail in H || apply yields_panic in H)).
  apply list.Forall_cons in HF as [[_ Hx] _], Hc as [[_ [_ Hcx]] _]. by apply Hx in H.
Qed.

Lemma body_text nested go v md indent s :
  jsonpb_laws -> json_ws indent ->
  (forall f, nested = Some f -> forall x, texts f x) ->
  parts (texts go) v ->
  clean v -> yields (marshal_body m go nested v md indent) s -> json_text s.
Proof.
  intros L Hi Hnest Hgo Hc. unfold marshal_body.
  destruct v as [b|z|z|z|z|f|f|str|null str z|b|l|l|[x|]|o|info fields exts].
  1-5, 8, 10: case_match; [intros H0; by apply yields_panic in H0|by apply default_text].
  1, 2: case_match; [intros H0; by apply yields_panic in H0|]; apply float_text; auto.
  all: intros H.
  - destruct null; [yields_inv; rewrite str_app_nil_r; constructor|].
    destruct (as_enum m _); [by eapply enum_text|exact (default_text (VEnum _ _ _) _ L I H)].
  - yields_inv. rewrite str_app_nil_r.
    match goal with H : yields (write_elems _ _ _ _) _ |- _ => apply elems_body in H as [k Hk] end;
      [eapply array_body_text'; [exact Hk|by apply tail_ws]|done..|].
    destruct l as [l|]; [|constructor]. simpl in Hc. apply all_Forall in Hc.
    rewrite Forall_fmap. apply Forall_mp with (1 := Hgo) (2 := Hc).
    intros x Hx Hcx t. apply Hx; auto using inner_ws.
  - destruct (as_enum m _); yields_inv. rewrite str_app_nil_r.
    match goal with H : yields (write_entries _ _ _ _) _ |- _ => apply entries_body in H as [k Hk] end;
      [eapply object_body_text'; [exact Hk|by apply tail_ws]|done..|]. rewrite sort_by_perm.
    destruct l as [l|]; [|constructor]. simpl in Hc. apply all_Forall in Hc.
    rewrite Forall_fmap. apply Forall_mp with (1 := Hgo) (2 := Hc).
    intros [k x] Hx [Hk Hcx]. split; [done|]. intros t. apply Hx; auto using inner_ws.
  - by eapply Hgo.
  - yields_inv. rewrite str_app_nil_r. constructor.
  - yields_inv.
  - destruct (as_enum m _); [by apply yields_panic in H|].
    destruct Hc as (Hcustom & Hcf & Hce), Hgo as [Hf He].
    destruct (mi_MarshalJSONPB info) as [r|];
      [eapply custom_text; [done| |exact H]; naive_solver|].
    set (oi := match md with AsObject _ => indent | AsValue _ => indent +:+ mr_Indent m end) in *.
    assert (json_ws oi) as Hoi by (destruct md; [done|by apply inner_ws]).
    set (regular := marshal_braces _ _ _ _) in H.
    assert (forall s, yields regular s -> json_text s) as Hreg.
    { intros s' H'. eapply braces_text; [..|exact H']; [done..|].
      apply list.Forall_app. auto using fields_members, exts_members. }
    clearbody regular. destruct (mi_wkt info) as [w|]; [|auto].
    eapply wkt_text; eauto.
Qed.

Lemma marshal_texts n v : jsonpb_laws -> texts (marshal m n) v.
Proof.
  intros L. revert v. induction n as [|n IHn]; intros v; induction v as [v IHv] using gval_parts_ind;
    intros md indent t Hc Hi; rewrite marshal_unfold; eapply body_text; eauto;
    intros g Hg; simplify_eq; auto.
Qed.
End Grammar.

(** C5: what is written is JSON.  Where the library's numbers and raw objects are JSON, the indentation
    is white space, unpacked messages are of the same kind, and the names of a message's fields,
    extensions and enumeration values hold no quote, backslash or control character, every text
    [MarshalToString] returns for it is a text of the JSON grammar, with or without
    indentation, whatever its strings, bytes and map keys hold. *)
Theorem jsonpb_wellformed `{JE : JsonpbEnv} m n v s :
  jsonpb_laws m -> clean m v -> MarshalToString m n (Some v) = Some (Ok s) -> json_text s.
Proof.
  intros L Hc H. apply MarshalToString_yields in H. unfold Marshal_trace in H.
  destruct (checkRequiredFields v) as [| |]; yields_inv.
  eapply (marshal_texts m n v L); [done| |exact H]. done.
Qed.
