(* ===== verification/JsonpbOrder.v ===== *)
(** * The marshaler of protocol buffers and the order of maps

    Go visits maps in any order; the marshaler sorts what it writes of them. *)
From S2P Require Import Prelude Message Json Jsonpb JsonpbFacts.

(** ** The order of maps

    Go visits the entries of a map, and the registered extensions of a message, in any order: the
    entries of a [VMap] and the extensions of a [VMsg] stand in any order, too.  [reorder] relates
    values that differ in these orders only. *)

Section SortUnique.
Context {A K : Type} (less : K -> K -> bool) (ok : K -> Prop).
Context (less_irr : forall a, ok a -> less a a = false)
  (less_trans : forall a b c, ok a -> ok b -> ok c -> less a b = true -> less b c = true ->
     less a c = true)
  (less_total : forall a b, ok a -> ok b -> less a b = false -> less b a = false -> a = b).

Lemma less_asym a b : ok a -> ok b -> less a b = true -> less b a = false.
Proof.
  intros Ha Hb H. destruct (less b a) eqn:E; [|done].
  by rewrite <- (less_irr a Ha), (less_trans a b a).
Qed.

Lemma less_le_trans a b c :
  ok a -> ok b -> ok c -> less b a = false -> less b c = true -> less a c = true.
Proof.
  intros Ha Hb Hc H1 H2. destruct (less a b) eqn:E; [by eapply (less_trans a b c)|].
  by rewrite (less_total a b).
Qed.

Lemma insert_comm (x y : K * A) l :
  ok x.1 -> ok y.1 -> Forall (fun z => ok z.1) l -> x.1 <> y.1 ->
  insert_by less x (insert_by less y l) = insert_by less y (insert_by less x l).
Proof.
  intros Hx Hy Hl Hne.
  assert (less x.1 y.1 = negb (less y.1 x.1)) as Hxy.
  { destruct (less y.1 x.1) eqn:E; [by apply less_asym|].
    destruct (less x.1 y.1) eqn:E'; [done|]. by destruct Hne; apply less_total. }
  induction Hl as [|z l Hz Hl IH]; simpl.
  - rewrite Hxy. by destruct (less y.1 x.1).
  - destruct (less z.1 y.1) eqn:E1, (less z.1 x.1) eqn:E2; simpl; rewrite ?E1, ?E2.
    + by rewrite IH.
    + by rewrite (less_le_trans x.1 z.1 y.1).
    + by rewrite (less_le_trans y.1 z.1 x.1).
    + rewrite Hxy. by destruct (less y.1 x.1); simpl; rewrite ?E1, ?E2.
Qed.

Lemma sort_by_unique (l l' : list (K * A)) :
  l ≡ₚ l' -> Forall (fun x => ok x.1) l -> NoDup l.*1 -> sort_by less l = sort_by less l'.
Proof.
  intros Hp. induction Hp as [|x l l' Hp IH|x y l|l1 l2 l3 H1 IH1 H2 IH2]; intros Hok Hnd.
  - done.
  - apply list.Forall_cons in Hok as [Hx Hok]. rewrite fmap_cons in Hnd. apply list.NoDup_cons in Hnd as [_ Hnd].
    unfold sort_by in *. simpl. by rewrite IH.
  - apply list.Forall_cons in Hok as [Hy Hok]. apply list.Forall_cons in Hok as [Hx Hok].
    apply insert_comm; [done..| |].
    + change (Forall (fun z => ok z.1) (sort_by less l)). by rewrite sort_by_perm.
    + rewrite !fmap_cons in Hnd. apply list.NoDup_cons in Hnd as [Hn _]. set_solver.
  - rewrite IH1, IH2; [done| | |done..]; by rewrite <- H1.
Qed.
End SortUnique.

Lemma compare_refl s : String.compare s s = Eq.
Proof. induction s as [|c s IH]; simpl; [done|]. unfold Ascii.compare. by rewrite N.compare_refl. Qed.

Lemma compare_trans a : forall b c,
  String.compare a b = Lt -> String.compare b c = Lt -> String.compare a c = Lt.
Proof.
  induction a as [|x a IH]; intros [|y b] [|z c]; simpl; try done. unfold Ascii.compare.
  destruct (N.compare_spec (Ascii.N_of_ascii x) (Ascii.N_of_ascii y)),
    (N.compare_spec (Ascii.N_of_ascii y) (Ascii.N_of_ascii z)),
    (N.compare_spec (Ascii.N_of_ascii x) (Ascii.N_of_ascii z)); try done; try lia; eauto.
Qed.

Lemma ltb_irr s : String.ltb s s = false.
Proof. unfold String.ltb. by rewrite compare_refl. Qed.
Lemma ltb_trans a b c : String.ltb a b = true -> String.ltb b c = true -> String.ltb a c = true.
Proof.
  unfold String.ltb. pose proof (compare_trans a b c).
  destruct (String.compare a b), (String.compare b c), (String.compare a c); naive_solver.
Qed.
Lemma ltb_total a b : String.ltb a b = false -> String.ltb b a = false -> a = b.
Proof.
  unfold String.ltb. rewrite (String.compare_antisym b a).
  destruct (String.compare a b) eqn:E; simpl; try done. by apply String.compare_eq_iff in E.
Qed.

(** keys of one map *)
Definition same_kind (a b : gval) : bool :=
  match a, b with
  | VBool _, VBool _ | VInt32 _, VInt32 _ | VInt64 _, VInt64 _ | VUint32 _, VUint32 _
  | VUint64 _, VUint64 _ | VString _, VString _ => true
  | _, _ => false
  end.

Lemma Less_irr k a : same_kind k a = true -> Less a a = false.
Proof. destruct k, a; try done; intros _; simpl; auto using Z.ltb_irrefl, ltb_irr. Qed.

Lemma Less_trans k a b c :
  same_kind k a = true -> same_kind k b = true -> same_kind k c = true ->
  Less a b = true -> Less b c = true -> Less a c = true.
Proof.
  destruct k, a; try done; intros _; destruct b; try done; intros _; destruct c; try done;
    intros _; simpl; try (rewrite !Z.ltb_lt; lia); apply ltb_trans.
Qed.

Lemma Less_total k a b :
  same_kind k a = true -> same_kind k b = true -> Less a b = false -> Less b a = false -> a = b.
Proof.
  destruct k, a; try done; intros _; destruct b; try done; intros _; simpl;
    try (rewrite !Z.ltb_ge; intros; f_equal; lia).
  - intros H1 H2. pose proof (ltb_total _ _ H1 H2). by destruct b1, b.
  - intros H1 H2. f_equal. by apply ltb_total.
Qed.

Lemma sort_keys_unique {A} k (l l' : list (gval * A)) :
  l ≡ₚ l' -> Forall (fun x => same_kind k x.1 = true) l -> NoDup l.*1 ->
  sort_by Less l = sort_by Less l'.
Proof.
  apply (sort_by_unique Less (fun a => same_kind k a = true)); eauto using Less_irr, Less_trans, Less_total.
Qed.

Section All2.
Context {A : Type} (R : A -> A -> Prop).
Definition all2 : list A -> list A -> Prop :=
  fix go l l' :=
    match l, l' with
    | [], [] => True
    | x :: l, y :: l' => R x y /\ go l l'
    | _, _ => False
    end.
End All2.

Fixpoint reorder (v v' : gval) {struct v} : Prop :=
  match v, v' with
  | VSlice (Some l), VSlice (Some l') => all2 reorder l l'
  | VMap (Some l), VMap (Some l') =>
      NoDup l.*1 /\ (exists k, Forall (fun kv => same_kind k kv.1 = true) l)
      /\ exists l1, l1 ≡ₚ l' /\ all2 (fun a b => a.1 = b.1 /\ reorder a.2 b.2) l l1
  | VPtr (Some x), VPtr (Some y) => reorder x y
  | VOneof (Some (f, x)), VOneof (Some (g, y)) => f = g /\ reorder x y
  | VMsg info fields exts, VMsg info' fields' exts' =>
      info = info'
      /\ all2 (fun a b => a.1 = b.1 /\ reorder a.2 b.2) fields fields'
      /\ NoDup (map (fun ex => ei_id ex.1) exts)
      /\ exists exts1, exts1 ≡ₚ exts'
           /\ all2 (fun a b => a.1 = b.1 /\ reorder a.2 b.2) exts exts1
  | _, _ => v = v'
  end.

Lemma reorder_zero v v' : reorder v v' -> is_zero v = is_zero v'.
Proof.
  destruct v as [| | | | | | | | | |[]|[]|[]|[[]|]|], v' as [| | | | | | | | | |[]|[]|[]|[[]|]|];
    simpl; try done; intros; by simplify_eq.
Qed.

Lemma reorder_skip m f v v' : reorder v v' -> skip_field m f v = skip_field m f v'.
Proof.
  intros H. unfold skip_field. rewrite (reorder_zero _ _ H). do 2 f_equal.
  destruct v as [| | | | | | | | | |[]|[]|[]|[[]|]|], v' as [| | | | | | | | | |[]|[]|[]|[[]|]|];
    simpl in *; by simplify_eq.
Qed.

Lemma all2_map {A B} (R : A -> A -> Prop) (P : A -> Prop) (f : A -> B) l :
  Forall P l -> (forall x y, P x -> R x y -> f x = f y) -> forall l', all2 R l l' ->
  map f l = map f l'.
Proof.
  intros HF Hf. induction HF as [|x l Hx HF IH]; intros [|y l']; simpl; try done.
  intros [Hxy Hl]. by rewrite (Hf x y Hx Hxy), (IH l').
Qed.

Section Reorder.
Context `{JE : JsonpbEnv} (m : Marshaler).

(** [v] and its reorderings are written the same *)
Definition same_out (go : gval -> mode -> string -> trace) (v : gval) : Prop :=
  forall v' md indent, reorder v v' -> go v md indent = go v' md indent.

Lemma entries_same go md indent l l' :
  Forall (fun kv => same_out go kv.2) l ->
  reorder (VMap (Some l)) (VMap (Some l')) ->
  sort_by Less (map (fun kv => (kv.1, go kv.2 md indent)) l)
  = sort_by Less (map (fun kv => (kv.1, go kv.2 md indent)) l').
Proof.
  intros HF (Hnd & (k & Hk) & l1 & Hp & H2).
  apply (sort_keys_unique k); [| |by rewrite <- list_fmap_compose].
  - erewrite (all2_map _ _ _ l HF); [by apply Permutation_map| |exact H2].
    intros [a x] [b y] Hx [Hab Hr]. simpl in *. subst b. by rewrite (Hx _ _ _ Hr).
  - by apply Forall_fmap.
Qed.

Lemma exts_same go indent exts exts' exts1 :
  Forall (fun ex => same_out go ex.2) exts ->
  NoDup (map (fun ex => ei_id ex.1) exts) -> exts1 ≡ₚ exts' ->
  all2 (fun a b => a.1 = b.1 /\ reorder a.2 b.2) exts exts1 ->
  ext_traces m go exts indent = ext_traces m go exts' indent.
Proof.
  intros HF Hnd Hp H2. unfold ext_traces. f_equal.
  apply (sort_by_unique Z.ltb (fun _ => True)).
  - intros. apply Z.ltb_irrefl.
  - intros *. rewrite !Z.ltb_lt. lia.
  - intros *. rewrite !Z.ltb_ge. lia.
  - erewrite (all2_map _ _ _ exts HF); [by apply Permutation_map| |exact H2].
    intros [e x] [e' y] Hx [He Hr]. simpl in *. subst e'. by rewrite (Hx _ _ _ Hr).
  - apply list.Forall_forall. done.
  - rewrite <- list_fmap_compose. erewrite list_fmap_ext; [exact Hnd|]. by intros i [e x].
Qed.

Lemma fields_same go indent fields fields' :
  Forall (fun fx => same_out go fx.2
            /\ match fx.2 with VOneof (Some (_, x)) => same_out go x | _ => True end) fields ->
  all2 (fun a b => a.1 = b.1 /\ reorder a.2 b.2) fields fields' ->
  field_traces m go fields indent = field_traces m go fields' indent.
Proof.
  intros HF. unfold field_traces. revert fields'. eapply all2_map; [exact HF|].
  intros [f x] [f' x'] [Hx Ho] [Hf Hr]. simpl in *. subst f'. rewrite (reorder_skip m f x x' Hr).
  destruct (skip_field m f x'); [done|]. unfold field_trace.
  destruct x as [| | | | | | | | | |[]|[]|[]|[[f1 y]|]|], x' as [| | | | | | | | | |[]|[]|[]|[[f2 y']|]|];
    try reflexivity; try (by rewrite (Hx _ _ _ Hr)); try (cbn in Hr; discriminate Hr).
  destruct Hr as [-> Hr]. by rewrite (Ho _ _ _ Hr).
Qed.

(** a scalar has no other order *)
Definition compound (v : gval) : bool :=
  match v with VSlice _ | VMap _ | VPtr _ | VOneof _ | VMsg _ _ _ => true | _ => false end.

Lemma reorder_scalar v v' : reorder v v' -> v' = v \/ compound v = true /\ compound v' = true.
Proof. destruct v; simpl; try by left. all: repeat case_match; simpl; auto. Qed.

Lemma reorder_int v v' : reorder v v' -> field_int v' = field_int v.
Proof. intros [->|[H H']]%reorder_scalar; [done|]. by destruct v, v'. Qed.

Lemma ints_same fields fields' f :
  all2 (fun a b => a.1 = b.1 /\ reorder a.2 b.2) fields fields' ->
  two_ints fields' f = two_ints fields f.
Proof.
  destruct fields as [|[? a] [|[? b] ?]], fields' as [|[? a'] [|[? b'] ?]]; simpl; try done;
    intros ([_ Ha] & H); try done.
  destruct H as ([_ Hb] & _). simpl in *.
  by rewrite (reorder_int _ _ Ha), (reorder_int _ _ Hb).
Qed.

Lemma any_same nested fields fields' indent :
  all2 (fun a b => a.1 = b.1 /\ reorder a.2 b.2) fields fields' ->
  marshalAny m nested fields indent = marshalAny m nested fields' indent.
Proof.
  unfold marshalAny.
  destruct fields as [|[? a] [|[? b] ?]], fields' as [|[? a'] [|[? b'] ?]]; simpl; try done;
    intros ([_ Ha%reorder_scalar] & H); try done; simpl in *.
  - by destruct Ha as [->|[? ?]]; [|destruct a, a'].
  - destruct H as ([_ Hb%reorder_scalar] & _). simpl in *.
    destruct Ha as [->|[? ?]]; [|by destruct a, a'].
    by destruct Hb as [->|[? ?]]; [|destruct b, b'].
Qed.

Lemma wkt_same nested go w fields fields' indent regular :
  Forall (fun fx => same_out go fx.2
            /\ match fx.2 with VOneof (Some (_, x)) => same_out go x | _ => True end) fields ->
  all2 (fun a b => a.1 = b.1 /\ reorder a.2 b.2) fields fields' ->
  marshal_wkt m go nested w fields indent regular
  = marshal_wkt m go nested w fields' indent regular.
Proof.
  intros HF H2. unfold marshal_wkt.
  rewrite !(ints_same _ _ _ H2), (any_same _ _ _ _ H2).
  destruct HF as [|[f x] fields [Hx Ho] _], fields' as [|[f' x'] fields']; try done.
  destruct H2 as [[Hf Hr] H2]. simpl in *. subst f'.
  replace (go x' (AsValue (fi_props f)) indent) with (go x (AsValue (fi_props f)) indent)
    by (by apply Hx).
  replace (go x' (AsValue no_props) indent) with (go x (AsValue no_props) indent) by (by apply Hx).
  destruct (is_wrapper w), (String.eqb w "Any"), (String.eqb w "Duration"),
    (String.eqb w "Struct" || String.eqb w "ListValue"), (String.eqb w "Timestamp"),
    (String.eqb w "Value"); try done.
  destruct (reorder_scalar _ _ Hr) as [->|[H1 H1']]; [done|].
  destruct x as [| | | | | | | | | | | | |[[f1 y]|]|], x' as [| | | | | | | | | | | | |[[f2 y']|]|];
    try done; try (by cbn in Hr; repeat case_match).
  destruct Hr as [-> Hr]. by rewrite (Ho _ _ _ Hr).
Qed.

Lemma marshal_same n v : same_out (marshal m n) v.
Proof.
  induction v using gval_ind'; intros v' md indent Hr; rewrite !marshal_unfold;
    try (destruct (reorder_scalar _ _ Hr) as [->|[? _]]; done);
    destruct v' as [| | | | | | | | | |[l'|]|[l'|]|[x'|]|[[f' x']|]|info' fields' exts'];
    try (cbn in Hr; discriminate Hr); try reflexivity.
  - unfold marshal_body. do 3 f_equal. eapply all2_map; [eassumption| |exact Hr].
    intros x y Hx Hxy. by apply Hx.
  - unfold marshal_body. case_match; [done|]. do 3 f_equal. by apply entries_same.
  - by apply IHv.
  - destruct Hr as (-> & Hf & Hnd & exts1 & Hp & He). unfold marshal_body.
    rewrite !(fields_same _ _ _ fields'), !(exts_same _ _ _ exts' exts1) by done.
    destruct (as_enum m _), (mi_MarshalJSONPB info'), (mi_wkt info'); try done.
    by apply wkt_same.
Qed.
End Reorder.

(** C9: the order of maps does not show.  However the entries of the maps in a value, and the extensions
    of its messages, are ordered, at any depth, the marshaler writes the same; keys of one map
    are distinct and of one kind, and the numbers of extensions are distinct. *)
Theorem jsonpb_map_order `{JE : JsonpbEnv} m n v v' md indent :
  reorder v v' -> marshal m n v md indent = marshal m n v' md indent.
Proof. apply marshal_same. Qed.
