(* ===== verification/JsonpbFuel.v ===== *)
(** * The marshaler of protocol buffers ends

    The fuel of [marshal] bounds the nesting of [Any] messages; here, how much of it is enough. *)
From S2P Require Import Prelude Message Json Jsonpb JsonpbFacts.

(** ** Messages in messages

    Only [Any] messages make the marshaler recurse into a message that is not part of the value
    it was given.  What is unpacked from the bytes of an [Any] is smaller than its type URL and
    its bytes together: each [Any] in it has its own URL and bytes among those bytes. *)

Definition any_bytes (info : msg_info) (fields : list (field_info * gval)) : nat :=
  match fields with
  | (_, VString turl) :: (_, VBytes val) :: _ =>
      if bool_decide (mi_wkt info = Some "Any")
      then String.length turl + length (slice_bytes val) else 0
  | _ => 0
  end.

(** the length of the type URL and bytes of the largest [Any] of a value *)
Fixpoint any_size (v : gval) : nat :=
  match v with
  | VSlice (Some l) => max_list (map any_size l)
  | VMap (Some l) => max_list (map (fun kv => any_size kv.2) l)
  | VPtr (Some x) | VOneof (Some (_, x)) => any_size x
  | VMsg info fields exts =>
      Nat.max (any_bytes info fields)
        (Nat.max (max_list (map (fun fx => any_size fx.2) fields))
           (max_list (map (fun ex => any_size ex.2) exts)))
  | _ => 0
  end.

Lemma max_list_le {A} (f : A -> nat) l n : max_list (map f l) <= n <-> Forall (fun x => f x <= n) l.
Proof. induction l as [|x l IH]; simpl; [split; [constructor|lia]|]. rewrite list.Forall_cons, <- IH. lia. Qed.

Section Fuel.
Context `{JE : JsonpbEnv} (m : Marshaler).

(** a message that is unpacked has only [Any]s in it that are smaller than the one it comes from *)
Definition any_shrinks : Prop :=
  forall turl val msg, resolve_any m turl val = Ok msg ->
    any_size msg < String.length turl + length val.

Definition eq_out (go go' : gval -> mode -> string -> trace) (v : gval) : Prop :=
  forall md indent, go v md indent = go' v md indent.

Lemma fields_eq go go' indent fields :
  Forall (fun fx => eq_out go go' fx.2
            /\ match fx.2 with VOneof (Some (_, x)) => eq_out go go' x | _ => True end) fields ->
  field_traces m go fields indent = field_traces m go' fields indent.
Proof.
  intros HF. apply Forall_fmap_ext_1. eapply list.Forall_impl; [exact HF|].
  intros [f x] [Hx Ho]. simpl in *. unfold field_trace.
  destruct (skip_field m f x); [done|].
  destruct x as [| | | | | | | | | |[]|[]|[]|[[f1 y]|]|]; by rewrite ?Hx, ?Ho.
Qed.

Lemma exts_eq go go' indent exts :
  Forall (fun ex => eq_out go go' ex.2) exts ->
  ext_traces m go exts indent = ext_traces m go' exts indent.
Proof.
  intros HF. unfold ext_traces. do 2 f_equal. apply Forall_fmap_ext_1.
  eapply list.Forall_impl; [exact HF|]. intros [e x] Hx. simpl in *. by rewrite Hx.
Qed.

Lemma wkt_eq go go' nested nested' w fields indent regular :
  Forall (fun fx => eq_out go go' fx.2
            /\ match fx.2 with VOneof (Some (_, x)) => eq_out go go' x | _ => True end) fields ->
  (w = "Any" -> marshalAny m nested fields indent = marshalAny m nested' fields indent) ->
  marshal_wkt m go nested w fields indent regular
  = marshal_wkt m go' nested' w fields indent regular.
Proof.
  intros HF Ha. unfold marshal_wkt.
  assert (String.eqb w "Any" = false
          \/ marshalAny m nested fields indent = marshalAny m nested' fields indent) as [->| ->];
    [destruct (String.eqb_spec w "Any"); auto| |].
  all: destruct HF as [|[f x] fields [Hx Ho] _]; [done|]; simpl in *; rewrite !Hx;
    destruct x as [| | | | | | | | | |[]|[]|[]|[[f1 y]|]|]; by rewrite ?Ho.
Qed.

Lemma any_size_parts v n : any_size v <= n -> parts (fun x => any_size x <= n) v.
Proof.
  destruct v as [| | | | | | | | | |[l|]|[l|]|[x|]|[[f x]|]|info fields exts]; simpl; auto;
    rewrite ?max_list_le; auto.
  intros H. rewrite <- (max_list_le (fun ex => any_size ex.2)). split; [|lia].
  assert (max_list (map (fun fx => any_size fx.2) fields) <= n) as Hf%max_list_le by lia.
  eapply list.Forall_impl; [exact Hf|]. intros [f x] Hx. split; [done|]. simpl in *.
  by destruct x as [| | | | | | | | | | | | |[[f1 y]|]|].
Qed.

Definition msg_fields (v : gval) : list (field_info * gval) :=
  match v with VMsg _ fields _ => fields | _ => [] end.
Definition any_msg (v : gval) : Prop :=
  match v with VMsg info _ _ => mi_wkt info = Some "Any" | _ => False end.

(** of an [Any], its URL and its bytes are counted *)
Lemma any_size_bytes v n turl val f1 f2 fs :
  any_msg v -> msg_fields v = (f1, VString turl) :: (f2, VBytes val) :: fs -> any_size v <= n ->
  String.length turl + length (slice_bytes val) <= n.
Proof.
  destruct v as [| | | | | | | | | | | | | |info fields exts]; try done. simpl. intros Ha ->.
  simpl. rewrite bool_decide_eq_true_2 by done. lia.
Qed.

Lemma body_eq go go' nested nested' v md indent :
  parts (eq_out go go') v ->
  (any_msg v ->
   forall i, marshalAny m nested (msg_fields v) i = marshalAny m nested' (msg_fields v) i) ->
  marshal_body m go nested v md indent = marshal_body m go' nested' v md indent.
Proof.
  intros Hp Ha. unfold marshal_body.
  destruct v as [| | | | | | | | | |[l|]|[l|]|[x|]|[[f x]|]|info fields exts]; try done; simpl in *.
  - do 3 f_equal. apply Forall_fmap_ext_1. by eapply list.Forall_impl; [exact Hp|].
  - case_match; [done|]. do 4 f_equal. apply Forall_fmap_ext_1.
    eapply list.Forall_impl; [exact Hp|]. intros [k x] Hx. simpl in *. by rewrite Hx.
  - destruct Hp as [Hf He]. rewrite !(fields_eq _ _ _ _ Hf), !(exts_eq _ _ _ _ He).
    destruct (as_enum m _), (mi_MarshalJSONPB info), (mi_wkt info) as [w|]; try done.
    apply wkt_eq; [done|]. intros ->. by apply Ha.
Qed.

Lemma any_eq nested nested' v n i :
  any_shrinks -> any_msg v -> any_size v <= n ->
  (0 < n -> exists f f', nested = Some f /\ nested' = Some f'
     /\ forall msg, any_size msg < n -> eq_out f f' msg) ->
  marshalAny m nested (msg_fields v) i = marshalAny m nested' (msg_fields v) i.
Proof.
  intros Hs Ha Hv Hn. unfold marshalAny.
  destruct (msg_fields v) as [|[? [| | | | | | |turl| | | | | | |]]
    [|[? [| | | | | | | | |val| | | | |]] ?]] eqn:Ef; try done.
  pose proof (any_size_bytes _ _ _ _ _ _ _ Ha Ef Hv).
  destruct (resolve_any m turl _) as [msg| |] eqn:E; [|done..]. apply Hs in E.
  destruct Hn as (g & g' & -> & -> & Hm); [lia|]. by rewrite !(Hm msg) by lia.
Qed.

Lemma fuel_step n :
  any_shrinks -> forall v, any_size v <= n -> eq_out (marshal m (S n)) (marshal m n) v.
Proof.
  intros Hs. induction n as [|n IHn]; intros v; induction v as [v IHv] using gval_parts_ind;
    intros Hv md indent; rewrite (marshal_unfold m (S _)), (marshal_unfold m _ _ _ _);
    (apply body_eq; [eapply parts_mp; [exact IHv|by apply any_size_parts|]; auto|]);
    intros Ha i; eapply (any_eq _ _ _ _ _ Hs Ha Hv); [lia|].
  intros _. eexists _, _. split; [done|]. split; [done|]. intros msg ?. apply IHn. lia.
Qed.

Lemma fuel_enough n k v :
  any_shrinks -> any_size v <= n -> eq_out (marshal m (k + n)) (marshal m n) v.
Proof.
  intros Hs Hv. induction k as [|k IH]; intros md indent; [done|].
  change (S k + n) with (S (k + n)). rewrite fuel_step by (done || lia). apply IH.
Qed.

(** *** A result *)

Definition returns (t : trace) : Prop := t.2 <> None.

Lemma returns_seq a b : returns a -> returns b -> returns (a >;> b).
Proof. unfold returns, t_seq. destruct a as [? [[]|]], b; done. Qed.
Lemma returns_of_res r k : (forall s, returns (k s)) -> returns (t_of_res r k).
Proof. unfold returns. destruct r; simpl; auto. Qed.
Lemma returns_ind ss : returns (t_ind m ss).
Proof. unfold t_ind. by case_match. Qed.
End Fuel.

Create HintDb returns discriminated.
#[export] Hint Resolve returns_seq returns_of_res returns_ind : returns.
#[export] Hint Extern 1 (returns (out_write _)) => done : returns.
#[export] Hint Extern 1 (returns t_end) => done : returns.
#[export] Hint Extern 1 (returns t_ret) => done : returns.
#[export] Hint Extern 1 (returns t_panic) => done : returns.
#[export] Hint Extern 1 (returns (t_fail _)) => done : returns.

Section Returns.
Context `{JE : JsonpbEnv} (m : Marshaler).

Lemma returns_default v : returns (marshal_default m v).
Proof. unfold marshal_default. apply returns_of_res. intros s. case_match; auto 6 with returns. Qed.
Lemma returns_float f v : returns (marshal_float m f v).
Proof. unfold marshal_float. case_match; auto using returns_default with returns. Qed.
Lemma returns_enum str z : returns (marshal_enum str z).
Proof. unfold marshal_enum. case_match; auto 6 with returns. Qed.
Lemma returns_ints fields f : (forall a b, returns (f a b)) -> returns (two_ints fields f).
Proof. intros H. unfold two_ints. repeat case_match; auto with returns. Qed.
Lemma returns_duration s ns : returns (marshal_duration s ns).
Proof. unfold marshal_duration. repeat case_match; auto 6 with returns. Qed.
Lemma returns_timestamp s ns : returns (marshal_timestamp s ns).
Proof. unfold marshal_timestamp. repeat case_match; auto 6 with returns. Qed.
Lemma returns_custom r i u : returns (marshal_custom m r i u).
Proof.
  unfold marshal_custom. apply returns_of_res. intros s. case_match; auto with returns.
Qed.

Lemma returns_fields first fields :
  Forall (fun o => match o with Some t => returns t | None => True end) fields ->
  returns (write_fields m first fields).
Proof.
  intros HF. revert first. induction HF as [|[t|] fields Ht HF IH]; intros first; simpl; [done| |done].
  case_match; unfold writeSep; auto with returns.
Qed.

Lemma returns_elems indent es : forall comma,
  Forall returns es -> returns (write_elems m indent comma es).
Proof. intros comma HF. revert comma. induction HF; intros; simpl; auto with returns. Qed.

Lemma returns_entries indent es : forall first,
  Forall (fun kt => returns kt.2) es -> returns (write_entries m indent first es).
Proof.
  intros first HF. revert first. induction HF as [|[k t] es Ht HF IH]; intros first; simpl; [done|].
  case_match; auto 8 with returns.
Qed.
End Returns.
#[export] Hint Resolve returns_default returns_float returns_enum returns_ints returns_duration
  returns_timestamp returns_custom returns_fields returns_elems returns_entries : returns.

Section Total.
Context `{JE : JsonpbEnv} (m : Marshaler).

Definition returning (go : gval -> mode -> string -> trace) (v : gval) : Prop :=
  forall md indent, returns (go v md indent).

Lemma returns_fields_of go indent fields exts :
  parts (returning go) (VMsg (MsgInfo None None) fields exts) ->
  Forall (fun o => match o with Some t => returns t | None => True end)
    (field_traces m go fields indent ++ ext_traces m go exts indent).
Proof.
  intros [Hf He]. apply list.Forall_app. split.
  - apply Forall_fmap. eapply list.Forall_impl; [exact Hf|]. intros [f x] [Hx Ho]. simpl in *.
    destruct (skip_field m f x); [done|]. unfold field_trace, marshalField.
    destruct x as [| | | | | | | | | | | | |[[f1 y]|]|]; auto 8 with returns.
  - unfold ext_traces. apply Forall_fmap. rewrite sort_by_perm. apply Forall_fmap.
    eapply list.Forall_impl; [exact He|]. intros [e x] Hx. simpl in *.
    destruct (ei_has e); [|done]. destruct (ei_get e); unfold marshalField; auto 8 with returns.
Qed.

Lemma returns_body go nested v md indent :
  parts (returning go) v ->
  (any_msg v -> forall i, returns (marshalAny m nested (msg_fields v) i)) ->
  returns (marshal_body m go nested v md indent).
Proof.
  intros Hp Ha. unfold marshal_body.
  destruct v as [| | | | | | | | | |l|l|[x|]|o|info fields exts];
    try (repeat case_match; auto with returns; fail).
  - apply returns_seq; [done|]. apply returns_seq; [|auto with returns].
    apply returns_elems. destruct l as [l|]; [|constructor].
    apply Forall_fmap. eapply list.Forall_impl; [exact Hp|]. intros x Hx. apply Hx.
  - case_match; [done|]. apply returns_seq; [done|]. apply returns_seq; [|auto with returns].
    apply returns_entries. rewrite sort_by_perm. destruct l as [l|]; [|constructor].
    apply Forall_fmap. eapply list.Forall_impl; [exact Hp|]. intros [k x] Hx. apply Hx.
  - destruct (as_enum m _); [done|]. destruct (mi_MarshalJSONPB info); [auto with returns|].
    set (regular := marshal_braces _ _ _ _).
    assert (returns regular) as Hr.
    { unfold regular, marshal_braces, marshalTypeURL.
      pose proof (fun i => returns_fields_of go i fields exts Hp). case_match; auto 12 with returns. }
    destruct (mi_wkt info) as [w|] eqn:Ew; [|done]. destruct Hp as [Hf _].
    assert (w = "Any" -> forall i, returns (marshalAny m nested fields i)) as Hany by (by intros ->; apply Ha).
    unfold marshal_wkt. destruct (is_wrapper w), (String.eqb_spec w "Any"), (String.eqb w "Duration"),
      (String.eqb w "Struct" || String.eqb w "ListValue"), (String.eqb w "Timestamp"),
      (String.eqb w "Value"); auto with returns.
    all: destruct Hf as [|[f x] fields [Hx Ho] _]; auto with returns.
    all: try apply Hx.
    all: destruct x as [| | | | | | | | | | | | |[[f1 y]|]|]; auto with returns; apply Ho.
Qed.

Lemma marshal_returns n : any_shrinks m -> forall v, any_size v <= n -> returning (marshal m n) v.
Proof.
  intros Hs. induction n as [|n IHn]; intros v; induction v as [v IHv] using gval_parts_ind;
    intros Hv md indent; rewrite marshal_unfold;
    (apply returns_body; [eapply parts_mp; [exact IHv|by apply any_size_parts|]; auto|]);
    intros Ha i; unfold marshalAny;
    destruct (msg_fields v) as [|[? [| | | | | | |turl| | | | | | |]]
      [|[? [| | | | | | | | |val| | | | |]] ?]] eqn:Ef; auto with returns;
    pose proof (any_size_bytes _ _ _ _ _ _ _ Ha Ef Hv);
    (destruct (resolve_any m turl _) as [msg| |] eqn:E; auto with returns); apply Hs in E; [lia|].
  assert (returning (marshal m n) msg) as Hm by (apply IHn; lia).
  unfold any_object, marshalTypeURL, writeSep. repeat case_match; auto 20 with returns.
Qed.
End Total.

(** fuel that bounds the size of the [Any]s is enough *)
Lemma marshal_total `{JE : JsonpbEnv} m n v :
  any_shrinks m -> any_size v <= n -> MarshalToString m n (Some v) <> None.
Proof.
  intros Hs Hv.
  assert ((Marshal_trace m n (Some v)).2 <> None) as Hr.
  { unfold Marshal_trace. case_match; [|done..]. by apply marshal_returns. }
  pose proof (MarshalToString_result m n (Some v)) as ->. by repeat case_match.
Qed.

(** C10: messages in [Any] messages end.  The size of an [Any] is the length of its
    type URL and its bytes together.  Where a message that is unpacked has only [Any]s in it that are
    smaller than the one it comes from, fuel that bounds the size of the [Any]s of a message is
    enough: the marshaler returns a text or an error or panics, it does not run out, and more fuel
    does not change what it does. *)
Theorem jsonpb_returns `{JE : JsonpbEnv} m n k v :
  any_shrinks m -> any_size v <= n ->
  MarshalToString m n (Some v) <> None
  /\ MarshalToString m (k + n) (Some v) = MarshalToString m n (Some v).
Proof.
  intros Hs Hv. split; [by apply marshal_total|].
  assert (Marshal_trace m (k + n) (Some v) = Marshal_trace m n (Some v)) as Heq.
  { unfold Marshal_trace. case_match; [|done..]. by apply fuel_enough. }
  unfold MarshalToString, Marshal. by rewrite Heq.
Qed.
