(* ===== verification/JsonpbTimes.v ===== *)
(** * Durations and times in JSON

    The fractional digits of the well-known types [Duration] and [Timestamp]. *)
From S2P Require Import Prelude Message Json Jsonpb JsonpbFacts.

(** ** Decimal strings *)

Lemma digits_val_acc s : forall acc,
  str_forall is_digit s = true ->
  exists v, digits_val 0 s = Some v /\ digits_val acc s = Some (acc * 10 ^ Z.of_nat (String.length s) + v)%Z
            /\ (0 <= v < 10 ^ Z.of_nat (String.length s))%Z.
Proof.
  induction s as [|c s IH]; intros acc; simpl str_forall; simpl String.length.
  { intros _. exists 0%Z. simpl. split; [done|]. split; [f_equal; lia|lia]. }
  intros [Hc Hs]%andb_true_iff.
  unfold is_digit in Hc. apply bool_decide_eq_true in Hc as [d Hd]. simpl. rewrite Hd. simpl.
  assert (0 <= d < 10)%Z as Hd'.
  { unfold digit in Hd. case_bool_decide; [|done]. injection Hd as <-. lia. }
  destruct (IH d Hs) as (v & Hv & Hdv & Hb), (IH (acc * 10 + d)%Z Hs) as (v' & Hv' & Hav & _).
  assert (v' = v) as -> by congruence.
  exists (d * 10 ^ Z.of_nat (String.length s) + v)%Z. split; [done|]. rewrite Hav.
  rewrite Nat2Z.inj_succ, Z.pow_succ_r by lia.
  split; [f_equal; lia|]. nia.
Qed.

Lemma digits_val_app a b acc :
  digits_val acc (a +:+ b) = (v ← digits_val acc a; digits_val v b).
Proof.
  revert acc. induction a as [|c a IH]; intros acc; simpl; [done|].
  destruct (digit c); simpl; [apply IH|done].
Qed.

Lemma digits_zero s :
  str_forall is_digit s = true -> digits_val 0 s = Some 0%Z -> s = zeros (String.length s).
Proof.
  induction s as [|c s IH]; simpl; [done|]. intros [Hc Hs]%andb_true_iff.
  unfold is_digit in Hc. apply bool_decide_eq_true in Hc as [d Hd]. rewrite Hd. simpl.
  destruct (digits_val_acc s d Hs) as (v & Hv & Ha & Hb). intros H0.
  assert (digits_val d s = Some 0%Z) as H0' by exact H0. rewrite Ha in H0'. injection H0' as H0'.
  assert (0 <= d)%Z as Hd' by (unfold digit in Hd; case_bool_decide; [|done]; simplify_eq; lia).
  assert (0 < 10 ^ Z.of_nat (String.length s))%Z by (apply Z.pow_pos_nonneg; lia).
  assert (d = 0 /\ v = 0)%Z as [-> ->] by nia.
  f_equal; [|by apply IH]. unfold digit in Hd. case_bool_decide; [|done]. injection Hd as Hd.
  rewrite <- (Ascii.ascii_nat_embedding c). unfold chr. f_equal. lia.
Qed.

Lemma zeros_val n s : digits_val 0 (zeros n +:+ s) = digits_val 0 s.
Proof. induction n as [|n IH]; [done|exact IH]. Qed.

Lemma zeros_digits n : str_forall is_digit (zeros n) = true.
Proof. induction n; [done|]. simpl. by rewrite IHn. Qed.

Lemma zeros_length n : String.length (zeros n) = n.
Proof. induction n; simpl; auto. Qed.

Lemma pretty_go_length k : forall (x : N) s, (x < 10 ^ N.of_nat k)%N ->
  String.length (pretty_N_go x s) <= k + String.length s.
Proof.
  induction k as [|k IH]; intros x s Hx.
  - assert (x = 0%N) as -> by (simpl in Hx; lia). by rewrite pretty_N_go_0.
  - destruct (decide (x = 0)%N) as [->|H0]; [rewrite pretty_N_go_0; lia|].
    rewrite pretty_N_go_step by lia. etrans; [apply IH|simpl; lia].
    rewrite Nat2N.inj_succ, N.pow_succ_r' in Hx. apply N.Div0.div_lt_upper_bound. lia.
Qed.

(** nine digits of a number below 10^9 *)
Lemma nine_digits ns :
  (0 <= ns < 10 ^ 9)%Z ->
  String.length (fmt_0d 9 ns) = 9 /\ str_forall is_digit (fmt_0d 9 ns) = true
  /\ digits_val 0 (fmt_0d 9 ns) = Some ns.
Proof.
  intros Hns. unfold fmt_0d, pad. rewrite bool_decide_eq_false_2 by lia.
  assert (exists x : N, ns = Z.of_N x /\ pretty ns = pretty x) as (x & -> & ->).
  { destruct ns as [|p|p]; [by exists 0%N|by exists (N.pos p)|lia]. }
  destruct (pretty_digits x) as [Hd _].
  assert (String.length (pretty x) <= 9) as Hl.
  { unfold pretty, pretty_N. destruct (decide (x = 0)%N) as [->|]; [simpl; lia|].
    etrans; [apply (pretty_go_length 9)|simpl; lia]. lia. }
  rewrite str_length_app, zeros_length, str_forall_app, zeros_digits, zeros_val, Hd.
  split; [lia|]. split; [done|]. apply digits_val_pretty.
Qed.

(** ** Trimming *)

Lemma trim_short suf y : String.length y < String.length suf -> trim_suffix suf y = y.
Proof.
  induction y as [|c y IH]; intros H; cbn [trim_suffix]; [by case_match|].
  destruct (String.eqb_spec (String c y) suf) as [<-|]; [lia|].
  by rewrite IH by (simpl in H; lia).
Qed.

Lemma trim_app suf x y :
  String.length y = String.length suf ->
  trim_suffix suf (x +:+ y) = if String.eqb y suf then x else x +:+ y.
Proof.
  intros Hl. induction x as [|c x IH]; cbn [String.append].
  - destruct y as [|d y]; cbn [trim_suffix]; [by case_match|]. case_match; [done|].
    rewrite trim_short; [done|simpl in Hl; lia].
  - cbn [trim_suffix]. destruct (String.eqb_spec (String c (x +:+ y)) suf) as [He|_].
    + exfalso. apply (f_equal String.length) in He. simpl in He. rewrite str_length_app in He. lia.
    + rewrite IH. by case_match.
Qed.

(** a string of [n + k] characters, split *)
Lemma str_split n k s :
  String.length s = n + k ->
  exists a b, s = a +:+ b /\ String.length a = n /\ String.length b = k.
Proof.
  revert s. induction n as [|n IH]; intros s Hs; [by exists "", s|].
  destruct s as [|c s]; [done|]. destruct (IH s) as (a & b & -> & <- & ?); [simpl in Hs; lia|].
  by exists (String c a), b.
Qed.

(** a fraction of a second: nothing, or a point and three, six or nine digits, no more than it
    takes *)
Definition fraction (ns : Z) (f : string) : Prop :=
  ns = 0%Z /\ f = ""
  \/ exists d v, f = "." +:+ d /\ str_forall is_digit d = true /\ digits_val 0 d = Some v
       /\ (String.length d = 3 /\ ns = (v * 1000000)%Z /\ v <> 0%Z
           \/ String.length d = 6 /\ ns = (v * 1000)%Z /\ (v mod 1000 <> 0)%Z
           \/ String.length d = 9 /\ ns = v /\ (v mod 1000 <> 0)%Z).

Lemma thousand s :
  str_forall is_digit s = true -> String.length s = 3 ->
  exists v, (forall acc, digits_val acc s = Some (acc * 1000 + v)%Z) /\ (0 <= v < 1000)%Z
    /\ String.eqb s "000" = bool_decide (v = 0)%Z.
Proof.
  intros Hs Hl. destruct (digits_val_acc s 0 Hs) as (v & Hv & _ & Hb). rewrite Hl in Hb.
  exists v. split.
  { intros acc. destruct (digits_val_acc s acc Hs) as (v' & Hv' & -> & _). rewrite Hl.
    assert (v' = v) as -> by congruence. done. }
  split; [lia|]. case_bool_decide as H0.
  - subst v. apply digits_zero in Hv; [|done]. rewrite Hl in Hv. by subst s.
  - destruct (String.eqb_spec s "000") as [->|]; [|done]. by injection Hv.
Qed.

Lemma trim_point x s :
  String.length s = 3 ->
  trim_suffix ".000" (x +:+ "." +:+ s) = if String.eqb s "000" then x else x +:+ "." +:+ s.
Proof. intros Hs. by rewrite (trim_app ".000" x ("." +:+ s)) by (simpl; lia). Qed.

Lemma trim_no_point x s :
  String.length s = 3 -> String.eqb s "000" = false -> trim_suffix ".000" (x +:+ s) = x +:+ s.
Proof.
  intros Hs H0. induction x as [|c x IH]; cbn [String.append].
  - apply trim_short. simpl. lia.
  - cbn [trim_suffix]. rewrite IH. destruct (String.eqb_spec (String c (x +:+ s)) ".000") as [He|]; [|done].
    destruct x as [|d x]; [by injection He as _ ->|].
    apply (f_equal String.length) in He. simpl in He. rewrite str_length_app in He. lia.
Qed.

Lemma thousands a b va vb acc :
  (forall acc, digits_val acc a = Some (acc * 1000 + va)%Z) -> digits_val (acc * 1000 + va) b = Some vb ->
  digits_val acc (a +:+ b) = Some vb.
Proof. intros Ha Hb. rewrite digits_val_app, Ha. exact Hb. Qed.

Lemma trim_fraction_spec x ns :
  (0 <= ns < 10 ^ 9)%Z ->
  exists f, fraction ns f /\ trim_fraction (x +:+ "." +:+ fmt_0d 9 ns) = x +:+ f.
Proof.
  intros Hns. destruct (nine_digits ns Hns) as (Hl & Hd & Hv).
  destruct (str_split 3 6 _ Hl) as (a & bc & Heq & Ha & Hbc). rewrite Heq in *. clear Heq.
  destruct (str_split 3 3 _ Hbc) as (b & c & -> & Hb & Hc).
  rewrite !str_forall_app in Hd. apply andb_true_iff in Hd as [Hda [Hdb Hdc]%andb_true_iff].
  destruct (thousand a Hda Ha) as (va & Hva & Hra & Hea).
  destruct (thousand b Hdb Hb) as (vb & Hvb & Hrb & Heb).
  destruct (thousand c Hdc Hc) as (vc & Hvc & Hrc & Hec).
  assert (digits_val 0 (a +:+ b) = Some (va * 1000 + vb)%Z) as Hab
    by (eapply thousands; [exact Hva|]; rewrite Hvb; f_equal; lia).
  assert (digits_val 0 (a +:+ b +:+ c) = Some ((va * 1000 + vb) * 1000 + vc)%Z) as Habc.
  { eapply thousands; [exact Hva|]. eapply thousands; [exact Hvb|]. by rewrite Hvc. }
  rewrite Habc in Hv. injection Hv as Hv.
  unfold trim_fraction.
  replace (x +:+ "." +:+ a +:+ b +:+ c) with ((x +:+ "." +:+ a +:+ b) +:+ c)
    by (rewrite !str_app_assoc; done).
  rewrite trim_app, Hec by done. case_bool_decide as H0; cycle 1.
  { rewrite trim_app, Hec by done. rewrite trim_no_point by done.
    exists ("." +:+ a +:+ b +:+ c). rewrite !str_app_assoc. split; [|done]. right.
    exists (a +:+ b +:+ c), ns. split; [done|]. rewrite !str_forall_app, Hda, Hdb, Hdc.
    split; [done|]. split; [by rewrite Habc, Hv|]. right. right.
    rewrite !str_length_app, Ha, Hb, Hc. split; [done|]. split; [done|].
    subst ns. rewrite Z.add_comm, Z.mod_add, Z.mod_small; lia. }
  subst vc. replace (x +:+ "." +:+ a +:+ b) with ((x +:+ "." +:+ a) +:+ b)
    by (rewrite !str_app_assoc; done).
  rewrite trim_app, Heb by done. case_bool_decide as H0; cycle 1.
  { rewrite trim_no_point by done.
    exists ("." +:+ a +:+ b). rewrite !str_app_assoc. split; [|done]. right.
    exists (a +:+ b), (va * 1000 + vb)%Z. split; [done|]. rewrite !str_forall_app, Hda, Hdb.
    split; [done|]. split; [exact Hab|]. right. left.
    rewrite !str_length_app, Ha, Hb. split; [done|]. split; [lia|].
    rewrite Z.add_comm, Z.mod_add, Z.mod_small; lia. }
  subst vb. rewrite trim_point, Hea by done. case_bool_decide as H0.
  - exists "". rewrite str_app_nil_r. split; [left; split; [lia|done]|done].
  - exists ("." +:+ a). split; [|done]. right. exists a, va. rewrite Hva.
    split; [done|]. split; [done|]. split; [f_equal; lia|]. left. split; [done|]. lia.
Qed.

(** ** The texts *)

Lemma trim_sign d : exists d', trim_fraction ("0.-" +:+ d) = "0.-" +:+ d'.
Proof. eexists. reflexivity. Qed.

Lemma yields_quoted x u :
  yields (out_write (String quote_char "") >;> out_write x >;>
          out_write (u +:+ String quote_char "") >;> t_end) (quoted (x +:+ u)).
Proof.
  unfold yields, t_text. cbn. split; [done|].
  rewrite str_app_nil_r. unfold quoted. by rewrite str_app_assoc.
Qed.

Lemma yields_trim f0 f u t :
  trim_fraction t = f0 +:+ f ->
  yields (out_write (String quote_char "") >;> out_write (trim_fraction t) >;>
          out_write (u +:+ String quote_char "") >;> t_end) (quoted (f0 +:+ f +:+ u)).
Proof. intros ->. rewrite <- str_app_assoc. apply yields_quoted. Qed.

(** C24: durations and times.  A duration whose seconds and nanoseconds agree in sign is written as its
    seconds, then, if it needs them, a point and three, six or nine digits that are
    exactly its nanoseconds, and [s]; a time is written as its date and time of day, the same
    fraction and [Z].  Nanoseconds of a second or more, or of the other sign, are an error.  But a
    duration of less than a second before zero has its sign after the point: it is no number. *)
Theorem jsonpb_times s ns :
  ((-10 ^ 9 < ns < 10 ^ 9)%Z -> (s < 0 /\ ns <= 0 \/ 0 <= s /\ 0 <= ns)%Z ->
     exists f, fraction (Z.abs ns) f
       /\ yields (marshal_duration s ns) (quoted (pretty s +:+ f +:+ "s")))
  /\ ((-10 ^ 9 < ns < 0)%Z -> s = 0%Z ->
     exists d, yields (marshal_duration s ns) (quoted ("0.-" +:+ d +:+ "s")))
  /\ ((ns <= -10 ^ 9 \/ 10 ^ 9 <= ns \/ 0 < s /\ ns < 0 \/ s < 0 /\ 0 < ns)%Z ->
     exists e, marshal_duration s ns = t_fail e)
  /\ ((0 <= ns < 10 ^ 9)%Z ->
     exists f, fraction ns f
       /\ yields (marshal_timestamp s ns) (quoted (format_seconds s +:+ f +:+ "Z")))
  /\ ((ns < 0 \/ 10 ^ 9 <= ns)%Z -> exists e, marshal_timestamp s ns = t_fail e).
Proof.
  unfold marshal_duration, marshal_timestamp, secondInNanos. split_and!.
  - intros Hr Hsign. rewrite !bool_decide_eq_false_2 by lia. cbn [orb].
    assert ((if bool_decide (s < 0)%Z then (- ns)%Z else ns) = Z.abs ns) as Ha.
    { case_bool_decide; lia. }
    destruct (trim_fraction_spec (pretty s) (Z.abs ns)) as (f & Hf & Ht); [lia|].
    exists f. split; [done|].
    replace (_ || _) with false; [|repeat case_bool_decide; done || (exfalso; lia)]. rewrite Ha.
    by apply yields_trim.
  - intros Hr ->. rewrite !bool_decide_eq_false_2 by lia. cbn [orb andb].
    rewrite (bool_decide_eq_false_2 (0 < 0)%Z) by lia. cbn [andb].
    unfold fmt_0d. rewrite bool_decide_eq_true_2 by lia.
    destruct (trim_sign (pad 8 (pretty (- ns)%Z))) as [d Hd]. exists d.
    by apply (yields_trim "0.-" d).
  - intros H. repeat case_bool_decide; simpl; eauto; lia.
  - intros Hr. rewrite !bool_decide_eq_false_2 by lia. cbn [orb].
    destruct (trim_fraction_spec (format_seconds s) ns) as (f & Hf & Ht); [lia|].
    exists f. split; [done|]. by apply yields_trim.
  - intros H. repeat case_bool_decide; simpl; eauto; lia.
Qed.
