(* ===== verification/Unmarshal.v ===== *)
(** * Unmarshalling JSON to protocol buffers ([jsonpb.go])

    The other half of the copied library: JSON into a message by its type.  The JSON is a tree of
    [JsonTree]: the parts the code keeps as raw messages are valid already, and it looks at
    nothing in them but the tree.  What a target holds after an error is left out. *)
From S2P Require Import Prelude Message Json JsonTree Jsonpb.

(** ** Types

    A Go type as protoc generates it; structs are referred to by the name of their message. *)

(** an enumeration: whether it is [NullValue], its [String] method, and the [UnmarshalJSON] those
    of the old syntax have *)
Record enum_desc : Type := EnumDesc {
  en_null : bool;
  en_String : Z -> string;
  en_UnmarshalJSON : option (jval -> res Z);
}.

Inductive gtype : Type :=
| TBool | TInt32 | TInt64 | TUint32 | TUint64 | TFloat32 | TFloat64 | TString | TBytes
| TEnum (e : enum_desc)
| TPtr (t : gtype)             (* an optional scalar *)
| TSlice (t : gtype)
| TMap (k v : gtype)
| TMessage (name : string)     (* a pointer to a struct *)
| TOneof.                      (* the interface of a oneof *)

(** a value to set: a field, an element or an entry, or a struct itself *)
Inductive target : Type := Field (t : gtype) | Struct (name : string).

(** a struct: its fields; its oneofs' members, each with the place of the interface and the
    field of its own; its registered extensions, with what [reflect] makes of their types *)
Record msg_desc : Type := MsgDesc {
  md_info : msg_info;
  md_UnmarshalJSONPB : option (jval -> res gval);
  md_fields : list (field_info * gtype);
  md_oneofs : list (nat * field_info * gtype);
  md_exts : list (ext_info * target);
}.

(** [MessageDesc] are the generated structs, by message name; [MessageTypeName] says which names
    the registry of the protobuf library has; the functions of the standard library on texts of
    numbers and times; [json_range] is the order of a range over decoded members. *)
Class UnmarshalEnv := {
  MessageDesc : string -> msg_desc;
  MessageTypeName : string -> option string;
  EnumValueMap : string -> gmap string Z;
  Value_field : string -> field_info;
  ParseFloat32 : string -> option spec_float;
  ParseFloat64 : string -> option spec_float;
  time_ParseDuration : string -> res Z;
  time_Parse : string -> res (Z * Z);
  proto_Marshal : gval -> res bytes;
  proto_SetExtension : gval -> ext_info -> gval -> res gval;
  json_range : forall A, gmap string A -> list (string * A);
}.

Record Unmarshaler : Type := MkUnmarshaler {
  um_AllowUnknownFields : bool;
  um_AnyResolver : option (string -> res string);
}.

Definition Value_name : string := "google.protobuf.Value".
Definition ListValue_name : string := "google.protobuf.ListValue".
Definition Struct_name : string := "google.protobuf.Struct".

Section Unmarshal.
Context `{UE : UnmarshalEnv} (u : Unmarshaler).

(** [reflect.Zero] of a field's type, and a new struct *)
Definition zero (t : gtype) : gval :=
  match t with
  | TBool => VBool false
  | TInt32 => VInt32 0 | TInt64 => VInt64 0 | TUint32 => VUint32 0 | TUint64 => VUint64 0
  | TFloat32 => VFloat32 (S754_zero false) | TFloat64 => VFloat64 (S754_zero false)
  | TString => VString ""
  | TBytes => VBytes None
  | TEnum e => VEnum (en_null e) (en_String e 0) 0
  | TPtr _ | TMessage _ => VPtr None
  | TSlice _ => VSlice None
  | TMap _ _ => VMap None
  | TOneof => VOneof None
  end.

Definition new_struct (name : string) : gval :=
  VMsg (md_info (MessageDesc name)) (map (fun f => (f.1, zero f.2)) (md_fields (MessageDesc name)))
    [].

Definition new (t : target) : gval :=
  match t with Field t => zero t | Struct name => new_struct name end.

(** ** Scalars ([json.Unmarshal]) *)

Definition type_error : goerr := External "json: cannot unmarshal".

Definition parse_uint (s : string) : option Z :=
  if str_empty s then None
  else v ← digits_val 0 s; if bool_decide (v < 2 ^ 64)%Z then Some v else None.

Definition in_i32 (z : Z) : bool := bool_decide (- 2 ^ 31 <= z < 2 ^ 31)%Z.

Definition of_option (o : option gval) : res gval :=
  match o with Some v => Ok v | None => Err type_error end.

Definition json_num (t : gtype) (s : string) : res gval :=
  of_option
    match t with
    | TInt32 => z ← atoi s; if in_i32 z then Some (VInt32 z) else None
    | TInt64 => VInt64 <$> atoi s
    | TUint32 => z ← parse_uint s; if bool_decide (z < 2 ^ 32)%Z then Some (VUint32 z) else None
    | TUint64 => VUint64 <$> parse_uint s
    | TFloat32 => VFloat32 <$> ParseFloat32 s
    | TFloat64 => VFloat64 <$> ParseFloat64 s
    | TEnum e => z ← atoi s; if in_i32 z then Some (VEnum (en_null e) (en_String e z) z) else None
    | _ => None
    end.

Definition b64_val (c : char) : option nat :=
  if between 65 90 c then Some (code c - 65)
  else if between 97 122 c then Some (code c - 71)
  else if between 48 57 c then Some (code c + 4)
  else if Ascii.eqb c (char_of "+") then Some 62
  else if Ascii.eqb c (char_of "/") then Some 63
  else None.

Definition byte_of (n : nat) : byte := z2b (Z.of_nat n).

Fixpoint b64_quanta (s : string) : option bytes :=
  match s with
  | EmptyString => Some []
  | String a (String b (String c (String d s'))) =>
      x ← b64_val a; y ← b64_val b;
      if Ascii.eqb c (char_of "=")
      then if Ascii.eqb d (char_of "=") && str_empty s' then Some [byte_of (x * 4 + y / 16)]
           else None
      else
        z ← b64_val c;
        if Ascii.eqb d (char_of "=")
        then if str_empty s'
             then Some [byte_of (x * 4 + y / 16); byte_of (y mod 16 * 16 + z / 4)] else None
        else
          w ← b64_val d; l ← b64_quanta s';
          Some (byte_of (x * 4 + y / 16) :: byte_of (y mod 16 * 16 + z / 4)
                :: byte_of (z mod 4 * 64 + w) :: l)
  | _ => None
  end.

(** [base64.StdEncoding.DecodeString], which skips line ends *)
Fixpoint drop_lines (s : string) : string :=
  match s with
  | EmptyString => ""
  | String c s' =>
      if between 10 10 c || between 13 13 c then drop_lines s' else String c (drop_lines s')
  end.
Definition b64_decode (s : string) : option bytes := b64_quanta (drop_lines s).

(** an array of numbers is taken for bytes, too *)
Fixpoint json_byte_array (l : list jval) : option bytes :=
  match l with
  | [] => Some []
  | JNull :: l' => cons (byte_of 0) <$> json_byte_array l'
  | JNum s :: l' =>
      z ← parse_uint s; bs ← json_byte_array l';
      if bool_decide (z < 256)%Z then Some (z2b z :: bs) else None
  | _ => None
  end.

(** [json.Unmarshal] into a value that is not a slice, map or struct *)
Definition json_into (j : jval) (t : gtype) (old : gval) : res gval :=
  match t with
  | TEnum e =>
      match en_UnmarshalJSON e with
      | Some f => let! z := f j in Ok (VEnum (en_null e) (en_String e z) z)
      | None => match j with
                | JNull => Ok old
                | JNum s => json_num t s
                | _ => Err type_error
                end
      end
  | _ =>
      match j with
      | JNull => match t with TBytes => Ok (VBytes None) | TOneof => Ok (VOneof None) | _ => Ok old end
      | JBool b => match t with TBool => Ok (VBool b) | _ => Err type_error end
      | JNum s => json_num t s
      | JStr b =>
          match t with
          | TString => of_option (VString <$> json_decode b)
          | TBytes => of_option (s ← json_decode b; (fun l => VBytes (Some l)) <$> b64_decode s)
          | _ => Err type_error
          end
      | JArr l =>
          match t with
          | TBytes => of_option ((fun bs => VBytes (Some bs)) <$> json_byte_array l)
          | _ => Err type_error
          end
      | JObj _ => Err type_error
      end
  end.

Definition json_text_into (s : string) (t : gtype) (old : gval) : res gval :=
  let! j := json_parse s in json_into j t old.

Definition unquote (j : jval) : res string :=
  match j with
  | JNull => Ok ""
  | JStr b => match json_decode b with Some s => Ok s | None => Err type_error end
  | _ => Err type_error
  end.

Definition nonFinite (body : string) : option spec_float :=
  if String.eqb body "NaN" then Some S754_nan
  else if String.eqb body "Infinity" then Some (S754_infinity false)
  else if String.eqb body "-Infinity" then Some (S754_infinity true)
  else None.

Definition isNum (t : gtype) : bool :=
  match t with
  | TInt32 | TInt64 | TUint32 | TUint64 | TFloat32 | TFloat64 | TEnum _ => true
  | _ => false
  end.

Definition float_of (t : gtype) (f : spec_float) : option gval :=
  match t with
  | TFloat32 => Some (VFloat32 f)
  | TFloat64 => Some (VFloat64 f)
  | _ => None
  end.

(** a string whose field's properties name an enumeration *)
Definition enum_prop (prop : option properties) : option string :=
  p ← prop; if str_empty (pr_Enum p) then None else Some (pr_Enum p).

Definition um_enum (name body : string) (t : gtype) : res gval :=
  match EnumValueMap name !! body with
  | None => Err (Errorf "unknown value %q for enum %s")
  | Some n =>
      match t with
      | TInt32 => Ok (VInt32 n)
      | TEnum e => Ok (VEnum (en_null e) (en_String e n) n)
      | _ => Err (Errorf "invalid target %q for enum %s")
      end
  end.

(** the last part of [unmarshalValue] *)
Definition um_scalar (j : jval) (t : gtype) (old : gval) : res gval :=
  match j with
  | JStr body =>
      match nonFinite body ≫= float_of t with
      | Some v => Ok v
      | None => if isNum t then json_text_into body t old else json_into j t old
      end
  | _ => json_into j t old
  end.

(** [unmarshalValue] of a map key that is no string, given as a text that need not be JSON: an
    empty one, or a single quote where quotes are dropped, is out of range *)
Definition um_key (ks : string) (t : gtype) (prop : option properties) : res gval :=
  match ks with
  | EmptyString => Panic
  | String c ks' =>
      let body := str_take (String.length ks' - 1) ks' in
      if Ascii.eqb c quote_char then
        match enum_prop prop with
        | Some name => if str_empty ks' then Panic else um_enum name body t
        | None =>
            match (if String.eqb ks (quoted body) then nonFinite body ≫= float_of t else None) with
            | Some v => Ok v
            | None =>
                if isNum t
                then if str_empty ks' then Panic else json_text_into body t (zero t)
                else json_text_into ks t (zero t)
            end
        end
      else json_text_into ks t (zero t)
  end.

(** ** Parts of a value

    A part of a JSON value with the call of [unmarshalValue] on it. *)
Record kid : Type := Kid {
  kid_val : jval;
  kid_um : target -> gval -> option properties -> res gval;
}.

(** [json.Unmarshal] into a map and into a slice of raw messages; [null] gives nil *)
Definition decode_key (kk : string * kid) : string * kid := (default "" (json_decode kk.1), kk.2).

Definition as_object (j : jval) (members : list (string * kid)) : res (option (gmap string kid)) :=
  match j with
  | JNull => Ok None
  | JObj _ => Ok (Some (list_to_map (rev (map decode_key members))))
  | _ => Err type_error
  end.
Definition as_array (j : jval) (elems : list kid) : res (option (list kid)) :=
  match j with
  | JNull => Ok None
  | JArr _ => Ok (Some elems)
  | _ => Err type_error
  end.

Fixpoint res_mapM {A B} (f : A -> res B) (l : list A) : res (list B) :=
  match l with
  | [] => Ok []
  | x :: l' => let! y := f x in let! ys := res_mapM f l' in Ok (y :: ys)
  end.

(** [SetMapIndex] on a map whose keys are scalars *)
Definition key_eqb (a b : gval) : bool :=
  match a, b with
  | VBool x, VBool y => Bool.eqb x y
  | VInt32 x, VInt32 y | VInt64 x, VInt64 y | VUint32 x, VUint32 y | VUint64 x, VUint64 y
  | VEnum _ _ x, VEnum _ _ y => Z.eqb x y
  | VString x, VString y => String.eqb x y
  | _, _ => false
  end.

Fixpoint SetMapIndex (l : list (gval * gval)) (k v : gval) : list (gval * gval) :=
  match l with
  | [] => [(k, v)]
  | (k', v') :: l' => if key_eqb k' k then (k, v) :: l' else (k', v') :: SetMapIndex l' k v
  end.

Definition fields_of (v : gval) : list (field_info * gval) :=
  match v with VMsg _ fields _ => fields | _ => [] end.
Definition set_fields (v : gval) (fields : list (field_info * gval)) : gval :=
  match v with VMsg info _ exts => VMsg info fields exts | _ => v end.

(** [target.Field(i).Set] *)
Definition set_field (i : nat) (x v : gval) : gval :=
  set_fields v (alter (fun fy => (fy.1, x)) i (fields_of v)).

Definition field_at (i : nat) (v : gval) : option gval := snd <$> fields_of v !! i.

Section Value.
Context (j : jval) (elems : list kid) (members : list (string * kid)).

(** ** Fields that are not messages *)

Definition um_slice (t : gtype) (old : gval) (prop : option properties) : res gval :=
  let! slc := as_array j elems in
  match slc with
  | None => Ok old
  | Some l => let! vs := res_mapM (fun k => kid_um k (Field t) (zero t) prop) l in
              Ok (VSlice (Some vs))
  end.

Fixpoint um_entries (k v : gtype) (prop : option properties) (mp : list (string * kid))
    (acc : list (gval * gval)) : res (list (gval * gval)) :=
  match mp with
  | [] => Ok acc
  | (ks, raw) :: mp' =>
      let! kv := match k with
                 | TString => Ok (VString ks)
                 | _ => um_key ks k (prop ≫= pr_MapKeyProp)
                 end in
      let! x := kid_um raw (Field v) (zero v) (prop ≫= pr_MapValProp) in
      um_entries k v prop mp' (SetMapIndex acc kv x)
  end.

Definition um_map (k v : gtype) (old : gval) (prop : option properties) : res gval :=
  let! mp := as_object j members in
  match mp with
  | None => Ok old
  | Some mp => let! l := um_entries k v prop (json_range kid mp) [] in Ok (VMap (Some l))
  end.

Definition um_plain (t : gtype) (old : gval) (prop : option properties) : res gval :=
  match j, enum_prop prop with
  | JStr body, Some name => um_enum name body t
  | _, _ =>
      match t with
      | TSlice t' => um_slice t' old prop
      | TMap k v => um_map k v old prop
      | _ => um_scalar j t old
      end
  end.

(** ** Well-known types *)

Definition um_Duration (old : gval) : res gval :=
  let! unq := unquote j in
  match time_ParseDuration unq with
  | Ok ns => Ok (set_field 0 (VInt64 (Z.quot ns 1000000000))
                   (set_field 1 (VInt32 (Z.rem ns 1000000000)) old))
  | Err _ => Err (Errorf "bad Duration: %v")
  | Panic => Panic
  end.

Definition um_Timestamp (old : gval) : res gval :=
  let! unq := unquote j in
  match time_Parse unq with
  | Ok (s, ns) => Ok (set_field 0 (VInt64 s) (set_field 1 (VInt32 ns) old))
  | Err _ => Err (Errorf "bad Timestamp: %v")
  | Panic => Panic
  end.

Fixpoint um_struct_values (prop : option properties) (mp : list (string * kid))
    : res (list (gval * gval)) :=
  match mp with
  | [] => Ok []
  | (k, jv) :: mp' =>
      match kid_um jv (Struct Value_name) (new_struct Value_name) prop with
      | Ok pv => let! l := um_struct_values prop mp' in Ok ((VString k, VPtr (Some pv)) :: l)
      | Err _ => Err (Errorf "bad value in StructValue for key %q: %v")
      | Panic => Panic
      end
  end.

Definition um_Struct (old : gval) (prop : option properties) : res gval :=
  match as_object j members with
  | Ok mp => let! l := um_struct_values prop (json_range kid (default ∅ mp)) in
             Ok (set_field 0 (VMap (Some l)) old)
  | Err _ => Err (Errorf "bad StructValue: %v")
  | Panic => Panic
  end.

Definition um_ListValue (old : gval) (prop : option properties) : res gval :=
  match as_array j elems with
  | Ok s =>
      let! l := res_mapM (fun k => kid_um k (Field (TMessage Value_name)) (VPtr None) prop)
                  (default [] s) in
      Ok (set_field 0 (VSlice (Some l)) old)
  | Err _ => Err (Errorf "bad ListValue: %v")
  | Panic => Panic
  end.

(** the tests on the text of the value, in turn *)
Definition um_Value (old : gval) (prop : option properties) : res gval :=
  let kind name x := set_field 0 (VOneof (Some (Value_field name, x))) old in
  match j with
  | JNull => Ok (kind "NullValue" (VEnum true "NULL_VALUE" 0))
  | JNum s => match ParseFloat64 s with
              | Some f => Ok (kind "NumberValue" (VFloat64 f))
              | None => Err (Errorf "unrecognized type for Value %q")
              end
  | JStr b => let! s := unquote j in Ok (kind "StringValue" (VString s))
  | JBool b => Ok (kind "BoolValue" (VBool b))
  | JArr _ => let! lv := um_ListValue (new_struct ListValue_name) prop in
              Ok (kind "ListValue" (VPtr (Some lv)))
  | JObj _ => let! sv := um_Struct (new_struct Struct_name) prop in
              Ok (kind "StructValue" (VPtr (Some sv)))
  end.

Definition um_wrapper (d : msg_desc) (old : gval) (prop : option properties) : res gval :=
  match md_fields d, field_at 0 old with
  | (_, t) :: _, Some x => let! y := um_plain t x prop in Ok (set_field 0 y old)
  | _, _ => Panic
  end.

(** ** Messages *)

(** [consumeField]: the member for a field, under either of its names, and the others *)
Definition accepted_orig (prop : properties) : string := pr_OrigName prop.
Definition accepted_camel (prop : properties) : string :=
  if str_empty (pr_JSONName prop) then pr_OrigName prop else pr_JSONName prop.

Definition consumeField (prop : properties) (m : gmap string kid)
    : option (kid * gmap string kid) :=
  let orig := accepted_orig prop in
  let camel := accepted_camel prop in
  match m !! camel, m !! orig with
  | Some raw, _ | None, Some raw => Some (raw, delete camel (delete orig m))
  | None, None => None
  end.

Fixpoint um_fields (fields : list (field_info * gtype)) (olds : list (field_info * gval))
    (m : gmap string kid) : res (list (field_info * gval) * gmap string kid) :=
  match fields, olds with
  | (f, t) :: fields', (g, x) :: olds' =>
      if has_prefix "XXX_" (fi_Name f)
      then let! r := um_fields fields' olds' m in Ok ((g, x) :: r.1, r.2)
      else match consumeField (fi_props f) m with
      | None => let! r := um_fields fields' olds' m in Ok ((g, x) :: r.1, r.2)
      | Some (raw, m') =>
          let! y := kid_um raw (Field t) x (Some (fi_props f)) in
          let! r := um_fields fields' olds' m' in Ok ((g, y) :: r.1, r.2)
      end
  | _, _ => Ok (olds, m)
  end.

Fixpoint um_oneofs (oneofs : list (nat * field_info * gtype)) (v : gval) (m : gmap string kid)
    : res (gval * gmap string kid) :=
  match oneofs with
  | [] => Ok (v, m)
  | (i, f, t) :: oneofs' =>
      match consumeField (fi_props f) m with
      | None => um_oneofs oneofs' v m
      | Some (raw, m') =>
          let! x := kid_um raw (Field t) (zero t) (Some (fi_props f)) in
          um_oneofs oneofs' (set_field i (VOneof (Some (f, x))) v) m'
      end
  end.

Fixpoint um_exts (exts : list (ext_info * target)) (v : gval) (m : gmap string kid)
    : res (gval * gmap string kid) :=
  match exts with
  | [] => Ok (v, m)
  | (e, t) :: exts' =>
      let name := "[" +:+ ei_Name e +:+ "]" in
      match m !! name with
      | None => um_exts exts' v m
      | Some raw =>
          let! x := kid_um raw t (new t) None in
          let! v := proto_SetExtension v e x in
          um_exts exts' v (delete name m)
      end
  end.

Definition um_members (d : msg_desc) (m : gmap string kid) (old : gval) : res gval :=
  let! r := um_fields (md_fields d) (fields_of old) m in
  let v := set_fields old r.1 in
  let! r := (if bool_decide (r.2 = ∅) then Ok (v, r.2) else um_oneofs (md_oneofs d) v r.2) in
  let! r := (if bool_decide (r.2 = ∅) then Ok r else um_exts (md_exts d) r.1 r.2) in
  if negb (um_AllowUnknownFields u) && negb (bool_decide (r.2 = ∅))
  then Err (Errorf "unknown field %q in %v") else Ok r.1.

Definition um_message (d : msg_desc) (old : gval) (prop : option properties) : res gval :=
  match j, enum_prop prop with
  | JStr body, Some name => um_enum name body TOneof
  | _, _ => let! m := as_object j members in um_members d (default ∅ m) old
  end.

(** the message an [Any] holds: of a well-known type under [value], of any other among the
    members of the object itself *)
Definition um_any_nested (d : msg_desc) (name : string) (m : gmap string kid) : res gval :=
  let wrap (r : res gval) :=
    match r with Err _ => Err (Errorf "can't unmarshal Any nested proto %T: %v") | _ => r end in
  match mi_wkt (md_info d) with
  | Some _ =>
      match m !! "value" with
      | None => Err (Errorf "Any JSON doesn't have 'value'")
      | Some (Kid JNull _) => Panic
      | Some raw => wrap (kid_um raw (Struct name) (new_struct name) None)
      end
  | None =>
      let rest := delete "@type" m in
      wrap (match md_UnmarshalJSONPB d with
            | Some f =>
                f (JObj (map (fun kk => (json_esc 0 0 kk.1, kid_val kk.2)) (map_to_list rest)))
            | None => um_members d rest (new_struct name)
            end)
  end.

Definition resolve_type (turl : string) : res string :=
  match um_AnyResolver u with
  | Some r => r turl
  | None =>
      match MessageTypeName (after_last_slash turl) with
      | Some name => Ok name
      | None => Err (Errorf "unknown message type %q")
      end
  end.

Definition um_Any (old : gval) : res gval :=
  let! m := as_object j members in
  let m := default ∅ m in
  match m !! "@type" with
  | None | Some (Kid JNull _) => Err (Errorf "Any JSON doesn't have '@type'")
  | Some (Kid (JStr b) _) =>
      let! turl := unquote (JStr b) in
      let! name := resolve_type turl in
      let! x := um_any_nested (MessageDesc name) name m in
      match proto_Marshal x with
      | Ok b => Ok (set_field 0 (VString turl) (set_field 1 (VBytes (Some b)) old))
      | Err _ => Err (Errorf "can't marshal proto %T into Any.Value: %v")
      | Panic => Panic
      end
  | Some _ => Err (Errorf "can't unmarshal Any's '@type': %q")
  end.

(** a struct *)
Definition um_struct (name : string) (old : gval) (prop : option properties) : res gval :=
  let d := MessageDesc name in
  match md_UnmarshalJSONPB d with
  | Some f => f j
  | None =>
      match mi_wkt (md_info d) with
      | Some w =>
          if is_wrapper w then um_wrapper d old prop
          else if String.eqb w "Any" then um_Any old
          else if String.eqb w "Duration" then um_Duration old
          else if String.eqb w "Timestamp" then um_Timestamp old
          else if String.eqb w "Struct" then um_Struct old prop
          else if String.eqb w "ListValue" then um_ListValue old prop
          else if String.eqb w "Value" then um_Value old prop
          else um_message d old prop
      | None => um_message d old prop
      end
  end.

(** [unmarshalValue]: a pointer that is not set to null is set to a new value; the null of
    [structpb.Value] is one of its values *)
Definition um_target (t : target) (old : gval) (prop : option properties) : res gval :=
  match t with
  | Struct name => um_struct name old prop
  | Field (TPtr t') =>
      match j with
      | JNull => Ok old
      | _ => let! v := um_plain t' (zero t') prop in Ok (VPtr (Some v))
      end
  | Field (TMessage name) =>
      let custom := match md_UnmarshalJSONPB (MessageDesc name) with Some _ => true | None => false end in
      if (if j is JNull then true else false) && negb (String.eqb name Value_name) && negb custom
      then Ok old
      else let! v := um_struct name (new_struct name) prop in Ok (VPtr (Some v))
  | Field t => um_plain t old prop
  end.
End Value.

Fixpoint unmarshalValue (j : jval) : target -> gval -> option properties -> res gval :=
  um_target j
    (match j with JArr l => map (fun x => Kid x (unmarshalValue x)) l | _ => [] end)
    (match j with JObj l => map (fun kx => (kx.1, Kid kx.2 (unmarshalValue kx.2))) l | _ => [] end).

(** [Unmarshaler.UnmarshalNext]: the message and what is left of the stream *)
Definition UnmarshalNext (name : string) (pb : gval) (input : string) : res (gval * string) :=
  let! r := json_Decode input in
  let! v := unmarshalValue r.1 (Struct name) pb None in
  let! _ := checkRequiredFields v in
  Ok (v, r.2).

(** [Unmarshaler.Unmarshal] of a reader of that stream *)
Definition Unmarshal (name : string) (pb : gval) (input : string) : res gval :=
  let! r := UnmarshalNext name pb input in Ok r.1.

End Unmarshal.

(** [UnmarshalString] *)
Definition UnmarshalString `{UE : UnmarshalEnv} (str : string) (name : string) (pb : gval)
    : res gval := Unmarshal (MkUnmarshaler false None) name pb str.
