(* ===== verification/JsonpbRound.v ===== *)
(** * Reading back what the JSON marshaler writes

    The code says of its [Unmarshal] that it decodes any option permutations of the related
    marshaler.  Here are the values this is proved for, those of generated and of well-known types
    without extensions, when two values are not told apart, and the scalars; the
    proof goes on in [JsonpbFields], [JsonpbValues], [JsonpbKnown] and [JsonpbBack]. *)
From S2P Require Import Prelude Message Json JsonTree Jsonpb JsonpbFacts JsonSeq JsonpbText Unmarshal.

(** ** Values that are not told apart *)

(** A value and the one read for it: the entries of a map in any order, a nil slice or map for an
    empty one, a zero of either sign. *)
Inductive geq : gval -> gval -> Prop :=
| GE_refl v : geq v v
| GE_zero32 a b : geq (VFloat32 (S754_zero a)) (VFloat32 (S754_zero b))
| GE_zero64 a b : geq (VFloat64 (S754_zero a)) (VFloat64 (S754_zero b))
| GE_slice_nil : geq (VSlice None) (VSlice (Some []))
| GE_slice l l' : Forall2 geq l l' -> geq (VSlice (Some l)) (VSlice (Some l'))
| GE_map_nil : geq (VMap None) (VMap (Some []))
| GE_map l l' l'' :
    Forall2 (fun a b => a.1 = b.1 /\ geq a.2 b.2) l l' -> l' ≡ₚ l'' ->
    geq (VMap (Some l)) (VMap (Some l''))
| GE_ptr v v' : geq v v' -> geq (VPtr (Some v)) (VPtr (Some v'))
| GE_oneof f v v' : geq v v' -> geq (VOneof (Some (f, v))) (VOneof (Some (f, v')))
| GE_msg info fs fs' exts :
    Forall2 (fun a b => a.1 = b.1 /\ geq a.2 b.2) fs fs' ->
    geq (VMsg info fs exts) (VMsg info fs' exts).

(** ** Values of a type

    [slot]: a field that is written under a name, with its place in the struct, a field of its
    own or a member of a oneof. *)
Definition slot : Type := nat * field_info * gtype.
Definition sl_props (o : slot) : properties := fi_props o.1.2.

Definition hidden (f : field_info) : bool := has_prefix "XXX_" (fi_Name f).

Fixpoint field_slots (i : nat) (fields : list (field_info * gtype)) : list slot :=
  match fields with
  | [] => []
  | (f, t) :: fields' =>
      if hidden f then field_slots (S i) fields' else (i, f, t) :: field_slots (S i) fields'
  end.
Definition slots (d : msg_desc) : list slot := field_slots 0 (md_fields d) ++ md_oneofs d.

(** the names [consumeField] takes for a field *)
Definition accepted (p : properties) : list string :=
  if String.eqb (accepted_camel p) (accepted_orig p) then [accepted_orig p]
  else [accepted_orig p; accepted_camel p].

Definition plain_name (n : string) : bool := str_forall plain_char n && utf8_valid n.

Section Typed.
Context `{JE : JsonpbEnv} `{UE : UnmarshalEnv}.

(** a message of generated code that is not well known, whose fields have names of their own *)
Record generated (name : string) : Prop := {
  gn_info : md_info (MessageDesc name) = MsgInfo None None;
  gn_custom : md_UnmarshalJSONPB (MessageDesc name) = None;
  gn_names : NoDup (concat (map (fun o => accepted (sl_props o)) (slots (MessageDesc name))));
  gn_plain : Forall (fun o => Forall (fun n => plain_name n = true) (accepted (sl_props o)))
               (slots (MessageDesc name));
}.

(** the generated code of an enumeration: the names it prints are in its map *)
Definition enum_back (e : enum_desc) (z : Z) (p : properties) : Prop :=
  str_forall plain_char (en_String e z) = true
  /\ (pr_Enum p = "" \/ en_String e z = pretty z
      \/ EnumValueMap (pr_Enum p) !! en_String e z = Some z)
  /\ (forall f, en_UnmarshalJSON e = Some f -> f (JNum (pretty z)) = Ok z).

(** Scalars in range.  Of a float, that the library reads what it prints. *)
Inductive scalar : gval -> gtype -> properties -> Prop :=
| S_bool b p : pr_Enum p = "" -> scalar (VBool b) TBool p
| S_int32 z p : pr_Enum p = "" -> in_i32 z = true -> scalar (VInt32 z) TInt32 p
| S_int64 z p : pr_Enum p = "" -> (- 2 ^ 63 <= z < 2 ^ 63)%Z -> scalar (VInt64 z) TInt64 p
| S_uint32 z p : pr_Enum p = "" -> (0 <= z < 2 ^ 32)%Z -> scalar (VUint32 z) TUint32 p
| S_uint64 z p : pr_Enum p = "" -> (0 <= z < 2 ^ 64)%Z -> scalar (VUint64 z) TUint64 p
| S_float32 f p :
    pr_Enum p = "" ->
    (non_finite f = None ->
     json_number (json_float32 f) /\ ParseFloat32 (json_float32 f) = Some f) ->
    scalar (VFloat32 f) TFloat32 p
| S_float64 f p :
    pr_Enum p = "" ->
    (non_finite f = None ->
     json_number (json_float64 f) /\ ParseFloat64 (json_float64 f) = Some f) ->
    scalar (VFloat64 f) TFloat64 p
| S_string s p : pr_Enum p = "" -> utf8_valid s = true -> scalar (VString s) TString p
| S_enum e z p :
    en_null e = false -> in_i32 z = true -> enum_back e z p ->
    scalar (VEnum false (en_String e z) z) (TEnum e) p.

(** A message of the well-known type [w], with its fields; those behind the first two are the ones
    protoc adds. *)
Record well_known (name w : string) (fts : list (field_info * gtype)) : Prop := {
  wk_info : md_info (MessageDesc name) = MsgInfo (Some w) None;
  wk_custom : md_UnmarshalJSONPB (MessageDesc name) = None;
  wk_fields : md_fields (MessageDesc name) = fts;
}.

Definition known (w : string) (fields : list (field_info * gval)) (fts : list (field_info * gtype))
    : gval :=
  VMsg (MsgInfo (Some w) None) (fields ++ map (fun f => (f.1, zero f.2)) fts) [].

(** what a wrapper wraps: a scalar, or bytes that are not nil *)
Definition wrapped (x : gval) (t : gtype) (p : properties) : Prop :=
  pr_Enum p = "" /\ (scalar x t p \/ t = TBytes /\ exists l, x = VBytes (Some l)).

(** the body of the text of a duration and of a time *)
Definition duration_body (s ns : Z) : string :=
  trim_fraction (pretty s +:+ "." +:+ fmt_0d 9 (if bool_decide (s < 0)%Z then (- ns)%Z else ns))
  +:+ "s".
Definition timestamp_body (s ns : Z) : string := trim_fraction (format_time s ns) +:+ "Z".

(** a field's value of its type, with its properties; a struct; the kinds of a [structpb.Value]; the
    fields of a struct from the [i]th on *)
Inductive typed : gval -> gtype -> properties -> Prop :=
| T_scalar v t p : scalar v t p -> typed v t p
| T_bytes b p : pr_Enum p = "" -> typed (VBytes b) TBytes p
| T_opt_nil t p : typed (VPtr None) (TPtr t) p
| T_opt v t p : scalar v t p -> typed (VPtr (Some v)) (TPtr t) p
| T_slice_nil t p : typed (VSlice None) (TSlice t) p
| T_slice l t p : Forall (fun v => typed v t p) l -> typed (VSlice (Some l)) (TSlice t) p
| T_map_nil k v p : typed (VMap None) (TMap k v) p
| T_map l k t p q :
    pr_MapValProp p = Some q -> NoDup (map fst l) ->
    Forall (fun kv => key_kind kv.1 = true /\ scalar kv.1 k no_props) l ->
    Forall (fun kv => typed kv.2 t q) l -> typed (VMap (Some l)) (TMap k t) p
| T_msg_nil name p :
    md_UnmarshalJSONPB (MessageDesc name) = None -> name <> Value_name ->
    typed (VPtr None) (TMessage name) p
| T_msg x name p : pr_Enum p = "" -> typed_struct x name -> typed (VPtr (Some x)) (TMessage name) p
with typed_struct : gval -> string -> Prop :=
| T_struct name fields :
    generated name ->
    typed_fields (md_oneofs (MessageDesc name)) 0 fields (md_fields (MessageDesc name)) ->
    typed_struct (VMsg (MsgInfo None None) fields []) name
| W_wrapper name w f x t fts :
    is_wrapper w = true -> well_known name w ((f, t) :: fts) -> wrapped x t (fi_props f) ->
    typed_struct (known w [(f, x)] fts) name
| W_Duration name f g s ns fts :
    well_known name "Duration" ((f, TInt64) :: (g, TInt32) :: fts) ->
    time_ParseDuration (duration_body s ns) = Ok (s * 1000000000 + ns)%Z ->
    typed_struct (known "Duration" [(f, VInt64 s); (g, VInt32 ns)] fts) name
| W_Timestamp name f g s ns fts :
    well_known name "Timestamp" ((f, TInt64) :: (g, TInt32) :: fts) ->
    time_Parse (timestamp_body s ns) = Ok (s, ns) ->
    typed_struct (known "Timestamp" [(f, VInt64 s); (g, VInt32 ns)] fts) name
| W_Struct name f l t fts :
    well_known name "Struct" ((f, t) :: fts) -> NoDup (map fst l) ->
    Forall (fun kv => key_kind kv.1 = true /\ scalar kv.1 TString no_props) l ->
    Forall (fun kv => typed kv.2 (TMessage Value_name) no_props) l ->
    typed_struct (known "Struct" [(f, VMap (Some l))] fts) name
| W_Struct_nil name f t fts :
    well_known name "Struct" ((f, t) :: fts) ->
    typed_struct (known "Struct" [(f, VMap None)] fts) name
| W_ListValue name f l t fts :
    well_known name "ListValue" ((f, t) :: fts) ->
    Forall (fun v => typed v (TMessage Value_name) no_props) l ->
    typed_struct (known "ListValue" [(f, VSlice (Some l))] fts) name
| W_ListValue_nil name f t fts :
    well_known name "ListValue" ((f, t) :: fts) ->
    typed_struct (known "ListValue" [(f, VSlice None)] fts) name
| W_Value f g x t fts :
    well_known Value_name "Value" ((f, t) :: fts) -> typed_kind g x ->
    typed_struct (known "Value" [(f, VOneof (Some (g, x)))] fts) Value_name
with typed_kind : field_info -> gval -> Prop :=
| K_null : typed_kind (Value_field "NullValue") (VEnum true "NULL_VALUE" 0)
| K_number f :
    non_finite f = None -> scalar (VFloat64 f) TFloat64 no_props ->
    typed_kind (Value_field "NumberValue") (VFloat64 f)
| K_string s : utf8_valid s = true -> typed_kind (Value_field "StringValue") (VString s)
| K_bool b : typed_kind (Value_field "BoolValue") (VBool b)
| K_Struct x fts :
    well_known Struct_name "Struct" fts -> typed_struct x Struct_name ->
    typed_kind (Value_field "StructValue") (VPtr (Some x))
| K_ListValue x fts :
    well_known ListValue_name "ListValue" fts -> typed_struct x ListValue_name ->
    typed_kind (Value_field "ListValue") (VPtr (Some x))
with typed_fields : list slot -> nat -> list (field_info * gval) -> list (field_info * gtype) -> Prop :=
| F_nil os i : typed_fields os i [] []
| F_hidden os i f t fields fts :
    hidden f = true -> typed_fields os (S i) fields fts ->
    typed_fields os i ((f, zero t) :: fields) ((f, t) :: fts)
| F_field os i f t v fields fts :
    hidden f = false -> typed v t (fi_props f) -> typed_fields os (S i) fields fts ->
    typed_fields os i ((f, v) :: fields) ((f, t) :: fts)
| F_oneof_nil os i f fields fts :
    hidden f = false -> typed_fields os (S i) fields fts ->
    typed_fields os i ((f, VOneof None) :: fields) ((f, TOneof) :: fts)
| F_oneof os i f f' x t' fields fts :
    hidden f = false -> (i, f', t') ∈ os -> typed x t' (fi_props f') ->
    typed_fields os (S i) fields fts ->
    typed_fields os i ((f, VOneof (Some (f', x))) :: fields) ((f, TOneof) :: fts).
End Typed.

(** ** Lemmas: texts read back *)

Lemma ascii_valid s : str_forall (between 0 127) s = true -> utf8_valid s = true.
Proof.
  unfold utf8_valid. induction s as [|c s IH]; [done|]. cbn [str_forall utf8_valid_from].
  intros [Hc Hs]%andb_true_iff. rewrite utf8_size_ascii by done. by apply IH.
Qed.

Lemma decode_esc s : utf8_valid s = true -> json_decode (json_esc 0 0 s) = Some s.
Proof.
  intros Hs. unfold json_decode. rewrite unesc_esc. cbn.
  rewrite (clean_valid s 0 Hs). by rewrite clean_valid.
Qed.

Lemma decode_plain s :
  str_forall plain_char s = true -> utf8_valid s = true -> json_decode s = Some s.
Proof. intros Hp Hs. unfold json_decode. rewrite unesc_plain by done. cbn. by rewrite clean_valid. Qed.

Lemma digit_ascii c : is_digit c = true -> between 0 127 c = true.
Proof. destruct c as [[] [] [] [] [] [] [] []]; done. Qed.

Lemma pretty_valid (z : Z) : utf8_valid (pretty z) = true.
Proof. by apply ascii_valid, pretty_forall; [apply digit_ascii|]. Qed.

(** the bodies of times are read as they are *)
Definition body_char (c : char) : bool := plain_char c && between 0 127 c.

Lemma digit_body c : is_digit c = true -> body_char c = true.
Proof. intros H. unfold body_char. by rewrite digit_plain, digit_ascii. Qed.

Lemma body_reads b : str_forall body_char b = true -> json_body b /\ json_decode b = Some b.
Proof.
  intros Hb. assert (str_forall plain_char b = true /\ str_forall (between 0 127) b = true) as [Hp Ha].
  { split; (eapply str_forall_impl; [|exact Hb]); unfold body_char; by intros c [? ?]%andb_true_iff. }
  split; [by apply plain_body|]. apply decode_plain; [done|by apply ascii_valid].
Qed.

Lemma duration_reads s ns :
  json_body (duration_body s ns) /\ json_decode (duration_body s ns) = Some (duration_body s ns).
Proof.
  apply body_reads. unfold duration_body. rewrite str_forall_app, trim_fraction_forall; [done|].
  by rewrite !str_forall_app, (pretty_forall _ digit_body), (fmt_0d_forall _ digit_body).
Qed.

Lemma timestamp_reads s ns :
  json_body (timestamp_body s ns) /\ json_decode (timestamp_body s ns) = Some (timestamp_body s ns).
Proof.
  apply body_reads. unfold timestamp_body. rewrite str_forall_app, trim_fraction_forall; [done|].
  by apply format_time_forall; [apply digit_body|].
Qed.

Lemma decode_pretty (z : Z) : json_decode (pretty z) = Some (pretty z).
Proof. apply decode_plain; [apply pretty_plain|apply pretty_valid]. Qed.

Lemma parse_number t : json_number t -> json_parse t = Ok (JNum t).
Proof.
  intros Ht. rewrite <- (str_app_nil_r t) at 1. by apply (json_parse_is (JNum t) t "" "").
Qed.

Lemma parse_pretty (z : Z) : json_parse (pretty z) = Ok (JNum (pretty z)).
Proof. apply parse_number, pretty_json_number. Qed.

Lemma parse_uint_pretty (z : Z) : (0 <= z < 2 ^ 64)%Z -> parse_uint (pretty z) = Some z.
Proof.
  intros Hz. unfold parse_uint. assert (exists x : N, z = Z.of_N x) as [x ->]
    by (exists (Z.to_N z); lia).
  assert (pretty (Z.of_N x) = pretty x) as -> by by destruct x.
  rewrite digits_val_pretty. destruct (pretty_digits x) as [_ Hne].
  destruct (pretty x) as [|c s] eqn:E; [done|]. cbn. by rewrite bool_decide_eq_true_2 by lia.
Qed.

(** base64 *)
Lemma b64_val_char n : n < 64 -> b64_val (b64_char n) = Some n.
Proof. intros H. do 64 (destruct n as [|n]; [reflexivity|]). lia. Qed.

Lemma b64_char_not_eq n : n < 64 -> Ascii.eqb (b64_char n) (char_of "=") = false.
Proof. intros H. do 64 (destruct n as [|n]; [reflexivity|]). lia. Qed.

Lemma byte_of_n b : byte_of (byte_n b) = b.
Proof. unfold byte_of, byte_n. rewrite N_nat_Z. apply (z2b_b2z b). Qed.

Lemma quantum x y z : x < 256 -> y < 256 -> z < 256 ->
  x / 4 * 4 + (x mod 4 * 16 + y / 16) / 16 = x
  /\ (x mod 4 * 16 + y / 16) mod 16 * 16 + (y mod 16 * 4 + z / 64) / 4 = y
  /\ (y mod 16 * 4 + z / 64) mod 4 * 64 + z mod 64 = z
  /\ x / 4 < 64 /\ x mod 4 * 16 + y / 16 < 64 /\ y mod 16 * 4 + z / 64 < 64 /\ z mod 64 < 64.
Proof.
  intros Hx Hy Hz.
  pose proof (Nat.div_mod_eq x 4). pose proof (Nat.mod_upper_bound x 4 ltac:(lia)).
  pose proof (Nat.div_mod_eq y 16). pose proof (Nat.mod_upper_bound y 16 ltac:(lia)).
  pose proof (Nat.div_mod_eq z 64). pose proof (Nat.mod_upper_bound z 64 ltac:(lia)).
  pose proof (Nat.div_mod_eq (x mod 4 * 16 + y / 16) 16).
  pose proof (Nat.mod_upper_bound (x mod 4 * 16 + y / 16) 16 ltac:(lia)).
  pose proof (Nat.div_mod_eq (y mod 16 * 4 + z / 64) 4).
  pose proof (Nat.mod_upper_bound (y mod 16 * 4 + z / 64) 4 ltac:(lia)).
  repeat split; lia.
Qed.

Lemma b64_byte (q r : nat) b : q = byte_n b -> byte_of q = b.
Proof. intros ->. apply byte_of_n. Qed.

Lemma quanta_base64 l : b64_quanta (base64 l) = Some l.
Proof.
  remember (length l) as n eqn:Hn. revert l Hn.
  induction (Nat.lt_wf_0 n) as [n _ IH]. intros l ->.
  destruct l as [|a [|b [|c l]]]; [done| | |]; pose proof (byte_n_lt a) as Ha.
  - destruct (quantum (byte_n a) 0 0) as (E1 & _ & _ & H1 & H2 & _); [lia..|].
    rewrite Nat.Div0.div_0_l, Nat.add_0_r in E1, H2.
    cbn [base64 b64_quanta]. rewrite !b64_val_char by done. cbn [mbind option_bind].
    by rewrite Ascii.eqb_refl, (b64_byte _ 0 a) by done.
  - pose proof (byte_n_lt b) as Hb.
    destruct (quantum (byte_n a) (byte_n b) 0) as (E1 & E2 & _ & H1 & H2 & H3 & _); [lia..|].
    rewrite (Nat.Div0.div_0_l 64), Nat.add_0_r in E2, H3.
    cbn [base64 b64_quanta]. rewrite b64_char_not_eq by done.
    rewrite !b64_val_char by done. cbn [mbind option_bind].
    by rewrite Ascii.eqb_refl, (b64_byte _ 0 a), (b64_byte _ 0 b) by done.
  - pose proof (byte_n_lt b) as Hb. pose proof (byte_n_lt c) as Hc.
    destruct (quantum (byte_n a) (byte_n b) (byte_n c)) as (E1 & E2 & E3 & H1 & H2 & H3 & H4);
      [lia..|].
    cbn [base64 b64_quanta]. rewrite !b64_char_not_eq by done.
    rewrite !b64_val_char by done. cbn [mbind option_bind].
    rewrite (IH (length l)) by (simpl; lia || done). cbn [mbind option_bind].
    by rewrite (b64_byte _ 0 a), (b64_byte _ 0 b), (b64_byte _ 0 c) by done.
Qed.

Lemma drop_lines_plain s : str_forall plain_char s = true -> drop_lines s = s.
Proof.
  induction s as [|c s IH]; [done|]. cbn [str_forall drop_lines].
  intros [Hc Hs]%andb_true_iff. rewrite IH by done.
  assert (between 10 10 c || between 13 13 c = false) as -> by
    (clear -Hc; destruct c as [[] [] [] [] [] [] [] []]; done).
  done.
Qed.

Lemma b64_decode_base64 l : b64_decode (base64 l) = Some l.
Proof. unfold b64_decode. by rewrite drop_lines_plain, quanta_base64 by apply base64_plain. Qed.

Lemma b64_ascii n : n < 64 -> between 0 127 (b64_char n) = true.
Proof. intros H. do 64 (destruct n as [|n]; [reflexivity|]). lia. Qed.

Lemma base64_decode l : json_decode (base64 l) = Some (base64 l).
Proof.
  apply decode_plain; [apply base64_plain|].
  apply ascii_valid, base64_forall; [exact b64_ascii|done].
Qed.

(** ** Scalars *)

Section Scalars.
Context `{JE : JsonpbEnv} `{UE : UnmarshalEnv} (m : Marshaler).

Lemma enum_prop_none p : pr_Enum p = "" -> enum_prop (Some p) = None.
Proof. unfold enum_prop. cbn. by intros ->. Qed.

Lemma as_enum_none p : pr_Enum p = "" -> as_enum m p = false.
Proof. unfold as_enum. intros ->. by rewrite andb_false_r. Qed.

(** a number, quoted or not *)
Definition num_tree (j : jval) (t : gtype) (body : string) : Prop :=
  j = JNum body \/ j = JStr body /\ forall f, float_of t f = None.

Lemma um_number j t p body old es ms :
  isNum t = true -> (if t is TEnum _ then False else True) -> pr_Enum p = "" ->
  json_number body -> num_tree j t body -> um_plain j es ms t old (Some p) = json_num t body.
Proof.
  intros Ht He Hp Hb Hj. unfold um_plain. rewrite enum_prop_none by done.
  assert (um_scalar j t old = json_num t body) as Hs.
  { unfold um_scalar. destruct Hj as [->|[-> Hf]]; [by destruct t|].
    assert (nonFinite body ≫= float_of t = None) as -> by (destruct (nonFinite body); [apply Hf|done]).
    rewrite Ht. unfold json_text_into. rewrite parse_number by done. by destruct t. }
  by destruct Hj as [->|[-> _]]; destruct t.
Qed.

(** what is written for a scalar *)
Definition scalar_back (v : gval) (t : gtype) (p : properties) (s : string) : Prop :=
  exists j, json_is j s /\ j <> JNull
  /\ forall es ms, um_plain j es ms t (zero t) (Some p) = Ok v.

Lemma int_back v t p (z : Z) s :
  isNum t = true -> (if t is TEnum _ then False else True) -> pr_Enum p = "" ->
  json_scalar v = Ok (pretty z) -> (is_int64 v = true -> forall f, float_of t f = None) ->
  json_num t (pretty z) = Ok v -> yields (marshal_default m v) s -> scalar_back v t p s.
Proof.
  intros Ht He Hp Hv Hf Hz (b & Hb & ->)%yields_default.
  rewrite Hv in Hb. injection Hb as <-.
  pose proof (pretty_json_number z) as Hn.
  destruct (negb _ && _) eqn:E.
  - exists (JStr (pretty z)). split; [split; [done|apply plain_body, pretty_plain]|].
    split; [done|]. intros es ms. rewrite (um_number _ _ _ (pretty z)); auto.
    right. split; [done|]. apply Hf. by apply andb_true_iff in E as [_ [_ E]%andb_true_iff].
  - exists (JNum (pretty z)). split; [done|]. split; [done|]. intros es ms.
    rewrite (um_number _ _ _ (pretty z)); auto. by left.
Qed.

Lemma float_back f v t p text s :
  json_scalar v = Ok text -> is_int64 v = false -> isNum t = true ->
  (if t is TEnum _ then False else True) -> pr_Enum p = "" -> float_of t f = Some v ->
  (non_finite f = None -> json_number text /\ json_num t text = Ok v) ->
  yields (marshal_float m f v) s -> scalar_back v t p s.
Proof.
  intros Hv Hi Ht He Hp Hf Hfin. unfold marshal_float. destruct (non_finite f) as [sval|] eqn:E.
  - intros H. yields_inv. rewrite str_app_nil_r.
    assert (exists b, sval = quoted b /\ json_body b /\ nonFinite b = Some f) as (b & -> & Hb & Hn).
    { destruct f as [|[]| |]; simplify_eq/=; eexists; (split; [reflexivity|]);
        (split; [eexists; reflexivity|done]). }
    exists (JStr b). split; [done|]. split; [done|]. intros es ms. unfold um_plain.
    rewrite enum_prop_none by done. unfold um_scalar. rewrite Hn. cbn [mbind option_bind].
    rewrite Hf. by destruct t.
  - intros (b & Hb & ->)%yields_default. rewrite Hv in Hb. injection Hb as <-.
    rewrite Hi, !andb_false_r. destruct (Hfin eq_refl) as [Hn Hj].
    exists (JNum text). split; [done|]. split; [done|]. intros es ms.
    rewrite (um_number _ _ _ text); auto. by left.
Qed.

Lemma string_back str p s :
  utf8_valid str = true -> pr_Enum p = "" -> yields (marshal_default m (VString str)) s ->
  scalar_back (VString str) TString p s.
Proof.
  intros Hu Hp (b & Hb & ->)%yields_default. cbn in Hb. injection Hb as <-.
  cbn [is_int64]. rewrite !andb_false_r. exists (JStr (json_esc 0 0 str)).
  split; [split; [done|]; unfold json_body; rewrite unesc_esc; eauto|]. split; [done|].
  intros es ms. unfold um_plain. rewrite enum_prop_none by done. unfold um_scalar.
  assert (nonFinite (json_esc 0 0 str) ≫= float_of TString = None) as ->
    by by destruct (nonFinite _).
  cbn [isNum json_into]. by rewrite decode_esc.
Qed.

Lemma enum_number e z p old es ms :
  in_i32 z = true -> enum_back e z p -> en_null e = false ->
  um_plain (JNum (pretty z)) es ms (TEnum e) old (Some p)
  = Ok (VEnum false (en_String e z) z).
Proof.
  intros Hz (_ & _ & Hf) He. unfold um_plain, um_scalar. cbn [json_into].
  destruct (en_UnmarshalJSON e) as [f|] eqn:E.
  - rewrite (Hf f) by done. cbn. by rewrite He.
  - unfold json_num. rewrite atoi_pretty.
    + cbn [mbind option_bind]. rewrite Hz. cbn. by rewrite He.
    + unfold in_i32 in Hz. apply bool_decide_eq_true in Hz. lia.
Qed.

Lemma enum_back_ok e z p p0 s :
  en_null e = false -> in_i32 z = true -> enum_back e z p -> pr_Enum p0 = pr_Enum p ->
  yields (if as_enum m p0 then marshal_enum (en_String e z) z
          else marshal_default m (VEnum false (en_String e z) z)) s ->
  scalar_back (VEnum false (en_String e z) z) (TEnum e) p s.
Proof.
  intros He Hz Hb Hp. pose proof (pretty_json_number z) as Hn.
  assert (forall es ms, um_plain (JNum (pretty z)) es ms (TEnum e) (zero (TEnum e)) (Some p)
    = Ok (VEnum false (en_String e z) z)) as Hnum by (intros; by apply enum_number).
  destruct (as_enum m p0) eqn:Ea.
  - unfold marshal_enum. destruct (String.eqb_spec (en_String e z) (pretty z)) as [Es|Es];
      cbn [negb]; intros H; yields_inv; rewrite !str_app_nil_r.
    + exists (JNum (pretty z)). cbn [String.append]. split; [by split|done].
    + exists (JStr (en_String e z)). destruct Hb as (Hc & Hm & _).
      split; [split; [done|by apply plain_body]|]. split; [done|]. intros es ms.
      unfold um_plain, enum_prop. cbn [mbind option_bind].
      assert (str_empty (pr_Enum p) = false) as Hne.
      { unfold as_enum in Ea. rewrite Hp in Ea. by destruct (str_empty _); rewrite ?andb_false_r in Ea. }
      rewrite Hne. unfold um_enum.
      destruct Hm as [Hm|[Hm| ->]]; [by rewrite Hm in Hne|done|]. cbn. by rewrite He.
  - intros (b & Hb' & ->)%yields_default. cbn in Hb'. injection Hb' as <-.
    cbn [is_int64]. rewrite !andb_false_r. by exists (JNum (pretty z)).
Qed.

(** every scalar is read back, whatever the marshaler's options *)
Lemma scalar_reads go nested v t p p0 indent s :
  scalar v t p -> pr_Enum p0 = pr_Enum p ->
  yields (marshal_body m go nested v (AsValue p0) indent) s -> scalar_back v t p s.
Proof.
  intros Hs Hp. destruct Hs as [b p Hq|z p Hq Hz|z p Hq Hz|z p Hq Hz|z p Hq Hz|f p Hq Hf|f p Hq Hf
    |str p Hq Hu|e z p He Hz Hb]; cbn [marshal_body]; try rewrite as_enum_none by congruence.
  - intros (b' & Hb & ->)%yields_default. cbn in Hb. injection Hb as <-.
    cbn [is_int64]. rewrite !andb_false_r. by exists (JBool b).
  - apply (int_back _ _ _ z); try done. unfold json_num. unfold in_i32 in *.
    pose proof Hz as Hz'. apply bool_decide_eq_true in Hz'. rewrite atoi_pretty by lia.
    cbn [mbind option_bind]. by rewrite Hz.
  - apply (int_back _ _ _ z); try done. unfold json_num. by rewrite atoi_pretty by lia.
  - apply (int_back _ _ _ z); try done. unfold json_num. rewrite parse_uint_pretty by lia.
    cbn [mbind option_bind]. by rewrite bool_decide_eq_true_2 by lia.
  - apply (int_back _ _ _ z); try done. unfold json_num. by rewrite parse_uint_pretty by lia.
  - apply (float_back f _ _ _ (json_float32 f)); try done. intros Hn. destruct (Hf Hn) as [? E].
    split; [done|]. unfold json_num. by rewrite E.
  - apply (float_back f _ _ _ (json_float64 f)); try done. intros Hn. destruct (Hf Hn) as [? E].
    split; [done|]. unfold json_num. by rewrite E.
  - by apply string_back.
  - by apply enum_back_ok.
Qed.

Lemma bytes_reads go nested b p p0 indent s es ms :
  pr_Enum p = "" -> pr_Enum p0 = pr_Enum p ->
  yields (marshal_body m go nested (VBytes b) (AsValue p0) indent) s ->
  exists j, json_is j s /\ um_plain j es ms TBytes (VBytes None) (Some p) = Ok (VBytes b).
Proof.
  intros Hq Hp. cbn [marshal_body]. rewrite as_enum_none by congruence.
  intros (b' & Hb & ->)%yields_default. cbn in Hb. injection Hb as <-.
  cbn [is_int64]. rewrite !andb_false_r. unfold um_plain. rewrite enum_prop_none by done.
  destruct b as [l|]; [|by exists JNull]. exists (JStr (base64 l)).
  split; [split; [done|apply plain_body, base64_plain]|]. unfold um_scalar.
  assert (nonFinite (base64 l) ≫= float_of TBytes = None) as -> by by destruct (nonFinite _).
  cbn [isNum json_into]. rewrite base64_decode. cbn [mbind option_bind].
  by rewrite b64_decode_base64.
Qed.
End Scalars.
