(* ===== verification/JsonpbFields.v ===== *)
(** * Members of an object and the fields of a struct

    [um_fields] and [um_oneofs] consume members as they go.  With the names of the fields disjoint,
    what each of them finds is what the object had from the start, and so the struct read is put
    together field by field; likewise the entries of a map. *)
From S2P Require Import Prelude Message Json JsonTree Jsonpb JsonpbFacts JsonpbText Unmarshal JsonpbRound.

Lemma Forall2_mp_in {A B} (P Q : A -> B -> Prop) l k :
  Forall2 P l k -> (forall x y, x ∈ l -> P x y -> Q x y) -> Forall2 Q l k.
Proof.
  induction 1 as [|x y l k Hxy HF IH]; intros Hi; constructor; [apply Hi; [set_solver|done]|].
  apply IH. intros; apply Hi; [set_solver|done].
Qed.

(** ** Members under a field's names *)

Definition find_member (p : properties) (m : gmap string kid) : option kid :=
  match m !! accepted_camel p with
  | Some raw => Some raw
  | None => m !! accepted_orig p
  end.

Definition drop_names (ns : list string) (m : gmap string kid) : gmap string kid :=
  foldr delete m ns.

Definition slot_names (os : list slot) : list string :=
  concat (map (fun o => accepted (sl_props o)) os).

Lemma lookup_drop_names ns m k : drop_names ns m !! k = if decide (k ∈ ns) then None else m !! k.
Proof.
  induction ns as [|n ns IH]; cbn [drop_names foldr]; [by rewrite decide_False by set_solver|].
  fold (drop_names ns m). destruct (decide (k = n)) as [->|Hn].
  - rewrite lookup_delete_eq, decide_True by set_solver. done.
  - rewrite lookup_delete_ne, IH by done. destruct (decide (k ∈ ns)).
    + by rewrite decide_True by set_solver.
    + by rewrite decide_False by set_solver.
Qed.

Lemma drop_app a b m : drop_names (a ++ b) m = drop_names b (drop_names a m).
Proof.
  apply map_eq. intros k. rewrite !lookup_drop_names.
  destruct (decide (k ∈ a ++ b)), (decide (k ∈ b)), (decide (k ∈ a)); set_solver.
Qed.

Lemma elem_of_accepted p k : k ∈ accepted p <-> k = accepted_camel p \/ k = accepted_orig p.
Proof.
  unfold accepted. destruct (String.eqb_spec (accepted_camel p) (accepted_orig p)) as [E|E];
    rewrite ?list_elem_of_cons; set_solver.
Qed.

Lemma find_member_some p m kd :
  find_member p m = Some kd -> exists k, k ∈ accepted p /\ m !! k = Some kd.
Proof.
  unfold find_member. destruct (m !! accepted_camel p) eqn:E; intros; simplify_eq;
    eexists; (split; [|eassumption]); apply elem_of_accepted; auto.
Qed.

Lemma find_member_none p m k : find_member p m = None -> k ∈ accepted p -> m !! k = None.
Proof.
  unfold find_member. rewrite elem_of_accepted.
  destruct (m !! accepted_camel p) eqn:E; [done|]. intros H [-> | ->]; done.
Qed.

Lemma drop_none p m : find_member p m = None -> drop_names (accepted p) m = m.
Proof.
  intros H. apply map_eq. intros k. rewrite lookup_drop_names. case_decide; [|done].
  symmetry. by eapply find_member_none.
Qed.

Lemma find_drop p ns m :
  (forall k, k ∈ accepted p -> k ∉ ns) -> find_member p (drop_names ns m) = find_member p m.
Proof.
  intros H. unfold find_member. rewrite !lookup_drop_names.
  by rewrite !decide_False by (apply H, elem_of_accepted; auto).
Qed.

Lemma consumeField_find p m :
  consumeField p m = (fun raw => (raw, drop_names (accepted p) m)) <$> find_member p m.
Proof.
  unfold consumeField, find_member.
  assert (delete (accepted_camel p) (delete (accepted_orig p) m) = drop_names (accepted p) m) as E.
  { apply map_eq. intros k. rewrite lookup_drop_names. pose proof (elem_of_accepted p k) as Hk.
    case_decide as Hd.
    - apply Hk in Hd as [-> | ->]; [apply lookup_delete_eq|].
      destruct (decide (accepted_orig p = accepted_camel p)) as [->|];
        [apply lookup_delete_eq|by rewrite lookup_delete_ne, lookup_delete_eq].
    - rewrite !lookup_delete_ne by (intros Heq; apply Hd, Hk; auto). done. }
  rewrite E. by destruct (m !! accepted_camel p), (m !! accepted_orig p).
Qed.

Lemma elem_of_slot_names k os :
  k ∈ slot_names os <-> exists o, o ∈ os /\ k ∈ accepted (sl_props o).
Proof.
  unfold slot_names. induction os as [|o os IH]; cbn [map concat]; [set_solver|].
  rewrite elem_of_app, IH. set_solver.
Qed.

Lemma nodup_names_cons o os :
  NoDup (slot_names (o :: os)) ->
  NoDup (slot_names os)
  /\ forall o', o' ∈ os -> forall k, k ∈ accepted (sl_props o') -> k ∉ accepted (sl_props o).
Proof.
  intros (_ & Hd & Hn)%list.NoDup_app. split; [done|].
  intros o' Ho k Hk Hk'. apply (Hd k Hk'), elem_of_slot_names. eauto.
Qed.

Lemma names_unique os o o' k :
  NoDup (slot_names os) -> o ∈ os -> o' ∈ os -> k ∈ accepted (sl_props o) ->
  k ∈ accepted (sl_props o') -> o = o'.
Proof.
  induction os as [|o1 os IH]; [set_solver|]. intros Hn.
  destruct (nodup_names_cons _ _ Hn) as [Hn' Hd].
  intros [->|Ho]%elem_of_cons [->|Ho']%elem_of_cons Hk Hk'; [done| | |by apply IH].
  - by destruct (Hd o' Ho' k Hk').
  - by destruct (Hd o Ho k Hk).
Qed.

Lemma names_apart a b o o' k :
  NoDup (slot_names (a ++ b)) -> o ∈ a -> o' ∈ b -> k ∈ accepted (sl_props o) ->
  k ∈ accepted (sl_props o') -> False.
Proof.
  unfold slot_names. rewrite map_app, concat_app. intros (_ & Hd & _)%list.NoDup_app Ho Ho' Hk Hk'.
  apply (Hd k); apply elem_of_slot_names; eauto.
Qed.

Section Struct.
Context `{UE : UnmarshalEnv}.

(** ** Fields of their own *)

(** what [um_fields] leaves in a field: nothing of a oneof yet *)
Definition own (v : gval) : gval := match v with VOneof _ => VOneof None | _ => v end.

Definition kid_reads (kd : kid) (t : gtype) (p : properties) (v : gval) : Prop :=
  exists v', kid_um kd (Field t) (zero t) (Some p) = Ok v' /\ geq v v'.

Definition field_reads (m : gmap string kid) (ft : field_info * gtype) (v : gval) : Prop :=
  if hidden ft.1 then geq (own v) (zero ft.2)
  else match find_member (fi_props ft.1) m with
       | None => geq (own v) (zero ft.2)
       | Some kd => kid_reads kd ft.2 (fi_props ft.1) (own v)
       end.

Definition zeros_of (fields : list (field_info * gtype)) : list (field_info * gval) :=
  map (fun f => (f.1, zero f.2)) fields.

Lemma elem_of_slots_go i fields ft :
  ft ∈ fields -> hidden ft.1 = false -> exists j, (j, ft.1, ft.2) ∈ field_slots i fields.
Proof.
  revert i. induction fields as [|[f t] fields IH]; intros i Hin Hh; [set_solver|].
  cbn [field_slots]. apply elem_of_cons in Hin as [->|Hin].
  - cbn in Hh. rewrite Hh. exists i. set_solver.
  - destruct (IH (S i) Hin Hh) as [j Hj]. exists j. destruct (hidden f); set_solver.
Qed.

Lemma lookup_slot i j fields f t :
  fields !! j = Some (f, t) -> hidden f = false -> (i + j, f, t) ∈ field_slots i fields.
Proof.
  revert i j. induction fields as [|[g t'] fields IH]; intros i j Hj Hh; [done|].
  cbn [field_slots]. destruct j as [|j].
  - cbn in Hj. injection Hj as -> ->. rewrite Hh, Nat.add_0_r. set_solver.
  - specialize (IH (S i) j Hj Hh). rewrite <- Nat.add_succ_comm.
    destruct (hidden g); set_solver.
Qed.

Lemma um_fields_reads fields vals i m :
  NoDup (slot_names (field_slots i fields)) ->
  Forall2 (fun ft gv => gv.1 = ft.1 /\ field_reads m ft gv.2) fields vals ->
  exists fs', um_fields fields (zeros_of fields) m
              = Ok (fs', drop_names (slot_names (field_slots i fields)) m)
  /\ Forall2 (fun a b => a.1 = b.1 /\ geq (own a.2) b.2) vals fs'.
Proof.
  intros Hn HF. revert i m Hn HF.
  induction fields as [|[f t] fields IH] in vals |- *; intros i m Hn HF.
  { apply Forall2_nil_inv_l in HF as ->. by exists []. }
  apply Forall2_cons_inv_l in HF as ([g v] & vals' & [Hg Hv] & HF & ->).
  cbn [fst snd] in Hg, Hv. subst g. unfold field_reads in Hv. cbn [fst snd] in Hv.
  cbn [um_fields zeros_of map fst snd field_slots] in *. fold (zeros_of fields).
  unfold hidden in *. destruct (has_prefix "XXX_" (fi_Name f)) eqn:Hh.
  { destruct (IH vals' (S i) m Hn HF) as (fs' & E & H2). rewrite E.
    exists ((f, zero t) :: fs'). split; [done|]. by constructor. }
  destruct (nodup_names_cons _ _ Hn) as [Hn' Hd]. cbn [sl_props fst snd] in Hd.
  assert (Forall2 (fun ft gv => gv.1 = ft.1
            /\ field_reads (drop_names (accepted (fi_props f)) m) ft gv.2) fields vals') as HF'.
  { eapply Forall2_mp_in; [exact HF|]. intros ft gv Hin [Hg Hft]. split; [done|].
    unfold field_reads in *. destruct (hidden ft.1) eqn:Hh'; [done|].
    destruct (elem_of_slots_go (S i) fields ft Hin Hh') as [j Hj].
    rewrite find_drop; [done|]. exact (Hd _ Hj). }
  destruct (IH vals' (S i) _ Hn' HF') as (fs' & E & H2).
  assert (drop_names (slot_names ((i, f, t) :: field_slots (S i) fields)) m
          = drop_names (slot_names (field_slots (S i) fields))
              (drop_names (accepted (fi_props f)) m)) as Ed by apply drop_app.
  rewrite Ed, consumeField_find. destruct (find_member (fi_props f) m) as [kd|] eqn:Ef; cbn.
  - destruct Hv as (v' & -> & Hg). cbn. rewrite E. exists ((f, v') :: fs'). split; [done|].
    by constructor.
  - rewrite drop_none in E |- * by done. rewrite E. exists ((f, zero t) :: fs').
    split; [done|]. by constructor.
Qed.

(** ** Members of oneofs *)

Definition holds (vals : list (field_info * gval)) (i : nat) (f : field_info) (x : gval) : Prop :=
  exists g, vals !! i = Some (g, VOneof (Some (f, x))).

Definition oneof_reads (vals : list (field_info * gval)) (m : gmap string kid) (o : slot) : Prop :=
  let '(i, f, t) := o in
  match find_member (fi_props f) m with
  | Some kd => exists x, holds vals i f x /\ kid_reads kd t (fi_props f) x
  | None => forall x, ~ holds vals i f x
  end.

(** fields that are what they should be, but for the oneofs that [os] are yet to set *)
Definition pending (os : list slot) (vals cur : list (field_info * gval)) : Prop :=
  length cur = length vals
  /\ forall j a b, vals !! j = Some a -> cur !! j = Some b ->
     a.1 = b.1 /\ (geq a.2 b.2 \/ exists f x t, a.2 = VOneof (Some (f, x)) /\ (j, f, t) ∈ os).

Lemma pending_done vals cur :
  pending [] vals cur -> Forall2 (fun a b => a.1 = b.1 /\ geq a.2 b.2) vals cur.
Proof.
  intros [Hl H]. apply Forall2_same_length_lookup. split; [done|]. intros j a b Ha Hb.
  destruct (H j a b Ha Hb) as [H1 [H2|(f & x & t & _ & Hin)]]; [done|set_solver].
Qed.

Lemma pending_skip i f t os vals cur :
  (forall x, ~ holds vals i f x) -> pending ((i, f, t) :: os) vals cur -> pending os vals cur.
Proof.
  intros Hno [Hl H]. split; [done|]. intros j [g v] b Ha Hb.
  destruct (H j _ b Ha Hb) as [H1 [H2|(f' & x & t' & Hv & Hin)]]; split; auto.
  cbn in Hv. subst v. apply elem_of_cons in Hin as [[= -> -> ->]|Hin].
  - destruct (Hno x). by exists g.
  - right. eauto 10.
Qed.

Lemma pending_set i f t os vals cur x v' :
  holds vals i f x -> geq x v' -> pending ((i, f, t) :: os) vals cur ->
  pending os vals (alter (fun fy => (fy.1, VOneof (Some (f, v')))) i cur).
Proof.
  intros [g Hi] Hx [Hl H]. split; [by rewrite length_alter|]. intros j a b Ha Hb.
  destruct (decide (i = j)) as [<-|Hij].
  - rewrite list_lookup_alter_eq in Hb. apply fmap_Some in Hb as (b0 & Hb & ->). simplify_eq.
    destruct (H i _ b0 Hi Hb) as [H1 _]. cbn in *. split; [done|]. left. by constructor.
  - rewrite list_lookup_alter_ne in Hb by done.
    destruct (H j a b Ha Hb) as [H1 [H2|(f' & y & t' & Hv & Hin)]]; split; auto.
    right. apply elem_of_cons in Hin as [[= -> -> ->]|Hin]; [done|eauto 10].
Qed.

Lemma um_oneofs_reads os vals info cur m :
  NoDup (slot_names os) -> Forall (oneof_reads vals m) os -> pending os vals cur ->
  exists fs', um_oneofs os (VMsg info cur []) m
              = Ok (VMsg info fs' [], drop_names (slot_names os) m)
  /\ Forall2 (fun a b => a.1 = b.1 /\ geq a.2 b.2) vals fs'.
Proof.
  revert cur m. induction os as [|[[i f] t] os IH]; intros cur m Hn HF Hp.
  { exists cur. split; [done|]. by apply pending_done. }
  apply list.Forall_cons in HF as [Ho HF]. destruct (nodup_names_cons _ _ Hn) as [Hn' Hd].
  assert (Forall (oneof_reads vals (drop_names (accepted (fi_props f)) m)) os) as HF'.
  { apply list.Forall_forall. intros [[i' f'] t'] Hin. apply list.Forall_forall with (2 := Hin) in HF.
    unfold oneof_reads in *. rewrite find_drop; [done|]. exact (Hd _ Hin). }
  change (slot_names ((i, f, t) :: os)) with (accepted (fi_props f) ++ slot_names os).
  rewrite drop_app. cbn [um_oneofs]. rewrite consumeField_find. unfold oneof_reads in Ho.
  destruct (find_member (fi_props f) m) as [kd|] eqn:Ef; cbn [fmap option_fmap option_map].
  - destruct Ho as (x & Hx & v' & -> & Hg). cbn [set_field set_fields fields_of].
    apply IH; [done..|]. by eapply pending_set.
  - rewrite drop_none in HF' |- * by done. apply IH; [done..|]. by eapply pending_skip.
Qed.

(** ** A struct *)

Lemma oneofs_of_nothing os v : um_oneofs os v ∅ = Ok (v, ∅).
Proof.
  induction os as [|[[i f] t] os IH]; [done|]. cbn [um_oneofs]. rewrite consumeField_find.
  unfold find_member. by rewrite !lookup_empty.
Qed.

(** the members of an object are read as the fields of the struct [vals] *)
Record members_read (d : msg_desc) (vals : list (field_info * gval)) (m : gmap string kid) : Prop := {
  mr_known : forall k, m !! k <> None -> k ∈ slot_names (slots d);
  mr_fields : Forall2 (fun ft gv => gv.1 = ft.1 /\ field_reads m ft gv.2) (md_fields d) vals;
  mr_oneofs : Forall (oneof_reads vals m) (md_oneofs d);
  mr_typed : forall i f x, holds vals i f x -> exists t, (i, f, t) ∈ md_oneofs d;
}.

Lemma um_members_reads u d vals info m :
  NoDup (slot_names (slots d)) -> members_read d vals m ->
  exists fs', um_members u d m (VMsg info (zeros_of (md_fields d)) []) = Ok (VMsg info fs' [])
  /\ Forall2 (fun a b => a.1 = b.1 /\ geq a.2 b.2) vals fs'.
Proof.
  intros Hn [Hk Hf Ho Ht]. unfold slots, slot_names in Hn. rewrite map_app, concat_app in Hn.
  apply list.NoDup_app in Hn as (Hn1 & Hd & Hn2).
  destruct (um_fields_reads _ _ 0 m Hn1 Hf) as (fs & E & Hfs).
  unfold um_members. cbn [fields_of]. rewrite E. cbn [fst snd set_fields].
  set (m' := drop_names _ m).
  assert (Forall (oneof_reads vals m') (md_oneofs d)) as Ho'.
  { apply list.Forall_forall. intros [[i f] t] Hin. apply list.Forall_forall with (2 := Hin) in Ho.
    unfold oneof_reads, m' in *. rewrite find_drop; [done|].
    intros k Hk1 Hk2. apply (Hd k Hk2), elem_of_slot_names. by eexists. }
  assert (pending (md_oneofs d) vals fs) as Hp.
  { split; [symmetry; by eapply Forall2_length|]. intros j [g v] b Ha Hb.
    destruct (Forall2_lookup_lr _ _ _ _ _ _ Hfs Ha Hb) as [H1 H2]. split; [done|].
    destruct v as [| | | | | | | | | | | | |[[f x]|]|]; try (by left). right.
    destruct (Ht j f x) as [t Hin]; [by exists g|]. exists f, x, t. done. }
  destruct (um_oneofs_reads _ vals info fs m' Hn2 Ho' Hp) as (fs' & E' & Hfs').
  assert (drop_names (slot_names (md_oneofs d)) m' = ∅) as Hempty.
  { unfold m'. rewrite <- drop_app. apply map_eq. intros k. rewrite lookup_drop_names, lookup_empty.
    case_decide as Hin; [done|]. destruct (m !! k) eqn:Em; [|done]. destruct Hin.
    specialize (Hk k). unfold slots, slot_names in Hk. rewrite map_app, concat_app in Hk.
    apply Hk. by rewrite Em. }
  exists fs'. split; [|done].
  assert ((if bool_decide (m' = ∅) then Ok (VMsg info fs [], m')
           else um_oneofs (md_oneofs d) (VMsg info fs []) m') = Ok (VMsg info fs' [], ∅)) as E2.
  { rewrite Hempty in E'. case_bool_decide as Hm; [|done].
    rewrite Hm, oneofs_of_nothing in E'. injection E' as ->. by rewrite Hm. }
  cbn [res_bind fst snd]. rewrite E2. cbn [res_bind fst snd]. rewrite bool_decide_eq_true_2 by done.
  cbn. by rewrite andb_false_r.
Qed.

(** ** Entries of a map *)

Lemma key_eqb_eq a b : key_kind a = true -> key_eqb a b = true -> a = b.
Proof.
  destruct a, b; try done; cbn; intros _ H.
  - by apply eqb_prop in H as ->.
  - by apply Z.eqb_eq in H as ->.
  - by apply Z.eqb_eq in H as ->.
  - by apply Z.eqb_eq in H as ->.
  - by apply Z.eqb_eq in H as ->.
  - by apply String.eqb_eq in H as ->.
Qed.

Lemma SetMapIndex_new l k x :
  Forall (fun kx => key_kind kx.1 = true) l -> k ∉ map fst l -> SetMapIndex l k x = l ++ [(k, x)].
Proof.
  induction 1 as [|[k' x'] l Hk HF IH]; cbn [map fst SetMapIndex app]; [done|].
  intros [Hne Hnin]%not_elem_of_cons. cbn in Hk.
  destruct (key_eqb k' k) eqn:E; [|by rewrite IH].
  apply key_eqb_eq in E; [|done]. by subst.
Qed.

(** the text [ks] of a key is read as [k] *)
Definition key_reads (ks : string) (t : gtype) (k : gval) : Prop :=
  forall prop, match t with TString => Ok (VString ks) | _ => um_key ks t prop end = Ok k.

Definition entry_reads (kt vt : gtype) (q : properties) (e : string * kid) (kx : gval * gval) : Prop :=
  key_kind kx.1 = true /\ key_reads e.1 kt kx.1 /\ kid_reads e.2 vt q kx.2.

Lemma um_entries_reads kt vt p q mp src acc :
  pr_MapValProp p = Some q -> Forall2 (entry_reads kt vt q) mp src ->
  NoDup (map fst acc ++ map fst src) -> Forall (fun kx => key_kind kx.1 = true) acc ->
  exists l, um_entries kt vt (Some p) mp acc = Ok (acc ++ l)
  /\ Forall2 (fun a b => a.1 = b.1 /\ geq a.2 b.2) src l.
Proof.
  intros Hq HF. revert acc.
  induction HF as [|[ks kd] [k x] mp src (Hk & Hkey & x' & Hx & Hg) HF IH]; intros acc Hn Ha.
  { exists []. rewrite app_nil_r. split; [done|constructor]. }
  cbn [fst snd] in *. cbn [um_entries mbind option_bind].
  rewrite (Hkey (pr_MapKeyProp p)). cbn [res_bind]. rewrite Hq, Hx. cbn [res_bind].
  cbn [map fst] in Hn. rewrite SetMapIndex_new; [|done|].
  - destruct (IH (acc ++ [(k, x')])) as (l & E & HF').
    + by rewrite map_app, <- app_assoc.
    + apply list.Forall_app. by repeat constructor.
    + exists ((k, x') :: l). rewrite E, <- app_assoc. split; [done|]. by constructor.
  - apply list.NoDup_app in Hn as (_ & Hd & _). intros Hin. apply (Hd k Hin). set_solver.
Qed.
End Struct.

(** the entries of a gmap of decoded members, in the order of a range *)
Lemma json_range_members {A} (range : gmap string A -> list (string * A)) (l : list (string * A)) :
  (forall mp, range mp ≡ₚ map_to_list mp) -> NoDup (map fst l) -> range (list_to_map (rev l)) ≡ₚ l.
Proof.
  intros Hr Hn. rewrite Hr, map_to_list_to_map.
  - symmetry. apply Permutation_rev.
  - change (NoDup (map fst (rev l))). rewrite map_rev, <- Permutation_rev. done.
Qed.
