(* ===== verification/JsonpbRequired.v ===== *)
(** * Required fields and values that are not told apart

    A message whose required fields are set keeps them set when it is written and read
    back: [checkRequiredFields] does not tell values apart that [geq] does not. *)
From S2P Require Import Prelude Message Json JsonTree Jsonpb JsonpbFacts Unmarshal JsonpbRound.

(** the checks of what a field's value holds *)
Definition check_below (x : gval) : list (res unit) :=
  match x with
  | VMap (Some l) => map (fun kv => checkRequiredFieldsInValue kv.2) l
  | VSlice (Some l) => map checkRequiredFieldsInValue l
  | VPtr (Some _) => [checkRequiredFieldsInValue x]
  | _ => []
  end.

Definition field_check (fx : field_info * gval) : res unit :=
  let '(f, x) := fx in
  if field_skipped f then Ok tt
  else match x with
       | VOneof None => Ok tt
       | VOneof (Some (f', x')) =>
           if fi_tag f' then check_field (fi_props f') x' (check_below x') else Ok tt
       | _ => if fi_tag f then check_field (fi_props f) x (check_below x) else Ok tt
       end.

Lemma check_message info fields exts :
  checkRequiredFieldsInValue (VPtr (Some (VMsg info fields exts)))
  = if bool_decide (is_Some (mi_wkt info)) then Ok tt
    else
      let! _ := all_ok (map field_check fields) in
      all_ok (map (fun ex => let '(e, x) := ex in
        if ei_has e then
          match ei_get e with Some err => Err err | None => checkRequiredFieldsInValue x end
        else Ok tt) exts).
Proof. done. Qed.

Definition passes (r : res unit) : Prop := r = Ok tt.

Lemma all_ok_passes l : passes (all_ok l) <-> Forall passes l.
Proof.
  unfold passes. induction l as [|r l IH]; cbn [all_ok]; [by split; [constructor|]|].
  rewrite list.Forall_cons, <- IH. destruct r as [[]| |]; cbn; naive_solver.
Qed.

(** a check that passes on a value passes on one not told apart from it *)
Definition check_kept (v : gval) : Prop :=
  forall v', geq v v' -> passes (checkRequiredFieldsInValue v) ->
  passes (checkRequiredFieldsInValue v').
Definition below_kept (v : gval) : Prop :=
  forall v', geq v v' -> Forall passes (check_below v) -> Forall passes (check_below v').
Definition target_kept (v : gval) : Prop :=
  forall v', geq v v' -> passes (checkRequiredFieldsInValue (VPtr (Some v))) ->
  passes (checkRequiredFieldsInValue (VPtr (Some v'))).

Definition kept (v : gval) : Prop := check_kept v /\ below_kept v /\ target_kept v.

Lemma check_kept_of v : parts kept v -> check_kept v.
Proof.
  intros Hp v' Hg. inversion Hg as [| | | | | | |v0 v0' Hg0| |]; subst; try done.
  apply Hp. done.
Qed.

Lemma below_kept_of v : parts kept v -> below_kept v.
Proof.
  intros Hp v' Hg. inversion Hg as [|a b|a b| |l l' HF| |l l' l'' HF Hl|v0 v0' Hg0|f x x' Hg0|]; subst;
    try done; cbn [check_below parts] in *; try (intros; constructor; fail).
  - rewrite !Forall_fmap. intros Hc. clear Hg. induction HF as [|x x' l l' Hx HF IH]; [constructor|].
    apply list.Forall_cons in Hp as [Hp1 Hp], Hc as [Hc1 Hc]. constructor; [by apply Hp1|auto].
  - rewrite !Forall_fmap. intros Hc. rewrite <- Hl. clear Hl Hg.
    induction HF as [|x x' l l' [_ Hx] HF IH]; [constructor|].
    apply list.Forall_cons in Hp as [Hp1 Hp], Hc as [Hc1 Hc]. constructor; [by apply Hp1|auto].
  - rewrite !Forall_singleton. by apply Hp.
Qed.

Lemma check_field_kept p v v' :
  below_kept v -> geq v v' -> passes (check_field p v (check_below v)) ->
  passes (check_field p v' (check_below v')).
Proof.
  intros Hb Hg. specialize (Hb v' Hg).
  inversion Hg; subst; try done; cbn [check_field] in *;
    rewrite ?all_ok_passes; auto; try (intros; constructor; fail).
  - by destruct (pr_Repeated p).
  - destruct (pr_Repeated p); rewrite ?all_ok_passes; auto.
Qed.

Lemma field_check_kept f x x' :
  below_kept x -> match x with VOneof (Some (_, y)) => below_kept y | _ => True end -> geq x x' ->
  passes (field_check (f, x)) -> passes (field_check (f, x')).
Proof.
  intros Hx Ho Hg. unfold field_check. destruct (field_skipped f); [done|].
  assert (forall g, passes (if fi_tag g then check_field (fi_props g) x (check_below x) else Ok tt) ->
    passes (if fi_tag g then check_field (fi_props g) x' (check_below x') else Ok tt)) as Hown.
  { intros g. destruct (fi_tag g); [|done]. by apply check_field_kept. }
  inversion Hg as [| | | | | | | |f' y y' Hy|]; subst; try done; try (by apply (Hown f)).
  destruct (fi_tag f'); [|done]. by apply check_field_kept.
Qed.

Lemma target_kept_of v : parts kept v -> target_kept v.
Proof.
  intros Hp v' Hg. inversion Hg as [| | | | | | | | |info fs fs' exts HF]; subst; try done.
  cbn [parts] in Hp. rewrite !check_message. destruct (bool_decide _); [done|].
  destruct Hp as [Hp _]. intros H.
  assert (passes (all_ok (map field_check fs))) as Hf
    by (unfold passes in *; by destruct (all_ok (map field_check fs)) as [[]| |]).
  assert (passes (all_ok (map field_check fs'))) as Hf'.
  { apply all_ok_passes. apply all_ok_passes in Hf. rewrite Forall_fmap in Hf |- *. clear -HF Hp Hf.
    induction HF as [|[f x] [f' x'] fs fs' [Ef Hx] HF IH]; [constructor|]. cbn in Ef. subst f'.
    apply list.Forall_cons in Hp as [[Hp1 Hp2] Hp], Hf as [Hf1 Hf]. constructor; [|auto].
    revert Hf1. apply field_check_kept; [by apply Hp1| |done].
    destruct x as [| | | | | | | | | | | | |[[f' y]|]|]; try done. by apply Hp2. }
  rewrite Hf in H. rewrite Hf'. exact H.
Qed.

Lemma required_geq v v' :
  geq v v' -> passes (checkRequiredFields v) -> passes (checkRequiredFields v').
Proof.
  assert (kept v) as (_ & _ & Ht); [|by apply Ht].
  induction v as [v IH] using gval_parts_ind.
  split_and!; auto using check_kept_of, below_kept_of, target_kept_of.
Qed.
