(* ===== verification/JsonpbValues.v ===== *)
(** * Reading back values, arrays and maps

    What the marshaler writes for a scalar, a slice or a map is the text of a tree, from
    the texts of [JsonSeq], and the unmarshaler reads the value from the tree. *)
From S2P Require Import Prelude Message Json JsonTree Jsonpb JsonpbFacts JsonSeq JsonpbText Unmarshal.
From S2P Require Import JsonpbRound JsonpbFields.

(** ** Texts of arrays and objects as trees *)

Definition elem_text (j : jval) (e : string) : Prop := elem_is (json_is j) e.
Definition member_text (kj : string * jval) (e : string) : Prop := member_is kj.1 (json_is kj.2) e.

Lemma Forall2_all2 {A B} (P : A -> B -> Prop) l es : Forall2 P l es -> all2 P l es.
Proof. induction 1; simpl; auto. Qed.

Lemma padded_elem j t : json_is j t -> padded elem_text j t.
Proof. intros Ht w1 w2 H1 H2. by exists w1, t, w2. Qed.

Lemma padded_member k j w1 w3 t :
  json_ws w1 -> json_body k -> json_ws w3 -> json_is j t ->
  padded member_text (k, j) (w1 +:+ quoted k +:+ ":" +:+ w3 +:+ t).
Proof.
  intros H1 Hk H3 Ht u1 u2 Hu1 Hu2. exists (u1 +:+ w1), "", w3, t, u2.
  cbn [fst snd]. split_and!; auto using ws_app, ws_nil. rewrite !str_app_assoc. done.
Qed.

Lemma array_is l w1 s w2 :
  list_body elem_text l s -> json_ws w1 -> json_ws w2 ->
  json_is (JArr l) ("[" +:+ (w1 +:+ s +:+ w2) +:+ "]").
Proof.
  intros Hs H1 H2. destruct (list_body_sep _ _ _ _ _ Hs H1 H2) as [[-> H]|(es & Hne & HF & ->)].
  - cbn. eauto.
  - destruct l as [|j l]; [done|]. exists es. split; [done|]. by apply Forall2_all2.
Qed.

Lemma object_is l w1 s w2 :
  list_body member_text l s -> json_ws w1 -> json_ws w2 ->
  json_is (JObj l) ("{" +:+ (w1 +:+ s +:+ w2) +:+ "}").
Proof.
  intros Hs H1 H2. destruct (list_body_sep _ _ _ _ _ Hs H1 H2) as [[-> H]|(es & Hne & HF & ->)].
  - cbn. eauto.
  - destruct l as [|kj l]; [done|]. exists es. split; [done|]. by apply Forall2_all2.
Qed.

Section Back.
Context `{JE : JsonpbEnv} `{UE : UnmarshalEnv} (m : Marshaler) (u : Unmarshaler).
Context (Hindent : json_ws (mr_Indent m)).
Context (Hrange : forall A (mp : gmap string A), json_range A mp ≡ₚ map_to_list mp).

Lemma back_inner_ws indent : json_ws indent -> json_ws (indent +:+ mr_Indent m).
Proof. intros H. by apply ws_app. Qed.

Lemma back_tail_ws indent : json_ws indent -> json_ws (ind_text m [nl; indent; mr_Indent m]).
Proof. intros Hi. apply ind_text_ws. by repeat constructor. Qed.

Lemma unmarshalValue_unfold j :
  unmarshalValue u j
  = um_target u j
      (match j with JArr l => map (fun x => Kid x (unmarshalValue u x)) l | _ => [] end)
      (match j with
       | JObj l => map (fun kx => (kx.1, Kid kx.2 (unmarshalValue u kx.2))) l
       | _ => []
       end).
Proof. by destruct j. Qed.

(** ** Map keys *)

Lemma um_key_plain ks t prop :
  str_forall plain_char ks = true -> ks <> "" -> um_key ks t prop = json_text_into ks t (zero t).
Proof.
  destruct ks as [|c ks]; [done|]. cbn [str_forall um_key]. intros [Hc _]%andb_true_iff _.
  assert (Ascii.eqb c quote_char = false) as ->; [|done].
  clear -Hc. destruct c as [[] [] [] [] [] [] [] []]; done.
Qed.

Lemma key_int_back (z : Z) t k :
  (if t is TEnum _ then False else True) -> t <> TString -> json_num t (pretty z) = Ok k ->
  key_reads (pretty z) t k.
Proof.
  intros He Hs Hk prop.
  assert (um_key (pretty z) t prop = Ok k) as E; [|by destruct t].
  rewrite um_key_plain; [|apply pretty_plain|].
  - unfold json_text_into. rewrite parse_pretty. cbn [res_bind]. by destruct t.
  - intros E. pose proof (parse_pretty z) as Hp. rewrite E in Hp. discriminate Hp.
Qed.

Lemma key_back k t ks :
  key_kind k = true -> scalar k t no_props -> key_text k = Ok ks ->
  exists b, ks = quoted b /\ json_body b /\ json_decode b = Some (sprint k)
  /\ key_reads (sprint k) t k.
Proof.
  intros Hk Hs. unfold key_text.
  assert (forall s, utf8_valid s = true -> exists b, json_string s = quoted b /\ json_body b
            /\ json_decode b = Some s) as Hstr.
  { intros s Hv. eexists. split; [reflexivity|]. split; [|by apply decode_esc].
    unfold json_body. rewrite unesc_esc. eauto. }
  assert (forall z : Z, has_prefix (String quote_char "") (pretty z) = false) as Hq
    by (intros; apply plain_no_quote, pretty_plain).
  destruct Hs as [b p Hp|z p Hp Hz|z p Hp Hz|z p Hp Hz|z p Hp Hz|f p Hp Hf|f p Hp Hf
    |str p Hp Hu|e z p He Hz Hb]; try done; cbn [json_scalar res_bind]; rewrite ?Hq; intros [= <-].
  - destruct (Hstr (if b then "true" else "false")) as (b' & E & H1 & H2); [by destruct b|].
    exists b'. split; [by destruct b|]. split; [done|]. split; [by destruct b|].
    intros prop. by destruct b.
  - destruct (Hstr (pretty z) (pretty_valid z)) as (b' & E & H1 & H2). exists b'.
    split_and!; try done. apply key_int_back; [done..|]. unfold json_num, in_i32 in *.
    pose proof Hz as Hz'. apply bool_decide_eq_true in Hz'. rewrite atoi_pretty by lia.
    cbn [mbind option_bind]. unfold in_i32. by rewrite Hz.
  - destruct (Hstr (pretty z) (pretty_valid z)) as (b' & E & H1 & H2). exists b'.
    split_and!; try done. apply key_int_back; [done..|]. unfold json_num.
    by rewrite atoi_pretty by lia.
  - destruct (Hstr (pretty z) (pretty_valid z)) as (b' & E & H1 & H2). exists b'.
    split_and!; try done. apply key_int_back; [done..|]. unfold json_num.
    rewrite parse_uint_pretty by lia. cbn [mbind option_bind]. by rewrite bool_decide_eq_true_2 by lia.
  - destruct (Hstr (pretty z) (pretty_valid z)) as (b' & E & H1 & H2). exists b'.
    split_and!; try done. apply key_int_back; [done..|]. unfold json_num.
    by rewrite parse_uint_pretty by lia.
  - destruct (Hstr str Hu) as (b' & E & H1 & H2). exists b'.
    assert (forall x, has_prefix "" x = true) as -> by by intros [].
    by split_and!.
Qed.

(** ** Values *)

Section Fuel.
Context (n : nat).

Definition kid_of (j : jval) : kid := Kid j (unmarshalValue u j).

Definition same_use (p0 p : properties) : Prop :=
  pr_Enum p0 = pr_Enum p /\ pr_MapValProp p0 = pr_MapValProp p.

(** what is written for a value, as the text of a tree for which [R] holds *)
Definition tree_back (p0 : properties) (R : gval -> jval -> Prop) (indent : string) (x : gval) : Prop :=
  forall s, yields (marshal m n x (AsValue p0) indent) s -> exists j, json_is j s /\ R x j.

(** the tree is read as the value *)
Definition value_back (x : gval) : Prop :=
  forall t p p0 indent, typed x t p -> same_use p0 p -> json_ws indent ->
  tree_back p0 (fun x j => kid_reads (kid_of j) t p x) indent x.

Lemma scalar_value_back v t p p0 indent s :
  scalar v t p -> same_use p0 p -> yields (marshal m n v (AsValue p0) indent) s ->
  exists j, json_is j s /\ j <> JNull
  /\ forall es ms, um_plain j es ms t (zero t) (Some p) = Ok v.
Proof.
  intros Hs [Hp _] H. rewrite marshal_unfold in H. by eapply scalar_reads in H.
Qed.

(** a type whose values are not written through pointers *)
Lemma um_target_plain j es ms t old p :
  match t with TPtr _ | TMessage _ => False | _ => True end ->
  um_target u j es ms (Field t) old p = um_plain j es ms t old p.
Proof. by destruct t. Qed.

Lemma res_mapM_reads l js t p :
  Forall2 (fun x j => kid_reads (kid_of j) t p x) l js ->
  exists vs, res_mapM (fun k => kid_um k (Field t) (zero t) (Some p)) (map kid_of js) = Ok vs
  /\ Forall2 geq l vs.
Proof.
  induction 1 as [|x j l js (v' & E & Hg) HF (vs & E' & H')]; cbn [map res_mapM].
  - exists []. by split.
  - exists (v' :: vs). rewrite E. cbn [res_bind]. rewrite E'. split; [done|by constructor].
Qed.

(** the text of a slice is that of an array of what its elements are written as *)
Lemma slice_back R l p0 indent s :
  Forall (tree_back p0 R (indent +:+ mr_Indent m)) l -> json_ws indent ->
  yields (marshal m n (VSlice (Some l)) (AsValue p0) indent) s ->
  exists js, json_is (JArr js) s /\ Forall2 R l js.
Proof using Hindent.
  intros Hb Hi H. rewrite marshal_unfold in H. cbn [marshal_body] in H. yields_inv.
  rewrite str_app_nil_r.
  set (f := fun x => marshal m n x (AsValue p0) (indent +:+ mr_Indent m)) in *.
  match goal with H : yields (write_elems _ _ _ _) _ |- _ =>
    replace (map f l) with (map snd (map (fun x => (x, f x)) l)) in H by (by rewrite map_map);
    apply (write_elems_body elem_text R) in H as (js & HF & Hbody); [|done|done|] end.
  - rewrite map_map, map_id in HF. exists js. split; [|done].
    rewrite <- (str_app_assoc _ _ "]"). apply (array_is _ ""); auto using ws_nil, back_tail_ws.
  - rewrite Forall_fmap. eapply list.Forall_impl; [exact Hb|]. intros x Hx s' Hs'.
    destruct (Hx _ Hs') as (j & Hj & Hr). exists j. split; [done|]. by apply padded_elem.
Qed.

Lemma value_slice_back l t p p0 indent s :
  Forall value_back l -> Forall (fun v => typed v t p) l -> same_use p0 p -> json_ws indent ->
  yields (marshal m n (VSlice (Some l)) (AsValue p0) indent) s ->
  exists j v', json_is j s /\ unmarshalValue u j (Field (TSlice t)) (VSlice None) (Some p) = Ok (VSlice (Some v'))
  /\ Forall2 geq l v'.
Proof.
  intros Hb Ht Hp Hi H.
  destruct (slice_back (fun x j => kid_reads (kid_of j) t p x) l p0 indent s) as (js & Hj & HF);
    [|done..|].
  { apply Forall_mp with (1 := Hb) (2 := Ht). intros x Hx Htx. auto using back_inner_ws. }
  destruct (res_mapM_reads _ _ _ _ HF) as (vs & E & Hg). exists (JArr js), vs.
  split; [done|]. split; [|done]. rewrite unmarshalValue_unfold, um_target_plain by done.
  unfold um_plain, um_slice, as_array. cbn [res_bind].
  change (map (fun x => Kid x (unmarshalValue u x)) js) with (map kid_of js). by rewrite E.
Qed.

Lemma value_slice_nil p0 indent s :
  json_ws indent -> yields (marshal m n (VSlice None) (AsValue p0) indent) s ->
  json_is (JArr []) s.
Proof.
  intros Hi H. rewrite marshal_unfold in H. cbn [marshal_body write_elems] in H. yields_inv.
  rewrite str_app_nil_r. cbn [String.append]. eexists. split; [|reflexivity]. by apply back_tail_ws.
Qed.

(** an entry of a map, its key as written and the tree of its value *)
Definition entry_back (kt : gtype) (R : gval -> jval -> Prop) (kv : gval * gval) (bj : string * jval)
    : Prop :=
  json_decode bj.1 = Some (sprint kv.1) /\ key_reads (sprint kv.1) kt kv.1 /\ R kv.2 bj.2.

Lemma entry_writes kt R p0 indent kv :
  key_kind kv.1 = true -> scalar kv.1 kt no_props -> tree_back p0 R (indent +:+ mr_Indent m) kv.2 ->
  writes member_text (entry_back kt R) kv
    (entry_trace m (kv.1, marshal m n kv.2 (AsValue p0) (indent +:+ mr_Indent m))).
Proof using Hindent.
  destruct kv as [k x]. cbn [fst snd]. intros Hk Hs Hb s. unfold entry_trace. cbn [fst snd].
  destruct (key_text k) as [ks| |] eqn:E; cbn [t_of_res]; intros H; yields_inv.
  destruct (key_back _ _ _ Hk Hs E) as (b & -> & Hbody & Hd & Hr).
  match goal with H : yields (marshal _ _ _ _ _) _ |- _ =>
    destruct (Hb _ H) as (j & Hj & Hx) end.
  exists (b, j). split; [done|].
  apply (padded_member b j ""); auto using ws_nil. apply ind_text_ws. by repeat constructor.
Qed.

Definition map_keys (kt : gtype) (l : list (gval * gval)) : Prop :=
  Forall (fun kv => key_kind kv.1 = true /\ scalar kv.1 kt no_props) l.

Lemma map_back l kt R p0 q indent s :
  default p0 (pr_MapValProp p0) = q -> map_keys kt l ->
  Forall (fun kv => tree_back q R (indent +:+ mr_Indent m) kv.2) l -> json_ws indent ->
  yields (marshal m n (VMap (Some l)) (AsValue p0) indent) s ->
  exists l2 bjs, json_is (JObj bjs) s /\ l2 ≡ₚ l /\ Forall2 (entry_back kt R) l2 bjs.
Proof using Hindent.
  intros <- Hk Hb Hi H. rewrite marshal_unfold in H. cbn [marshal_body] in H.
  destruct (as_enum m p0); [by apply yields_panic in H|].
  set (q := default p0 (pr_MapValProp p0)) in *.
  set (f := fun kv : gval * gval => (kv.1, marshal m n kv.2 (AsValue q) (indent +:+ mr_Indent m))) in *.
  change (map (fun kv => _) l) with (map f l) in H.
  destruct (Permutation_map_inv f l (sort_by_perm Less (map f l))) as (l2 & E & Hl2). symmetry in Hl2.
  rewrite E in H. yields_inv. rewrite str_app_nil_r.
  match goal with H : yields (write_entries _ _ _ _) _ |- _ =>
    replace (map f l2) with (map snd (map (fun kv => (kv, f kv)) l2)) in H by (by rewrite map_map);
    apply (write_entries_body member_text (entry_back kt R)) in H as (bjs & HF & Hbody);
    [|done|done|] end.
  - rewrite map_map, map_id in HF. exists l2, bjs.
    split; [|done]. rewrite <- (str_app_assoc _ _ "}").
    apply (object_is _ ""); auto using ws_nil, back_tail_ws.
  - rewrite Forall_fmap. unfold map_keys in Hk. rewrite <- Hl2 in Hb, Hk.
    apply Forall_mp with (1 := Hb) (2 := Hk). intros kv Hx [? ?]. by apply entry_writes.
Qed.

Lemma key_names kt (ks : list gval) :
  Forall (fun k => key_reads (sprint k) kt k) ks -> NoDup ks -> NoDup (map sprint ks).
Proof.
  intros Hk. induction 1 as [|k ks Hnin Hn IH]; cbn [map]; [constructor|].
  apply list.Forall_cons in Hk as [H1 Hk]. constructor; [|by apply IH].
  intros (k' & E & Hin)%list_elem_of_fmap. apply Hnin.
  rewrite list.Forall_forall in Hk. specialize (Hk k' Hin None). specialize (H1 None).
  rewrite E in H1. rewrite Hk in H1. injection H1 as ->. done.
Qed.

Definition members_map (l : list (string * jval)) : gmap string kid :=
  list_to_map (rev (map decode_key (map (fun kx => (kx.1, kid_of kx.2)) l))).

(** a decoded member, in the order of a range over them *)
Definition member_reads (kt : gtype) (R : gval -> jval -> Prop) (sk : string * kid) (kv : gval * gval)
    : Prop :=
  key_reads sk.1 kt kv.1 /\ exists j, sk.2 = kid_of j /\ R kv.2 j.

Lemma map_members kt R l l2 bjs :
  Forall2 (entry_back kt R) l2 bjs -> l2 ≡ₚ l -> NoDup (map fst l) -> map_keys kt l ->
  exists src, src ≡ₚ l /\ NoDup (map fst src)
  /\ Forall2 (fun sk kv => key_kind kv.1 = true /\ member_reads kt R sk kv)
       (json_range kid (members_map bjs)) src.
Proof using Hrange.
  intros HF Hl2 Hn Hk. unfold map_keys in Hk. unfold members_map.
  set (ms := map decode_key (map (fun kx => (kx.1, kid_of kx.2)) bjs)).
  rewrite <- Hl2 in Hk. assert (NoDup (map fst l2)) as Hn2 by by rewrite Hl2.
  assert (map fst ms = map sprint (map fst l2)
          /\ Forall2 (fun sk kv => key_kind kv.1 = true /\ member_reads kt R sk kv) ms l2
          /\ Forall (fun k => key_reads (sprint k) kt k) (map fst l2)) as (Hf & HF2 & Hkr).
  { unfold ms. clear -HF Hk. induction HF as [|kv bj l2 bjs (H2 & H3 & H4) HF IH];
      cbn [map fst]; [done|]. apply list.Forall_cons in Hk as [[H1 _] Hk].
    destruct (IH Hk) as (IH1 & IH2 & IH3).
    change (decode_key (bj.1, kid_of bj.2)) with (default "" (json_decode bj.1), kid_of bj.2).
    rewrite H2, <- IH1. cbn [default fst].
    split; [done|]. split; constructor; auto. split; [done|]. split; [done|]. by exists bj.2. }
  assert (json_range kid (list_to_map (rev ms)) ≡ₚ ms) as Hrg.
  { apply json_range_members; [apply Hrange|]. rewrite Hf. by eapply key_names. }
  symmetry in Hrg. destruct (Permutation_Forall2 Hrg HF2) as (src & Hsrc & HF3).
  exists src. split; [by rewrite <- Hsrc|]. split; [by rewrite <- Hsrc|done].
Qed.

Lemma value_map_back l kt vt p q p0 indent s :
  Forall (fun kv => value_back kv.2) l -> same_use p0 p -> pr_MapValProp p = Some q ->
  NoDup (map fst l) -> map_keys kt l ->
  Forall (fun kv => typed kv.2 vt q) l -> json_ws indent ->
  yields (marshal m n (VMap (Some l)) (AsValue p0) indent) s ->
  exists j, json_is j s /\ kid_reads (kid_of j) (TMap kt vt) p (VMap (Some l)).
Proof using Hindent Hrange.
  intros Hb [_ Hp] Hq Hn Hk Ht Hi H.
  destruct (map_back l kt (fun x j => kid_reads (kid_of j) vt q x) p0 q indent s)
    as (l2 & bjs & Hj & Hl2 & HF); [by rewrite Hp, Hq|done| |done..|].
  { apply Forall_mp with (1 := Hb) (2 := Ht). intros kv Hx Htx. by apply Hx; auto using back_inner_ws. }
  exists (JObj bjs). split; [done|].
  destruct (map_members _ _ _ _ _ HF Hl2 Hn Hk) as (src & Hsl & Hns & HF2).
  destruct (um_entries_reads kt vt p q
    (json_range kid (members_map bjs)) src [] Hq) as (l3 & E & Hl3); [|done|done|].
  { eapply list.Forall2_impl; [exact HF2|]. intros sk kv (H1 & H2 & j & Hsk & H3). split; [done|].
    split; [done|]. by rewrite Hsk. }
  destruct (Permutation_Forall2 Hsl Hl3) as (l4 & Hl4 & Hg).
  exists (VMap (Some l3)). split; [|by econstructor; [exact Hg|symmetry]].
  cbn [kid_um kid_of]. rewrite unmarshalValue_unfold, um_target_plain by done.
  unfold um_plain, um_map, as_object. cbn [res_bind].
  change (list_to_map _) with (members_map bjs). by rewrite E.
Qed.

Lemma value_map_nil p0 indent s :
  json_ws indent -> yields (marshal m n (VMap None) (AsValue p0) indent) s ->
  json_is (JObj []) s.
Proof.
  intros Hi H. rewrite marshal_unfold in H. cbn [marshal_body] in H.
  change (sort_by Less []) with (@nil (gval * trace)) in H. cbn [write_entries] in H.
  destruct (as_enum m p0); [by apply yields_panic in H|]. yields_inv.
  rewrite str_app_nil_r. cbn [String.append]. eexists. split; [|reflexivity]. by apply back_tail_ws.
Qed.
End Fuel.
End Back.
