(* ===== verification/JsonpbKnown.v ===== *)
(** * Reading back the well-known types

    Wrappers, durations, times, and the dynamic values of [structpb]: what the marshaler writes
    for one is not an object of its fields. *)
From S2P Require Import Prelude Message Json JsonTree Jsonpb JsonpbFacts JsonSeq JsonpbText Unmarshal.
From S2P Require Import JsonpbRound JsonpbFields JsonpbValues.

Section Known.
Context `{JE : JsonpbEnv} `{UE : UnmarshalEnv} (m : Marshaler) (u : Unmarshaler).
Context (Hindent : json_ws (mr_Indent m)).
Context (Hrange : forall A (mp : gmap string A), json_range A mp ≡ₚ map_to_list mp).
Context (n : nat).

Definition plain_mode (md : mode) : Prop := match md with AsObject url => url = "" | AsValue _ => True end.

(** A struct and the tree of its text.  The properties of the field that holds it are handed down, and
    name no enumeration. *)
Definition struct_reads (name : string) (x : gval) (j : jval) : Prop :=
  exists v', (j = JNull -> name = Value_name)
  /\ (forall prop, enum_prop prop = None ->
      unmarshalValue u j (Struct name) (new_struct name) prop = Ok v')
  /\ geq x v'.

Definition struct_back (x : gval) : Prop :=
  forall name md indent s, typed_struct x name -> plain_mode md -> json_ws indent ->
  yields (marshal m n x md indent) s -> exists j, json_is j s /\ struct_reads name x j.

(** the same of the struct behind a pointer, and behind the pointers in a slice or map *)
Definition ptr_back (x : gval) : Prop :=
  match x with VPtr (Some y) => struct_back y | _ => True end.
Definition held_back (x : gval) : Prop :=
  match x with
  | VSlice (Some l) => Forall ptr_back l
  | VMap (Some l) => Forall (fun kv => ptr_back kv.2) l
  | VOneof (Some (_, y)) => ptr_back y
  | _ => True
  end.

(** ** Lemmas *)

Lemma known_writes w fields fts md indent s :
  json_ws indent -> plain_mode md -> yields (marshal m n (known w fields fts) md indent) s ->
  exists nested oi regular, json_ws oi
  /\ yields (marshal_wkt m (marshal m n) nested w (fields ++ zeros_of fts) oi regular) s.
Proof using Hindent.
  intros Hi Hm H. rewrite marshal_unfold in H. cbn [marshal_body known] in H.
  destruct (as_enum m _); [by apply yields_panic in H|]. cbn [mi_MarshalJSONPB mi_wkt] in H.
  eexists _, _, _. split; [|exact H]. destruct md; [done|by apply back_inner_ws].
Qed.

Lemma known_new name w fts :
  well_known name w fts -> new_struct name = known w [] fts.
Proof using. intros [Hi _ Hf]. unfold new_struct. by rewrite Hi, Hf. Qed.

(** the unmarshaler's dispatch on a well-known type *)
Ltac known_um Hk :=
  rewrite (known_new _ _ _ Hk), unmarshalValue_unfold; cbn [um_target]; unfold um_struct;
  rewrite (wk_custom _ _ _ Hk), (wk_info _ _ _ Hk); cbn [mi_wkt].

Lemma known_geq w fields fields' fts :
  Forall2 (fun a b => a.1 = b.1 /\ geq a.2 b.2) fields fields' ->
  geq (known w fields fts) (known w fields' fts).
Proof using.
  intros H. constructor. apply Forall2_app; [done|]. apply Forall_Forall2_diag.
  apply list.Forall_forall. intros x _. split; [done|constructor].
Qed.

Lemma um_plain_prop j es ms t old p1 p2 :
  match t with TSlice _ | TMap _ _ => False | _ => True end -> enum_prop p1 = enum_prop p2 ->
  um_plain j es ms t old p1 = um_plain j es ms t old p2.
Proof using. intros Ht Hp. unfold um_plain. rewrite Hp. by destruct t. Qed.

(** ** Wrappers *)

Lemma wrapped_reads x t p indent s :
  wrapped x t p -> yields (marshal m n x (AsValue p) indent) s ->
  exists j, json_is j s /\ j <> JNull
  /\ forall es ms prop, enum_prop prop = None -> um_plain j es ms t (zero t) prop = Ok x.
Proof using.
  intros [Hp [Hs|[-> [l ->]]]] H; rewrite marshal_unfold in H.
  - pose proof Hs as Hs'. eapply scalar_reads in H as (j & Hj & Hne & E); [|done|done]. exists j. split; [done|].
    split; [done|]. intros es ms prop Hq. rewrite <- (E es ms). apply um_plain_prop.
    + by destruct Hs.
    + by rewrite Hq, enum_prop_none.
  - destruct (bytes_reads _ _ _ _ _ _ _ _ [] [] Hp eq_refl H) as (j & Hj & E). exists j.
    split; [done|]. split; [by intros ->|]. intros es ms prop Hq. rewrite <- E.
    rewrite (um_plain_prop j es ms TBytes _ prop (Some p)) by (done || by rewrite Hq, enum_prop_none).
    unfold um_plain. by destruct j.
Qed.

Lemma wrapper_back name w f x t fts :
  is_wrapper w = true -> well_known name w ((f, t) :: fts) -> wrapped x t (fi_props f) ->
  forall md indent s, plain_mode md -> json_ws indent ->
  yields (marshal m n (known w [(f, x)] fts) md indent) s ->
  exists j, json_is j s /\ struct_reads name (known w [(f, x)] fts) j.
Proof using Hindent.
  intros Hw Hk Hx md indent s Hm Hi H. apply known_writes in H as (ne & oi & re & Hoi & H); [|done..].
  unfold marshal_wkt in H. rewrite Hw in H. cbn [app] in H.
  destruct (wrapped_reads _ _ _ _ _ Hx H) as (j & Hj & Hne & E). exists j. split; [done|].
  exists (known w [(f, x)] fts). split; [done|]. split; [|constructor]. intros prop Hq.
  known_um Hk. rewrite Hw.
  unfold um_wrapper. rewrite (wk_fields _ _ _ Hk). cbn [field_at fields_of known map app lookup fst snd].
  cbn. by rewrite E.
Qed.

(** ** Times *)

Lemma duration_yields d ns s :
  yields (marshal_duration d ns) s ->
  s = quoted (duration_body d ns) /\ (-1000000000 < ns < 1000000000)%Z
  /\ (d <= 0 \/ 0 <= ns)%Z /\ (0 <= d \/ ns <= 0)%Z.
Proof using.
  unfold marshal_duration, secondInNanos, duration_body.
  destruct (bool_decide (ns <= _)%Z || _) eqn:Er; [intros H; yields_inv|].
  destruct (bool_decide (d > 0)%Z && _ || _) eqn:Es; intros H; yields_inv.
  rewrite str_app_nil_r. rewrite quoted_parts.
  split; [done|]. repeat case_bool_decide; simpl in *; try done; lia.
Qed.

Lemma timestamp_yields d ns s :
  yields (marshal_timestamp d ns) s -> s = quoted (timestamp_body d ns).
Proof using.
  unfold marshal_timestamp, timestamp_body. destruct (_ || _); intros H; yields_inv.
  by rewrite str_app_nil_r, quoted_parts.
Qed.

Lemma duration_split d ns :
  (-1000000000 < ns < 1000000000)%Z -> (d <= 0 \/ 0 <= ns)%Z -> (0 <= d \/ ns <= 0)%Z ->
  Z.quot (d * 1000000000 + ns) 1000000000 = d /\ Z.rem (d * 1000000000 + ns) 1000000000 = ns.
Proof using.
  intros Hn H1 H2. pose proof (Z.quot_rem' (d * 1000000000 + ns) 1000000000) as E.
  destruct (decide (0 <= d * 1000000000 + ns)%Z).
  - pose proof (Z.rem_bound_pos (d * 1000000000 + ns) 1000000000). split; nia.
  - pose proof (Z.rem_bound_pos (- (d * 1000000000 + ns)) 1000000000) as Hb.
    rewrite Z.rem_opp_l in Hb by lia. split; nia.
Qed.

(** both are read from a string *)
Lemma unquote_body b : json_decode b = Some b -> unquote (JStr b) = Ok b.
Proof using. intros H. unfold unquote. by rewrite H. Qed.

Lemma duration_back name f g d ns fts :
  well_known name "Duration" ((f, TInt64) :: (g, TInt32) :: fts) ->
  time_ParseDuration (duration_body d ns) = Ok (d * 1000000000 + ns)%Z ->
  forall md indent s, plain_mode md -> json_ws indent ->
  yields (marshal m n (known "Duration" [(f, VInt64 d); (g, VInt32 ns)] fts) md indent) s ->
  exists j, json_is j s
  /\ struct_reads name (known "Duration" [(f, VInt64 d); (g, VInt32 ns)] fts) j.
Proof using Hindent.
  intros Hk Hp md indent s Hm Hi H. apply known_writes in H as (ne & oi & re & Hoi & H); [|done..].
  change (yields (marshal_duration d ns) s) in H.
  apply duration_yields in H as (-> & Hn & H1 & H2).
  destruct (duration_reads d ns) as [Hb Hd]. exists (JStr (duration_body d ns)).
  split; [by split|]. exists (known "Duration" [(f, VInt64 d); (g, VInt32 ns)] fts).
  split; [done|]. split; [|constructor]. intros prop _.
  known_um Hk.
  change (um_Duration (JStr (duration_body d ns)) (known "Duration" [] ((f, TInt64) :: (g, TInt32) :: fts))
          = Ok (known "Duration" [(f, VInt64 d); (g, VInt32 ns)] fts)).
  unfold um_Duration. rewrite unquote_body by done. cbn [res_bind]. rewrite Hp.
  destruct (duration_split d ns) as [-> ->]; done.
Qed.

Lemma timestamp_back name f g d ns fts :
  well_known name "Timestamp" ((f, TInt64) :: (g, TInt32) :: fts) ->
  time_Parse (timestamp_body d ns) = Ok (d, ns) ->
  forall md indent s, plain_mode md -> json_ws indent ->
  yields (marshal m n (known "Timestamp" [(f, VInt64 d); (g, VInt32 ns)] fts) md indent) s ->
  exists j, json_is j s
  /\ struct_reads name (known "Timestamp" [(f, VInt64 d); (g, VInt32 ns)] fts) j.
Proof using Hindent.
  intros Hk Hp md indent s Hm Hi H. apply known_writes in H as (ne & oi & re & Hoi & H); [|done..].
  change (yields (marshal_timestamp d ns) s) in H. apply timestamp_yields in H as ->.
  destruct (timestamp_reads d ns) as [Hb Hd]. exists (JStr (timestamp_body d ns)).
  split; [by split|]. exists (known "Timestamp" [(f, VInt64 d); (g, VInt32 ns)] fts).
  split; [done|]. split; [|constructor]. intros prop _.
  known_um Hk.
  change (um_Timestamp (JStr (timestamp_body d ns)) (known "Timestamp" [] ((f, TInt64) :: (g, TInt32) :: fts))
          = Ok (known "Timestamp" [(f, VInt64 d); (g, VInt32 ns)] fts)).
  unfold um_Timestamp. rewrite unquote_body by done. cbn [res_bind]. by rewrite Hp.
Qed.
(** ** Structs and lists of dynamic values *)

(** a pointer to a dynamic value *)
Definition value_reads (x : gval) (j : jval) : Prop :=
  exists y, x = VPtr (Some y) /\ struct_reads Value_name y j.

Lemma value_writes x indent :
  typed x (TMessage Value_name) no_props -> ptr_back x -> json_ws indent ->
  tree_back m n no_props value_reads indent x.
Proof using.
  intros Ht Hb Hi s H. inversion Ht as [? ? ? Hs| | | | | | | |? ? ? Hv|y ? ? _ Hy]; subst; [by inversion Hs|done|].
  rewrite marshal_unfold in H. cbn [marshal_body] in H.
  destruct (Hb Value_name (AsValue no_props) _ _ Hy I Hi H) as (j & Hj & Hr). exists j.
  split; [done|]. by exists y.
Qed.

Lemma values_write {A} (f : A -> gval) l indent :
  Forall (fun a => typed (f a) (TMessage Value_name) no_props) l -> Forall (fun a => ptr_back (f a)) l ->
  json_ws indent ->
  Forall (fun a => tree_back m n no_props value_reads (indent +:+ mr_Indent m) (f a)) l.
Proof using Hindent.
  intros Ht Hb Hi. apply Forall_mp with (1 := Ht) (2 := Hb). intros a Hta Hba.
  apply value_writes; auto using back_inner_ws.
Qed.

Lemma struct_values_read src l :
  Forall2 (fun sk kv => key_kind kv.1 = true /\ member_reads u TString value_reads sk kv) src l ->
  exists l', (forall prop, enum_prop prop = None -> um_struct_values prop src = Ok l')
  /\ Forall2 (fun a b => a.1 = b.1 /\ geq a.2 b.2) l l'.
Proof using.
  induction 1 as [|[ks kd] [k x] src l (_ & Hk & j & Hkd & y & Hx & v' & _ & E & Hg) HF
    (l' & El & HF')]; [by exists []|]. cbn [fst snd] in *. subst kd x.
  specialize (Hk None). injection Hk as <-.
  exists ((VString ks, VPtr (Some v')) :: l'). split.
  - intros prop Hp. cbn [um_struct_values kid_um kid_of]. by rewrite (E prop Hp), (El prop Hp).
  - constructor; [|done]. split; [done|by constructor].
Qed.

Lemma Struct_back name f l t fts :
  well_known name "Struct" ((f, t) :: fts) -> NoDup (map fst l) -> map_keys TString l ->
  Forall (fun kv => typed kv.2 (TMessage Value_name) no_props) l ->
  Forall (fun kv => ptr_back kv.2) l ->
  forall md indent s, plain_mode md -> json_ws indent ->
  yields (marshal m n (known "Struct" [(f, VMap (Some l))] fts) md indent) s ->
  exists j, json_is j s /\ struct_reads name (known "Struct" [(f, VMap (Some l))] fts) j.
Proof using Hindent Hrange.
  intros Hk Hn Hks Ht Hb md indent s Hm Hi H. apply known_writes in H as (ne & oi & re & Hoi & H); [|done..].
  change (yields (marshal m n (VMap (Some l)) (AsValue no_props) oi) s) in H.
  destruct (map_back m Hindent n l TString value_reads no_props no_props oi s) as (l2 & bjs & Hj & Hl2 & HF);
    [done|done|by apply values_write|done|done|].
  destruct (map_members u Hrange _ _ _ _ _ HF Hl2 Hn Hks) as (src & Hsl & _ & HF2).
  destruct (struct_values_read _ _ HF2) as (l3 & E & Hl3).
  destruct (Permutation_Forall2 Hsl Hl3) as (l4 & Hl4 & Hg).
  exists (JObj bjs). split; [done|]. exists (known "Struct" [(f, VMap (Some l3))] fts).
  split; [done|]. split.
  - intros prop Hp. known_um Hk.
    change (um_Struct (JObj bjs) (map (fun kx => (kx.1, kid_of u kx.2)) bjs)
              (known "Struct" [] ((f, t) :: fts)) prop
            = Ok (known "Struct" [(f, VMap (Some l3))] fts)).
    unfold um_Struct, as_object. change (list_to_map _) with (members_map u bjs).
    cbn [default]. by rewrite E.
  - apply known_geq. constructor; [|constructor]. split; [done|].
    econstructor; [exact Hg|by symmetry].
Qed.

Lemma Struct_nil_back name f t fts :
  well_known name "Struct" ((f, t) :: fts) ->
  forall md indent s, plain_mode md -> json_ws indent ->
  yields (marshal m n (known "Struct" [(f, VMap None)] fts) md indent) s ->
  exists j, json_is j s /\ struct_reads name (known "Struct" [(f, VMap None)] fts) j.
Proof using Hindent Hrange.
  intros Hk md indent s Hm Hi H. apply known_writes in H as (ne & oi & re & Hoi & H); [|done..].
  change (yields (marshal m n (VMap None) (AsValue no_props) oi) s) in H.
  apply value_map_nil in H; [|done..].
  exists (JObj []). split; [done|]. exists (known "Struct" [(f, VMap (Some []))] fts).
  split; [done|]. split.
  - intros prop Hp. known_um Hk.
    change (um_Struct (JObj []) [] (known "Struct" [] ((f, t) :: fts)) prop
            = Ok (known "Struct" [(f, VMap (Some []))] fts)).
    unfold um_Struct, as_object. change (default ∅ (Some _)) with (∅ : gmap string kid).
    assert (json_range kid ∅ = []) as ->; [|done].
    apply Permutation_nil_r. by rewrite Hrange, map_to_list_empty.
  - apply known_geq. repeat constructor.
Qed.

Lemma value_custom x :
  typed x (TMessage Value_name) no_props -> md_UnmarshalJSONPB (MessageDesc Value_name) = None.
Proof using.
  intros H. inversion H as [? ? ? Hs| | | | | | | |? ? Hc|? ? ? _ Hy]; subst; [by inversion Hs|done|].
  destruct Hy; (by apply gn_custom) || (by eapply wk_custom).
Qed.

Lemma list_values_read l js :
  Forall (fun v => typed v (TMessage Value_name) no_props) l -> Forall2 value_reads l js ->
  exists l', (forall prop, enum_prop prop = None ->
      res_mapM (fun k => kid_um k (Field (TMessage Value_name)) (VPtr None) prop) (map (kid_of u) js) = Ok l')
  /\ Forall2 geq l l'.
Proof using.
  intros Ht HF. revert Ht. induction HF as [|x j l js (y & -> & v' & _ & E & Hg) HF IH]; [by exists []|].
  intros [Hc%value_custom Ht]%list.Forall_cons. destruct (IH Ht) as (l' & El & HF').
  exists (VPtr (Some v') :: l'). split; [|constructor; [by constructor|done]].
  intros prop Hp. cbn [map res_mapM kid_um kid_of].
  specialize (E prop Hp). rewrite unmarshalValue_unfold in E |- *. cbn [um_target] in E |- *.
  rewrite Hc, String.eqb_refl, andb_false_r. cbn [andb]. rewrite E. cbn [res_bind].
  by rewrite (El prop Hp).
Qed.

Lemma ListValue_back name f l t fts :
  well_known name "ListValue" ((f, t) :: fts) ->
  Forall (fun v => typed v (TMessage Value_name) no_props) l -> Forall ptr_back l ->
  forall md indent s, plain_mode md -> json_ws indent ->
  yields (marshal m n (known "ListValue" [(f, VSlice (Some l))] fts) md indent) s ->
  exists j, json_is j s /\ struct_reads name (known "ListValue" [(f, VSlice (Some l))] fts) j.
Proof using Hindent.
  intros Hk Ht Hb md indent s Hm Hi H. apply known_writes in H as (ne & oi & re & Hoi & H); [|done..].
  change (yields (marshal m n (VSlice (Some l)) (AsValue no_props) oi) s) in H.
  destruct (slice_back m Hindent n value_reads l no_props oi s) as (js & Hj & HF);
    [by apply (values_write id)|done|done|].
  destruct (list_values_read _ _ Ht HF) as (l' & E & Hg).
  exists (JArr js). split; [done|]. exists (known "ListValue" [(f, VSlice (Some l'))] fts).
  split; [done|]. split.
  - intros prop Hp. known_um Hk.
    change (um_ListValue (JArr js) (map (kid_of u) js) (known "ListValue" [] ((f, t) :: fts)) prop
            = Ok (known "ListValue" [(f, VSlice (Some l'))] fts)).
    unfold um_ListValue, as_array. cbn [default]. by rewrite E.
  - apply known_geq. constructor; [|constructor]. split; [done|by constructor].
Qed.

Lemma ListValue_nil_back name f t fts :
  well_known name "ListValue" ((f, t) :: fts) ->
  forall md indent s, plain_mode md -> json_ws indent ->
  yields (marshal m n (known "ListValue" [(f, VSlice None)] fts) md indent) s ->
  exists j, json_is j s /\ struct_reads name (known "ListValue" [(f, VSlice None)] fts) j.
Proof using Hindent.
  intros Hk md indent s Hm Hi H. apply known_writes in H as (ne & oi & re & Hoi & H); [|done..].
  change (yields (marshal m n (VSlice None) (AsValue no_props) oi) s) in H.
  apply value_slice_nil in H; [|done..].
  exists (JArr []). split; [done|]. exists (known "ListValue" [(f, VSlice (Some []))] fts).
  split; [done|]. split; [intros prop Hp; by known_um Hk|]. apply known_geq. repeat constructor.
Qed.

(** ** Dynamic values *)

(** the kind read from a tree *)
Definition kind_reads (g : field_info) (x : gval) (j : jval) : Prop :=
  exists v', geq x v' /\ forall f t fts prop, enum_prop prop = None ->
    um_Value j (match j with JArr l => map (kid_of u) l | _ => [] end)
      (match j with JObj l => map (fun kx => (kx.1, kid_of u kx.2)) l | _ => [] end)
      (known "Value" [] ((f, t) :: fts)) prop
    = Ok (known "Value" [(f, VOneof (Some (g, v')))] fts).

Lemma kind_default v b s :
  json_scalar v = Ok b -> is_int64 v = false -> yields (marshal_default m v) s -> s = b.
Proof using.
  intros Hv Hi (b' & Hb & ->)%yields_default. rewrite Hv in Hb. injection Hb as <-.
  by rewrite Hi, !andb_false_r.
Qed.

Lemma pointed_reads name w x fts indent s :
  well_known name w fts -> name <> Value_name -> typed_struct x name -> struct_back x -> json_ws indent ->
  yields (marshal m n (VPtr (Some x)) (AsValue no_props) indent) s ->
  exists j v', json_is j s /\ j <> JNull /\ geq x v'
  /\ forall prop, enum_prop prop = None -> unmarshalValue u j (Struct name) (new_struct name) prop = Ok v'.
Proof using.
  intros Hk Hne Ht Hb Hi H. rewrite marshal_unfold in H. cbn [marshal_body] in H.
  destruct (Hb name (AsValue no_props) indent s Ht I Hi H) as (j & Hj & v' & Hn & E & Hg).
  exists j, v'. split; [done|]. split; [by intros ->; apply Hne, Hn|]. by split.
Qed.

Lemma kind_back g x indent s :
  typed_kind g x -> ptr_back x -> json_ws indent ->
  yields (marshal m n x (AsValue no_props) indent) s -> exists j, json_is j s /\ kind_reads g x j.
Proof using.
  intros Ht Hb Hi H. destruct Ht as [|f Hf Hs|str Hu|b|x fts Hk Hx|x fts Hk Hx].
  - rewrite marshal_unfold in H. cbn [marshal_body] in H. yields_inv. rewrite str_app_nil_r.
    exists JNull. split; [done|]. by exists (VEnum true "NULL_VALUE" 0); repeat constructor.
  - inversion Hs as [| | | | | |f' p Hp Hr| |]; subst. destruct (Hr Hf) as [Hn Hpf].
    rewrite marshal_unfold in H. cbn [marshal_body] in H. rewrite as_enum_none in H by done.
    unfold marshal_float in H. rewrite Hf in H. apply (kind_default _ (json_float64 f)) in H as ->; [|done..].
    exists (JNum (json_float64 f)). split; [done|]. exists (VFloat64 f). split; [constructor|].
    intros. unfold um_Value. by rewrite Hpf.
  - rewrite marshal_unfold in H. cbn [marshal_body] in H. rewrite as_enum_none in H by done.
    apply (kind_default _ (json_string str)) in H as ->; [|done..].
    exists (JStr (json_esc 0 0 str)). split; [split; [done|unfold json_body; rewrite unesc_esc; eauto]|].
    exists (VString str). split; [constructor|]. intros. unfold um_Value, unquote.
    by rewrite decode_esc.
  - rewrite marshal_unfold in H. cbn [marshal_body] in H. rewrite as_enum_none in H by done.
    apply (kind_default _ (if b then "true" else "false")) in H as ->; [|done..].
    exists (JBool b). split; [done|]. exists (VBool b). split; [constructor|done].
  - destruct (pointed_reads _ _ _ _ _ _ Hk ltac:(done) Hx Hb Hi H) as (j & v' & Hj & Hne & Hg & E).
    exists j. split; [done|]. exists (VPtr (Some v')). split; [by constructor|]. intros f t fts' prop Hp.
    specialize (E prop Hp). revert E. known_um Hk. intros E.
    destruct j as [| | | | |l]; try done. unfold um_Value. rewrite (known_new _ _ _ Hk).
    change (um_Struct (JObj l) (map (fun kx => (kx.1, kid_of u kx.2)) l) (known "Struct" [] fts) prop
      = Ok v') in E. by rewrite E.
  - destruct (pointed_reads _ _ _ _ _ _ Hk ltac:(done) Hx Hb Hi H) as (j & v' & Hj & Hne & Hg & E).
    exists j. split; [done|]. exists (VPtr (Some v')). split; [by constructor|]. intros f t fts' prop Hp.
    specialize (E prop Hp). revert E. known_um Hk. intros E.
    destruct j as [| | | |l|]; try done. unfold um_Value. rewrite (known_new _ _ _ Hk).
    change (um_ListValue (JArr l) (map (kid_of u) l) (known "ListValue" [] fts) prop
      = Ok v') in E. by rewrite E.
Qed.

Lemma Value_back f g x t fts :
  well_known Value_name "Value" ((f, t) :: fts) -> typed_kind g x -> ptr_back x ->
  forall md indent s, plain_mode md -> json_ws indent ->
  yields (marshal m n (known "Value" [(f, VOneof (Some (g, x)))] fts) md indent) s ->
  exists j, json_is j s
  /\ struct_reads Value_name (known "Value" [(f, VOneof (Some (g, x)))] fts) j.
Proof using Hindent.
  intros Hk Ht Hb md indent s Hm Hi H. apply known_writes in H as (ne & oi & re & Hoi & H); [|done..].
  change (yields (marshal m n x (AsValue no_props) oi) s) in H.
  destruct (kind_back _ _ _ _ Ht Hb Hoi H) as (j & Hj & v' & Hg & E). exists j. split; [done|].
  exists (known "Value" [(f, VOneof (Some (g, v')))] fts). split; [done|]. split.
  - intros prop Hp. known_um Hk. rewrite <- (E f t fts prop Hp). done.
  - apply known_geq. constructor; [|constructor]. split; [done|by constructor].
Qed.

(** every well-known type *)
Lemma known_back info fields exts name :
  is_Some (mi_wkt info) -> typed_struct (VMsg info fields exts) name ->
  Forall (fun fx => held_back fx.2) fields ->
  forall md indent s, plain_mode md -> json_ws indent ->
  yields (marshal m n (VMsg info fields exts) md indent) s ->
  exists j, json_is j s /\ struct_reads name (VMsg info fields exts) j.
Proof using Hindent Hrange.
  intros [w0 Hw0] Ht Hb. unfold known in *.
  inversion Ht as [|? w f x t fts Hw Hk Hx|? f g d ns fts Hk Hp|? f g d ns fts Hk Hp
    |? f l t fts Hk Hn Hks Hv|? f t fts Hk|? f l t fts Hk Hv|? f t fts Hk|f g x t fts Hk Hx]; subst;
    try apply list.Forall_cons in Hb as [Hb _]; cbn [snd held_back] in Hb.
  - done.
  - by apply wrapper_back with (t := t).
  - by apply duration_back.
  - by apply timestamp_back.
  - by apply Struct_back with (t := t).
  - by apply Struct_nil_back with (t := t).
  - by apply ListValue_back with (t := t).
  - by apply ListValue_nil_back with (t := t).
  - by apply Value_back with (t := t).
Qed.
End Known.
