(* ===== verification/JsonpbBack.v ===== *)
(** * The round trip of the JSON marshaler

    What [MarshalToString] writes for a typed message is read back by [Unmarshal]: the members of
    a struct from the texts of its fields by [JsonpbFields], values by [JsonpbValues] and
    [JsonpbKnown], by induction on the value. *)
From S2P Require Import Prelude Message Json JsonTree Jsonpb JsonpbFacts JsonSeq JsonpbText Unmarshal.
From S2P Require Import JsonpbRound JsonpbFields JsonpbRequired JsonpbValues JsonpbKnown.

Section Back.
Context `{JE : JsonpbEnv} `{UE : UnmarshalEnv} (m : Marshaler) (u : Unmarshaler).
Context (Hindent : json_ws (mr_Indent m)).
Context (Hrange : forall A (mp : gmap string A), json_range A mp ≡ₚ map_to_list mp).
Context (n : nat).

#[local] Abbreviation kid_of := (kid_of u).
#[local] Abbreviation members_map := (members_map u).
#[local] Abbreviation value_back := (value_back m u n).
#[local] Abbreviation struct_back := (struct_back m u n).
#[local] Abbreviation ptr_back := (ptr_back m u n).
#[local] Abbreviation held_back := (held_back m u n).

(** ** Structs *)

Definition written_name (f : field_info) : string := pr_JSONName (jsonProperties m f).

Lemma written_accepted f : written_name f ∈ accepted (fi_props f).
Proof.
  apply elem_of_accepted. unfold written_name, jsonProperties, accepted_camel, accepted_orig.
  destruct (fi_props f) as [a b c d e g h i]. cbn.
  destruct (mr_OrigName m); cbn; [by right|]. destruct (str_empty c); cbn; [by right|by left].
Qed.

Lemma same_use_json f : same_use (jsonProperties m f) (fi_props f).
Proof.
  unfold same_use, jsonProperties. destruct (fi_props f) as [a b c d e g h i].
  by destruct (mr_OrigName m || _).
Qed.

(** a field of a struct, and the member written for it *)
Definition member_back (ox : slot * gval) (kj : string * jval) : Prop :=
  kj.1 = written_name ox.1.1.2 /\ kid_reads (kid_of kj.2) ox.1.2 (sl_props ox.1) ox.2.

Lemma field_writes i f t x indent :
  typed x t (fi_props f) -> value_back x -> plain_name (written_name f) = true -> json_ws indent ->
  writes member_text member_back (i, f, t, x) (field_trace m (marshal m n) f x indent).
Proof.
  intros Ht Hx [Hn _]%andb_true_iff Hi s. unfold field_trace, marshalField. intros H. yields_inv.
  match goal with H : yields (marshal _ _ _ _ _) _ |- _ =>
    destruct (Hx _ _ _ _ Ht (same_use_json f) Hi _ H) as (j & Hj & Hr) end.
  exists (written_name f, j). split; [done|].
  match goal with |- padded _ _ (?a +:+ ?q +:+ ?k +:+ String ?c ":" +:+ ?d +:+ ?e) =>
    replace (a +:+ q +:+ k +:+ String c ":" +:+ d +:+ e)
      with (a +:+ quoted (written_name f) +:+ ":" +:+ d +:+ e)
      by (unfold quoted; simpl; rewrite !str_app_assoc; done) end.
  apply padded_member; [|by apply plain_body| |done].
  - apply ind_text_ws. by repeat constructor.
  - apply ind_text_ws. by repeat constructor.
Qed.

Lemma typed_own x t p : typed x t p -> own x = x.
Proof. by inversion_clear 1 as [? ? ? []| | | | | | | | |]. Qed.

Lemma typed_no_oneof x t p : typed x t p -> match x with VOneof _ => False | _ => True end.
Proof. by inversion_clear 1 as [? ? ? []| | | | | | | | |]. Qed.

Lemma zero_own t : own (zero t) = zero t.
Proof. by destruct t. Qed.

(** a value that is left out is read as the zero value *)
Lemma typed_zero x t p : typed x t p -> is_zero x = true -> geq x (zero t).
Proof.
  inversion_clear 1 as [? ? ? Hs|[]| | | | | | | |]; try done; try (intros _; constructor).
  destruct Hs as [[]| | | | |[]|[]|[]|e z p' He Hz Hb]; try done; cbn; intros HZ; try constructor;
    try (apply bool_decide_eq_true in HZ as ->; try constructor).
  rewrite He. constructor.
Qed.

(** what is written of the fields from the [i]th on, [ws] *)
Record fields_written (vals : list (field_info * gval)) (os fslots : list slot) (i : nat)
    (ws : list (slot * gval)) : Prop := {
  fw_place : forall o x, (o, x) ∈ ws ->
    (o ∈ fslots /\ vals !! o.1.1 = Some (o.1.2, x) /\ own x = x)
    \/ (o ∈ os /\ holds vals o.1.1 o.1.2 x);
  fw_field : forall j f t v, (j, f, t) ∈ fslots -> vals !! j = Some (f, v) ->
    (j, f, t, v) ∈ ws \/ geq (own v) (zero t);
  fw_oneof : forall j f x, i <= j -> holds vals j f x ->
    exists t, (j, f, t) ∈ os /\ (j, f, t, x) ∈ ws;
}.

Lemma drop_cons {A} i (vals : list A) x l :
  drop i vals = x :: l -> vals !! i = Some x /\ drop (S i) vals = l.
Proof.
  intros H. assert (vals !! i = Some x) as Hx.
  { rewrite <- (Nat.add_0_r i), <- lookup_drop, H. done. }
  split; [done|]. rewrite (drop_S _ _ _ Hx) in H. by injection H.
Qed.

Lemma fields_written_end vals os i : drop i vals = [] -> fields_written vals os [] i [].
Proof.
  intros H. constructor; [set_solver|set_solver|]. intros j f x Hj [g Hg].
  apply lookup_lt_Some in Hg. assert (length (drop i vals) = 0) as Hl by by rewrite H.
  rewrite length_drop in Hl. lia.
Qed.

(** a field of which nothing is written *)
Lemma fields_written_skip vals os fslots i ws g v o :
  vals !! i = Some (g, v) -> own v = v \/ v = VOneof None ->
  (o = [] \/ exists t, o = [(i, g, t)] /\ geq (own v) (zero t)) ->
  fields_written vals os fslots (S i) ws -> fields_written vals os (o ++ fslots) i ws.
Proof.
  intros Hi Hv Ho [H1 H2 H3]. constructor.
  - intros o' x Hin. destruct (H1 o' x Hin) as [(? & ? & ?)|?]; [left|by right]. set_solver.
  - intros j f t w [Hin|Hin]%elem_of_app Hj; [|by apply H2].
    destruct Ho as [->|(t' & -> & Hz)]; [set_solver|].
    apply list_elem_of_singleton in Hin as [= -> -> ->]. simplify_eq. by right.
  - intros j f x Hj Hh. destruct (decide (j = i)) as [->|Hne]; [|apply H3; [lia|done]].
    destruct Hh as [g' Hg]. simplify_eq. destruct Hv as [Hv|Hv]; [|done]. discriminate Hv.
Qed.

(** a field of its own that is written, and a oneof *)
Lemma fields_written_own vals os fslots i ws f t v :
  vals !! i = Some (f, v) -> own v = v -> fields_written vals os fslots (S i) ws ->
  fields_written vals os ((i, f, t) :: fslots) i ((i, f, t, v) :: ws).
Proof.
  intros Hi Hv [H1 H2 H3]. constructor.
  - intros o x [[= -> ->]|Hin]%elem_of_cons; [left; set_solver|].
    destruct (H1 o x Hin) as [(? & ? & ?)|?]; [left|by right]. set_solver.
  - intros j g t' w [[= -> -> ->]|Hin]%elem_of_cons Hj; [simplify_eq; left; set_solver|].
    destruct (H2 j g t' w Hin Hj); [left; set_solver|by right].
  - intros j g x Hj Hh. destruct (decide (j = i)) as [->|Hne].
    + destruct Hh as [g' Hg]. by simplify_eq.
    + destruct (H3 j g x) as (t' & ? & ?); [lia|done|]. exists t'. set_solver.
Qed.

Lemma fields_written_oneof vals os fslots i ws g f t x :
  vals !! i = Some (g, VOneof (Some (f, x))) -> (i, f, t) ∈ os ->
  fields_written vals os fslots (S i) ws ->
  fields_written vals os ((i, g, TOneof) :: fslots) i ((i, f, t, x) :: ws).
Proof.
  intros Hi Ho [H1 H2 H3]. constructor.
  - intros o y [[= -> ->]|Hin]%elem_of_cons; [right; split; [done|by exists g]|].
    destruct (H1 o y Hin) as [(? & ? & ?)|?]; [left|by right]. set_solver.
  - intros j g' t' w [[= -> -> ->]|Hin]%elem_of_cons Hj; [simplify_eq; right; constructor|].
    destruct (H2 j g' t' w Hin Hj); [left; set_solver|by right].
  - intros j f' y Hj Hh. destruct (decide (j = i)) as [->|Hne].
    + destruct Hh as [g' Hg]. simplify_eq. exists t. set_solver.
    + destruct (H3 j f' y) as (t' & ? & ?); [lia|done|]. exists t'. set_solver.
Qed.

Definition fields_back (fields : list (field_info * gval)) : Prop :=
  Forall (fun fx => value_back fx.2
            /\ match fx.2 with VOneof (Some (_, x)) => value_back x | _ => True end) fields.

Lemma typed_traces indent vals os i fields fts :
  json_ws indent -> typed_fields os i fields fts -> drop i vals = fields -> fields_back fields ->
  Forall (fun o => plain_name (written_name o.1.2) = true) (field_slots i fts ++ os) ->
  exists ann, map snd ann = field_traces m (marshal m n) fields indent
  /\ Forall (opt_writes member_text member_back) ann
  /\ fields_written vals os (field_slots i fts) i (written ann).
Proof.
  intros Hi Ht. induction Ht as [os i|os i f t fields fts Hh Ht IH|os i f t v fields fts Hh Hv Ht IH
    |os i f fields fts Hh Ht IH|os i f f' x t' fields fts Hh Ho Hx Ht IH];
    intros Hd HF Hp; [exists []; split; [done|]; split; [constructor|by apply fields_written_end]|..];
    apply drop_cons in Hd as [Hvi Hd]; apply list.Forall_cons in HF as [[Hb Hb'] HF];
    cbn [fst snd field_slots] in *; rewrite Hh in *;
    assert (has_prefix "XXX_" (fi_Name f) = hidden f) as Hhid by done.
  - destruct (IH Hd HF Hp) as (ann & E & Ha & Hw).
    exists ((i, f, t, zero t, None) :: ann). cbn [map field_traces written omap list_omap].
    rewrite E. split; [unfold skip_field; by rewrite Hhid, Hh|]. split; [by constructor|].
    apply (fields_written_skip _ _ _ _ _ f (zero t) []); auto using zero_own.
  - pose proof Hp as [Hpf Hp']%list.Forall_cons. destruct (IH Hd HF Hp') as (ann & E & Ha & Hw).
    cbn [field_traces map]. destruct (skip_field m f v) eqn:Es.
    + exists ((i, f, t, v, None) :: ann). cbn [map written omap list_omap]. rewrite E.
      split; [done|]. split; [by constructor|].
      apply (fields_written_skip _ _ _ _ _ f v [(i, f, t)]); [done| | |done].
      * left. by eapply typed_own.
      * right. exists t. split; [done|]. erewrite typed_own by done. eapply typed_zero; [done|].
        unfold skip_field in Es. rewrite Hhid, Hh in Es. cbn in Es.
        apply typed_no_oneof in Hv. by destruct v; try done; apply andb_true_iff in Es as [_ Es].
    + exists ((i, f, t, v, Some (field_trace m (marshal m n) f v indent)) :: ann).
      cbn [map written omap list_omap fst snd]. rewrite E. split.
      { apply typed_no_oneof in Hv. by destruct v. }
      split; [constructor; [by apply field_writes|done]|].
      apply fields_written_own; [done|by eapply typed_own|done].
  - pose proof Hp as [Hpf Hp']%list.Forall_cons. destruct (IH Hd HF Hp') as (ann & E & Ha & Hw).
    exists ((i, f, TOneof, VOneof None, None) :: ann). cbn [map field_traces written omap list_omap].
    rewrite E. split; [unfold skip_field; by rewrite orb_true_r|]. split; [by constructor|].
    apply (fields_written_skip _ _ _ _ _ f (VOneof None) [(i, f, TOneof)]); auto.
    right. exists TOneof. split; [done|constructor].
  - pose proof Hp as [Hpf Hp']%list.Forall_cons. destruct (IH Hd HF Hp') as (ann & E & Ha & Hw).
    exists ((i, f', t', x, Some (field_trace m (marshal m n) f' x indent)) :: ann).
    cbn [map field_traces written omap list_omap fst snd]. rewrite E. split.
    { unfold skip_field. rewrite Hhid, Hh. cbn. by rewrite andb_false_r. }
    split; [|by apply fields_written_oneof].
    constructor; [|done]. apply field_writes; [done..| |done].
    apply list.Forall_app in Hp' as [_ Hos]. rewrite list.Forall_forall in Hos. exact (Hos _ Ho).
Qed.

Section Members.
Context (ws : list (slot * gval)) (l : list (string * jval)).
Context (Hws : Forall2 member_back ws l).
Context (Hplain : Forall (fun ox => plain_name (written_name ox.1.1.2) = true) ws).

Lemma decoded_members :
  Forall2 (fun ox kd => kd.1 = written_name ox.1.1.2
             /\ kid_reads kd.2 ox.1.2 (sl_props ox.1) ox.2)
    ws (map decode_key (map (fun kx => (kx.1, kid_of kx.2)) l)).
Proof using Hws Hplain.
  clear -Hws Hplain.
  induction Hws as [|ox [b j] ws' l' [Hb Hr] HF IH]; cbn [map]; [constructor|].
  apply list.Forall_cons in Hplain as [Hp1 Hp2]. constructor; [|by apply IH]. cbn [fst snd] in *.
  unfold decode_key. cbn [fst snd]. apply andb_true_iff in Hp1 as [Hc Hu].
  split; [|done]. rewrite Hb, decode_plain by done. done.
Qed.

Lemma members_map_some k kd :
  members_map l !! k = Some kd ->
  exists ox, ox ∈ ws /\ written_name ox.1.1.2 = k /\ kid_reads kd ox.1.2 (sl_props ox.1) ox.2.
Proof using Hws Hplain.
  intros H%elem_of_list_to_map_2. rewrite list_elem_of_In, <- in_rev, <- list_elem_of_In in H.
  apply list_elem_of_lookup in H as [i Hi].
  destruct (Forall2_lookup_r _ _ _ _ _ decoded_members Hi) as (ox & Ho & Hk & Hr).
  exists ox. split; [by eapply list_elem_of_lookup_2|]. done.
Qed.

Lemma members_map_none ox : ox ∈ ws -> members_map l !! written_name ox.1.1.2 <> None.
Proof using Hws Hplain.
  intros Ho H%not_elem_of_list_to_map. apply H.
  apply list_elem_of_lookup in Ho as [i Hi].
  destruct (Forall2_lookup_l _ _ _ _ _ decoded_members Hi) as (kd & Hkd & Hk & _).
  apply list_elem_of_fmap. exists kd. split; [done|].
  apply list_elem_of_In. rewrite <- in_rev. apply list_elem_of_In. by eapply list_elem_of_lookup_2.
Qed.

Lemma written_members_read d vals :
  NoDup (slot_names (slots d)) ->
  Forall2 (fun ft gv => gv.1 = ft.1 /\ (hidden ft.1 = true -> gv.2 = zero ft.2)) (md_fields d) vals ->
  fields_written vals (md_oneofs d) (field_slots 0 (md_fields d)) 0 ws ->
  members_read d vals (members_map l).
Proof using Hws Hplain.
  intros Hn HF [Hpl Hfl Hon].
  assert (forall k kd o, o ∈ slots d -> k ∈ accepted (sl_props o) -> members_map l !! k = Some kd ->
    exists x, (o, x) ∈ ws /\ kid_reads kd o.2 (sl_props o) x) as Hfind.
  { intros k kd o Ho Hk H. destruct (members_map_some k kd H) as ([o' x] & Hin & <- & Hr).
    assert (o = o') as ->; [|by exists x].
    eapply names_unique; [exact Hn|done| |exact Hk|apply written_accepted].
    unfold slots. apply elem_of_app. destruct (Hpl _ _ Hin) as [[? _]|[? _]]; auto. }
  assert (forall o x, (o, x) ∈ ws -> find_member (sl_props o) (members_map l) <> None) as Hmiss.
  { intros o x Hin Hnone. apply (members_map_none _ Hin).
    eapply find_member_none; [exact Hnone|apply written_accepted]. }
  constructor.
  - intros k Hk. destruct (members_map l !! k) as [kd|] eqn:E; [|done].
    destruct (members_map_some k kd E) as ([o x] & Hin & <- & _). apply elem_of_slot_names.
    exists o. split; [|apply written_accepted].
    unfold slots. apply elem_of_app. destruct (Hpl _ _ Hin) as [[? _]|[? _]]; auto.
  - apply Forall2_same_length_lookup. split; [by eapply Forall2_length|].
    intros i [f t] [g v] Hf Hv. destruct (Forall2_lookup_lr _ _ _ _ _ _ HF Hf Hv) as [Hg Hz].
    cbn [fst snd] in *. subst g. split; [done|]. unfold field_reads. cbn [fst snd].
    destruct (hidden f) eqn:Eh; [rewrite Hz, zero_own by done; constructor|].
    pose proof (lookup_slot 0 i _ f t Hf Eh) as Hs. cbn [Nat.add] in Hs.
    destruct (find_member (fi_props f) (members_map l)) as [kd|] eqn:E.
    + apply find_member_some in E as (k & Hk & E).
      destruct (Hfind k kd (i, f, t)) as (x & Hin & Hr); [|done..|].
      { unfold slots. apply elem_of_app. by left. }
      destruct (Hpl _ _ Hin) as [(_ & Hx & Hown)|[Ho _]].
      * cbn in Hx. simplify_eq. by rewrite Hown.
      * exfalso. eapply names_apart; [exact Hn|exact Hs|exact Ho|exact Hk|exact Hk].
    + destruct (Hfl _ _ _ _ Hs Hv) as [Hin|Hg]; [|done]. by destruct (Hmiss _ _ Hin).
  - apply list.Forall_forall. intros [[i f] t] Ho. unfold oneof_reads.
    destruct (find_member (fi_props f) (members_map l)) as [kd|] eqn:E.
    + apply find_member_some in E as (k & Hk & E).
      destruct (Hfind k kd (i, f, t)) as (x & Hin & Hr); [|done..|].
      { unfold slots. apply elem_of_app. by right. }
      destruct (Hpl _ _ Hin) as [(Hs & _)|[_ Hh]]; [|by exists x].
      exfalso. eapply names_apart; [exact Hn|exact Hs|exact Ho|exact Hk|exact Hk].
    + intros x Hh. destruct (Hon i f x) as (t' & Ho' & Hin); [lia|done|].
      by destruct (Hmiss _ _ Hin).
  - intros i f x Hh. destruct (Hon i f x) as (t & Ho & _); [lia|done|]. by exists t.
Qed.
End Members.

Lemma typed_fields_hidden os i fields fts :
  typed_fields os i fields fts ->
  Forall2 (fun ft gv => gv.1 = ft.1 /\ (hidden ft.1 = true -> gv.2 = zero ft.2)) fts fields.
Proof. by induction 1; constructor; cbn; try done; split; congruence. Qed.

Lemma message_back name fields md indent s :
  fields_back fields -> generated name ->
  typed_fields (md_oneofs (MessageDesc name)) 0 fields (md_fields (MessageDesc name)) ->
  plain_mode md -> json_ws indent ->
  yields (marshal m n (VMsg (MsgInfo None None) fields []) md indent) s ->
  exists j, json_is j s /\ struct_reads u name (VMsg (MsgInfo None None) fields []) j.
Proof using Hindent Hrange.
  intros HF Hgen Htf Hmd Hi H.
  rewrite marshal_unfold in H. cbn [marshal_body] in H.
  destruct (as_enum m _); [by apply yields_panic in H|]. cbn [mi_MarshalJSONPB mi_wkt] in H.
  set (oi := match md with AsObject _ => indent | AsValue _ => indent +:+ mr_Indent m end) in *.
  assert (json_ws oi) as Hoi by (destruct md; [done|by apply back_inner_ws]).
  assert (match md with AsObject u => u | AsValue _ => "" end = "") as Hu by (by destruct md).
  rewrite Hu in H. clearbody oi. unfold marshal_braces in H. cbn [str_empty] in H.
  change (ext_traces m (marshal m n) [] oi) with (@nil (option trace)) in H. rewrite app_nil_r in H.
  yields_inv. rewrite str_app_nil_r.
  assert (Forall (fun o => plain_name (written_name o.1.2) = true) (slots (MessageDesc name))) as Hp.
  { eapply list.Forall_impl; [exact (gn_plain _ Hgen)|]. intros o Ho.
    rewrite list.Forall_forall in Ho. apply Ho, written_accepted. }
  destruct (typed_traces oi fields _ 0 fields _ Hoi Htf eq_refl HF Hp) as (ann & E & Ha & Hw).
  rewrite <- E in *.
  match goal with H : yields (write_fields _ _ _) _ |- _ =>
    apply (write_fields_body member_text member_back) in H as (l & Hl & Hbody); [|done] end.
  assert (members_read (MessageDesc name) fields (members_map l)) as Hm.
  { apply (written_members_read (written ann)); [done| |apply Hgen| |done].
    - apply list.Forall_forall. intros [o x] Hin. rewrite list.Forall_forall in Hp. apply Hp.
      unfold slots. apply elem_of_app. destruct (fw_place _ _ _ _ _ Hw _ _ Hin) as [[? _]|[? _]]; auto.
    - by eapply typed_fields_hidden. }
  destruct (um_members_reads u (MessageDesc name) fields (MsgInfo None None) _ (gn_names _ Hgen) Hm)
    as (fs' & Em & Hfs).
  exists (JObj l). split; [|exists (VMsg (MsgInfo None None) fs' []); split; [done|split; [|by constructor]]].
  - match goal with |- json_is _ (?b1 +:+ ?a +:+ ?b +:+ ?c +:+ ?b2) =>
      replace (b1 +:+ a +:+ b +:+ c +:+ b2) with ("{" +:+ (a +:+ b +:+ c) +:+ "}")
        by (rewrite !str_app_assoc; done) end.
    apply object_is; [done|apply ind_text_ws; by repeat constructor..].
  - intros prop _. rewrite unmarshalValue_unfold. cbn [um_target]. unfold um_struct.
    rewrite (gn_custom _ Hgen), (gn_info _ Hgen). cbn [mi_wkt]. unfold um_message, as_object.
    cbn [res_bind default]. unfold new_struct. rewrite (gn_info _ Hgen). exact Em.
Qed.

(** ** Every value *)

Lemma kid_reads_plain j t p v v' :
  match t with TPtr _ | TMessage _ => False | _ => True end ->
  (forall es ms, um_plain j es ms t (zero t) (Some p) = Ok v') -> geq v v' ->
  kid_reads (kid_of j) t p v.
Proof.
  intros Ht Hj Hg. exists v'. split; [|done]. cbn [kid_um kid_of].
  by rewrite unmarshalValue_unfold, um_target_plain.
Qed.

Lemma marshal_nil p0 indent s : yields (marshal m n (VPtr None) (AsValue p0) indent) s -> s = "null".
Proof.
  rewrite marshal_unfold. cbn [marshal_body]. intros H. yields_inv. by rewrite str_app_nil_r.
Qed.

Lemma value_back_of v : parts (fun x => value_back x /\ struct_back x) v -> value_back v.
Proof using Hindent Hrange.
  intros Hparts t p p0 indent Ht Hp Hi s H. destruct Ht as [v t p Hs|b p Hq|t p|v t p Hs|t p|l t p Hl
    |k v p|l k t p q Hq Hn Hk Hl|name p Hc Hne|x name p Hq Hx]; cbn [parts] in Hparts.
  - destruct (scalar_value_back _ _ _ _ _ _ _ _ Hs Hp H) as (j & Hj & _ & E). exists j. split; [done|].
    apply (kid_reads_plain _ _ _ _ v); [by destruct Hs|done|constructor].
  - rewrite marshal_unfold in H.
    destruct (bytes_reads _ _ _ _ _ _ _ _ [] [] Hq (proj1 Hp) H) as (j & Hj & E).
    exists j. split; [done|].
    apply (kid_reads_plain _ _ _ _ (VBytes b)); [done| |constructor]. intros es ms.
    rewrite <- E. unfold um_plain. by destruct j.
  - apply marshal_nil in H as ->. exists JNull. split; [done|]. by exists (VPtr None); repeat constructor.
  - rewrite marshal_unfold in H. cbn [marshal_body] in H.
    destruct (scalar_value_back _ _ _ _ _ _ _ _ Hs Hp H) as (j & Hj & Hne & E). exists j. split; [done|].
    exists (VPtr (Some v)). split; [|constructor]. cbn [kid_um JsonpbValues.kid_of].
    rewrite unmarshalValue_unfold. cbn [um_target]. rewrite E. by destruct j.
  - apply value_slice_nil in H; [|done..]. exists (JArr []). split; [done|].
    exists (VSlice (Some [])). split; [done|constructor].
  - assert (Forall value_back l) as Hb by (eapply list.Forall_impl; [exact Hparts|]; by intros ? []).
    edestruct value_slice_back as (j & v' & Hj & E & Hg); [done|exact Hb|exact Hl|exact Hp|exact Hi|exact H|].
    exists j. split; [done|]. exists (VSlice (Some v')). split; [done|by constructor].
  - apply value_map_nil in H; [|done..]. exists (JObj []). split; [done|].
    exists (VMap (Some [])). split; [|constructor]. cbn [kid_um JsonpbValues.kid_of].
    rewrite unmarshalValue_unfold, um_target_plain by done. unfold um_plain, um_map, as_object.
    cbn [res_bind map rev list_to_map foldr].
    assert (json_range kid ∅ = []) as ->; [|done].
    apply Permutation_nil_r. by rewrite Hrange, map_to_list_empty.
  - eapply value_map_back; eauto. eapply list.Forall_impl; [exact Hparts|]. by intros ? [].
  - apply marshal_nil in H as ->. exists JNull. split; [done|].
    exists (VPtr None). split; [|constructor]. cbn [kid_um JsonpbValues.kid_of].
    rewrite unmarshalValue_unfold. cbn [um_target]. rewrite Hc.
    apply String.eqb_neq in Hne. by rewrite Hne.
  - rewrite marshal_unfold in H. cbn [marshal_body] in H. destruct Hparts as [_ Hb].
    destruct (Hb name (AsValue p0) _ _ Hx I Hi H) as (j & Hj & v' & Hnull & E & Hg).
    exists j. split; [done|]. cbn [kid_um JsonpbValues.kid_of].
    exists (VPtr (Some v')). split; [|by constructor]. cbn [kid_um JsonpbValues.kid_of].
    specialize (E (Some p) (enum_prop_none _ Hq)).
    rewrite unmarshalValue_unfold in E |- *. cbn [um_target] in E |- *. rewrite E.
    assert ((if j is JNull then true else false) && negb (String.eqb name Value_name) = false) as ->;
      [|done].
    destruct j; try done. by rewrite (Hnull eq_refl), String.eqb_refl.
Qed.

(** what a value holds behind pointers is behind its parts *)
Lemma ptr_back_of v : parts (fun x => value_back x /\ struct_back x) v -> ptr_back v.
Proof using. destruct v as [| | | | | | | | | | | |[x|]| |]; try done. by intros []. Qed.

Lemma held_back_of v : parts ptr_back v -> held_back v.
Proof using. by destruct v as [| | | | | | | | | |[l|]|[l|]| |[[f x]|]|]. Qed.

Definition back (v : gval) : Prop := value_back v /\ struct_back v /\ ptr_back v /\ held_back v.

Lemma marshal_back v : back v.
Proof using Hindent Hrange.
  induction v as [v IH] using gval_parts_ind.
  assert (parts (fun x => value_back x /\ struct_back x) v) as Hp
    by (apply (parts_mp back back); [done..|]; intros x (H1 & H2 & _) _; done).
  split; [by apply value_back_of|]. split; [|split; [by apply ptr_back_of|]].
  - intros name md indent s Ht.
    assert (exists info fields exts, v = VMsg info fields exts) as (info & fields & exts & ->)
      by (destruct Ht; unfold known; eauto).
    destruct (mi_wkt info) as [w|] eqn:Ew.
    + intros Hm Hi. apply known_back; [done|done|by rewrite Ew|done| |done|done].
      destruct IH as [IH _]. eapply list.Forall_impl; [exact IH|]. by intros ? [(_ & _ & _ & ?) _].
    + intros Hm Hi. inversion Ht as [name' fields' Hgen Htf| | | | | | | |]; simplify_eq/=.
      apply message_back; [|done..]. destruct IH as [IH _]. eapply list.Forall_impl; [exact IH|].
      intros [f x] [[H1 _] H2]. split; [done|].
      by destruct x as [| | | | | | | | | | | | |[[f' y]|]|]; try done; destruct H2.
  - apply held_back_of. apply (parts_mp back back); [done..|]. by intros x (_ & _ & H & _) _.
Qed.
End Back.

(** an indentation that is white space, and a range over a map that visits every member *)
Record roundtrip_laws `{UE : UnmarshalEnv} (m : Marshaler) : Prop := {
  rl_indent : json_ws (mr_Indent m);
  rl_range : forall A (mp : gmap string A), json_range A mp ≡ₚ map_to_list mp;
}.

(** the text of a message is read back *)
Lemma marshal_reads_back `{JE : JsonpbEnv} `{UE : UnmarshalEnv} m u n name v s :
  roundtrip_laws m -> typed_struct v name -> MarshalToString m n (Some v) = Some (Ok s) ->
  exists v', Unmarshal u name (new_struct name) s = Ok v' /\ geq v v'.
Proof.
  intros [Hi Hr] Ht H. apply MarshalToString_yields in H. unfold Marshal_trace in H.
  destruct (checkRequiredFields v) as [[]| |] eqn:Ec; yields_inv.
  destruct (proj1 (proj2 (marshal_back m u Hi Hr n v)) name (AsObject "") "" s Ht eq_refl eq_refl H)
    as (j & Hj & v' & _ & E & Hg).
  exists v'. split; [|done]. unfold Unmarshal, UnmarshalNext.
  pose proof (json_Decode_is _ s "" "" Hj eq_refl eq_refl) as Hd.
  rewrite str_app_nil_r in Hd. cbn [String.append] in Hd. rewrite Hd.
  cbn [res_bind fst]. rewrite E by done. cbn [res_bind].
  by rewrite (required_geq _ _ Hg Ec).
Qed.

(** C3: the JSON marshaler and unmarshaler round trip.  Whatever the options of the marshaler
    (names of the .proto file or of JSON, enumerations by name or number, defaults left out or
    not, 64-bit integers quoted or not, any white indentation) and of the unmarshaler, the text
    [MarshalToString] returns for a message of a generated or a well-known type, with nested
    messages, oneofs, slices, maps, bytes, optional scalars, enumerations, wrappers, durations and
    times the library reads, and dynamic values, is accepted by [Unmarshal] into a new message of
    the type, which is then the same but for nil and empty containers, the sign of zeros
    and the order of map entries; its required fields are found set. *)
Theorem jsonpb_roundtrip `{JE : JsonpbEnv} `{UE : UnmarshalEnv} m u n name v s :
  roundtrip_laws m -> typed_struct v name -> MarshalToString m n (Some v) = Some (Ok s) ->
  exists v', Unmarshal u name (new_struct name) s = Ok v' /\ geq v v'.
Proof. apply marshal_reads_back. Qed.
