(* ===== verification/UnmarshalSafe.v ===== *)
(** * When unmarshalling panics

    The unmarshaler indexes the text of a map key before it looks at its length, and follows the
    pointer of an [Any]'s value without a test.  On documents that have neither it does not panic,
    whatever their types. *)
From S2P Require Import Prelude Message Json JsonTree Jsonpb JsonpbFacts Unmarshal JsonpbRequired.

(** ** Results that are no panic *)

Definition calm {A} (r : res A) : Prop := r <> Panic.

Lemma calm_ok {A} (x : A) : calm (Ok x).
Proof. done. Qed.
Lemma calm_err {A} e : calm (@Err A e).
Proof. done. Qed.
Lemma calm_bind {A B} (r : res A) (k : A -> res B) :
  calm r -> (forall x, r = Ok x -> calm (k x)) -> calm (let! x := r in k x).
Proof. unfold calm. intros Hr Hk. destruct r as [x| |]; cbn; auto. Qed.
Lemma calm_bind_any {A B} (r : res A) (k : A -> res B) :
  calm r -> (forall x, calm (k x)) -> calm (let! x := r in k x).
Proof. intros Hr Hk. by apply calm_bind. Qed.

Create HintDb calm.
#[export] Hint Resolve calm_ok calm_err : calm.
#[export] Hint Resolve calm_bind_any : calm.

(** case analysis on what a result is computed from *)
Ltac calm_cases :=
  repeat match goal with
  | |- calm (match ?x with _ => _ end) => destruct x eqn:?
  | |- calm (if ?x then _ else _) => destruct x eqn:?
  end; auto with calm.

Lemma calm_res_mapM {A B} (f : A -> res B) l : Forall (fun x => calm (f x)) l -> calm (res_mapM f l).
Proof. induction 1; cbn [res_mapM]; auto with calm. Qed.

Lemma calm_all_ok l : Forall calm l -> calm (all_ok l).
Proof. induction 1; cbn [all_ok]; auto with calm. Qed.

(** ** Required fields *)

Lemma calm_check_field p v below : Forall calm below -> calm (check_field p v below).
Proof. intros H. pose proof (calm_all_ok _ H). unfold check_field. calm_cases. Qed.
#[export] Hint Resolve calm_check_field : calm.

Definition checks_calm (v : gval) : Prop :=
  calm (checkRequiredFieldsInValue v) /\ Forall calm (check_below v)
  /\ calm (checkRequiredFieldsInValue (VPtr (Some v))).

Lemma check_target_calm v : parts checks_calm v -> calm (checkRequiredFieldsInValue (VPtr (Some v))).
Proof.
  destruct v as [| | | | | | | | | | | | | |info fields exts]; try done. cbn [parts]. intros [Hf He].
  rewrite check_message. destruct (bool_decide _); [done|]. apply calm_bind_any.
  - apply calm_all_ok. rewrite Forall_fmap. eapply list.Forall_impl; [exact Hf|].
    intros [f x] [(_ & Hb & _) Ho]. cbn [compose fst snd] in *.
    unfold compose, field_check. destruct (field_skipped f); [apply calm_ok|].
    assert (calm (if fi_tag f then check_field (fi_props f) x (check_below x) else Ok tt)) as Hown
      by (destruct (fi_tag f); auto with calm).
    destruct x as [| | | | | | | | | | | | |[[f' y]|]|]; try exact Hown; [|done].
    destruct Ho as (_ & Hb' & _). destruct (fi_tag f'); auto with calm.
  - intros _. apply calm_all_ok. rewrite Forall_fmap. eapply list.Forall_impl; [exact He|].
    intros [e x] (Hc & _). unfold compose. destruct (ei_has e); [|apply calm_ok].
    by destruct (ei_get e).
Qed.

Lemma calm_required v : calm (checkRequiredFields v).
Proof.
  assert (checks_calm v) as (_ & _ & H); [|exact H].
  induction v as [v IH] using gval_parts_ind.
  assert (calm (checkRequiredFieldsInValue v)) as Hc.
  { destruct v as [| | | | | | | | | | | |[x|]| |]; try done. by destruct IH as (_ & _ & ?). }
  split; [exact Hc|]. split; [|by apply check_target_calm].
  destruct v as [| | | | | | | | | |[l|]|[l|]|[x|]| |]; cbn [check_below parts] in *;
    try constructor; auto; rewrite Forall_fmap;
    (eapply list.Forall_impl; [exact IH|]; by intros ? []).
Qed.

Section Safe.
Context `{UE : UnmarshalEnv}.

(** ** What is assumed of generated code and of the library *)

Fixpoint type_ok (t : gtype) : Prop :=
  match t with
  | TEnum e => forall f j, en_UnmarshalJSON e = Some f -> calm (f j)
  | TPtr t | TSlice t => type_ok t
  | TMap k v => type_ok k /\ type_ok v
  | _ => True
  end.

Definition target_ok (t : target) : Prop := match t with Field t => type_ok t | Struct _ => True end.

(** a wrapper type has a field *)
Definition wraps (name : string) : Prop :=
  exists w, mi_wkt (md_info (MessageDesc name)) = Some w /\ is_wrapper w = true.

Record calm_env : Prop := {
  ce_custom : forall name f j, md_UnmarshalJSONPB (MessageDesc name) = Some f -> calm (f j);
  ce_fields : forall name, Forall (fun ft => type_ok ft.2) (md_fields (MessageDesc name));
  ce_oneofs : forall name, Forall (fun o => type_ok o.2) (md_oneofs (MessageDesc name));
  ce_exts : forall name, Forall (fun et => target_ok et.2) (md_exts (MessageDesc name));
  ce_wraps : forall name, wraps name -> md_fields (MessageDesc name) <> [];
  ce_duration : forall s, calm (time_ParseDuration s);
  ce_time : forall s, calm (time_Parse s);
  ce_marshal : forall v, calm (proto_Marshal v);
  ce_extension : forall v e x, calm (proto_SetExtension v e x);
  ce_range : forall A (mp : gmap string A) kx, kx ∈ json_range A mp -> mp !! kx.1 = Some kx.2;
}.

(** a document without the member names and the null that are not handled *)
Definition name_ok (k : string) : bool :=
  negb (str_empty k) && negb (String.eqb k (String quote_char "")).

Fixpoint doc_ok (j : jval) : Prop :=
  match j with
  | JArr l => foldr (fun x P => doc_ok x /\ P) True l
  | JObj l =>
      foldr (fun kx P => let k := default "" (json_decode kx.1) in
               name_ok k = true /\ (k = "value" -> kx.2 <> JNull) /\ doc_ok kx.2 /\ P) True l
  | _ => True
  end.

Definition shaped (t : target) (old : gval) : Prop :=
  match t with Struct name => wraps name -> fields_of old <> [] | Field _ => True end.

Definition kid_calm (kd : kid) : Prop :=
  forall t old prop, target_ok t -> shaped t old -> calm (kid_um kd t old prop).

Context (E : calm_env) (u : Unmarshaler).

Lemma new_shaped t : shaped t (new t).
Proof.
  destruct t as [t|name]; [done|]. intros Hw. cbn. pose proof (ce_wraps E name Hw) as Hne.
  by destruct (md_fields (MessageDesc name)).
Qed.

(** ** Scalars and keys *)

Lemma calm_of_option o : calm (of_option o).
Proof. by destruct o. Qed.
Hint Resolve calm_of_option : calm.

Lemma calm_json_num t s : calm (json_num t s).
Proof. apply calm_of_option. Qed.
Hint Resolve calm_json_num : calm.

Lemma calm_json_into j t old : type_ok t -> calm (json_into j t old).
Proof.
  intros Ht. destruct t as [| | | | | | | | |e|t|t|k v|name|]; cbn [json_into];
    try (destruct j; auto with calm; fail).
  destruct (en_UnmarshalJSON e) as [f|] eqn:Ef; [|destruct j; auto with calm].
  apply calm_bind_any; [by eapply Ht|auto with calm].
Qed.

Lemma calm_json_parse s : calm (json_parse s).
Proof.
  unfold json_parse, json_Decode. destruct (skip_ws s); [done|].
  destruct (jp_value _ _) as [[j r]|]; [|done]. by destruct (str_empty _).
Qed.

Lemma calm_json_text s t old : type_ok t -> calm (json_text_into s t old).
Proof.
  intros Ht. unfold json_text_into. apply calm_bind_any; [apply calm_json_parse|].
  intros j. by apply calm_json_into.
Qed.

Lemma calm_um_enum name body t : calm (um_enum name body t).
Proof. unfold um_enum. calm_cases. Qed.
Hint Resolve calm_um_enum calm_json_into calm_json_text : calm.

Lemma calm_um_scalar j t old : type_ok t -> calm (um_scalar j t old).
Proof. intros Ht. unfold um_scalar. calm_cases. Qed.
Hint Resolve calm_um_scalar : calm.

Lemma calm_um_key ks t prop : name_ok ks = true -> type_ok t -> calm (um_key ks t prop).
Proof.
  intros Hn Ht. destruct ks as [|c ks]; [done|]. unfold um_key.
  destruct (Ascii.eqb_spec c quote_char) as [->|_]; [|auto with calm].
  assert (str_empty ks = false) as -> by (destruct ks; [done|reflexivity]).
  calm_cases.
Qed.

Lemma calm_unquote j : calm (unquote j).
Proof. unfold unquote. calm_cases. Qed.
Hint Resolve calm_unquote : calm.

(** ** Parts of a document *)

Definition map_calm (m : gmap string kid) : Prop :=
  forall k kd, m !! k = Some kd ->
  name_ok k = true /\ kid_calm kd /\ (k = "value" -> kid_val kd <> JNull).

Lemma map_calm_delete k m : map_calm m -> map_calm (delete k m).
Proof. intros H k' kd [_ Hk]%lookup_delete_Some. by apply H. Qed.
Lemma map_calm_empty : map_calm ∅.
Proof. intros k kd. by rewrite lookup_empty. Qed.

Lemma consume_calm p m kd m' :
  map_calm m -> consumeField p m = Some (kd, m') -> kid_calm kd /\ map_calm m'.
Proof.
  unfold consumeField. intros H.
  destruct (m !! accepted_camel p) eqn:Ec; [|destruct (m !! accepted_orig p) eqn:Eo];
    intros; simplify_eq; (split; [by eapply H|]); by repeat apply map_calm_delete.
Qed.

Lemma range_calm m kx : map_calm m -> kx ∈ json_range kid m -> name_ok kx.1 = true /\ kid_calm kx.2.
Proof using E. intros H Hin%(ce_range E). by destruct (H _ _ Hin) as (? & ? & _). Qed.

Section Value.
Context (j : jval) (elems : list kid) (members : list (string * kid)).
Context (He : Forall kid_calm elems).
Context (Hm : Forall (fun kk => let k := default "" (json_decode kk.1) in
                name_ok k = true /\ kid_calm kk.2 /\ (k = "value" -> kid_val kk.2 <> JNull)) members).

Lemma as_object_calm : match as_object j members with
                       | Ok m => map_calm (default ∅ m) | Err _ => True | Panic => False end.
Proof using Hm.
  unfold as_object. destruct j; try done. cbn [default].
  intros k kd H%elem_of_list_to_map_2. rewrite list_elem_of_In, <- in_rev in H.
  apply list_elem_of_In, list_elem_of_fmap in H as ([b x] & [= -> ->] & Hin).
  rewrite list.Forall_forall in Hm. exact (Hm _ Hin).
Qed.

Lemma calm_object {A} (k : option (gmap string kid) -> res A) :
  (forall m, map_calm (default ∅ m) -> calm (k m)) -> calm (let! m := as_object j members in k m).
Proof using Hm.
  intros Hk. pose proof as_object_calm as H. destruct (as_object j members); cbn; [|done..].
  by apply Hk.
Qed.

Lemma calm_array {A} (k : option (list kid) -> res A) :
  (forall l, Forall kid_calm (default [] l) -> calm (k l)) -> calm (let! l := as_array j elems in k l).
Proof using He.
  intros Hk. unfold as_array. destruct j; cbn; try done; apply Hk; first [exact He|by constructor].
Qed.

Lemma calm_slice t old prop : type_ok t -> calm (um_slice j elems t old prop).
Proof using He.
  intros Ht. unfold um_slice. apply calm_array. intros [l|] Hl; [|done].
  apply calm_bind_any; [|auto with calm]. apply calm_res_mapM.
  eapply list.Forall_impl; [exact Hl|]. intros kd Hk. by apply Hk.
Qed.

Lemma calm_entries k v prop mp acc :
  type_ok k -> type_ok v -> Forall (fun kx => name_ok kx.1 = true /\ kid_calm kx.2) mp ->
  calm (um_entries k v prop mp acc).
Proof using.
  intros Hk Hv HF. revert acc. induction HF as [|[ks raw] mp [Hn Hr] HF IH]; intros acc; [done|].
  cbn [um_entries]. apply calm_bind_any.
  { destruct k; auto with calm; by apply calm_um_key. }
  intros kv. apply calm_bind_any; [by apply Hr|auto].
Qed.

Lemma calm_map k v old prop : type_ok k -> type_ok v -> calm (um_map j members k v old prop).
Proof using E Hm.
  intros Hk Hv. unfold um_map. apply calm_object. intros [m|] H; [|done].
  apply calm_bind_any; [|auto with calm]. apply calm_entries; [done..|].
  apply list.Forall_forall. intros kx. by apply range_calm.
Qed.

Lemma calm_plain t old prop : type_ok t -> calm (um_plain j elems members t old prop).
Proof using E He Hm.
  intros Ht. unfold um_plain.
  assert (calm (match t with
                | TSlice t' => um_slice j elems t' old prop
                | TMap k v => um_map j members k v old prop
                | _ => um_scalar j t old end)) as H.
  { destruct t; auto with calm; [by apply calm_slice|by apply calm_map; apply Ht]. }
  destruct j; try exact H. destruct (enum_prop prop); [auto with calm|exact H].
Qed.

(** ** Well-known types *)

Lemma calm_struct_values prop mp :
  Forall (fun kx => name_ok kx.1 = true /\ kid_calm kx.2) mp -> calm (um_struct_values prop mp).
Proof using E.
  induction 1 as [|[k jv] mp [_ Hk] HF IH]; cbn [um_struct_values]; [done|].
  cbn [snd] in Hk. pose proof (Hk (Struct Value_name) (new_struct Value_name) prop I (new_shaped (Struct _))) as Hc.
  destruct (kid_um jv _ _ _); [apply calm_bind_any; auto with calm|done|by elim Hc].
Qed.

Lemma calm_Struct old prop : calm (um_Struct j members old prop).
Proof using E Hm.
  unfold um_Struct. pose proof as_object_calm as H. destruct (as_object j members) as [m| |]; [|done..].
  apply calm_bind_any; [|auto with calm]. apply calm_struct_values, list.Forall_forall.
  intros kx. by apply range_calm.
Qed.

Lemma calm_ListValue old prop : calm (um_ListValue j elems old prop).
Proof using He.
  unfold um_ListValue.
  assert (Forall kid_calm (match as_array j elems with Ok l => default [] l | _ => [] end)
          /\ calm (as_array j elems)) as [H Hc].
  { unfold as_array. destruct j; cbn; auto using calm_ok, calm_err. }
  destruct (as_array j elems) as [l| |]; [|done..]. apply calm_bind_any; [|auto with calm].
  apply calm_res_mapM. eapply list.Forall_impl; [exact H|]. intros kd Hk. by apply Hk.
Qed.

Lemma calm_Value old prop : calm (um_Value j elems members old prop).
Proof using E He Hm.
  pose proof (calm_ListValue (new_struct ListValue_name) prop) as HL.
  pose proof (calm_Struct (new_struct Struct_name) prop) as HS.
  unfold um_Value. destruct j; auto with calm.
  destruct (ParseFloat64 text); auto with calm.
Qed.

Lemma calm_times old : calm (um_Duration j old) /\ calm (um_Timestamp j old).
Proof using E.
  unfold um_Duration, um_Timestamp.
  split; (apply calm_bind_any; [apply calm_unquote|]); intros s.
  - pose proof (ce_duration E s) as H. by destruct (time_ParseDuration s).
  - pose proof (ce_time E s) as H. by destruct (time_Parse s) as [[]| |].
Qed.

(** ** Messages *)

Lemma calm_fields fields olds m :
  Forall (fun ft => type_ok ft.2) fields -> map_calm m ->
  match um_fields fields olds m with Ok r => map_calm r.2 | Err _ => True | Panic => False end.
Proof using.
  intros HF. revert olds m. induction HF as [|[f t] fields Ht HF IH]; intros [|[g x] olds] m Hmc;
    cbn [um_fields]; try done.
  assert (match (let! r := um_fields fields olds m in Ok ((g, x) :: r.1, r.2)) with
          | Ok r => map_calm r.2 | Err _ => True | Panic => False end) as Hskip.
  { specialize (IH olds m Hmc). by destruct (um_fields fields olds m). }
  destruct (has_prefix _ _); [exact Hskip|].
  destruct (consumeField (fi_props f) m) as [[raw m']|] eqn:Ec; [|exact Hskip].
  destruct (consume_calm _ _ _ _ Hmc Ec) as [Hk Hm'].
  pose proof (Hk (Field t) x (Some (fi_props f)) Ht I) as Hc.
  destruct (kid_um raw _ _ _); cbn; [|done..]. specialize (IH olds m' Hm').
  by destruct (um_fields fields olds m').
Qed.

Lemma calm_oneofs os v m :
  Forall (fun o => type_ok o.2) os -> map_calm m ->
  match um_oneofs os v m with Ok r => map_calm r.2 | Err _ => True | Panic => False end.
Proof using.
  intros HF. revert v m. induction HF as [|[[i f] t] os Ht HF IH]; intros v m Hmc;
    cbn [um_oneofs]; [done|].
  destruct (consumeField (fi_props f) m) as [[raw m']|] eqn:Ec; [|by apply IH].
  destruct (consume_calm _ _ _ _ Hmc Ec) as [Hk Hm'].
  pose proof (Hk (Field t) (zero t) (Some (fi_props f)) Ht I) as Hc.
  destruct (kid_um raw _ _ _); cbn; [|done..]. by apply IH.
Qed.

Lemma calm_exts exts v m :
  Forall (fun et => target_ok et.2) exts -> map_calm m -> calm (um_exts exts v m).
Proof using E.
  intros HF. revert v m. induction HF as [|[e t] exts Ht HF IH]; intros v m Hmc;
    cbn [um_exts]; [done|].
  destruct (m !! _) as [raw|] eqn:El; [|by apply IH].
  apply calm_bind_any; [apply (Hmc _ _ El); [done|by apply new_shaped]|].
  intros x. apply calm_bind_any; [apply (ce_extension E)|]. intros v'.
  apply IH. by apply map_calm_delete.
Qed.

Lemma calm_members name m old : map_calm m -> calm (um_members u (MessageDesc name) m old).
Proof using E.
  intros Hmc. unfold um_members.
  pose proof (calm_fields _ (fields_of old) m (ce_fields E name) Hmc) as Hf.
  destruct (um_fields _ _ m) as [[fs m1]| |]; cbn [res_bind]; [|done..]. cbn [fst snd] in *.
  assert (forall v, match (if bool_decide (m1 = ∅) then Ok (v, m1)
                           else um_oneofs (md_oneofs (MessageDesc name)) v m1) with
                    | Ok r => map_calm r.2 | Err _ => True | Panic => False end) as Ho.
  { intros v. case_bool_decide; [done|]. apply calm_oneofs; [apply (ce_oneofs E)|done]. }
  specialize (Ho (set_fields old fs)).
  destruct (if bool_decide _ then _ else _) as [[v m2]| |]; cbn [res_bind]; [|done..].
  apply calm_bind_any; [|intros r; calm_cases].
  case_bool_decide; [done|]. apply calm_exts; [apply (ce_exts E)|done].
Qed.

Lemma calm_message name old prop : calm (um_message u j members (MessageDesc name) old prop).
Proof using E Hm.
  unfold um_message.
  assert (calm (let! m := as_object j members in um_members u (MessageDesc name) (default ∅ m) old)) as H.
  { apply calm_object. intros m. by apply calm_members. }
  destruct j; try exact H. destruct (enum_prop prop); [apply calm_um_enum|exact H].
Qed.

Lemma calm_any_nested name m : map_calm m -> calm (um_any_nested u (MessageDesc name) name m).
Proof using E.
  intros Hmc. unfold um_any_nested.
  assert (forall r : res gval, calm r -> calm match r with
            | Err _ => Err (Errorf "can't unmarshal Any nested proto %T: %v") | _ => r end) as Hwrap
    by (by intros []).
  destruct (mi_wkt _).
  - destruct (m !! "value") as [[jv um]|] eqn:Ev; [|done].
    destruct (Hmc _ _ Ev) as (_ & Hk & Hnull). cbn in Hnull.
    assert (calm (um (Struct name) (new_struct name) None)) as Hc
      by (apply (Hk (Struct name)); [done|apply (new_shaped (Struct name))]).
    destruct jv; try (by apply Hwrap). by destruct Hnull.
  - apply Hwrap. destruct (md_UnmarshalJSONPB _) as [f|] eqn:Ef; [by eapply (ce_custom E)|].
    by apply calm_members, map_calm_delete.
Qed.

(** ** Every target *)

Context (ER : forall r turl, um_AnyResolver u = Some r -> calm (r turl)).

Lemma calm_Any old : calm (um_Any u j members old).
Proof using E ER Hm.
  unfold um_Any. apply calm_object. intros m Hmc.
  destruct (default ∅ m !! "@type") as [[[] um]|]; auto with calm.
  apply calm_bind_any; [apply (calm_unquote (JStr body))|]. intros turl.
  apply calm_bind_any.
  { unfold resolve_type. destruct (um_AnyResolver u) eqn:Er; [by eapply ER|].
    destruct (MessageTypeName _); auto with calm. }
  intros name. apply calm_bind_any; [by apply calm_any_nested|]. intros x.
  pose proof (ce_marshal E x) as H. by destruct (proto_Marshal x).
Qed.

Lemma calm_um_struct name old prop :
  shaped (Struct name) old -> calm (um_struct u j elems members name old prop).
Proof using E ER He Hm.
  intros Hsh. unfold um_struct.
  destruct (md_UnmarshalJSONPB (MessageDesc name)) as [f|] eqn:Ef; [by eapply (ce_custom E)|].
  destruct (mi_wkt (md_info (MessageDesc name))) as [w|] eqn:Ew; [|by apply calm_message].
  destruct (is_wrapper w) eqn:Hw.
  { assert (wraps name) as Hwr by by exists w. specialize (Hsh Hwr).
    pose proof (ce_wraps E _ Hwr) as Hne. pose proof (ce_fields E name) as Hf. unfold um_wrapper.
    destruct (md_fields (MessageDesc name)) as [|[f t] fs]; [done|].
    apply list.Forall_cons in Hf as [Ht _]. unfold field_at.
    destruct (fields_of old) as [|[g x] xs]; [done|]. cbn [lookup list_lookup fmap option_fmap option_map snd].
    apply calm_bind_any; [by apply calm_plain|auto with calm]. }
  destruct (String.eqb w "Any"); [apply calm_Any|].
  destruct (String.eqb w "Duration"); [apply calm_times|].
  destruct (String.eqb w "Timestamp"); [apply calm_times|].
  destruct (String.eqb w "Struct"); [apply calm_Struct|].
  destruct (String.eqb w "ListValue"); [apply calm_ListValue|].
  destruct (String.eqb w "Value"); [apply calm_Value|by apply calm_message].
Qed.

Lemma calm_target t old prop :
  target_ok t -> shaped t old -> calm (um_target u j elems members t old prop).
Proof using E ER He Hm.
  intros Ht Hsh. destruct t as [t|name]; [|by apply calm_um_struct].
  destruct t as [| | | | | | | | |e|t|t|k v|name|]; cbn [um_target]; try (by apply calm_plain).
  - assert (calm (let! v := um_plain j elems members t (zero t) prop in Ok (VPtr (Some v)))) as H
      by (apply calm_bind_any; [by apply calm_plain|auto with calm]).
    by destruct j.
  - destruct (_ && _); [apply calm_ok|]. apply calm_bind_any; [|auto with calm].
    apply calm_um_struct, (new_shaped (Struct name)).
Qed.
End Value.

Lemma foldr_Forall {A} (P : A -> Prop) l : foldr (fun x R => P x /\ R) True l -> Forall P l.
Proof. induction l as [|x l IH]; cbn; [constructor|]. intros [? ?]. constructor; auto. Qed.

Lemma unmarshalValue_calm (ER : forall r turl, um_AnyResolver u = Some r -> calm (r turl)) j :
  doc_ok j -> forall t old prop, target_ok t -> shaped t old -> calm (unmarshalValue u j t old prop).
Proof using E.
  induction j as [|b|s|b|l IH|l IH] using jval_ind'; intros Hd t old prop Ht Hsh;
    cbn [unmarshalValue]; apply calm_target; auto; try constructor.
  - apply foldr_Forall in Hd. rewrite Forall_fmap.
    eapply Forall_mp; [exact IH|exact Hd|]. intros x Hx Hdx t' old' prop'. by apply Hx.
  - rewrite Forall_fmap. clear Ht Hsh. induction IH as [|[k x] l Hx IH IHl]; constructor.
    + cbn in Hd. destruct Hd as (Hn & Hv & Hdx & _). cbn. split; [done|]. split; [|exact Hv].
      intros t' old' prop'. by apply Hx.
    + apply IHl. cbn in Hd. apply Hd.
Qed.
End Safe.

(** C23: unmarshalling does not panic on documents without the two things it does not handle.  If no
    object of the document has a member whose name is empty or a single quote, nor a null member
    named value, then whatever the type, the message given and the settings, [Unmarshal] returns
    a message or an error, provided generated code and the library do not panic themselves. *)
Theorem unmarshal_safe `{UE : UnmarshalEnv} u name pb input :
  calm_env -> (forall r turl, um_AnyResolver u = Some r -> calm (r turl)) ->
  shaped (Struct name) pb ->
  (forall j rest, json_Decode input = Ok (j, rest) -> doc_ok j) ->
  calm (Unmarshal u name pb input).
Proof.
  intros E ER Hsh Hd. unfold Unmarshal, UnmarshalNext. apply calm_bind_any; [|auto with calm].
  destruct (json_Decode input) as [[j rest]| |] eqn:Ej; cbn [res_bind]; [|done|].
  - apply calm_bind_any.
    { apply unmarshalValue_calm; [done..|by eapply (Hd j rest)|done|done]. }
    intros v.
    apply calm_bind_any; [apply calm_required|auto with calm].
  - exfalso. unfold json_Decode in Ej. destruct (skip_ws input); [done|]. by destruct (jp_value _ _).
Qed.
