(* ===== verification/Render.v ===== *)
(** * The JSON streams of GPB messages

    The GPB codec with the marshaler of [jsonpb.go] in the place [Gpb] leaves for it.  What the
    protobuf library's reflection shows of a decoded message is a parameter. *)
From S2P Require Import Prelude Message Gpb Json Jsonpb JsonpbFacts JsonpbFuel Unmarshal JsonpbRound.
From S2P Require Import JsonpbBack.

(** ** The codec with its marshaler *)

(** the settings of both places that marshal: numbers of 64 bits are not quoted, defaults are
    written, and names are those of the .proto files *)
Definition stream_marshaler : Marshaler := MkMarshaler false true "" true None true.

(** what a row holds is what its content and its keys were marshalled to; it holds nothing for
    what the marshaler refused *)
Lemma raw_of_inv r o n :
  raw_of r = Ok (o, n) -> match o with Some b => r = Ok b | None => exists e, r = Err e end.
Proof. destruct r as [b|e|]; intros [= <- _]; by eauto. Qed.

Lemma tbl_row_ok `{G : GpbEnv} row r n :
  tbl_row row = Ok (r, n) ->
  rts_Timestamp r = gr_Timestamp row
  /\ match rts_Content r with
     | Some b => MarshalToString_message (gr_Content row) = Ok b
     | None => exists e, MarshalToString_message (gr_Content row) = Err e
     end
  /\ match gr_Keys row, rts_Keys r with
     | Some k, Some b => MarshalToString_message k = Ok b
     | Some k, None => exists e, MarshalToString_message k = Err e
     | None, o => o = None
     end.
Proof.
  unfold tbl_row. destruct (raw_of (MarshalToString_message _)) as [[c sc]| |] eqn:Ec;
    cbn [res_bind]; [|done..].
  destruct (raw_of (marshal_keys _)) as [[k sk]| |] eqn:Ek; cbn [res_bind fst snd]; [|done..].
  intros [= <- _]. apply raw_of_inv in Ec, Ek. split; [done|]. split; [exact Ec|]. cbn.
  destruct (gr_Keys row); [exact Ek|by destruct k].
Qed.

Lemma jsonify_rows_ok {R} (f : R -> res (rowToSerialise * (nat * nat))) rows rs n :
  jsonify_rows f rows = Ok (rs, n) -> Forall2 (fun row r => exists k, f row = Ok (r, k)) rows rs.
Proof.
  revert rs n. induction rows as [|row rows IH]; cbn [jsonify_rows]; intros rs n.
  { intros [= <- _]. constructor. }
  destruct (f row) as [[r k]| |] eqn:Er; cbn [res_bind]; [|done..].
  destruct (jsonify_rows f rows) as [[rs' k']| |] eqn:Es; cbn [res_bind fst snd]; [|done..].
  intros [= <- _]. constructor; [by exists k|by eapply IH].
Qed.

Section Render.
Context `{E : Env} `{JE : JsonpbEnv} (G : GpbEnv).
Context (reflect_message : ProtoMessage -> gval) (reflect_Telemetry : Telemetry -> gval).

(** the fuel is the size of the [Any]s of the message *)
Definition marshal_reflected (v : gval) : res bytes :=
  match MarshalToString stream_marshaler (any_size v) (Some v) with
  | Some r => let! s := r in Ok (bytes_of_string s)
  | None => Panic
  end.

(** which is enough where an unpacked message holds only smaller [Any]s *)
Lemma marshal_reflected_returns v :
  any_shrinks stream_marshaler ->
  exists r, MarshalToString stream_marshaler (any_size v) (Some v) = Some r.
Proof.
  intros Hs. destruct (MarshalToString _ _ _) as [r|] eqn:Em; [by exists r|].
  by destruct (marshal_total _ _ v Hs (Nat.le_refl _) Em).
Qed.

Definition rendered : GpbEnv := {|
  ProtoMessage := ProtoMessage;
  proto_Unmarshal_Telemetry := proto_Unmarshal_Telemetry;
  proto_Marshal_Telemetry := proto_Marshal_Telemetry;
  proto_Unmarshal_Pdt := proto_Unmarshal_Pdt;
  protoArchive := protoArchive;
  json_Marshal_drawer := json_Marshal_drawer;
  json_Marshal_hexdump := json_Marshal_hexdump;
  json_Marshal_msg := json_Marshal_msg;
  json_Encode_event := json_Encode_event;
  MarshalToString_message pm := marshal_reflected (reflect_message pm);
  MarshalToString_Telemetry t := marshal_reflected (reflect_Telemetry t);
  template_Execute_msg := template_Execute_msg;
  basePathXlation := basePathXlation;
|}.

(** ** What a consumer of the streams reads *)

(** the header of a document: the message without the table of its rows *)
Definition stream_header (m : dataMsgGPB (G := rendered)) : Telemetry :=
  match DataGpb (cachedDecode m) with
  | Some _ => without_gpb (cachedDecode m)
  | None => without_gpbkv (cachedDecode m)
  end.

Section Reader.
Context `{UE : UnmarshalEnv} (u : Unmarshaler).

(** a consumer that unmarshals [b] as a [name] gets [v] *)
Definition reads_back (name : string) (v : gval) (b : bytes) : Prop :=
  exists v', Unmarshal u name (new_struct name) (string_of_bytes b) = Ok v' /\ geq v v'.

Context (Hlaws : roundtrip_laws stream_marshaler).

Lemma marshal_reflected_reads name v b :
  typed_struct v name -> marshal_reflected v = Ok b -> reads_back name v b.
Proof using Hlaws.
  intros Ht. unfold marshal_reflected.
  destruct (MarshalToString _ _ _) as [[s| |]|] eqn:Em; cbn; [|done..]. intros [= <-].
  destruct (marshal_reads_back _ u _ name v s Hlaws Ht Em) as (v' & Hu & Hg).
  exists v'. by rewrite string_bytes_id.
Qed.

(** the marshaler refuses [v] *)
Definition refused (v : gval) : Prop :=
  exists e, MarshalToString stream_marshaler (any_size v) (Some v) = Some (Err e).

Lemma marshal_reflected_refused v e : marshal_reflected v = Err e -> refused v.
Proof using.
  unfold marshal_reflected. destruct (MarshalToString _ _ _) as [[s|e'|]|] eqn:Em; cbn; [done| |done..].
  intros _. by exists e'.
Qed.

(** a part of a row holds the text of [v], and it is left out only when the marshaler refuses [v] *)
Definition part_reads_back (name : string) (v : gval) (o : option bytes) : Prop :=
  match o with Some b => reads_back name v b | None => refused v end.

(** the row of a compact message, from the messages it was decoded to *)
Definition row_reads_back (name : ProtoMessage -> string) (row : gpbDecodeRow ProtoMessage)
    (r : rowToSerialise) : Prop :=
  rts_Timestamp r = gr_Timestamp row
  /\ part_reads_back (name (gr_Content row)) (reflect_message (gr_Content row)) (rts_Content r)
  /\ match gr_Keys row with
     | Some k => part_reads_back (name k) (reflect_message k) (rts_Keys r)
     | None => rts_Keys r = None
     end.

Definition row_typed (name : ProtoMessage -> string) (row : gpbDecodeRow ProtoMessage) : Prop :=
  typed_struct (reflect_message (gr_Content row)) (name (gr_Content row))
  /\ forall pm, gr_Keys row = Some pm -> typed_struct (reflect_message pm) (name pm).

Lemma tbl_row_reads name row r n :
  row_typed name row -> tbl_row (G := rendered) row = Ok (r, n) -> row_reads_back name row r.
Proof using Hlaws.
  intros [Ht Htk] (Hts & Hc & Hk)%tbl_row_ok. split; [done|].
  assert (forall pm o, typed_struct (reflect_message pm) (name pm) ->
    match o with Some b => marshal_reflected (reflect_message pm) = Ok b
               | None => exists e, marshal_reflected (reflect_message pm) = Err e end ->
    part_reads_back (name pm) (reflect_message pm) o) as Hpart.
  { intros pm [b|] Hpm; [by apply marshal_reflected_reads|].
    intros [e He]. by eapply marshal_reflected_refused. }
  split; [by apply Hpart|]. destruct row as [ts [k|] c]; [|exact Hk].
  apply Hpart; [by apply Htk|]. exact Hk.
Qed.

Lemma tbl_rows_read name tbl rows n :
  Forall (row_typed name) tbl -> jsonify_rows (tbl_row (G := rendered)) tbl = Ok (rows, n) ->
  Forall2 (row_reads_back name) tbl rows.
Proof using Hlaws.
  intros HF Hj%jsonify_rows_ok. revert HF. induction Hj as [|row r tbl rows [k Hk] Hj IH].
  - constructor.
  - intros [Hr HF]%list.Forall_cons. constructor; [by eapply tbl_row_reads|by apply IH].
Qed.

(** texts with commas between them, and before the first unless it is the first of all *)
Fixpoint separated (first : bool) (evs : list bytes) : bytes :=
  match evs with
  | [] => []
  | ev :: evs' => (if first then [] else bytes_of_string ",") ++ ev ++ separated false evs'
  end.

(** the array of events *)
Lemma json_events_join source telemetry rows first b :
  json_events (G := rendered) source telemetry first rows = Ok b ->
  exists evs, Forall2 (fun row ev => json_Encode_event source telemetry row = Ok ev) rows evs
  /\ b = separated first evs ++ bytes_of_string "]".
Proof using.
  revert first b. induction rows as [|row rows IH]; cbn [json_events]; intros first b H.
  { injection H as <-. exists []. split; [constructor|done]. }
  destruct (json_Encode_event (GpbEnv := rendered) source telemetry row) as [ev| |] eqn:Ee; [|done..].
  destruct (json_events source telemetry false rows) as [rest| |] eqn:Er; cbn in H; [|done..].
  injection H as <-. destruct (IH false rest Er) as (evs & HF & ->).
  exists (ev :: evs). split; [by constructor|]. cbn [separated]. by rewrite <- !app_assoc.
Qed.

(** what is serialised: one document, or an array of events *)
Definition stream_of (st : dataMsgStreamType) (source : string) (t : bytes)
    (rows : list rowToSerialise) (b : slice) : Prop :=
  match st with
  | dMStreamJSONEvents =>
      (rows = [] /\ b = None)
      \/ exists evs, Forall2 (fun row ev => json_Encode_event source (Some t) row = Ok ev) rows evs
         /\ b = Some (bytes_of_string "[" ++ separated true evs ++ bytes_of_string "]")
  | _ => exists doc, json_Marshal_msg (MsgToSerialise source (Some t) rows) = Ok doc /\ b = Some doc
  end.

Lemma serialise_stream st source t rows b :
  serialise (G := rendered) st (MsgToSerialise source (Some t) rows) = Ok b ->
  stream_of st source t rows b.
Proof using.
  intros H.
  assert (match json_Marshal_msg (MsgToSerialise source (Some t) rows) with
          | Ok b => Ok (Some b)
          | Err _ => Err (Errorf "Marshalling collected content, [%+v][%+v]")
          | Panic => Panic end = Ok b ->
    exists doc, json_Marshal_msg (MsgToSerialise source (Some t) rows) = Ok doc /\ b = Some doc) as Hdoc.
  { destruct (json_Marshal_msg _) as [doc| |]; [|done..]. intros [= <-]. by exists doc. }
  destruct st; try exact (Hdoc H). cbn [serialise ms_Rows ms_Source ms_Telemetry] in H.
  destruct rows as [|row rows]; [left; by injection H|right].
  destruct (json_events source (Some t) true (row :: rows)) as [bs| |] eqn:E'; [|done..].
  cbn in H. injection H as <-. destruct (json_events_join _ _ _ _ _ E') as (evs & HF & ->).
  by exists evs.
Qed.
End Reader.
End Render.

(** C4: a consumer of a JSON stream gets the message.  Whenever a GPB message yields a document or an array
    of events, its header is the text of the telemetry message without its table of rows and
    unmarshals to that message again; for a compact message whose rows a model decodes, there is
    one row for each of them, in order, with its timestamp, whose content and keys unmarshal to the
    messages they were decoded to; one of them is left out only where the marshaler returns an error
    for it, or where the model has no keys. *)
Theorem render_streams `{E : Env} `{JE : JsonpbEnv} `{UE : UnmarshalEnv} (G : GpbEnv)
    reflect_message reflect_Telemetry u (m : dataMsgGPB (G := rendered G reflect_message reflect_Telemetry))
    st ms b tname name :
  roundtrip_laws stream_marshaler ->
  typed_struct (reflect_Telemetry (stream_header G reflect_message reflect_Telemetry m)) tname ->
  produce_json (G := rendered G reflect_message reflect_Telemetry) m st = (ms, Ok b) ->
  exists t rows,
    stream_of G st (gpb_source m) t rows b
    /\ reads_back u tname (reflect_Telemetry (stream_header G reflect_message reflect_Telemetry m)) t
    /\ (forall m' ms' tbl, DataGpb (cachedDecode m) <> None ->
        getGPBDecodedTbl (G := rendered G reflect_message reflect_Telemetry) m = (m', (ms', Some tbl)) ->
        Forall (row_typed G reflect_message name) tbl ->
        Forall2 (row_reads_back G reflect_message u name) tbl rows).
Proof.
  intros Hl Ht. unfold produce_json, stream_header in *.
  set (R := rendered G reflect_message reflect_Telemetry) in *.
  destruct (DataGpb (cachedDecode m)) as [raw|] eqn:Ed.
  - unfold codecGPBJSONifyDataGPB.
    destruct (getGPBDecodedTbl m) as [m' [ms' tbl]] eqn:Eg.
    destruct (match tbl with None => _ | Some t => _ end) as [[rows [sk sc]]| |] eqn:Er; [|done..].
    cbn [MarshalToString_Telemetry R rendered].
    destruct (marshal_reflected (reflect_Telemetry (without_gpb (cachedDecode m)))) as [t| |] eqn:Em;
      [|intros [= _]; done..].
    intros [= _ Hs]. exists t, rows. split; [|split].
    + by eapply serialise_stream.
    + by eapply marshal_reflected_reads.
    + intros m2 ms2 tbl2 _ [= _ _ ->] HF. by eapply tbl_rows_read.
  - destruct (codecGPBJSONifyDataGPBKV m) as [[ms' rows]| |]; [|intros [= _]; done..].
    cbn [MarshalToString_Telemetry R rendered].
    destruct (marshal_reflected (reflect_Telemetry (without_gpbkv (cachedDecode m)))) as [t| |] eqn:Em;
      [|intros [= _]; done..].
    intros [= _ Hs]. exists t, rows. split; [by eapply serialise_stream|]. split; [|done].
    by eapply marshal_reflected_reads.
Qed.
