(* ===== verification/Samples.v ===== *)
(** * Samples of messages ([mdt_msg_samples/samples.go])

    The table of telemetry messages for tests and tools: how it is built from the files of the
    directory, and its iteration.  The messages the decoder yields are a parameter, with what the
    protobuf library makes of each. *)
From S2P Require Import Prelude Message.

(** [strings.Count] of a pattern that is not empty: occurrences that do not overlap *)
Fixpoint count_from (skip : nat) (sub s : string) : nat :=
  match s with
  | EmptyString => 0
  | String _ s' =>
      match skip with
      | S k => count_from k sub s'
      | O => if has_prefix sub s then 1 + count_from (String.length sub - 1) sub s'
             else count_from 0 sub s'
      end
  end.
Definition strings_Count (s sub : string) : nat := count_from 0 sub s.

(** a string between quotes *)
Definition in_quotes (s : string) : string :=
  String (Ascii.ascii_of_nat 34) (s +:+ String (Ascii.ascii_of_nat 34) "").

Section Samples.
Context {T : Type} (proto_Marshal : T -> res bytes) (MarshalToString : T -> res string).

Record SampleTelemetryTableEntry : Type := Sample {
  st_Sample : T;
  SampleStreamGPB : bytes;
  SampleStreamJSON : option string;
  SampleStreamJSONKV : string;
  st_Leaves : nat;
  st_Events : nat;
}.

Definition sampleTelemetryTable : Type := list SampleTelemetryTableEntry.

(** [SAMPLE_TELEMETRY_DATABASE_BASIC], the only table there is *)
Definition SAMPLE_TELEMETRY_DATABASE_BASIC : Z := 0.

(** ** Building the table ([init]) *)

(** [log.Fatal] ends the program *)
Inductive loaded_samples : Type :=
| Samples (table : sampleTelemetryTable)
| SamplesFatal
| SamplesPanic.

Definition sample_entry (m : T) : option SampleTelemetryTableEntry :=
  match proto_Marshal m, MarshalToString m with
  | Ok gpbstream, Ok jsonstream =>
      Some (Sample m gpbstream None jsonstream (strings_Count jsonstream (in_quotes "name"))
              (strings_Count jsonstream (in_quotes "content")))
  | _, _ => None
  end.

(** the loop over the decoder: what it yields for each element of the array *)
Fixpoint read_samples (decoder : list (res T)) : option sampleTelemetryTable :=
  match decoder with
  | [] => Some []
  | Ok m :: rest => e ← sample_entry m; t ← read_samples rest; Some (e :: t)
  | _ :: _ => None
  end.

(** the verification data: row [i] to sample [i]; a row without a sample is out of range *)
Fixpoint set_rows (table : sampleTelemetryTable) (rows : list string) : option sampleTelemetryTable :=
  match table, rows with
  | _, [] => Some table
  | [], _ :: _ => None
  | e :: table', row :: rows' =>
      cons (Sample (st_Sample e) (SampleStreamGPB e) (Some row) (SampleStreamJSONKV e)
              (st_Leaves e) (st_Events e)) <$> set_rows table' rows'
  end.

(** [kv]: the file of messages, opened in either place and past its first token, as the decoder
    reads it; [jsondump]: the file of rows, absent or with what it unmarshals to *)
Definition samples_init (kv : res (list (res T))) (jsondump : option (res (list string)))
    : loaded_samples :=
  match kv with
  | Ok decoder =>
      match read_samples decoder with
      | None => SamplesFatal
      | Some table =>
          match jsondump with
          | None => Samples table
          | Some (Ok rows) =>
              match set_rows table rows with Some t => Samples t | None => SamplesPanic end
          | Some _ => SamplesFatal
          end
      end
  | _ => SamplesFatal
  end.

(** ** Access *)

(** the database has one table; another index below its length has a nil one *)
Definition sample_table (table : sampleTelemetryTable) (dbindex : Z) : option sampleTelemetryTable :=
  if (1 <=? dbindex)%Z then None
  else Some (if (dbindex =? SAMPLE_TELEMETRY_DATABASE_BASIC)%Z then table else []).

Definition MDTSampleTelemetryTableFetchOne (table : sampleTelemetryTable) (dbindex : Z)
    : res (option SampleTelemetryTableEntry) :=
  match sample_table table dbindex with
  | None => Ok None
  | Some [] => Panic
  | Some (e :: _) => Ok (Some e)
  end.

Section Iterate.
Context {S : Type} (fn : SampleTelemetryTableEntry -> S -> S * bool).

(** [fn] with its context, until it aborts *)
Fixpoint iterate (table : sampleTelemetryTable) (c : S) : nat * S :=
  match table with
  | [] => (0, c)
  | e :: table' =>
      let '(c, abort) := fn e c in
      if abort : bool then (1, c)
      else let '(n, c) := iterate table' c in (1 + n, c)
  end.

Definition MDTSampleTelemetryTableIterate (table : sampleTelemetryTable) (dbindex : Z) (c : S)
    : nat * S :=
  match sample_table table dbindex with
  | None => (0, c)
  | Some t => iterate t c
  end.
End Iterate.

(** the specification of metrics that goes with the samples, if it can be read *)
Definition MDTLoadMetrics (ReadFile : string -> res string) : string :=
  match ReadFile "mdt_msg_samples/dump.metrics" with Ok b => b | _ => "" end.

(** ** Theorems *)

(** a table that loads has a sample for each message of the file, in order, with the bytes and the
    text the library makes of it, and the rows of the verification data at their places *)
Lemma samples_loaded decoder jsondump table :
  samples_init (Ok decoder) jsondump = Samples table ->
  decoder = map (fun e => Ok (st_Sample e)) table
  /\ Forall (fun e => proto_Marshal (st_Sample e) = Ok (SampleStreamGPB e)
       /\ MarshalToString (st_Sample e) = Ok (SampleStreamJSONKV e)
       /\ st_Leaves e = strings_Count (SampleStreamJSONKV e) (in_quotes "name")) table
  /\ forall rows, jsondump = Some (Ok rows) ->
     exists rest, map SampleStreamJSON table = map Some rows ++ rest.
Proof.
  unfold samples_init. destruct (read_samples decoder) as [t|] eqn:Er; [|done].
  assert (decoder = map (fun e => Ok (st_Sample e)) t
    /\ Forall (fun e => proto_Marshal (st_Sample e) = Ok (SampleStreamGPB e)
         /\ MarshalToString (st_Sample e) = Ok (SampleStreamJSONKV e)
         /\ st_Leaves e = strings_Count (SampleStreamJSONKV e) (in_quotes "name")) t) as [Hd HF].
  { revert t Er. induction decoder as [|[m| |] decoder IH]; cbn [read_samples]; intros t Er;
      simplify_eq; [done|].
    apply bind_Some in Er as (e & He & (t' & Ht & [= <-])%bind_Some).
    destruct (IH t' Ht) as [-> HF]. unfold sample_entry in He.
    destruct (proto_Marshal m) eqn:E1, (MarshalToString m) eqn:E2; simplify_eq.
    split; [done|]. by constructor. }
  destruct jsondump as [[rows| |]|]; [|done|done|]; [|intros [= <-]; split_and!; naive_solver].
  destruct (set_rows t rows) as [t'|] eqn:Es; [|done]. intros [= <-].
  assert (map (fun e => Ok (st_Sample e)) t' = map (fun e : SampleTelemetryTableEntry => @Ok T (st_Sample e)) t
    /\ Forall (fun e => proto_Marshal (st_Sample e) = Ok (SampleStreamGPB e)
         /\ MarshalToString (st_Sample e) = Ok (SampleStreamJSONKV e)
         /\ st_Leaves e = strings_Count (SampleStreamJSONKV e) (in_quotes "name")) t'
    /\ exists rest, map SampleStreamJSON t' = map Some rows ++ rest) as (Hm & HF' & Hr).
  { clear Hd Er. revert rows t' Es. induction HF as [|e t He HF IH]; intros [|row rows] t' Es;
      cbn in Es; simplify_eq.
    - split_and!; [done|constructor|]. by exists [].
    - split_and!; [done|by constructor|]. by eexists.
    - apply fmap_Some in Es as (t'' & Es & ->). destruct (IH rows t'' Es) as (H1 & H2 & rest & H3).
      split_and!; [cbn; by rewrite H1|by constructor|]. exists rest. cbn. by rewrite H3. }
  split_and!; [by rewrite Hm|done|]. intros rows' [= <-]. exact Hr.
Qed.

(** the iteration calls [fn] on the samples in order up to the first call that aborts, and returns
    how many it called *)
Lemma iterate_prefix {S} (fn : SampleTelemetryTableEntry -> S -> S * bool) table c :
  let '(n, c') := iterate fn table c in
  n <= length table
  /\ c' = fold_left (fun c e => (fn e c).1) (take n table) c
  /\ (forall k e, k + 1 < n -> table !! k = Some e ->
      (fn e (fold_left (fun c e => (fn e c).1) (take k table) c)).2 = false)
  /\ (n < length table -> exists k e, n = k + 1 /\ table !! k = Some e
      /\ (fn e (fold_left (fun c e => (fn e c).1) (take k table) c)).2 = true).
Proof.
  revert c. induction table as [|e table IH]; intros c; cbn [iterate].
  { split_and!; [done|done|done|cbn; lia]. }
  destruct (fn e c) as [c1 abort] eqn:Ef. specialize (IH c1). destruct abort.
  - split_and!; [cbn; lia|cbn; by rewrite Ef|lia|]. intros _. exists 0, e. cbn. by rewrite Ef.
  - destruct (iterate fn table c1) as [n c'] eqn:Ei. destruct IH as (H1 & H2 & H3 & H4).
    split_and!; [cbn; lia|cbn; by rewrite Ef| |].
    + intros [|k] x Hk Hx; cbn in *; [by simplify_eq; rewrite Ef|]. rewrite Ef. apply H3; [lia|done].
    + cbn. intros Hn. destruct H4 as (k & x & Hk & Hx & Ha); [lia|].
      exists (Datatypes.S k), x. cbn. rewrite Ef. split_and!; [lia|done|done].
Qed.
End Samples.
