(* ===== verification/MetaMon.v ===== *)
(** * Metamonitoring ([metamonitoring.go], and the [init] functions of the other files)

    The counters and summaries the program registers with the Prometheus library, with their labels,
    and the proof that every call the program makes on one fits its registration. *)
From S2P Require Import Prelude Message EncapST Gpb Codec Tcp Udp Metrics GpbMetrics GpbCompact.
From S2P Require Import Router Crypt Influx Prom MetricsModule Gnmi Kafka Grpc GrpcOut.

(** ** Registration *)

Inductive vec_kind : Type := CounterVec | SummaryVec.

Record metric_vec : Type := NewVec {
  mv_kind : vec_kind;
  mv_name : string;
  mv_labels : list string;
}.

Definition codecMetaMonitor : list metric_vec :=
  [NewVec CounterVec "codec_decoded_msgs" ["section"; "source"; "codec"];
   NewVec CounterVec "codec_decoded_bytes" ["section"; "source"; "codec"];
   NewVec CounterVec "codec_base_path_groups" ["section"; "source"; "base_path"];
   NewVec CounterVec "codec_base_path_decode_error" ["section"; "source"; "base_path"; "errortype"]].

Definition metricsStatMonitor : list metric_vec :=
  [NewVec SummaryVec "timestamp_delta" ["key"];
   NewVec CounterVec "outofseq" ["key"];
   NewVec CounterVec "statCacheFull" ["key"];
   NewVec CounterVec "metrics_base_path_error" ["section"; "source"; "base_path"; "errortype"]].

Definition grpcOutMetaMonitor : list metric_vec :=
  [NewVec CounterVec "grpcOut_messages" ["section"; "peer"];
   NewVec CounterVec "grpcOut_bytes" ["section"; "peer"];
   NewVec CounterVec "grpcOut_errors" ["section"; "peer"];
   NewVec CounterVec "grpcOut_drops" ["section"; "peer"]].

Definition kafkaMetaMonitor : list metric_vec :=
  [NewVec CounterVec "kafka_messages" ["section"; "topic"; "key"; "dir"];
   NewVec CounterVec "kafka_bytes" ["section"; "topic"; "key"; "dir"];
   NewVec CounterVec "kafka_errors" ["section"; "topic"; "key"; "dir"]].

Definition xportUDPMetaMonitor : list metric_vec :=
  [NewVec CounterVec "xportUDP_messages" ["section"; "peer"];
   NewVec CounterVec "xportUDP_bytes" ["section"; "peer"];
   NewVec CounterVec "xportUDP_errors" ["section"; "peer"];
   NewVec CounterVec "xportUDP_drops" ["section"; "peer"]].

(** what the [init] functions register, which run before [main] in the order of the files *)
Definition registered : list metric_vec :=
  codecMetaMonitor ++ metricsStatMonitor ++ grpcOutMetaMonitor
  ++ kafkaMetaMonitor ++ xportUDPMetaMonitor.

Definition registry : gmap string metric_vec :=
  list_to_map (map (fun v => (mv_name v, v)) registered).

(** ** Calls

    The library documents three panics: of a vector asked for another number of label values
    than it has labels, of a counter given a negative amount, and of the registration of a
    name twice.  [call_fits] is the condition that excludes the first two, and that the vector
    is of the kind the call is for.  That a label value is valid UTF-8, which the library may
    check, is not part of it: the key of a Kafka record, whatever its bytes, is a label value. *)
Definition call_fits (m : meta) : Prop :=
  match m with
  | Inc name lvs =>
      exists v, registry !! name = Some v /\ mv_kind v = CounterVec
                /\ length lvs = length (mv_labels v)
  | AddN name lvs n =>
      (exists v, registry !! name = Some v /\ mv_kind v = CounterVec
                 /\ length lvs = length (mv_labels v)) /\ (0 <= n)%Z
  | Observe name lvs _ =>
      exists v, registry !! name = Some v /\ mv_kind v = SummaryVec
                /\ length lvs = length (mv_labels v)
  end.

(** ** The server of the metrics ([metamonitoring_init])

    [http.Handle] panics on an empty pattern. *)
Inductive metamon : Type :=
| MonStarted                             (* it was called before *)
| MonDisabled
| MonServes (server path : string).

Definition metamonitoring_init `{E : Env} (started : bool) (nc : nodeConfig) : bool * res metamon :=
  if started then (true, Ok MonStarted)
  else
    (true,
     match GetString nc "default" "metamonitoring_prometheus_resource" with
     | None => Ok MonDisabled
     | Some path =>
         let server := default ":8080" (GetString nc "default" "metamonitoring_prometheus_server") in
         if str_empty path then Panic else Ok (MonServes server path)
     end).

(** ** Lemmas *)

Definition metas_ok (ms : list meta) : Prop := Forall call_fits ms.

Ltac fits := eexists; split; [vm_compute; reflexivity|split; reflexivity].

Lemma metas_nil : metas_ok [].
Proof. constructor. Qed.
Lemma metas_app a b : metas_ok a -> metas_ok b -> metas_ok (a ++ b).
Proof. intros. by apply Forall_app_2. Qed.
Lemma metas_cons m ms : call_fits m -> metas_ok ms -> metas_ok (m :: ms).
Proof. by constructor. Qed.
Lemma metas_if (b : bool) ms ms' : metas_ok ms -> metas_ok ms' -> metas_ok (if b then ms else ms').
Proof. by destruct b. Qed.

Create HintDb metas discriminated.
#[export] Hint Resolve metas_nil metas_app metas_cons metas_if : metas.
#[export] Hint Extern 2 (call_fits (Inc _ _)) => fits : metas.
#[export] Hint Extern 2 (call_fits (AddN _ _ _)) => split; [fits|lia] : metas.
#[export] Hint Extern 2 (call_fits (Observe _ _ _)) => fits : metas.

(** ** What the codecs count *)

(** a message and a codec whose events are registered *)
Class CountedMsg (M : Type) `{D : DataMsg M} : Prop := {
  stream_counted : forall m spec, metas_ok (produceByteStream m spec).1;
}.
Class CountedCodec (C M : Type) `{K : Codec C M} : Prop := {
  block_counted : forall c src b, metas_ok (blockToDataMsgs c src b).1;
}.
Class CountedSource (C M P : Type) `{MS : MetricsSource C M P} : Prop := {
  metrics_counted : forall specDB m p, metas_ok (produceMetrics specDB m p).2.1;
}.

Section Codecs.
Context `{E : Env} `{G : !GpbEnv}.

Lemma base_path_error_ok m what : call_fits (base_path_error m what).
Proof. unfold base_path_error. auto with metas. Qed.

Lemma partial_metas_ok m sk sc : metas_ok (partial_metas m sk sc).
Proof. unfold partial_metas. auto using base_path_error_ok with metas. Qed.

Lemma decoded_tbl_ok m : metas_ok (getGPBDecodedTbl m).2.1.
Proof.
  unfold getGPBDecodedTbl. repeat case_match; simpl; auto using base_path_error_ok with metas.
Qed.

Lemma gpb_stream_counted m spec : metas_ok (gpb_produceByteStream m spec).1.
Proof.
  unfold gpb_produceByteStream.
  assert (forall st, metas_ok (produce_json m st).1) as Hj.
  { intros st. unfold produce_json, codecGPBJSONifyDataGPB, codecGPBJSONifyDataGPBKV.
    pose proof (decoded_tbl_ok m). destruct (getGPBDecodedTbl m) as [m' [ms tbl]]. simpl in *.
    destruct (DataGpb (cachedDecode m)).
    - destruct (match tbl with Some _ => _ | None => _ end) as [[rows [sk sc]]| |]; simpl;
        auto using partial_metas_ok with metas.
    - destruct (jsonify_kv_rows _ _ _); simpl; auto using partial_metas_ok with metas. }
  case_match; simpl; auto with metas.
Qed.

Lemma gpb_block_counted p src b : metas_ok (gpb_blockToDataMsgs p src b).1.
Proof.
  unfold gpb_blockToDataMsgs. destruct src as [src|]; [|apply metas_nil].
  assert (forall b t, metas_ok (codecGPBBlockAndTelemMsgToDataMsgs p src b t).1) as Hb
    by (intros; simpl; auto with metas).
  match goal with |- context [let '(_, _) := ?x in _] => assert (metas_ok x.1) as Hx end.
  { unfold codecGPBBlockToDataMsgs, codecGPBLegacyPDTBlockToDataMsgs.
    repeat case_match; simpl; auto with metas. }
  match type of Hx with metas_ok (?x.1) => destruct x as [ms r] end.
  simpl in *. auto 6 with metas.
Qed.

#[export] Instance dataMsg_counted : CountedMsg dataMsg.
Proof.
  constructor. intros [m|m] spec; simpl; [apply gpb_stream_counted|].
  unfold json_produceByteStream. repeat case_match; apply metas_nil.
Qed.

#[export] Instance codec_counted : CountedCodec codec dataMsg.
Proof.
  constructor. intros [p|p] src b; simpl; [apply gpb_block_counted|].
  unfold json_blockToDataMsgs. destruct src; simpl; auto with metas.
Qed.
End Codecs.

(** a left fold keeps what each step keeps *)
Lemma fold_keeps {A B} (P : A -> Prop) (f : A -> B -> A) (l : list B) : forall a,
  P a -> (forall a b, P a -> b ∈ l -> P (f a b)) -> P (fold_left f l a).
Proof.
  induction l as [|b l IH]; intros a Ha Hf; simpl; [done|].
  apply IH; [apply Hf; [done|by left]|]. intros a' b' Ha' Hb. apply Hf; [done|by right].
Qed.

Section Walk.
Context {Ctx : Type} `{H : MetricsOutputHandler Ctx} `{E : Env} `{G : !GpbEnv}
  `{R : !ReflectEnv ProtoMessage}
  (range : nat -> gmap string metricsSpecNode -> list (string * metricsSpecNode)).

Definition walk_ok (w : walk) : Prop := metas_ok (w_metas w).

Lemma level_counted m place node fields ts subs tags w :
  walk_ok w ->
  (forall f sub pl n t tg w, walk_ok w -> (f, sub) ∈ subs -> walk_ok (sub pl n t tg w)) ->
  walk_ok (gpb_level range m place node fields ts subs tags w).
Proof.
  intros Hw Hsub. unfold gpb_level.
  assert (forall w what n x, walk_ok w -> walk_ok (w_meta (mismatch m what n x) w)) as Hmeta.
  { intros w' what n x Hw'. unfold walk_ok. simpl. apply metas_app; [done|].
    unfold mismatch. auto using base_path_error_ok with metas. }
  set (w0 := load_names place node fields w).
  assert (walk_ok w0) as H0 by (unfold w0, load_names; by case_match).
  set (es := range_of _ _ _). 
  assert (walk_ok (fold_left (tag_step m place node fields) es (tags, w_range w0)).2) as H1.
  { apply (fold_keeps (fun a => walk_ok a.2)); [done|]. intros [tg w'] e Hw' _. simpl.
    case_match; [done|]. by apply Hmeta. }
  destruct (fold_left (tag_step m place node fields) _ _) as [tg w1]. simpl in H1.
  set (es' := range_of _ _ _).
  assert (walk_ok (fold_left (sensor_step m place node fields ts tg) es' (false, w_range w1)).2) as H2.
  { apply (fold_keeps (fun a => walk_ok a.2)); [done|]. intros [wr w'] e Hw' _. simpl.
    case_match; [done|]. by apply Hmeta. }
  destruct (fold_left (sensor_step m place node fields ts tg) _ _) as [written w2]. simpl in H2.
  apply fold_keeps; [by destruct written|]. intros w' e Hw' _. unfold container_step.
  destruct (FieldByName _ subs) as [sub|] eqn:Es; [|by apply Hmeta].
  apply FieldByName_elem in Es as [f Hf]. by eapply Hsub.
Qed.

Lemma field_counted m r : forall place node ts tags w,
  walk_ok w -> walk_ok (gpb_field range m r place node ts tags w).
Proof.
  induction r as [fields IH| |r IH|elems IH|v] using rval_tree_ind;
    intros place node ts tags w Hw; simpl; try done.
  - apply level_counted; [done|].
    intros f sub pl n t tg w' Hw' ([f' v] & [= -> ->] & Hin)%list_elem_of_fmap. by eapply IH.
  - destruct r; try done. by apply IH.
  - apply fold_keeps; [done|]. intros w' e Hw' He. destruct e; try done; by apply IH.
Qed.

#[export] Instance dataMsg_source_counted `{F : FmtEnv} : CountedSource Ctx dataMsg pstate
  (MS := dataMsg_MetricsSource range).
Proof.
  constructor. intros specDB [m|m] p; simpl; [|apply metas_nil].
  unfold gpb_produceMetrics. destruct (specDB !! _) as [node|]; [|apply metas_nil].
  destruct (DataGpb _); [|apply metas_nil]. simpl.
  change (walk_ok (produceGPBMetrics range m [EncodingPath (cachedDecode m)] node
    (MsgTimestamp (cachedDecode m)) (base_tags (cachedDecode m) (gpb_source m)) (Walk p [] []))).
  unfold produceGPBMetrics. pose proof (decoded_tbl_ok m) as Ht.
  destruct (getGPBDecodedTbl m) as [m' [ms tbl]]. simpl in Ht.
  assert (walk_ok (fold_left (fun w x => w_meta x w) ms (Walk p [] []))) as Hw.
  { apply fold_keeps; [apply metas_nil|]. intros w x Hw Hx. apply metas_app; [done|].
    apply metas_cons; [|apply metas_nil]. unfold metas_ok in Ht. by rewrite list.Forall_forall in Ht; apply Ht. }
  destruct tbl as [rows|]; [|done]. apply fold_keeps; [done|].
  intros w row Hw' _. by apply field_counted.
Qed.
End Walk.

(** ** What the components count *)

Section Inputs.
Context {C M : Type} `{K : Codec C M} `{CC : !CountedCodec C M}.

Lemma nextBlock_counted p b s : metas_ok (nextBlock (M := M) p b s).2.1.
Proof.
  assert (forall p b, metas_ok (call_codec (M := M) p b).1) as Hc.
  { intros p' b'. unfold call_codec. destruct (p_nextCodec p'); [apply block_counted|apply metas_nil]. }
  unfold nextBlock, nextBlock_all, nextBlock_data, nextBlock_hdr.
  repeat case_match; simpl; auto with metas.
Qed.

Lemma run_then_counted ms sends (r : conn_run M) :
  metas_ok ms -> metas_ok (cr_metas r) -> metas_ok (cr_metas (run_then ms sends r)).
Proof. apply metas_app. Qed.

Lemma tcp_counted name encap remote nch cancelled fuel input :
  metas_ok (cr_metas (handleConnection (M := M) name encap remote nch cancelled fuel input)).
Proof.
  unfold handleConnection. destruct (getNewEncapParser _ _ _) as [p| |]; [|apply metas_nil..].
  generalize 0. revert p input.
  induction fuel as [|fuel IH]; intros p input i; [apply metas_nil|]. simpl.
  destruct (nextBlockBuffer p) as [n| |]; [|apply metas_nil..].
  case_bool_decide; [apply metas_nil|]. destruct (cancelled i); [apply metas_nil|].
  destruct (read_full n input) as [[a b]| |]; [|apply metas_nil..].
  pose proof (nextBlock_counted p a None) as Hn.
  destruct (nextBlock p a None) as [p' [ms [[msgs|]| |]]]; simpl in Hn;
    apply run_then_counted; auto with metas.
Qed.

Lemma udp_chans_counted name remote m turns : forall nch i,
  metas_ok (udp_chans (M := M) name remote m turns nch i).1.1.
Proof.
  induction nch as [|nch IH]; intros i; simpl; [apply metas_nil|].
  specialize (IH (S i)). destruct (udp_chans _ _ _ _ _ _) as [[ms sends] stop]. simpl in IH.
  destruct (turns i); simpl; auto with metas.
Qed.

Lemma udp_msgs_counted name remote nch turns msgs : forall i,
  metas_ok (udp_msgs (M := M) name remote nch turns i msgs).1.1.
Proof.
  induction msgs as [|m msgs IH]; intros i; simpl; [apply metas_nil|].
  pose proof (udp_chans_counted name remote m (turns i) nch 0) as Hc. specialize (IH (S i)).
  destruct (udp_chans _ _ _ _ _ _) as [[ms sends] stop]. simpl in Hc.
  destruct stop; [done|]. destruct (udp_msgs _ _ _ _ _ _) as [[ms' sends'] stop'].
  by apply metas_app.
Qed.

Lemma udp_counted name encap nch evs :
  metas_ok (ur_metas (runServer (M := M) name encap nch evs)).
Proof.
  unfold runServer. destruct (getNewEncapParser _ _ _) as [p| |]; [|apply metas_nil..].
  revert p. induction evs as [|ev evs IH]; intros p; simpl; [apply metas_nil|].
  destruct (nextBlockBuffer p) as [n| |]; [|apply metas_nil..].
  destruct ev as [datagram remote turns|remote c]; [|destruct c; simpl; auto with metas].
  unfold udp_datagram. pose proof (nextBlock_counted p (take n datagram) (Some remote)) as Hn.
  destruct (nextBlock p _ _) as [p' [ms r]]. simpl in Hn.
  destruct r as [msgs| |]; simpl; auto with metas.
  pose proof (udp_msgs_counted name remote nch turns (default [] msgs) 0) as Hm.
  destruct (udp_msgs _ _ _ _ _ _) as [[ms' sends] stop]. simpl in Hm.
  destruct stop; simpl; auto 8 with metas.
Qed.

Lemma stream_data_counted codec source nch data cancel (rest : Grpc.stream_run M) :
  metas_ok (Grpc.sr_metas rest) ->
  metas_ok (Grpc.sr_metas (stream_data codec source nch data cancel rest)).
Proof.
  intros Hr. unfold stream_data. pose proof (block_counted codec (Some source) data) as Hb.
  destruct (blockToDataMsgs _ _ _) as [ms r]. simpl in Hb.
  destruct r as [dMs| |]; simpl; auto with metas.
  destruct (push_all _ _ _) as [sent ok]. destruct ok; simpl; auto with metas.
Qed.

Lemma dialin_counted codec server nch recvs :
  metas_ok (Grpc.sr_metas (singleSubscription (M := M) codec server nch recvs)).
Proof.
  induction recvs as [|rv recvs IH]; simpl; [apply metas_nil|].
  destruct (rv_done rv); [apply metas_nil|]. destruct (rv_result rv) as [reply| |]; [|apply metas_nil..].
  case_match; [apply metas_nil|]. by apply stream_data_counted.
Qed.

Lemma dialout_counted codec peer nch recvs :
  metas_ok (Grpc.sr_metas (MdtDialout (M := M) codec peer nch recvs)).
Proof.
  induction recvs as [|rv recvs IH]; simpl; [apply metas_nil|].
  destruct (rv_result rv) as [reply| |]; [|apply metas_nil..].
  case_match; [apply metas_nil|]. by apply stream_data_counted.
Qed.

Lemma consumer_counted cfg codec k_name nch evs : forall s s',
  metas_ok (cs_metas s) ->
  consumer_run (M := M) cfg codec k_name nch s evs = Some s' -> metas_ok (cs_metas s').
Proof.
  induction evs as [|ev evs IH]; intros s s' Hs; simpl; [by intros [= <-]|].
  intros (s1 & H1 & Hr)%bind_Some. apply (IH s1); [|done]. clear Hr IH.
  unfold consumer_step in H1. repeat case_match; simplify_eq; try done.
  unfold consumer_data.
  match goal with |- context [blockToDataMsgs ?c ?src ?b] =>
    pose proof (block_counted c src b) as Hb; destruct (blockToDataMsgs c src b) as [ms r] end.
  simpl in Hb. destruct r as [dMs| |]; simpl; auto 6 with metas.
Qed.
End Inputs.

Section Outputs.
Context `{E : Env} `{KE : !KafkaEnv} {M : Type} `{D : !DataMsg M} `{CM : !CountedMsg M}.

Lemma dataMsgToKafkaMessage_counted cfg (msg : M) :
  metas_ok (dataMsgToKafkaMessage cfg msg).1.
Proof.
  unfold dataMsgToKafkaMessage.
  repeat match goal with
  | |- context [produceByteStream ?m ?s] =>
      pose proof (stream_counted m s); destruct (produceByteStream m s)
  | |- metas_ok ((if ?b then _ else _).1) => destruct b
  | |- metas_ok ((match ?x with _ => _ end).1) => destruct x
  | |- metas_ok ((let '(_, _) := ?x in _).1) => destruct x
  end; simpl in *; auto with metas.
Qed.

Lemma feeder_counted cfg evs : forall s s',
  metas_ok (fd_metas s) -> feeder_run (M := M) cfg s evs = Some s' -> metas_ok (fd_metas s').
Proof.
  induction evs as [|ev evs IH]; intros s s' Hs; simpl; [by intros [= <-]|].
  intros (s1 & H1 & Hr)%bind_Some. apply (IH s1); [|done]. clear Hr IH.
  unfold feeder_step in H1. repeat case_match; simplify_eq; try done.
  all: try (unfold feeder_ctrl; by case_match).
  unfold feeder_msg. match goal with |- context [dataMsgToKafkaMessage cfg ?m] =>
    pose proof (dataMsgToKafkaMessage_counted cfg m) as Hm;
    destruct (dataMsgToKafkaMessage cfg m) as [ms r] end.
  simpl in Hm. repeat case_match; simpl; auto with metas.
Qed.

Lemma quit_metas s p c : go_metas (quit s p c) = go_metas s.
Proof. unfold quit, removeChild, close_chan, go_crash. repeat case_match; done. Qed.

Lemma removeChild_metas s i : go_metas (removeChild s i) = go_metas s.
Proof. unfold removeChild, close_chan, go_crash. repeat case_match; done. Qed.

Lemma feedChild_counted cfg data s i :
  metas_ok (go_metas s) -> metas_ok (go_metas (feedChild cfg data s i)).
Proof. intros Hs. unfold feedChild, go_crash. repeat case_match; simpl; auto with metas. Qed.

Lemma go_counted cfg ls : forall s s',
  metas_ok (go_metas s) -> go_run (M := M) cfg s ls = Some s' -> metas_ok (go_metas s').
Proof.
  induction ls as [|l ls IH]; intros s s' Hs; simpl; [by intros [= <-]|].
  intros (s1 & H1 & Hr)%bind_Some. apply (IH s1); [|done]. clear Hr IH.
  unfold go_step in H1. destruct (go_crashed s); [done|].
  destruct l as [|ep|m order|p ok|p|p|order| |];
    try (repeat case_match; simplify_eq; done).
  - destruct (go_mode s); [done| |done].
    pose proof (stream_counted m (gc_streamSpec cfg)) as Hm.
    destruct (produceByteStream _ _) as [ms [data|e|]]; simpl in *; simplify_eq; simpl;
      auto with metas.
    case_match; simplify_eq. simpl.
    apply (fold_keeps (fun s => metas_ok (go_metas s))); simpl;
      auto using feedChild_counted with metas.
  - apply bind_Some in H1 as (c & _ & H1). repeat case_match; simplify_eq; [done|].
    rewrite quit_metas. simpl. auto with metas.
  - apply bind_Some in H1 as (c & _ & H1). case_match; simplify_eq. by rewrite quit_metas.
  - apply bind_Some in H1 as (c & _ & H1). case_match; simplify_eq. by rewrite quit_metas.
  - repeat case_match; simplify_eq. simpl. unfold removeAllChildren.
    apply (fold_keeps (fun s => metas_ok (go_metas s))); [done|].
    intros. by rewrite removeChild_metas.
Qed.

Section Routed.
Context {St : Type} (route : M -> nat -> St -> nat * St)
  (handleCongested : M -> nat -> nat -> list meta * congestionAction)
  (Hh : forall m a w, metas_ok (handleCongested m a w).1).

Lemma router_counted ls : forall s s',
  metas_ok (r_metas s) -> rrun route handleCongested s ls = Some s' -> metas_ok (r_metas s').
Proof.
  induction ls as [|l ls IH]; intros s s' Hs; simpl; [by intros [= <-]|].
  intros (s1 & H1 & Hr)%bind_Some. apply (IH s1); [|done]. clear Hr IH.
  destruct l; simpl in H1; try (repeat case_match; simplify_eq; done).
  destruct (r_mode s) as [|msg i| | |]; simplify_eq. unfold attempt.
  destruct (route msg i (r_route s)) as [w st]. simpl.
  destruct (r_out s !! w) as [c|]; [|done]. destruct (ch_room c); [done|].
  pose proof (Hh msg i w) as Hm. destruct (handleCongested msg i w) as [ms []]; simpl in *;
    auto with metas.
Qed.
End Routed.

Lemma influx_congested_counted name n (m : M) a w :
  metas_ok (influx_handleCongested name n m a w).1.
Proof. unfold influx_handleCongested. case_bool_decide; simpl; auto with metas. Qed.

Context `{F : !FmtEnv} `{IE : !InfluxEnv} {P : Type} `{MS : !MetricsSource metricsInfluxOutputContext M P}
  `{CS : !CountedSource metricsInfluxOutputContext M P (MS := MS)}.

Lemma worker_break_counted name (s : worker_state (P := P)) tag :
  metas_ok (wk_metas s) -> metas_ok (wk_metas (worker_break name s tag)).
Proof. intros Hs. unfold worker_break. case_match; simpl; auto with metas. Qed.

Lemma worker_counted name standalone specDB evs : forall (s s' : worker_state (P := P)),
  metas_ok (wk_metas s) ->
  worker_run (M := M) name standalone specDB s evs = Some s' -> metas_ok (wk_metas s').
Proof.
  induction evs as [|ev evs IH]; intros s s' Hs; simpl; [by intros [= <-]|].
  intros (s1 & H1 & Hr)%bind_Some. apply (IH s1); [|done]. clear Hr IH.
  unfold worker_step in H1.
  destruct (wk_mode s); try done; destruct ev as [ok|msg bok wok|]; simplify_eq; try done.
  destruct bok; simplify_eq; [|by apply worker_break_counted].
  unfold worker_msg. pose proof (metrics_counted specDB msg (wk_p s)) as Hm.
  destruct (produceMetrics _ _ _) as [p [ms [ops r]]]. simpl in Hm.
  destruct (run_mops _ _) as [ctx rt].
  repeat case_match; try apply worker_break_counted; simpl; auto with metas.
Qed.
End Outputs.

Lemma ss_update_counted s key l ts : metas_ok (ss_update s key l ts).2.
Proof. unfold ss_update. repeat case_match; simpl; auto with metas. Qed.

Lemma module_counted m ls : forall s s',
  metas_ok (mm_metas s) -> mm_run m s ls = Some s' -> metas_ok (mm_metas s').
Proof.
  induction ls as [|l ls IH]; intros s s' Hs; simpl; [by intros [= <-]|].
  intros (s1 & H1 & Hr)%bind_Some. apply (IH s1); [|done]. clear Hr IH.
  unfold mm_step in H1. destruct (mm_mode_ s); try done;
    (destruct l; simpl in H1; unfold mm_timer, mm_work in H1;
     repeat match type of H1 with
     | context [ss_update ?a ?b ?c ?d] =>
         pose proof (ss_update_counted a b c d); destruct (ss_update a b c d)
     | (if ?b then _ else _) = _ => destruct b
     | match ?x with _ => _ end = _ => destruct x
     | Some match ?x with _ => _ end = _ => destruct x
     end; simplify_eq; simpl in *; auto with metas).
Qed.

Section Gnmi.
Context `{E : Env} `{GE : !GnmiEnv}.

Lemma gnmi_sends_counted client nch r : metas_ok (gnmi_sends client nch r).1.
Proof.
  unfold gnmi_sends. destruct r as [n|]; [|apply metas_nil].
  destruct (gnmi_notification client n) as [n'| |]; [|apply metas_nil..].
  unfold notificationToDataMsgs. destruct (marshal_notification n'); simpl; auto with metas.
Qed.

Lemma gnmi_counted client nch evs :
  metas_ok (Gnmi.sr_metas (gnmi_stream client nch evs)).
Proof.
  induction evs as [|[[r|e|]| |r k] evs IH]; simpl; try apply metas_nil;
    pose proof (gnmi_sends_counted client nch r) as Hs;
    destruct (gnmi_sends client nch r) as [ms [sends|e|]]; simpl in *; auto with metas.
Qed.
End Gnmi.

(** an empty path panics, where an absent one only leaves the server out *)
Lemma metamon_empty_path `{E : Env} nc :
  (GetString nc "default" "metamonitoring_prometheus_resource" = Some "" ->
   (metamonitoring_init false nc).2 = Panic)
  /\ (GetString nc "default" "metamonitoring_prometheus_resource" = None ->
      (metamonitoring_init false nc).2 = Ok MonDisabled).
Proof. unfold metamonitoring_init. simpl. by split; intros ->. Qed.

(** ** Property *)

Section Property.
Context `{E : Env} `{G : !GpbEnv} `{R : !ReflectEnv ProtoMessage} `{F : !FmtEnv}
  `{IE : !InfluxEnv} `{KE : !KafkaEnv} `{GE : !GnmiEnv}
  (range : nat -> gmap string metricsSpecNode -> list (string * metricsSpecNode)).

(** the calls on the counters that some goroutine of the program makes, in its order *)
Inductive counted_by_run : list meta -> Prop :=
| RunTcp name encap remote nch cancelled fuel input :
    counted_by_run (cr_metas (handleConnection (C := codec) (M := dataMsg)
                                name encap remote nch cancelled fuel input))
| RunUdp name encap nch evs :
    counted_by_run (ur_metas (runServer (C := codec) (M := dataMsg) name encap nch evs))
| RunDialin (c : codec) server nch recvs :
    counted_by_run (Grpc.sr_metas (singleSubscription (M := dataMsg) c server nch recvs))
| RunDialout (c : codec) peer nch recvs :
    counted_by_run (Grpc.sr_metas (MdtDialout (M := dataMsg) c peer nch recvs))
| RunGnmi client nch evs :
    counted_by_run (Gnmi.sr_metas (gnmi_stream client nch evs))
| RunFeeder cfg evs s :
    feeder_run (M := dataMsg) cfg feeder_init evs = Some s -> counted_by_run (fd_metas s)
| RunConsumer cfg (c : codec) k_name nch evs s s' :
    (consumer_start (M := dataMsg) cfg k_name).2 = s ->
    consumer_run cfg c k_name nch s evs = Some s' -> counted_by_run (cs_metas s')
| RunGrpcOut cfg ls s :
    go_run (M := dataMsg) cfg grpcOut_init ls = Some s -> counted_by_run (go_metas s)
| RunInflux name standalone specDB p rt evs s :
    worker_run (M := dataMsg) (P := pstate) (MS := dataMsg_MetricsSource range)
      name standalone specDB (worker_init p rt) evs = Some s -> counted_by_run (wk_metas s)
| RunRouter name n depth outs st ls s :
    rrun (influx_route n) (influx_handleCongested (M := dataMsg) name n)
      (r_init depth outs st) ls = Some s -> counted_by_run (r_metas s)
| RunModule m ls s :
    mm_run m (mm_init m) ls = Some s -> counted_by_run (mm_metas s).

(** C25: no call on a counter can end the process.  The package registers no name twice, and
    every call a goroutine of the program makes on a counter, whatever it receives and
    however it is scheduled, is to a registered one of that kind, with a value for each of its
    labels and never with a negative amount: the panics of the library for a wrong number of
    values, a negative amount or a second registration are not reached. *)
Theorem counters_registered :
  NoDup (map mv_name registered)
  /\ forall ms, counted_by_run ms -> metas_ok ms.
Proof.
  split; [by apply (bool_decide_unpack _); vm_compute|]. intros ms Hms. pose proof metas_nil as Hnil.
  destruct Hms.
  - apply tcp_counted.
  - apply udp_counted.
  - apply dialin_counted.
  - apply dialout_counted.
  - apply gnmi_counted.
  - by eapply feeder_counted; [|eassumption].
  - eapply consumer_counted; [|done]. subst. unfold consumer_start. by destruct (getCodec _ _).
  - by eapply go_counted; [|eassumption].
  - by eapply (worker_counted (CS := dataMsg_source_counted range)); [|eassumption].
  - by eapply router_counted; [apply influx_congested_counted| |eassumption].
  - by eapply module_counted; [|eassumption].
Qed.
End Property.
