(* ===== verification/Relay.v ===== *)
(** * Parts in sequence

    What one pipeline receives and hands to an output, another can take up again: through a
    raw tap and a replay of its file, or through Kafka.  The theorems compose the
    models of the parts; what is between them is a channel, which is a queue, or a broker,
    which hands on the records of a partition in order. *)
From S2P Require Import Prelude Message EncapST Gpb Codec Tcp Tap Replay Kafka.

(** ** A channel between an input and an output *)

(** what was sent on the data channel [j], in order *)
Definition on_channel {M} (j : nat) (sends : list (nat * M)) : list M :=
  omap (fun x => if bool_decide (x.1 = j) then Some x.2 else None) sends.

Lemma on_channel_app {M} j (a b : list (nat * M)) :
  on_channel j (a ++ b) = on_channel j a ++ on_channel j b.
Proof. apply omap_app. Qed.

Lemma on_channel_seq {M} j (m : M) n : forall k,
  on_channel j (map (fun i => (i, m)) (seq k n))
  = if bool_decide (k <= j < k + n) then [m] else [].
Proof.
  unfold on_channel. induction n as [|n IH]; intros k; simpl.
  { by rewrite bool_decide_eq_false_2 by lia. }
  rewrite IH. repeat case_bool_decide; done || lia.
Qed.

Lemma on_channel_spray {M} j nch (msgs : list M) : j < nch -> on_channel j (spray nch msgs) = msgs.
Proof.
  intros Hj. induction msgs as [|m msgs IH]; [done|]. unfold spray in *. simpl.
  rewrite on_channel_app, IH, on_channel_seq. by rewrite bool_decide_eq_true_2 by lia.
Qed.

(** ** Through a raw tap and a replay *)

Section Recording.
Context `{E : Env} `{T : TapEnv} `{G : !GpbEnv} `{!GpbEnvLaws}.

(** the messages among the events of a tap *)
Definition tap_input (evs : list (tap_event dataMsg)) : list dataMsg :=
  omap (fun ev => match ev with TapData _ m => m | _ => None end) evs.

(** an event that does not end the feeder: messages, timeouts and reports *)
Definition tap_goes_on (ev : tap_event dataMsg) : bool :=
  match ev with TapData _ None | TapCtrl SHUTDOWN => false | _ => true end.

Lemma tap_run_mixed (t : tapOutputModule E) evs : forall s : tap_state,
  tap_countOnly t = false -> tap_rawDump t = true ->
  Forall (fun ev => tap_goes_on ev = true) evs ->
  Forall (fun m => raw_total m) (tap_input evs) ->
  tap_running s = true -> tap_chanOpen s = true ->
  let s' := tap_run t s evs in
  tap_written s' = tap_written s ++ concat (map raw_bytes (tap_input evs))
  /\ tap_running s' = true.
Proof.
  induction evs as [|ev evs IH]; intros s Hc Hr HF HT Hrun Hopen.
  { simpl. by rewrite app_nil_r. }
  apply list.Forall_cons in HF as [Hev HF].
  destruct ev as [now|now [m|]|[]]; try done; unfold tap_input in *; simpl in *;
    unfold tapOutputFeederLoop_step; rewrite Hrun; cbn [negb]; try by apply IH.
  - rewrite Hc. by apply IH.
  - apply list.Forall_cons in HT as [Hm HT]. rewrite Hopen. cbn [negb].
    unfold tap_data, tap_raw. rewrite Hc, Hr. unfold raw_total in Hm.
    unfold raw_bytes at 1. destruct (raw_frame m) as [ms [b|e|]]; simpl in *; [|by apply IH|done].
    destruct (IH (tap_write s b)) as [-> ->]; [done..|].
    by rewrite tap_written_write, app_assoc.
Qed.

Lemma tap_run_app (t : tapOutputModule E) evs evs' : forall s : tap_state,
  tap_run t s (evs ++ evs') = tap_run t (tap_run t s evs) evs'.
Proof. induction evs as [|ev evs IH]; intros s; simpl; [done|]. apply IH. Qed.

(** a frame of GPB or JSON as the codecs take it, and the message of it *)
Lemma frame_recorded name remote f :
  good_frame (C := codec) (M := dataMsg) name remote f ->
  f.1 = ENC_ST_HDR_MSG_ENCAP_GPB \/ f.1 = ENC_ST_HDR_MSG_ENCAP_JSON ->
  exists m, default [] (ok_or None (frame_msgs (C := codec) (M := dataMsg) name remote f).2) = [m]
  /\ recordable m /\ msg_encap m = f.1 /\ native m = Some f.2.
Proof.
  destruct f as [z b]. cbn [fst snd]. intros (_ & Hne & Hmax & Hok) Hz.
  unfold frame_msgs in *. cbn [fst snd] in *.
  assert (encap_encoding ENC_ST_HDR_MSG_ENCAP_GPB = Some ENCODING_GPB) as HG by done.
  assert (encap_encoding ENC_ST_HDR_MSG_ENCAP_JSON = Some ENCODING_JSON) as HJ by done.
  destruct Hz as [->| ->]; [rewrite HG in *|rewrite HJ in *]; cbn in Hok |- *.
  - unfold codecGPBBlockToDataMsgs in *. change (slice_bytes (Some b)) with b in *.
    destruct (proto_Unmarshal_Telemetry b) as [telem| |] eqn:Eb; [|done..]. cbn.
    eexists. split; [done|]. unfold recordable, slice_len. cbn. rewrite Eb. split_and!; try done; congruence.
  - eexists. split; [done|]. unfold recordable, slice_len. cbn. split_and!; try done; congruence.
Qed.

Lemma recordable_total m : recordable m -> raw_total m.
Proof.
  intros (Hn & _). unfold raw_total, raw_frame.
  destruct m as [m|m]; simpl in *; unfold gpb_produceByteStream, json_produceByteStream; done.
Qed.

(** the messages of the frames, as a tap on the channel [j] meets them *)
Lemma frames_recorded name remote nch j fs :
  j < nch ->
  Forall (good_frame (C := codec) (M := dataMsg) name remote) fs ->
  Forall (fun f => f.1 = ENC_ST_HDR_MSG_ENCAP_GPB \/ f.1 = ENC_ST_HDR_MSG_ENCAP_JSON) fs ->
  let ms := on_channel j (concat (map (fun f => spray nch
    (default [] (ok_or None (frame_msgs (C := codec) (M := dataMsg) name remote f).2))) fs)) in
  Forall recordable ms /\ length ms = length fs
  /\ concat (map raw_bytes ms) = concat (map (fun f => frame f.1 f.2) fs).
Proof.
  intros Hj HF HZ. induction HF as [|f fs Hf HF IH]; [done|].
  apply list.Forall_cons in HZ as [Hz HZ]. destruct (IH HZ) as (H1 & H2 & H3). clear IH.
  destruct (frame_recorded name remote f Hf Hz) as (m & Hm & Hrec & He & Hn).
  cbn [map concat]. rewrite on_channel_app, Hm, on_channel_spray by done. cbn [app].
  split; [by constructor|]. split; [cbn [length]; by rewrite H2|].
  cbn [map concat]. rewrite H3, raw_bytes_frame by done. by rewrite He, Hn.
Qed.

(** C13: what a peer sent is what the archive of a raw tap holds, and what a replay plays.
    A connection that receives good frames of GPB or JSON hands their messages to every
    output.  A raw tap on any of the channels, whatever timeouts and reports come
    between the messages, leaves after its shutdown a file that holds, after what it held
    before, byte for byte the stream the peer sent; and when the file was new, or held the raw
    dump of messages recorded before, a replay of it produces those messages and then the ones
    the connection did, in order, with the same bytes, and ends without an error. *)
Theorem relay_tap name remote nch j fs fuel evs (t : tapOutputModule E) old rt chans k rfuel :
  let input := concat (map (fun f => frame f.1 f.2) fs) in
  let received := on_channel j (cr_sends (handleConnection (C := codec) (M := dataMsg)
                                  name "st" remote nch (fun _ => false) fuel input)) in
  let file := tap_file (tap_run t (tap_init old) (evs ++ [TapCtrl SHUTDOWN])) in
  Forall (good_frame (C := codec) (M := dataMsg) name remote) fs ->
  Forall (fun f => f.1 = ENC_ST_HDR_MSG_ENCAP_GPB \/ f.1 = ENC_ST_HDR_MSG_ENCAP_JSON) fs ->
  j < nch -> length input < fuel ->
  tap_countOnly t = false -> tap_rawDump t = true ->
  Forall (fun ev => tap_goes_on ev = true) evs -> tap_input evs = received ->
  rp_loop rt = false -> rp_firstN rt = 0%Z -> 2 <= rfuel ->
  file = old ++ input
  /\ forall before, Forall recordable before -> old = concat (map raw_bytes before) ->
     length before + length fs < k ->
     exists s out, replay_open (C := codec) (M := dataMsg) rt file false 0 chans = Ok s
     /\ replay_run rt k rfuel s = (out, Some None)
     /\ Forall2 (same_message (replay_String rt)) (before ++ received) out.
Proof.
  intros input received file HF HZ Hj Hfuel Hc Hr Hevs Hin Hl Hn Hrf.
  destruct (frames_recorded name remote nch j fs Hj HF HZ) as (Hrec & Hlen & Hbytes).
  assert (received = on_channel j (concat (map (fun f => spray nch (default []
    (ok_or None (frame_msgs (C := codec) (M := dataMsg) name remote f).2))) fs))) as Hreceived.
  { unfold received, input. by rewrite conn_delivers. }
  rewrite <- Hreceived in *. clear Hreceived.
  assert (file = old ++ input) as Hfile.
  { unfold file. destruct (tap_run_mixed t evs (tap_init old) Hc Hr Hevs) as [Hw Hrun]; try done.
    { rewrite Hin. eapply list.Forall_impl; [exact Hrec|apply recordable_total]. }
    rewrite tap_run_app. simpl. unfold tapOutputFeederLoop_step at 1. rewrite Hrun. simpl.
    rewrite Hw, Hin, Hbytes. unfold tap_written. simpl. by rewrite app_nil_r. }
  split; [done|]. intros before Hb -> Hk. rewrite Hfile. fold input in Hbytes. rewrite <- Hbytes.
  rewrite <- concat_app, <- map_app. apply archive_replays; try done.
  - by apply list.Forall_app.
  - by rewrite length_app, Hlen.
Qed.

End Recording.

(** ** Through Kafka *)

Section Broker.
Context `{E : Env} `{KE : !KafkaEnv} `{G : !GpbEnv}.

(** the messages of the feeder's events whose send succeeded, and the records of the
    consumer's events *)
Definition feeder_sent (evs : list (fevent (M := dataMsg))) : list dataMsg :=
  omap (fun ev => match ev with FMsg m true => Some m | _ => None end) evs.
Definition consumer_records (evs : list cevent) : list ConsumerMessage :=
  omap (fun ev => match ev with CData data => Some data | _ => None end) evs.

(** an event that neither stops the consumer nor makes it miss a send *)
Definition consumer_goes_on (ev : cevent) : Prop :=
  match ev with CInstead _ | CCtrl SHUTDOWN => False | _ => True end.

(** a message that the codec for an encoding made of a block of some producer *)
Definition made_by_codec (e : encoding) (m : dataMsg) : Prop :=
  exists name src b c ms, src <> "" /\ getCodec (Codec := codec_Codec) name e = Ok c
  /\ blockToDataMsgs c (Some src) (Some b) = (ms, Ok (Some [m])).

(** what a record that carries a message holds *)
Definition carries (m : dataMsg) (key : string) (value : slice) : Prop :=
  key = md_Identifier (getMetaData m) /\ value = native m.

(** the codec makes of the message's own bytes, from its own producer, the message again *)
Lemma made_again e name m c :
  e = ENCODING_GPB \/ e = ENCODING_JSON -> made_by_codec e m ->
  getCodec (Codec := codec_Codec) name e = Ok c ->
  md_Identifier (getMetaData m) <> "" /\ is_Some (native m)
  /\ exists ms, blockToDataMsgs c (Some (md_Identifier (getMetaData m))) (native m)
               = (ms, Ok (Some [m])).
Proof.
  intros He (name' & src & b & c' & ms & Hsrc & Hc' & Hb) Hc.
  destruct He as [->| ->]; cbn in Hc', Hc; simplify_eq; cbn in Hb.
  - unfold codecGPBBlockToDataMsgs in *. change (slice_bytes (Some b)) with b in *.
    destruct (proto_Unmarshal_Telemetry b) as [telem| |] eqn:Eb; [|done..].
    unfold codecGPBBlockAndTelemMsgToDataMsgs, res_map_msgs in Hb. simpl in Hb.
    injection Hb as <- <-. simpl. split; [done|]. split; [done|].
    unfold codecGPBBlockToDataMsgs. change (slice_bytes (Some b)) with b. rewrite Eb.
    eexists. reflexivity.
  - unfold res_map_msgs in Hb. simpl in Hb. injection Hb as <- <-. simpl.
    split; [done|]. split; [done|]. eexists. reflexivity.
Qed.

(** what the consumer has sent and is about to send of the record in hand *)
Definition cs_owed (s : consumer (M := dataMsg)) : list (nat * dataMsg) := cs_sent s ++ cs_pending s.

Lemma sending_pending (todo : list (nat * dataMsg)) co cp sc st ms acts :
  cs_pending (Consumer (sending todo) co cp sc st ms acts) = todo.
Proof. by destruct todo. Qed.

(** a record that carries a message, taken by the consumer *)
Lemma consumer_takes e cfg (c : codec) k_name nch (s : consumer (M := dataMsg)) data m :
  e = ENCODING_GPB \/ e = ENCODING_JSON -> made_by_codec e m ->
  getCodec (Codec := codec_Codec) k_name e = Ok c ->
  kc_keySpec cfg = KAFKA_KEY_SPEC_ID -> carries m (cm_Key data) (cm_Value data) ->
  cs_mode s = CSelect ->
  cs_owed (consumer_data cfg c k_name nch s data) = cs_owed s ++ spray nch [m].
Proof.
  intros He Hm Hc Hk [Hkey Hval] Em. destruct (made_again e k_name m c He Hm Hc) as (Hne & _ & ms & Hb).
  unfold consumer_data, extractKafkaProducer, cs_owed. rewrite Hk, Hkey, Hval.
  assert (str_empty (md_Identifier (getMetaData m)) = false) as ->
    by (by destruct (md_Identifier (getMetaData m))).
  rewrite Hb, sending_pending. unfold cs_sent at 1, cs_pending. cbn [cs_acts].
  rewrite omap_app, Em. cbn [omap list_omap]. by rewrite !app_nil_r.
Qed.

Lemma consumer_step_owed cfg (c : codec) k_name nch (s s' : consumer (M := dataMsg)) ev :
  consumer_goes_on ev -> consumer_records [ev] = [] ->
  consumer_step cfg c k_name nch s ev = Some s' -> cs_owed s' = cs_owed s.
Proof.
  intros Hev Hd Hs. unfold consumer_step in Hs.
  destruct (cs_mode s) as [| |[|[i dM] todo]| |] eqn:Em, ev as [cl co| | |data| |id|id|];
    simplify_eq; try done.
  - unfold cs_owed, cs_pending. by rewrite Em.
  - destruct (cs_consumer s); simplify_eq. unfold cs_owed, cs_pending. by rewrite Em.
  - destruct (cs_scheduled s); simplify_eq. unfold cs_owed, cs_sent, cs_pending. rewrite Em. simpl.
    destruct (cs_checkpoint s); by rewrite ?omap_app, ?app_nil_r.
  - unfold consumer_ctrl, cs_owed, cs_sent, cs_pending. rewrite Em. simpl.
    rewrite omap_app. simpl. by destruct id; rewrite ?app_nil_r.
  - by destruct (cs_consumer s); simplify_eq.
  - unfold cs_owed. rewrite sending_pending. unfold cs_sent, cs_pending. rewrite Em. simpl.
    rewrite omap_app. simpl. by rewrite <- app_assoc.
Qed.

Lemma consumer_relays e cfg (c : codec) k_name nch :
  e = ENCODING_GPB \/ e = ENCODING_JSON -> getCodec (Codec := codec_Codec) k_name e = Ok c ->
  kc_keySpec cfg = KAFKA_KEY_SPEC_ID ->
  forall cevs (s s' : consumer (M := dataMsg)) ms,
  consumer_run cfg c k_name nch s cevs = Some s' ->
  Forall consumer_goes_on cevs -> Forall (made_by_codec e) ms ->
  Forall2 (fun m d => carries m (cm_Key d) (cm_Value d)) ms (consumer_records cevs) ->
  cs_owed s' = cs_owed s ++ spray nch ms.
Proof.
  intros He Hc Hk. induction cevs as [|ev cevs IH]; intros s s' ms Hrun HF Hms H2; simpl in Hrun.
  { unfold consumer_records in H2. simpl in H2. inversion H2; subst. simplify_eq.
    by rewrite app_nil_r. }
  apply bind_Some in Hrun as (s1 & H1 & Hrun). apply list.Forall_cons in HF as [Hev HF].
  assert ((exists data, ev = CData data) \/ consumer_records [ev] = []) as [[data ->]|Hd]
    by (destruct ev; naive_solver).
  - unfold consumer_records in H2. simpl in H2. inversion H2 as [|m d ms' ? Hcar H2']; subst.
    apply list.Forall_cons in Hms as [Hm Hms]. unfold consumer_step in H1.
    destruct (cs_mode s) as [| |[|[]]| |] eqn:Em; try done. destruct (cs_consumer s); simplify_eq.
    rewrite (IH _ _ ms' Hrun HF Hms H2'), (consumer_takes e cfg c k_name nch s data m) by done.
    rewrite <- app_assoc. f_equal. unfold spray. simpl. by rewrite app_nil_r.
  - rewrite <- (consumer_step_owed _ _ _ _ _ _ _ Hev Hd H1). apply IH; try done.
    by destruct ev.
Qed.

(** what the feeder puts in the records of the messages it sends *)
Lemma feeder_carries e cfg evs :
  e = ENCODING_GPB \/ e = ENCODING_JSON ->
  streamType (kp_streamSpec cfg) = dMStreamMsgDefault -> kp_keySpec cfg = KAFKA_KEY_SPEC_ID ->
  Forall (made_by_codec e) (feeder_sent evs) ->
  Forall2 (fun m k => carries m (km_Key k) (Some (km_Value k)))
    (feeder_sent evs) (omap (sent_of cfg) evs).
Proof.
  intros He Hs Hk. induction evs as [|ev evs IH]; [constructor|].
  unfold feeder_sent in *. cbn [omap list_omap]. destruct ev as [ok|m []| |id]; simpl; try done.
  intros [Hm HF]%list.Forall_cons.
  destruct (getCodec (Codec := codec_Codec) "" e) as [c| |] eqn:Ec;
    [|by destruct He as [->| ->]..].
  destruct (made_again e "" m c He Hm Ec) as (_ & [b Hb] & _).
  assert ((produceByteStream m (kp_streamSpec cfg)).2 = Ok (Some b)) as Hp.
  { rewrite <- Hb. destruct m as [m|m]; simpl;
      [unfold gpb_produceByteStream|unfold json_produceByteStream]; by rewrite Hs. }
  unfold sent_of, dataMsgToKafkaMessage. destruct (produceByteStream _ _) as [ms r].
  simpl in Hp. subst r. cbn [snd]. constructor; [|by apply IH].
  split; cbn [km_Key km_Value]; [|done]. rewrite Hk. by destruct m.
Qed.

(** C14: a message passes through Kafka unchanged.  One pipeline sends messages as it received
    them, keyed by their producer, to a topic; the broker hands the records it acknowledged to
    a consumer of another pipeline in order, which the control channel does not stop or
    disturb.  The consumer then sends on each of its data channels exactly the messages whose
    send succeeded, in order and equal in everything: bytes, decoded content and the producer
    they came from.  When it waits for the next record it has sent them all; in between, what it has
    sent and what it is about to send of the record in hand are those messages. *)
Theorem relay_kafka e pcfg ccfg (c : codec) k_name nch fevs s s0 cevs s' :
  e = ENCODING_GPB \/ e = ENCODING_JSON ->
  streamType (kp_streamSpec pcfg) = dMStreamMsgDefault ->
  kp_keySpec pcfg = KAFKA_KEY_SPEC_ID -> kc_keySpec ccfg = KAFKA_KEY_SPEC_ID ->
  kc_msgEncoding ccfg = e ->
  feeder_run pcfg feeder_init fevs = Some s ->
  Forall (made_by_codec e) (feeder_sent fevs) ->
  consumer_start (C := codec) (M := dataMsg) ccfg k_name = (Some c, s0) ->
  consumer_run ccfg c k_name nch s0 cevs = Some s' ->
  Forall consumer_goes_on cevs ->
  map (fun d => (cm_Key d, cm_Value d)) (consumer_records cevs)
    = map (fun k => (km_Key k, Some (km_Value k))) (fd_sent s) ->
  cs_sent s' ++ cs_pending s' = spray nch (feeder_sent fevs)
  /\ (cs_mode s' = CSelect -> cs_sent s' = spray nch (feeder_sent fevs)).
Proof.
  intros He Hs Hpk Hck Henc Hf Hms Hstart Hrun HF Hmap.
  destruct (kafka_feeder_accounting pcfg fevs s Hf) as [Hsent _]. rewrite Hsent in Hmap.
  assert (cs_sent s' ++ cs_pending s' = spray nch (feeder_sent fevs)) as Hall; cycle 1.
  { split; [exact Hall|]. intros Em. unfold cs_pending in Hall. by rewrite Em, app_nil_r in Hall. }
  assert (getCodec (Codec := codec_Codec) k_name e = Ok c /\ cs_owed s0 = []) as [Hc H0].
  { unfold consumer_start in Hstart. rewrite Henc in Hstart.
    destruct (getCodec (Codec := codec_Codec) k_name e) as [c'| |]; by simplify_eq/=. }
  fold (cs_owed s'). rewrite (consumer_relays e ccfg c k_name nch He Hc Hck cevs s0 s' (feeder_sent fevs)); [|done..|].
  { by rewrite H0. }
  pose proof (feeder_carries e pcfg fevs He Hs Hpk Hms) as H2. clear -H2 Hmap.
  revert Hmap H2. generalize (feeder_sent fevs), (omap (sent_of pcfg) fevs), (consumer_records cevs).
  intros ms ks ds Hmap H2. revert ds Hmap.
  induction H2 as [|m k ms ks Hc H2 IH]; intros [|d ds] Hmap; simplify_eq/=; constructor; [|auto].
  congruence.
Qed.
End Broker.
