(* ===== verification/Witnesses.v ===== *)
(** * Concrete environments and witnesses

    An environment for each class of the library, simple enough to compute with, and, for
    the theorems that have hypotheses, an instance at concrete inputs where
    these hold. *)
From S2P Require Import Prelude Message EncapST Gpb Codec Tcp TcpServer Udp Tap Replay.
From S2P Require Import Metrics GpbMetrics GpbCompact Router Crypt Influx Prom Gnmi Kafka.
From S2P Require Import Block Grpc GrpcOut Conductor.

(** ** Environments *)

#[local] Instance wEnv : Env := {
  template := unit;
  readFile f := Ok f;
  template_New_Parse _ _ := Ok tt;
  template_Name _ := "t";
}.

#[local] Instance wGpb : GpbEnv := {
  ProtoMessage := unit;
  proto_Unmarshal_Telemetry b :=
    Ok (MkTelemetry (string_of_bytes b) "" "path" 0 0 7 [] None 0);
  proto_Marshal_Telemetry t := Ok (bytes_of_string (NodeIdStr t));
  proto_Unmarshal_Pdt _ := Err EOF;
  protoArchive _ := None;
  json_Marshal_drawer _ := Err EOF;
  json_Marshal_hexdump _ := Err EOF;
  json_Marshal_msg _ := Err EOF;
  json_Encode_event _ _ _ := Err EOF;
  MarshalToString_message _ := Err EOF;
  MarshalToString_Telemetry _ := Err EOF;
  template_Execute_msg _ _ := Ok None;
  basePathXlation := None;
}.

#[local] Instance wGpbLaws : GpbEnvLaws.
Proof. by constructor. Qed.

#[local] Instance wFmt : FmtEnv := {
  fmt_float64 _ := "f64";
  fmt_float32 _ := "f32";
  fmt_decimal _ _ := "dec";
}.

#[local] Instance wReflect : ReflectEnv (ProtoMessage (GpbEnv := wGpb)) := {
  reflect_fields _ := [];
  composite_text _ := "{}";
}.

#[local] Instance wTap : TapEnv := {
  hex_Dump _ := "";
  json_Indent _ := "";
  err_string _ := "";
}.

#[local] Instance wInflux : InfluxEnv := {
  point := string;
  NewPoint name _ _ _ := Ok name;
}.

#[local] Instance wCrypt : CryptEnv := {
  rsa_key := unit;
  pem_Decode _ := Some ("RSA PRIVATE KEY", []);
  ParsePKCS1PrivateKey _ := Ok tt;
  EncryptOAEP _ pw := Ok (Byte.x00 :: bytes_of_string pw);
  DecryptOAEP _ c := match c with [] => Err EOF | _ :: b => Ok (string_of_bytes b) end;
  base64_EncodeToString b := string_of_bytes b;
  base64_DecodeString s := Ok (bytes_of_string s);
  pemFileName := "key.pem";
  configFileName := "pipeline.conf";
  WriteConfigFile _ := Ok tt;
}.

#[local] Instance wCryptLaws : CryptLaws.
Proof.
  constructor.
  - intros b. simpl. f_equal. apply String.list_byte_of_string_of_list_byte.
  - intros k pw c [= <-]. simpl. by rewrite string_bytes_id.
Qed.

#[local] Instance wGnmi : GnmiEnv := {
  ParseFloat _ := None;
  float_to_u64 _ := 0%Z;
  marshal_notification _ := Ok [];
  MarshalToString_notification _ _ := Ok [];
}.

#[local] Instance wKafka : KafkaEnv := {
  template_Execute_meta _ md := Ok (md_Path md);
  KafkaVersion := unit;
  ParseKafkaVersion _ := Ok tt;
}.

(** a configuration section with the given string options *)
Definition wConfig (opts : list (string * string)) : nodeConfig :=
  NodeConfig (fun _ o => snd <$> head (filter (fun kv => kv.1 = o) opts))
    (fun _ _ => None) (fun _ _ => None) (fun _ _ => None) (fun _ => None) [].

(** ** The stream parser *)

Definition wParser (src : option string) : encapSTParser codec :=
  match getNewEncapSTParser (M := dataMsg) "tcp" src with
  | Ok p => p
  | _ => STParser "" [] [] 0 None 0 ENC_ST_WAIT_FOR_HDR None
  end.

Lemma wParser_wf src : parser_wf (M := dataMsg) (wParser src).
Proof.
  unfold wParser. destruct (getNewEncapSTParser (M := dataMsg) "tcp" src) eqn:E0.
  - by eapply getNewEncapSTParser_wf.
  - done.
  - done.
Qed.

Definition hello : bytes := bytes_of_string "hello".

Lemma st_parser_safe_witness :
  is_panic (nextBlock (C := codec) (M := dataMsg) (wParser (Some "peer")) hello None).2.2 = false.
Proof.
  exact (proj2 (st_parser_safe (M := dataMsg) (wParser (Some "peer")) hello None
    (wParser_wf _) (ex_intro _ "peer" eq_refl))).
Defined.

Lemma st_datagram_witness :
  (nextBlock (C := codec) (M := dataMsg) (wParser None) (frame 2 hello ++ hello) (Some "peer")).2
  = blockToDataMsgs (CJSON (CodecJSON "tcp")) (Some "peer") (Some (hello ++ hello)).
Proof.
  apply (st_datagram (M := dataMsg) (wParser None) "peer" hello hello 2 ENCODING_JSON).
  - apply wParser_wf.
  - reflexivity.
  - reflexivity.
  - reflexivity.
  - vm_compute. reflexivity.
Defined.

(** ** Connections *)

Lemma tcp_refines_frames_witness :
  handleConnection (C := codec) (M := dataMsg) "tcp" "st" "peer" 2 (fun _ => false) 6 hello
  = ref_loop 2 "tcp" "peer" 6 hello.
Proof. apply tcp_refines_frames. vm_compute. lia. Defined.

Lemma tcp_terminates_witness :
  is_Some (cr_end (handleConnection (C := codec) (M := dataMsg) "tcp" "st" "peer" 2
    (fun i => Nat.eqb i 3) 6 hello)).
Proof. apply tcp_terminates. vm_compute. lia. Defined.

Lemma tcp_delivers_witness :
  cr_sends (handleConnection (C := codec) (M := dataMsg) "tcp" "st" "peer" 2
    (fun _ => false) 40 (concat (map (fun f => frame f.1 f.2) [(2%Z, hello)])))
  = [(0, DMsgJSON (DataMsgJSON (Some hello) "peer"));
     (1, DMsgJSON (DataMsgJSON (Some hello) "peer"))].
Proof.
  rewrite (tcp_delivers (C := codec) (M := dataMsg) "tcp" "peer" 2 [(2%Z, hello)] 40).
  - reflexivity.
  - by repeat constructor.
  - vm_compute. lia.
Defined.

Lemma tcp_shutdown_witness :
  exists s, tcp_run tcp_init [TAcceptOk; TCtrl SHUTDOWN] = Some s
  /\ tc_acks s = [SHUTDOWN] /\ tc_conns s = 1.
Proof.
  destruct (tcp_shutdown [TAcceptOk] (TcpServer Accepting false true 1 true [] false))
    as (s' & H1 & H2 & H3 & _); [reflexivity..|].
  exists s'. split; [|done].
  change (tcp_run tcp_init [TAcceptOk; TCtrl SHUTDOWN])
    with (s'' ← tcp_step (TcpServer Accepting false true 1 true [] false) (TCtrl SHUTDOWN);
          tcp_run s'' []).
  by rewrite H1.
Defined.

Lemma tcp_accept_error_witness :
  exists s, tcp_run tcp_init [TAcceptErr; TCtrl SHUTDOWN; TRetry] = Some s
  /\ tc_crashed s = true.
Proof.
  eexists. split; [reflexivity|].
  destruct (tcp_accept_error tcp_init [TCtrl SHUTDOWN; TRetry]
    (TcpServer Accepting true false 1 false [SHUTDOWN] true)) as [_ [H|(H & _)]];
    [reflexivity..|exact H|discriminate H].
Defined.

(** ** Datagrams *)

(** a datagram of JSON whose turns leave channel 0 alone and find channel 1 full *)
Definition wDatagram : udp_event :=
  UdpDatagram (frame 2 hello) "peer" (fun _ j => if Nat.eqb j 0 then TurnSent else TurnFull).

Definition wJson : dataMsg := DMsgJSON (DataMsgJSON (Some hello) "peer").

Lemma wDatagram_good : good_datagram (C := codec) "udp" wDatagram [wJson].
Proof.
  eexists _, _, _, _. split; [reflexivity|]. split; [vm_compute; reflexivity|].
  intros i [|j]; discriminate.
Qed.

Lemma udp_isolates_witness :
  on_chan 0 (ur_sends (runServer (C := codec) (M := dataMsg) "udp" "st" 2 [wDatagram])) = [wJson]
  /\ on_chan 1 (ur_sends (runServer (C := codec) (M := dataMsg) "udp" "st" 2 [wDatagram])) = [].
Proof.
  destruct (udp_isolates (C := codec) (M := dataMsg) "udp" 2 [wDatagram] [[wJson]]) as [_ H].
  { repeat constructor. apply wDatagram_good. }
  split; [exact (H 0 ltac:(lia))|exact (H 1 ltac:(lia))].
Defined.

Lemma udp_bad_datagram_witness :
  runServer (C := codec) (M := dataMsg) "udp" "st" 2
    ([] ++ [UdpDatagram hello "peer" (fun _ _ => TurnSent); wDatagram])
  = UdpRun [Inc "xportUDP_errors" ["udp"; "peer"]] [] (Some (UdpBlock ErrUnexpectedEOF)).
Proof.
  rewrite (udp_bad_datagram (C := codec) (M := dataMsg) "udp" 2 [] [] hello "peer"
    (fun _ _ => TurnSent) [] ErrUnexpectedEOF [wDatagram]);
    [reflexivity|constructor|vm_compute; reflexivity].
Defined.

Lemma udp_shutdown_witness :
  exists ls s, keeper_run (Keeper KRetry false false false []) ls = Some s
  /\ kp_mode s = KReturned /\ length ls <= 4.
Proof.
  destruct (udp_shutdown [KBind false] (Keeper KRetry false false false [])) as (_ & _ & _ & H);
    [reflexivity|].
  destruct (H ltac:(discriminate)) as (ls & s & H1 & H2 & H3 & _). exists ls, s. done.
Defined.

(** ** Archives *)

Definition wReplay : replayInputModule := ReplayModule "replay" "f" false 0 false 0.
Definition wReplayLoop : replayInputModule := ReplayModule "replay" "f" false 0 true 0.

Lemma archive_roundtrip_witness :
  exists s out, replay_open (C := codec) (M := dataMsg) wReplay
      (raw_bytes (DMsgJSON (DataMsgJSON (Some hello) "a")) ++ []) false 0 [] = Ok s
  /\ replay_run wReplay 2 2 s = (out, Some None)
  /\ Forall2 (same_message "replay:f") [DMsgJSON (DataMsgJSON (Some hello) "a")] out.
Proof.
  apply (archive_roundtrip wReplay [] 2 2 [DMsgJSON (DataMsgJSON (Some hello) "a")]);
    try reflexivity; try (simpl; lia).
  repeat constructor; try done.
Defined.

Lemma replay_exhausted_witness :
  exists ticks n, replay_node_run (C := codec) (M := dataMsg) wReplay 2 (replay_node_init [])
    (ROpen (Some (frame 2 hello ++ [])) :: replicate ticks RTick) = Some n
  /\ rn_out n = [DMsgJSON (DataMsgJSON (Some hello) "replay:f")]
  /\ replay_node_step wReplay 2 n (RCtrl SHUTDOWN) = None.
Proof.
  destruct (replay_exhausted (C := codec) (M := dataMsg) wReplay [] [(2%Z, hello)] 2)
    as (ticks & n & H1 & H2 & _ & H3); [by repeat constructor|reflexivity..|lia|].
  exists ticks, n. split; [exact H1|]. split; [rewrite H2; reflexivity|apply H3].
Defined.

Lemma replay_loop_hangs_witness fuel :
  (replay_tick (C := codec) (M := dataMsg) wReplayLoop fuel
    (ReplayState [] [] (ok_or (wParser None)
       (getNewEncapParser (M := dataMsg) "replay" "st" (Some "replay:f"))) false 0 [])).2.2 = None.
Proof.
  apply (replay_loop_hangs wReplayLoop fuel []); [reflexivity|reflexivity|by left].
Defined.

Lemma tap_raw_dump_witness :
  tap_file (tapOutputFeederLoop_step (M := dataMsg)
    (TapModule "tap" "f" false true dataMsgStreamSpecDefault 1)
    (tap_run (TapModule "tap" "f" false true dataMsgStreamSpecDefault 1) (tap_init [])
      [TapData "now" (Some (DMsgJSON (DataMsgJSON (Some hello) "a")))])
    (TapCtrl SHUTDOWN)).1 = frame 2 hello ++ [].
Proof.
  pose proof (tap_raw_dump (M := dataMsg)
    (TapModule "tap" "f" false true dataMsgStreamSpecDefault 1) []
    [("now", DMsgJSON (DataMsgJSON (Some hello) "a"))]) as Hd.
  cbv zeta in Hd. cbn [map fst snd] in Hd.
  destruct (tapOutputFeederLoop_step _ _ _) as [s' [ms replies]].
  destruct Hd as [Hf _]; [by repeat constructor|reflexivity|reflexivity|].
  simpl. rewrite Hf. reflexivity.
Defined.

Lemma pdt_target_spec_witness :
  exists t, pdt_target (MkPdtHeader "node" "policy" 1 2 [MkPdtTable "p" [hello]]) = Ok t
  /\ EncodingPath t = "p".
Proof.
  destruct (pdt_target_spec (MkPdtHeader "node" "policy" 1 2 [MkPdtTable "p" [hello]]) "p")
    as (t & H1 & H2 & _); [done|by repeat constructor|done|eauto].
Defined.

(** ** Metrics *)

(** a container with a tag [t] and a tracked sensor [v] *)
Definition wSpec : specJSON :=
  SpecJSON "root" false false
    [SpecJSON "t" true false []; SpecJSON "v" false true []].

Definition wNode : metricsSpecNode :=
  ok_or (SpecNode "" false false metricsSpecNodeTypeSensor "" ∅ ∅ ∅ ∅)
    (buildSpecDBSubtree (Ctx := metricsInfluxOutputContext) wSpec "" "__").

Definition wFields : list TelemetryField :=
  [TField 0 "t" (Some (StringValue "x")) []; leaf "v" 5; leaf "v" 6].

Lemma tag_pass_complete_witness :
  tag_pass wNode wFields [] = [] ++ [Atom "root__t" (GString "x")].
Proof.
  rewrite (tag_pass_complete wNode wFields []); [vm_compute; reflexivity|].
  vm_compute. repeat constructor; set_solver.
Defined.

Lemma buildSpecDB_names_witness :
  exists c, tree_at wNode [(Some metricsSpecNodeTypeSensor, "v")] = Some c
  /\ nd_fqName c = "root__v" /\ nd_Track c = true
  /\ tree_at wNode [(Some metricsSpecNodeTypeTag, "v")] = None.
Proof.
  assert (buildSpecDBSubtree (Ctx := metricsInfluxOutputContext) wSpec "" "__" = Ok wNode) as Hb
    by reflexivity.
  pose proof (buildSpecDB_names wSpec wNode [(Some metricsSpecNodeTypeSensor, "v")] Hb) as H.
  pose proof (buildSpecDB_names wSpec wNode [(Some metricsSpecNodeTypeTag, "v")] Hb) as H'.
  destruct (tree_at wNode [(Some metricsSpecNodeTypeSensor, "v")]) as [c|]; [|destruct H].
  destruct (tree_at wNode [(Some metricsSpecNodeTypeTag, "v")]) as [c'|]; [destruct H'|].
  destruct H as (_ & Ht & _ & Hn). exists c. split; [reflexivity|]. split; [exact Hn|].
  split; [exact Ht|reflexivity].
Defined.

Lemma statRecordUpdate_invariant_witness :
  statRecords (statRecordUpdate (StatTable {["k" := 5%Z]} 1) "k" 9).1 !! "k" = Some 9%Z.
Proof.
  destruct (statRecordUpdate_invariant (StatTable {["k" := 5%Z]} 1) "k" 9) as (_ & H & _).
  - unfold stat_wf. vm_compute. discriminate.
  - exact (H 5%Z eq_refl).
Defined.

Lemma evictStale_exact_witness :
  statRecords (evictStale (StatTable {["k" := 5%Z]} 1) 400000) !! "k" = None.
Proof.
  rewrite (evictStale_exact (StatTable {["k" := 5%Z]} 1) 400000 "k").
  - vm_compute. reflexivity.
  - lia.
  - intros k' l Hl. simpl in Hl.
    apply lookup_singleton_Some in Hl as [_ <-]. lia.
Defined.

(** ** The router *)

Definition wRoute (msg : nat) (i : nat) (st : nat) : nat * nat := (0, S st).
Definition wCongested (msg i w : nat) : list meta * congestionAction := ([], DATAMSG_ROUTER_DROP).

Definition wRouter (ls : list (rlabel nat)) : rstate nat nat :=
  default (r_init 2 [1] 0) (rrun wRoute wCongested (r_init 2 [1] 0) ls).

Lemma rrun_rtc (ls : list (rlabel nat)) : forall s s',
  rrun wRoute wCongested s ls = Some s' -> rtc (rstep wRoute wCongested) s s'.
Proof.
  induction ls as [|l ls IH]; intros s s' H; simpl in H; [simplify_eq; constructor|].
  destruct (rexec wRoute wCongested s l) as [s1|] eqn:E0; [|done].
  eapply rtc_l; [by exists l|]. by apply IH.
Qed.

Lemma router_invariant_witness :
  r_inv (wRouter [LOffer 7; LOffer 8; LTake; LAttempt; LTake; LAttempt; LConsume 0]).
Proof.
  apply (router_invariant wRoute wCongested 2 [1] 0).
  apply (rrun_rtc [LOffer 7; LOffer 8; LTake; LAttempt; LTake; LAttempt; LConsume 0]).
  vm_compute. reflexivity.
Defined.

(** one message is queued at the shutdown; the one sent after it is not served *)
Lemma router_shutdown_drains_witness :
  (r_taken (wRouter [LOffer 7; LShutdown; LOffer 8; LTake; LAttempt; LClose]) = [] ++ [7]
   /\ Forall (fun c => ch_closed c = true)
        (r_out (wRouter [LOffer 7; LShutdown; LOffer 8; LTake; LAttempt; LClose])))
  /\ finishes_within wRoute wCongested 6 (wRouter [LOffer 7; LShutdown; LOffer 8])
       (fun s => r_mode s = Returned).
Proof.
  split.
  - apply (router_shutdown_drains wRoute wCongested (wRouter [LOffer 7])
      (wRouter [LOffer 7; LShutdown])).
    + vm_compute. reflexivity.
    + apply (rrun_rtc [LOffer 8; LTake; LAttempt; LClose]). vm_compute. reflexivity.
    + vm_compute. reflexivity.
  - apply (router_shutdown_drains wRoute wCongested (wRouter [LOffer 7])
      (wRouter [LOffer 7; LShutdown])) with (depth := 2) (outs := [1]) (st := 0).
    + vm_compute. reflexivity.
    + apply (rrun_rtc [LOffer 8]). vm_compute. reflexivity.
    + apply (rrun_rtc [LOffer 7]). vm_compute. reflexivity.
    + intros msg i st. simpl. lia.
    + repeat constructor.
Defined.

(** ** Outputs *)

Definition wMsg : dataMsg := DMsgJSON (DataMsgJSON (Some hello) "a").

(** two workers, of which the next in turn is full *)
Definition wBusy : rstate dataMsg nat :=
  RState (make_chan 1) [Chan 1 [] false; Chan 1 [wMsg] false] [[]; []] 0
    (Trying wMsg 0) None [wMsg] [] [].

Lemma influx_hunt_witness :
  r_mode (attempts "influx" 2 3 wBusy) = Idle.
Proof.
  destruct (influx_hunt "influx" 2 wBusy wMsg) as [H _];
    [lia|reflexivity|simpl; lia|reflexivity|exact H].
Defined.

Definition wRange (n : nat) (m : gmap string metricsSpecNode) : list (string * metricsSpecNode) :=
  map_to_list m.

Lemma influx_points_witness :
  ic_fields (run_mops (dataMsg_produceMetrics (Ctx := metricsInfluxOutputContext) wRange
    {["path" := wNode]} wMsg (PState ∅ 0)).2.2.1
    (InfluxCtx "path" None [], StatTable ∅ 0)).1 = None.
Proof.
  destruct (influx_points (MSL := dataMsg_MetricsSource wRange) {["path" := wNode]} wMsg
    (PState ∅ 0) "path" (StatTable ∅ 0)) as (bs & _ & _ & H).
  transitivity (ic_fields (InfluxCtx "path" None (points_of "path" bs)));
    [exact (f_equal ic_fields H)|reflexivity].
Defined.

Lemma influx_time_witness : ms_to_ns 1000 = 1000000000%Z.
Proof. apply (influx_time 1000); lia. Defined.

Lemma influx_worker_stuck_witness :
  wk_written (default (worker_init (PState ∅ 0) (StatTable ∅ 0))
    (worker_run (MS := dataMsg_MetricsSource wRange) "influx" false ∅
      (worker_init (PState ∅ 0) (StatTable ∅ 0)) [EvConnect false; EvConnect false])) = [].
Proof.
  destruct (influx_worker_stuck (MS := dataMsg_MetricsSource wRange) "influx" ∅ (PState ∅ 0)
    (StatTable ∅ 0) [EvConnect false; EvConnect false]
    (Worker WConnecting true None (PState ∅ 0) (StatTable ∅ 0) [] [] [])) as (_ & H & _).
  - repeat constructor; discriminate.
  - reflexivity.
  - exact H.
Defined.


Definition wBatch : batch := ([], [(Atom "s" (GU32 1), 1%Z)], 1%Z).

Lemma prom_leftover_witness :
  pc_posts (run_mevents (H := gw_handler "u") (batch_events wBatch ++ batch_events wBatch)
    (PromCtx "" None [] [DoError 0; Status 202]))
  = [("u", batch_text wBatch +:+ batch_text wBatch)].
Proof. apply (prom_leftover "u" wBatch wBatch 202 []); discriminate. Defined.

Lemma credentials_usable_witness :
  exists added c,
    handleConfig (wConfig []) "influx" [Entered "bob" (Ok "secret")] = Some (added, Ok c)
    /\ getUP c = Ok ("bob", "secret").
Proof.
  destruct (handleConfig (wConfig []) "influx" [Entered "bob" (Ok "secret")])
    as [[added [c|e|]]|] eqn:E0; try discriminate.
  exists added, c. split; [reflexivity|].
  destruct (credentials_usable (wConfig []) "influx" [Entered "bob" (Ok "secret")] added c E0)
    as (pw & H1 & H2).
  change (cryptCollect [Entered "bob" (Ok "secret")] = Some (up_username c, pw)) in H2.
  injection H2 as H3 H4. rewrite H1, <- H3, <- H4. reflexivity.
Defined.

(** ** gNMI *)

Definition wPath : Path := MkPath "oc" [MkPathElem "a" []; MkPathElem "b" []] "".

Lemma gnmi_path_roundtrip_witness :
  parseGnmiSensorPath "oc:a/b@change" = Ok ("oc", ([MkPathElem "a" []; MkPathElem "b" []], f_zero)).
Proof.
  apply (gnmi_path_roundtrip wPath (Some "change")); try discriminate; try reflexivity.
  unfold plain_elem. repeat constructor; discriminate.
Defined.

Lemma gnmi_parse_total_witness :
  is_ok (parseGnmiSensorPath "/a/b") = true
  /\ parseGnmiSensorPath "/interface[name='eth0']/state" = Panic.
Proof.
  split.
  - apply (proj1 (gnmi_parse_total "/a/b")). reflexivity.
  - apply (proj2 (gnmi_parse_total "/interface[name='eth0']/state")). reflexivity.
Defined.

Definition wClient (selectors : gset string) : gnmiClient :=
  GnmiClient "gnmi" "server" false false "" "" "" [] selectors f_minus_one
    (UPCollector "" "" "") false.

Definition wUpdate (name : string) (v : TypedValue) : Update :=
  MkUpdate (Some (MkPath "" [MkPathElem name []] "")) (Some v).

Lemma gnmi_prefilter_witness :
  prefilter (wClient {["/x"]}) (MkPath "" [] "") [wUpdate "y" (UintVal 1); wUpdate "x" (UintVal 2)]
  = Ok [wUpdate "x" (UintVal 2)].
Proof.
  rewrite (gnmi_prefilter (wClient {["/x"]}) (MkPath "" [] "")
    [wUpdate "y" (UintVal 1); wUpdate "x" (UintVal 2)]).
  - vm_compute. reflexivity.
  - repeat apply Forall_cons_2; try apply Forall_nil_2; eexists; reflexivity.
Defined.

Lemma gnmi_selector_sensor_witness :
  "/p" +:+ "/x" = sensor_name (MkPath "" [MkPathElem "p" []] "") (MkPath "" [MkPathElem "x" []] "").
Proof.
  apply (gnmi_selector_sensor (MkPath "" [MkPathElem "p" []] "") (MkPath "" [MkPathElem "x" []] ""));
    [reflexivity|discriminate|by left].
Defined.

Definition wEntry (name : string) : Path :=
  MkPath "" [MkPathElem "interface" [("name", name)]; MkPathElem "in" []] "".

Definition wNotification : dataMsgGNMI :=
  DataMsgGNMI [] "server"
    (MkNotification 5000000 (Some (MkPath "" [MkPathElem "interfaces" []] "gnmi"))
      [MkUpdate (Some (wEntry "eth0")) (Some (UintVal 1));
       MkUpdate (Some (wEntry "eth1")) (Some (UintVal 2))]) false.

Lemma gnmi_influx_collision_witness :
  length (ic_points (run_mops (gnmi_produceMetrics wNotification).1
    (InfluxCtx "interfaces" None [], StatTable ∅ 0)).1) = 1.
Proof.
  rewrite (gnmi_influx_collision wNotification (MkPath "" [MkPathElem "interfaces" []] "gnmi")
    (wEntry "eth0") (wEntry "eth1") (UintVal 1) (UintVal 2) "interfaces" (StatTable ∅ 0));
    try reflexivity; discriminate.
Defined.

(** ** Kafka *)

Definition wProducer : kafkaProducerConfig (KE := wKafka) :=
  ProducerConfig (KE := wKafka) "kafka" "telemetry" None ["broker"] KAFKA_KEY_SPEC_ID
    dataMsgStreamSpecDefault 0 false tt.

Definition wGPB : dataMsg :=
  DMsgGPB (DataMsgGPB (Some hello) "10.0.0.1:57500"
    (MkTelemetry "node" "" "Cisco-IOS:path" 0 0 7 [] None 0) None).

Definition wTemplate : template (Env := wEnv) := tt.

Lemma kafka_topic_witness :
  str_forall topic_char
    (kafkaProducerTopicExtractor "telemetry" (Some wTemplate) (Some (MetaData "a/b:c" "id"))) = true.
Proof.
  apply (kafka_topic "telemetry" wTemplate (MetaData "a/b:c" "id") "a/b:c"). reflexivity.
Defined.

Lemma kafka_feeder_accounting_witness :
  fd_sent (default feeder_init (feeder_run wProducer feeder_init
    [FSetupResult true; FMsg wGPB true]))
  = [MkProducerMessage "telemetry" "10.0.0.1:57500" hello].
Proof.
  destruct (feeder_run wProducer feeder_init [FSetupResult true; FMsg wGPB true]) as [s|] eqn:E0;
    [|discriminate].
  destruct (kafka_feeder_accounting wProducer [FSetupResult true; FMsg wGPB true] s E0) as [H _].
  simpl. rewrite H. reflexivity.
Defined.

Lemma kafka_key_roundtrip_witness :
  extractKafkaProducer "section" KAFKA_KEY_SPEC_ID "10.0.0.1:57500" = "10.0.0.1:57500"
  /\ extractKafkaProducer "section" KAFKA_KEY_SPEC_ID_AND_PATH "Cisco-IOS:path:10.0.0.1:57500"
     = "section".
Proof.
  destruct (kafka_key_roundtrip wGPB "section" "Cisco-IOS:path") as [H1 H2]; [reflexivity|].
  split; [apply H1; discriminate|exact H2].
Defined.

Definition wConsumerCfg : kafkaConsumerConfig :=
  ConsumerConfig "kafka" "topic" "group" [] KAFKA_KEY_SPEC_ID ENCODING_JSON false.

Definition wData : ConsumerMessage := MkConsumerMessage 0 1 "key" (Some hello).

(** two records, of which the second is in hand when the checkpoint timer of the first expired *)
Definition wData2 : ConsumerMessage := MkConsumerMessage 0 2 "key" (Some hello).
Definition wRunEvents : list cevent :=
  [CConnected true true; CData wData; CSent; CInstead REPORT; CData wData2; CSent; CSent; CFlush].

Definition wRan : consumer :=
  default (consumer_start (C := codec) (M := dataMsg) wConsumerCfg "kafka").2
    (consumer_run wConsumerCfg (CJSON (CodecJSON "kafka")) "kafka" 2
       (consumer_start (C := codec) (M := dataMsg) wConsumerCfg "kafka").2 wRunEvents).

Lemma wRan_run :
  consumer_run wConsumerCfg (CJSON (CodecJSON "kafka")) "kafka" 2
    (consumer_start (C := codec) (M := dataMsg) wConsumerCfg "kafka").2 wRunEvents = Some wRan.
Proof. vm_compute. reflexivity. Qed.

Lemma kafka_checkpoint_safe_witness :
  cs_acts wRan !! 6 = Some (AMark wData2)
  /\ length (sends_of (M := dataMsg) wConsumerCfg (CJSON (CodecJSON "kafka")) "kafka" 2 wData) = 2
  /\ ATake wData2 ∈ take 6 (cs_acts wRan)
  /\ served wConsumerCfg (CJSON (CodecJSON "kafka")) "kafka" 2 (take 6 (cs_acts wRan)).
Proof.
  split; [vm_compute; reflexivity|]. split; [vm_compute; reflexivity|].
  apply (kafka_checkpoint_safe wConsumerCfg (CJSON (CodecJSON "kafka")) "kafka" 2 wRunEvents);
    [exact wRan_run|vm_compute; reflexivity].
Defined.

Lemma kafka_ok_count_witness :
  length (cs_sent wRan) = 3 /\ MsgsOK (cs_stats wRan) = 0%Z.
Proof.
  split; [vm_compute; reflexivity|].
  apply (kafka_ok_count wConsumerCfg (CJSON (CodecJSON "kafka")) "kafka" 2 wRunEvents);
    [reflexivity|exact wRan_run].
Defined.

Lemma kafka_report_drops_witness :
  exists s', consumer_run (C := codec) wConsumerCfg (CJSON (CodecJSON "kafka")) "kafka" 2
    (Consumer (CSending [(0, wMsg); (1, wMsg)]) true None true msgStats_zero [] [])
    [CInstead REPORT; CSent] = Some s'
  /\ cs_sent s' = [(1, wMsg)].
Proof.
  eexists. split; [reflexivity|].
  apply (kafka_report_drops wConsumerCfg (CJSON (CodecJSON "kafka")) "kafka" 2
    [CInstead REPORT; CSent] (Consumer (CSending [(0, wMsg); (1, wMsg)]) true None true msgStats_zero [] [])
    [(0, wMsg); (1, wMsg)]); [reflexivity|reflexivity| |reflexivity].
  constructor; [right; by exists REPORT|]. constructor; [by left|constructor].
Defined.

(** ** gRPC *)

Lemma block_shutdown_witness :
  (exists ls s, block_run (Block BPause true false true WorkerRuns []) ls = Some s
     /\ bk_mode s = BReturned)
  /\ forall ls s, block_run (Block BPause true false true WorkerLost []) ls = Some s ->
     bk_mode s <> BReturned.
Proof.
  split.
  - destruct (block_shutdown [BPrime; BStart] (Block BPause true false true WorkerRuns []))
      as (_ & H & _); [reflexivity|].
    destruct (H ltac:(discriminate) ltac:(discriminate)) as (ls & s & H1 & H2 & _). eauto.
  - intros ls s Hrun.
    destruct (block_shutdown [BPrime; BStart; BWorkerFatal]
      (Block BPause true false true WorkerLost [])) as (_ & _ & H); [reflexivity|].
    exact (proj1 (proj2 (H eq_refl ls s Hrun))).
Defined.

Definition wRecv : recv :=
  Recv (Ok (Reply (Some hello) "")) false (fun _ => false).
Definition wEof : recv := Recv (Err EOF) false (fun _ => false).

Lemma grpc_streams_witness :
  exists ms, MdtDialout (M := dataMsg) (CJSON (CodecJSON "grpc")) "peer" 2 [wRecv; wEof]
    = StreamRun ms [(0, wJson); (1, wJson)] (Some (StreamClosed EOF)).
Proof.
  destruct (grpc_streams (C := codec) (M := dataMsg) (CJSON (CodecJSON "grpc")) "peer" 2
    [wRecv] [[wJson]]) as [ms H].
  { repeat constructor. eexists _, _. split; [reflexivity|]. split; reflexivity. }
  exists (ms ++ []). exact (proj2 (H [wEof])).
Defined.

(** a dialin section with the credentials typed, and the given encoding *)
Definition wDialin (encoding : string) : nodeConfig :=
  wConfig [("server", "router:57500"); ("subscriptions", "a, b"); ("encoding", encoding)].

Definition wDialinBlock : grpcBlock :=
  GrpcBlock "grpc" (RemoteServer "router:57500" ["a"; "b"]
      (UPCollector "user" (string_of_bytes (Byte.x00 :: bytes_of_string "pw")) "key.pem"))
    ENCODING_GPB ENCODING_TEMPLATE false false "" "" "".

Lemma grpc_dialin_fatal_witness :
  grpc_configure "grpc" (wDialin "template") [Entered "user" (Ok "pw")] = Some (Ok wDialinBlock)
  /\ forall ls s, block_run block_init (BPrime :: BStart :: BWorkerFatal :: ls) = Some s ->
     ~ (SHUTDOWN ∈ bk_acks s).
Proof.
  split; [vm_compute; reflexivity|]. intros ls s Hrun.
  destruct (grpc_dialin_fatal (C := codec) (M := dataMsg) "grpc" (wDialin "template")
    [Entered "user" (Ok "pw")] wDialinBlock "router:57500" true true 0) as [_ H];
    [vm_compute; reflexivity|reflexivity|reflexivity|].
  apply (H eq_refl ls s Hrun).
Defined.

Definition wGrpcOut : grpcOutLocalServerConfig :=
  GrpcOutConfig _ "out" ":57501" (StreamSpec dMStreamJSON None) false "" "" "" 1 false.

(** one client, offered two messages with room for one *)
Definition wGoRun : list (go_label dataMsgJSON) :=
  [GoServe; GoConnect "client"; GoMessage (DataMsgJSON (Some hello) "a") [1%Z]].

Definition wGoState : grpcOut :=
  default grpcOut_init (go_run (M := dataMsgJSON) wGrpcOut grpcOut_init wGoRun).

Lemma wJSON_total (m : dataMsgJSON) :
  is_panic (produceByteStream m (gc_streamSpec wGrpcOut)).2 = false.
Proof. reflexivity. Qed.

Lemma grpc_out_safe_witness :
  go_run (M := dataMsgJSON) wGrpcOut grpcOut_init wGoRun = Some wGoState
  /\ go_crashed wGoState = false /\ go_wg wGoState = 1%Z.
Proof.
  split; [vm_compute; reflexivity|].
  destruct (grpc_out_safe (M := dataMsgJSON) wGrpcOut wJSON_total wGoRun wGoState)
    as (H1 & H2 & _); [vm_compute; reflexivity|vm_compute; reflexivity|].
  split; [exact H1|]. rewrite H2. vm_compute. reflexivity.
Defined.

Lemma grpc_out_feed_witness :
  exists s', go_step (M := dataMsgJSON) wGrpcOut wGoState
               (GoMessage (DataMsgJSON (Some hello) "a") [1%Z]) = Some s'
  /\ go_fed s' = [Some hello; Some hello] /\ map cl_dataChan (go_clients s') = [Chan 1 [Some hello] false].
Proof.
  destruct (grpc_out_feed (M := dataMsgJSON) wGrpcOut wJSON_total wGoRun wGoState
    (DataMsgJSON (Some hello) "a") [] (Some hello) [1%Z]) as (s' & H1 & H2 & H3 & _);
    [vm_compute; reflexivity..|].
  exists s'. split; [exact H1|]. rewrite H2, H3. split; vm_compute; reflexivity.
Defined.

(** ** The conductor *)

(** a tap that configures, one that does not, and an input that needs the channel of the tap *)
Definition wPipeline : pipeline_env := {|
  cfg_sections := ["in"; "default"; "tap"; "bad"];
  cfg_GetString section opt :=
    if String.eqb opt "stage"
    then Some (if String.eqb section "in" then "xport_input" else "xport_output")
    else if String.eqb opt "type" then Some section else None;
  outputNodeModules t := Some (fun section =>
    Some (if String.eqb t "tap" then Ok (NodeChan section, NodeChan section) else Err EOF));
  inputNodeModules t := Some (fun section chans =>
    Some (if bool_decide (chans = [NodeChan "tap"]) then Ok (NodeChan section) else Err EOF));
|}.

Lemma load_connects_witness :
  exists s, load_sections wPipeline = Some (Ok s)
  /\ outputNodes s !! "tap" = Some (OutputNode "tap" (NodeChan "tap") (NodeChan "tap"))
  /\ dataChans s = [NodeChan "tap"]
  /\ inputNodes s !! "in" = Some (InputNode "in" (NodeChan "in")).
Proof.
  eexists. split; [reflexivity|].
  edestruct (load_connects wPipeline) as (H1 & H2 & H3); [reflexivity|].
  split; [|split; [exact H2|]].
  - apply H1. split; [|reflexivity]. simpl. set_solver.
  - apply H3. split; [|reflexivity]. simpl. set_solver.
Defined.

Lemma shutdown_order_witness :
  shutdown (fun _ => true) [("in", NodeChan "in")] [("tap", NodeChan "tap")]
  = ([Stopping "in"; Acked "in"; ClosedCtrl "in"; Stopping "tap"; Acked "tap"; ClosedCtrl "tap"],
     true)
  /\ shutdown (fun n => negb (String.eqb n "in")) [("in", NodeChan "in")] [("tap", NodeChan "tap")]
     = ([Stopping "in"], false).
Proof.
  split.
  - apply (shutdown_order (fun _ => true) [("in", NodeChan "in")] [("tap", NodeChan "tap")]).
    repeat constructor; eexists; done.
  - apply (proj2 (shutdown_order (fun n => negb (String.eqb n "in")) [("in", NodeChan "in")]
      [("tap", NodeChan "tap")]) [] "in" (NodeChan "in") []); [done..|].
    by intros (c & [= <-] & H).
Defined.
