(* ===== verification/NodeWitnesses.v ===== *)
(** * Witnesses for the nodes and the conductor

    The theorems of [MetricsModule], [GnmiRun] and [Pipeline] at concrete inputs. *)
From S2P Require Import Prelude Message EncapST Gpb Codec Tap Replay Metrics Crypt Influx Prom Gnmi.
From S2P Require Import Kafka MetricsModule GnmiRun Conductor Pipeline Tcp Replay Relay MetaMon Witnesses.

#[local] Existing Instances wEnv wGpb wGpbLaws wReflect wFmt wInflux wCrypt wGnmi wKafka wTap.

(** ** The metrics output *)

#[local] Instance wSpec : SpecEnv := {
  json_Unmarshal_spec _ := Ok [("path", SpecJSON "root" false false [])];
}.

(** two records tracked, an output installed by a test with one worker *)
Definition wMetricsConfig : nodeConfig :=
  NodeConfig
    (fun _ o => if String.eqb o "file" then Some "spec.json"
                else if String.eqb o "output" then Some "test" else None)
    (fun _ o => if String.eqb o "statsensorcount" then Some 2%Z else None)
    (fun _ _ => None) (fun _ _ => None) (fun _ => None) [].

Definition wMetricsModule : metricsOutputModule :=
  match metrics_configure "id" 1 (Some (TestHandler id id 1)) "metrics" wMetricsConfig [] with
  | Some (Ok m) => m
  | _ => MetricsModule "" "" "" (HTest (TestHandler id id 0)) ∅ 0 false 0
  end.

Lemma wMetrics_configured :
  metrics_configure "id" 1 (Some (TestHandler id id 1)) "metrics" wMetricsConfig []
  = Some (Ok wMetricsModule).
Proof. reflexivity. Defined.

(** a record is found; while its worker is away, it is evicted *)
Definition wMetricsSteps : list mm_label :=
  [LSetup; LFind 0 "k" 1000; LUpdate 0; LTimer; LCtrl REPORT].

Definition wMetricsState : mm_state :=
  default (mm_init wMetricsModule) (mm_run wMetricsModule (mm_init wMetricsModule) wMetricsSteps).

Lemma wMetrics_run :
  mm_run wMetricsModule (mm_init wMetricsModule) wMetricsSteps = Some wMetricsState.
Proof. vm_compute. reflexivity. Defined.

Lemma metrics_module_safe_witness :
  mm_replies wMetricsState = [MMStats msgStats_zero] /\ mm_evict wMetricsState = Some true
  /\ (Z.of_nat (size (statRecords (ss_view (mm_table wMetricsState)))) <= 2)%Z.
Proof.
  split; [vm_compute; reflexivity|]. split; [vm_compute; reflexivity|].
  apply (metrics_module_safe "id" 1 (Some (TestHandler id id 1)) "metrics" wMetricsConfig []
           wMetricsModule wMetricsSteps wMetricsState wMetrics_configured wMetrics_run).
Defined.

Lemma metrics_stats_interleaved_witness :
  exists s', mm_step wMetricsModule wMetricsState (LEvict 1000000) = Some s'
  /\ ss_view (mm_table s') = evictStale (ss_view (mm_table wMetricsState)) 1000000.
Proof.
  eexists. split; [reflexivity|].
  by eapply (metrics_stats_interleaved wMetricsModule wMetricsSteps wMetricsState (LEvict 1000000));
    [exact wMetrics_run|reflexivity|reflexivity].
Defined.

Lemma metrics_shutdown_witness :
  exists s, mm_run wMetricsModule (mm_init wMetricsModule) (wMetricsSteps ++ [LCtrl SHUTDOWN]) = Some s
  /\ exists ls s', length ls <= 3 /\ mm_run wMetricsModule s ls = Some s' /\ mm_mode_ s' = MMReturned.
Proof.
  eexists. split; [vm_compute; reflexivity|].
  edestruct (metrics_shutdown wMetricsModule (wMetricsSteps ++ [LCtrl SHUTDOWN]))
    as [(ls & s' & Hl & Hr & Hm & _) _]; [vm_compute; reflexivity|reflexivity|].
  exists ls, s'. split; [exact Hl|]. split; [exact Hr|exact Hm].
Defined.

(** ** The gNMI input *)

(** a connection that fails to dial, and the next one, that closes at once *)
Definition wConn (dial : bool) : gnmi_conn := GnmiConn true dial true true [].

Definition wGnmiSteps : list gn_label :=
  [GnPrime; GnStart (wConn false); GnWorkerEnds; GnWake; GnStart (wConn true)].

Lemma gnmi_delivers_witness :
  exists s, gn_run (wClient ∅) 1 (gn_init) wGnmiSteps = Some s
  /\ gn_sends s ++ gn_todo s = flat_map (conn_sends (wClient ∅) 1) [wConn false; wConn true].
Proof.
  eexists. split; [vm_compute; reflexivity|].
  by edestruct (gnmi_delivers (wClient ∅) 1 wGnmiSteps) as [H _];
    [vm_compute; reflexivity|exact H].
Defined.

(** ** The conductor *)

(** one tap, raw and counting only, whose module returns no channels *)
Definition wTapConfig (raw : bool) : nodeConfig :=
  NodeConfig
    (fun s o => if String.eqb s "tap" then
                  if String.eqb o "stage" then Some "xport_output"
                  else if String.eqb o "type" then Some "tap"
                  else if String.eqb o "file" then Some "dump.bin" else None
                else None)
    (fun _ o => if String.eqb o "datachanneldepth" then Some 10%Z else None)
    (fun _ o => if String.eqb o "raw" then Some raw
                else if String.eqb o "countonly" then Some true else None)
    (fun _ _ => None) (fun _ => None) ["default"; "tap"].

#[local] Instance wHost : HostEnv := {
  environ := [];
  hostname := Ok "host";
  template_Execute f _ := Ok f;
  goconf_ReadConfigBytes f := Ok (wTapConfig (String.eqb f "raw"));
  json_Unmarshal_map _ := (None, None);
  net_Listen _ := Ok tt;
  net_ResolveUDPAddr _ := Ok "";
  sarama_version_ok _ := true;
  gomaxprocs := 4;
  os_OpenFile _ := Ok tt;
}.

Definition wOptions (config : string) : options := Options false "pipeline.log" config.

Definition wNodes : conductorState := Conductor ∅ ∅ [].

Definition wRange (s : conductorState) : list (string * node_chan) * list (string * node_chan) :=
  (map (fun kn => (kn.1, in_ctrl kn.2)) (map_to_list (inputNodes s)),
   map (fun kn => (kn.1, on_ctrl kn.2)) (map_to_list (outputNodes s))).

Definition wLoaded (file : string) : loaded :=
  match loadConfig file (fun _ => []) with
  | Some (Ok l) => l
  | _ => Loaded "" None None (wNodes)
  end.

Lemma wNil_tap : nil_tap (wTapConfig true) "tap".
Proof.
  split; [by right; left|]. split; [discriminate|]. split; [reflexivity|]. split; reflexivity.
Defined.

Lemma main_stops_witness :
  (exists evs, main (wOptions "plain") (fun _ => []) (fun _ => true) wRange = MainExit evs 0)
  /\ (exists evs, main (wOptions "raw") (fun _ => []) (fun _ => true) wRange = MainWaits evs).
Proof.
  split.
  - apply (main_stops (wTapConfig false) (fun _ => []) (wOptions "plain") "plain" wRange (wLoaded "plain"));
      [by right|reflexivity..|split; reflexivity|].
    intros [x Hx]. destruct Hx as (Hx & Hd & _ & _ & Ht). cbn in Hx.
    apply elem_of_cons in Hx as [->|Hx]; [by destruct Hd|].
    apply list_elem_of_singleton in Hx as ->. vm_compute in Ht. discriminate Ht.
  - apply (main_stops (wTapConfig true) (fun _ => []) (wOptions "raw") "raw" wRange (wLoaded "raw"));
      [by right|reflexivity..|split; reflexivity|].
    exists "tap". exact wNil_tap.
Defined.

Lemma occupancy_bounds_witness :
  let outputs := [("tap", OutputNode "tap" (NodeChan "tap") (NodeChan "tap"))] in
  let rt := RuntimeStats 0 0 0 0 0 0 0 0 in
  Collect rt (fun _ => (0, 0)%Z) (wNodes) outputs = Panic
  /\ Collect rt (fun _ => (5, 10)%Z) (wNodes) outputs <> Panic.
Proof.
  intros outputs rt. split.
  - apply (occupancy_bounds rt (fun _ => (0, 0)%Z) (wNodes) outputs); [done|].
    eexists. split; [by left|reflexivity].
  - intros H. apply (occupancy_bounds rt (fun _ => (5, 10)%Z) (wNodes) outputs) in H;
      [|done]. destruct H as (kn & Hin & Hz). apply list_elem_of_singleton in Hin as ->.
    discriminate Hz.
Defined.

(** ** The counters *)

(** the calls on the counters of a connection that sends one frame *)
Lemma counters_registered_witness :
  let ms := cr_metas (handleConnection (C := codec) (M := dataMsg) "tcp" "st" "peer" 2
                        (fun _ => false) 40 (frame 2 hello)) in
  ms <> [] /\ metas_ok ms.
Proof.
  split; [vm_compute; discriminate|].
  refine (proj2 (counters_registered (KE := wKafka) (GE := wGnmi) (IE := wInflux)
    (R := wReflect) (F := wFmt) (fun _ m => map_to_list m)) _ _).
  exact (RunTcp (fun _ m => map_to_list m) "tcp" "st" "peer" 2 (fun _ => false) 40 (frame 2 hello)).
Defined.

(** ** Parts in sequence *)

Definition wTapModule : tapOutputModule wEnv :=
  TapModule "tap" "f" false true dataMsgStreamSpecDefault 1.

(** a connection of one frame; the tap reports before it gets the message *)
Definition wReceived : list dataMsg := [DMsgJSON (DataMsgJSON (Some hello) "peer")].
Definition wTapEvents : list (tap_event dataMsg) :=
  [TapCtrl REPORT; TapData "now" (Some (DMsgJSON (DataMsgJSON (Some hello) "peer")));
   TapTimeout "later"].

(** the file holds the dump of an earlier run *)
Definition wBefore : list dataMsg := [DMsgJSON (DataMsgJSON (Some hello) "earlier")].

Lemma relay_tap_witness :
  tap_file (tap_run wTapModule (tap_init (frame 2 hello)) (wTapEvents ++ [TapCtrl SHUTDOWN]))
  = frame 2 hello ++ frame 2 hello ++ []
  /\ exists s out,
     replay_open (C := codec) (M := dataMsg) wReplay (frame 2 hello ++ frame 2 hello ++ []) false 0 []
     = Ok s
     /\ replay_run wReplay 3 2 s = (out, Some None)
     /\ Forall2 (same_message "replay:f") (wBefore ++ wReceived) out.
Proof.
  destruct (relay_tap "tcp" "peer" 2 1 [(2%Z, hello)] 40 wTapEvents wTapModule (frame 2 hello)
    wReplay [] 3 2) as [Hf Hplay]; try reflexivity; try (simpl; lia).
  { by repeat constructor. }
  { constructor; [by right|constructor]. }
  { by repeat constructor. }
  destruct (Hplay wBefore) as (s & out & Hs & Hr & Ho); [|reflexivity|simpl; lia|].
  { by repeat constructor. }
  split; [exact Hf|]. exists s, out. split; [by rewrite Hf in Hs|split; [exact Hr|exact Ho]].
Defined.

(** a message sent, one whose send failed, and another; the consumer answers a report *)
Definition wMessage (text : string) : dataMsg :=
  DMsgJSON (DataMsgJSON (Some (bytes_of_string text)) "10.0.0.1:57500").
Definition wFeederEvents : list (fevent (M := dataMsg)) :=
  [FSetupResult true; FMsg (wMessage "one") true; FMsg (wMessage "two") false; FCtrl REPORT;
   FMsg (wMessage "three") true].
Definition wRecord (n : Z) (text : string) : ConsumerMessage :=
  MkConsumerMessage 0 n "10.0.0.1:57500" (Some (bytes_of_string text)).
Definition wConsumerEvents : list cevent :=
  [CConnected true true; CData (wRecord 0 "one"); CSent; CSent; CFlush; CCtrl REPORT;
   CData (wRecord 1 "three"); CSent; CSent].

Definition wRelayed : consumer :=
  default (consumer_start (C := codec) (M := dataMsg) wConsumerCfg "kafka").2
    (consumer_run wConsumerCfg (CJSON (CodecJSON "kafka")) "kafka" 2
       (consumer_start (C := codec) (M := dataMsg) wConsumerCfg "kafka").2 wConsumerEvents).

Lemma wRelayed_run :
  consumer_run wConsumerCfg (CJSON (CodecJSON "kafka")) "kafka" 2
    (consumer_start (C := codec) (M := dataMsg) wConsumerCfg "kafka").2 wConsumerEvents
  = Some wRelayed.
Proof. vm_compute. reflexivity. Qed.

Lemma relay_kafka_witness :
  cs_sent wRelayed = [(0, wMessage "one"); (1, wMessage "one");
                      (0, wMessage "three"); (1, wMessage "three")].
Proof.
  transitivity (spray 2 (feeder_sent wFeederEvents)); [|reflexivity].
  eapply (relay_kafka ENCODING_JSON wProducer wConsumerCfg (CJSON (CodecJSON "kafka")) "kafka" 2
            wFeederEvents _ _ wConsumerEvents wRelayed).
  - by right.
  - reflexivity.
  - reflexivity.
  - reflexivity.
  - reflexivity.
  - vm_compute. reflexivity.
  - repeat constructor; eexists "kafka", "10.0.0.1:57500", _, (CJSON (CodecJSON "kafka")), _;
      (split; [done|split; reflexivity]).
  - reflexivity.
  - exact wRelayed_run.
  - by repeat constructor.
  - vm_compute. reflexivity.
  - vm_compute. reflexivity.
Defined.
