(* ===== verification/JsonWitnesses.v ===== *)
(** * Witnesses for the marshaler of protocol buffers

    A message with nested messages, a map and an [Any], and the theorems of [JsonpbText],
    [JsonpbOrder], [JsonpbFuel] and [JsonpbTimes] on it; a message of a generated type, with
    well-known types in it, and the round trip of [JsonpbBack] on it; a compact message and its
    stream of [Render]; documents that [UnmarshalSafe] lets through and two it does not. *)
From S2P Require Import Prelude Message Json Jsonpb JsonpbFacts JsonpbText JsonpbOrder JsonpbFuel.
From S2P Require Import JsonpbTimes JsonTree Unmarshal JsonpbRound JsonpbFields JsonpbBack.
From S2P Require Import UnmarshalSafe Gpb Render Witnesses.

Definition wField (name : string) : field_info :=
  FieldInfo name "" true (Props name name name "" false false None None).

Definition wMsg (fields : list (field_info * gval)) : gval :=
  VMsg (MsgInfo None None) fields [].

(** bytes unpack into a message with a string, or into an [Any] with those bytes and no URL *)
#[local] Instance wJsonpb : JsonpbEnv := {
  MessageType n :=
    if String.eqb n "pkg.T"
    then Some (fun b => Ok (wMsg [(wField "s", VString (string_of_bytes b))]))
    else if String.eqb n "google.protobuf.Any"
    then Some (fun b => Ok (VMsg (MsgInfo (Some "Any") None)
           [(wField "type_url", VString ""); (wField "value", VBytes (Some b))] []))
    else None;
  json_float32 _ := "0";
  json_float64 _ := "0.5";
  json_add_type _ _ _ := Err EOF;
}.

Definition wMarshaler (ind : string) : Marshaler := MkMarshaler false false ind false None true.

Definition wAny : gval :=
  VMsg (MsgInfo (Some "Any") None)
    [(wField "type_url", VString "type.googleapis.com/pkg.T");
     (wField "value", VBytes (Some [Byte.x61; Byte.x22]))] [].

Definition wValue (swap : bool) : gval :=
  let a := (VInt32 2, VString "two") in
  let b := (VInt32 (-1), VString "minus one") in
  wMsg [(wField "n", VUint64 7);
        (wField "kv", VMap (Some (if swap then [b; a] else [a; b])));
        (wField "any", VPtr (Some wAny))].

Lemma wLaws ind : json_ws ind -> jsonpb_laws (wMarshaler ind).
Proof.
  intros Hi. constructor.
  - intros f _. exists "", "0", "", "". repeat split; by left.
  - intros f _. exists "", "0", ".5", "".
    split; [done|]. split; [by left|]. split; [by left|]. split; [|by left].
    right. exists "5". split; [done|]. split; [reflexivity|discriminate].
  - intros b u i r. discriminate.
  - intros turl val msg. unfold resolve_any, defaultResolveAny. simpl.
    destruct (String.eqb _ "pkg.T"); [|destruct (String.eqb _ _); [|discriminate]]; intros [= <-];
      simpl; repeat (split; try done); reflexivity.
  - exact Hi.
Defined.

Lemma wClean ind : clean (wMarshaler ind) (wValue false).
Proof. simpl. repeat split; try discriminate; reflexivity. Defined.

Lemma wShrinks ind : any_shrinks (wMarshaler ind).
Proof.
  intros turl val msg. unfold resolve_any, defaultResolveAny. simpl.
  destruct turl as [|c turl]; [discriminate|].
  destruct (String.eqb _ "pkg.T"); [|destruct (String.eqb _ _); [|discriminate]]; intros [= <-];
    simpl; lia.
Defined.

(** the text, on one line *)
Definition wText : string :=
  match MarshalToString (wMarshaler "") 3 (Some (wValue false)) with
  | Some (Ok s) => s
  | _ => ""
  end.

Lemma jsonpb_wellformed_witness : json_text wText /\ 20 <= String.length wText.
Proof.
  split; [|apply Nat.leb_le; vm_compute; reflexivity].
  apply (jsonpb_wellformed (wMarshaler "") 3 (wValue false)).
  - by apply wLaws.
  - apply wClean.
  - vm_compute. reflexivity.
Defined.

Lemma jsonpb_map_order_witness :
  marshal (wMarshaler "  ") 3 (wValue false) (AsObject "") ""
  = marshal (wMarshaler "  ") 3 (wValue true) (AsObject "") "".
Proof.
  apply (jsonpb_map_order (wMarshaler "  ") 3 (wValue false) (wValue true)).
  simpl. split; [done|]. split; [|split; [constructor|by exists []]].
  split; [done|]. split; [|split; [|done]].
  - split; [done|]. split; [repeat constructor; set_solver|].
    split; [exists (VInt32 0); repeat constructor|].
    eexists. split; [apply Permutation_swap|]. simpl. done.
  - split; [done|]. simpl. split; [done|]. split; [done|]. split; [constructor|by exists []].
Defined.

(** an [Any] with an empty [Any] in it *)
Definition wAnyAny : gval :=
  VMsg (MsgInfo (Some "Any") None)
    [(wField "type_url", VString "google.protobuf.Any"); (wField "value", VBytes None)] [].

Lemma jsonpb_returns_witness :
  any_size (wValue false) = 27 /\ any_size wAnyAny = 19
  /\ MarshalToString (wMarshaler "") 27 (Some (wValue false)) <> None
  /\ MarshalToString (wMarshaler "") 20 (Some wAnyAny)
     = MarshalToString (wMarshaler "") 19 (Some wAnyAny).
Proof.
  split; [reflexivity|]. split; [reflexivity|]. split.
  - apply (jsonpb_returns (wMarshaler "") 27 0 (wValue false)); [apply wShrinks|].
    change (any_size (wValue false)) with 27. lia.
  - apply (jsonpb_returns (wMarshaler "") 19 1 wAnyAny); [apply wShrinks|].
    change (any_size wAnyAny) with 19. lia.
Defined.

(** a second and a half is written with three digits, half a second before zero is not a number *)
Lemma jsonpb_times_witness :
  t_text (marshal_duration (-1) (-500000000)) = quoted "-1.500s"
  /\ (exists d, yields (marshal_duration 0 (-500000000)) (quoted ("0.-" +:+ d +:+ "s"))).
Proof.
  split; [vm_compute; reflexivity|].
  apply (proj1 (proj2 (jsonpb_times 0 (-500000000)))); [lia|reflexivity].
Defined.

(** ** The round trip *)

Definition wProp (orig json : string) (val : option properties) : properties :=
  Props orig orig json "" false false None val.
Definition wFld (orig json : string) (val : option properties) : field_info :=
  FieldInfo orig "" true (wProp orig json val).

Definition wHidden : field_info := FieldInfo "XXX_unrecognized" "" false no_props.

(** the generated messages: one with a number, a float, a map, a message of its own type, a oneof
    of a string and bytes, a dynamic value, a duration and a wrapped number; the well-known
    types *)
Definition wDesc : msg_desc :=
  MsgDesc (MsgInfo None None) None
    [(wFld "n_value" "nValue" None, TUint64); (wFld "half" "half" None, TFloat64);
     (wFld "kv" "kv" (Some no_props), TMap TInt32 TString);
     (wFld "sub" "sub" None, TMessage "pkg.M"); (wFld "alt" "" None, TOneof);
     (wFld "dyn" "dyn" None, TMessage Value_name); (wFld "dur" "dur" None, TMessage "Duration");
     (wFld "box" "box" None, TMessage "Int64Value"); (wHidden, TBytes)]
    [(4, wFld "s" "s" None, TString); (4, wFld "b" "b" None, TBytes)] [].

Definition wKnownDesc (w : string) (fields : list (string * gtype)) : msg_desc :=
  MsgDesc (MsgInfo (Some w) None) None
    (map (fun ft => (wField ft.1, ft.2)) fields ++ [(wHidden, TBytes)]) [] [].

Definition wMessageDesc (name : string) : msg_desc :=
  if String.eqb name Value_name then wKnownDesc "Value" [("kind", TOneof)]
  else if String.eqb name Struct_name
  then wKnownDesc "Struct" [("fields", TMap TString (TMessage Value_name))]
  else if String.eqb name ListValue_name
  then wKnownDesc "ListValue" [("values", TSlice (TMessage Value_name))]
  else if String.eqb name "Duration"
  then wKnownDesc "Duration" [("seconds", TInt64); ("nanos", TInt32)]
  else if String.eqb name "Int64Value" then wKnownDesc "Int64Value" [("value", TInt64)]
  else wDesc.

Definition wHalf : spec_float := S754_finite false 4503599627370496 (-53).

#[local] Instance wUnmarshal : UnmarshalEnv := {
  MessageDesc := wMessageDesc;
  MessageTypeName _ := None;
  EnumValueMap _ := ∅;
  Value_field := wField;
  ParseFloat32 _ := None;
  ParseFloat64 s := if String.eqb s "0.5" then Some wHalf else None;
  time_ParseDuration s := if String.eqb s "-1.500s" then Ok (-1500000000)%Z else Err EOF;
  time_Parse _ := Err EOF;
  proto_Marshal _ := Err EOF;
  proto_SetExtension _ _ _ := Err EOF;
  json_range A mp := map_to_list mp;
}.

Definition wZero : list (field_info * gtype) := [(wHidden, TBytes)].

(** a dynamic value: a half, and a struct of a list of a null and a string *)
Definition wDyn (kind : string) (x : gval) : gval :=
  known "Value" [(wField "kind", VOneof (Some (Value_field kind, x)))] wZero.
Definition wDynTree : gval :=
  wDyn "StructValue" (VPtr (Some (known "Struct" [(wField "fields", VMap (Some
    [(VString "half", VPtr (Some (wDyn "NumberValue" (VFloat64 wHalf))));
     (VString "list", VPtr (Some (wDyn "ListValue" (VPtr (Some
        (known "ListValue" [(wField "values", VSlice (Some
           [VPtr (Some (wDyn "NullValue" (VEnum true "NULL_VALUE" 0)));
            VPtr (Some (wDyn "StringValue" (VString "two")))]))] wZero))))))]))] wZero))).

Definition wM (n : Z) (sub : option gval) (alt : option (field_info * gval)) : gval :=
  VMsg (MsgInfo None None)
    [(wFld "n_value" "nValue" None, VUint64 n); (wFld "half" "half" None, VFloat64 wHalf);
     (wFld "kv" "kv" (Some no_props), VMap (Some [(VInt32 2, VString "two"); (VInt32 (-1), VString "")]));
     (wFld "sub" "sub" None, VPtr sub); (wFld "alt" "" None, VOneof alt);
     (wFld "dyn" "dyn" None, VPtr (Some wDynTree));
     (wFld "dur" "dur" None, VPtr (Some (known "Duration"
        [(wField "seconds", VInt64 (-1)); (wField "nanos", VInt32 (-500000000))] wZero)));
     (wFld "box" "box" None, VPtr (Some (known "Int64Value" [(wField "value", VInt64 (-7))] wZero)));
     (wHidden, VBytes None)] [].

Definition wTree : gval :=
  wM 18446744073709551615 (Some (wM 0 None None))
    (Some (wFld "b" "b" None, VBytes (Some [Byte.x61; Byte.x22]))).

Lemma wGenerated : generated "pkg.M".
Proof.
  constructor; [reflexivity|reflexivity| |].
  - apply (bool_decide_unpack _). vm_compute. reflexivity.
  - apply (bool_decide_unpack _). vm_compute. reflexivity.
Defined.

Lemma wHalf_scalar p : pr_Enum p = "" -> scalar (VFloat64 wHalf) TFloat64 p.
Proof.
  intros Hp. apply S_float64; [exact Hp|].
  intros _. split; [|reflexivity]. exists "", "0", ".5", "".
  split; [done|]. split; [by left|]. split; [by left|]. split; [|by left].
  right. exists "5". split; [done|]. split; [reflexivity|discriminate].
Defined.

Lemma wKnown name w fts :
  wMessageDesc name = MsgDesc (MsgInfo (Some w) None) None fts [] [] -> well_known name w fts.
Proof. intros H. constructor; cbn; by rewrite H. Defined.

Lemma wDyn_typed kind x :
  typed_kind (Value_field kind) x -> typed (VPtr (Some (wDyn kind x))) (TMessage Value_name) no_props.
Proof.
  intros Hx. apply T_msg; [reflexivity|].
  apply (W_Value _ _ _ TOneof); [apply wKnown; reflexivity|exact Hx].
Defined.

Lemma wDynTree_typed p : pr_Enum p = "" -> typed (VPtr (Some wDynTree)) (TMessage Value_name) p.
Proof.
  intros Hp. apply T_msg; [exact Hp|]. unfold wDynTree, wDyn.
  apply (W_Value _ (Value_field "StructValue") _ TOneof); [apply wKnown; reflexivity|].
  apply (K_Struct _ ((wField "fields", TMap TString (TMessage Value_name)) :: wZero)).
  { apply wKnown. reflexivity. }
  apply (W_Struct _ _ _ (TMap TString (TMessage Value_name))); [apply wKnown; reflexivity| | |].
  - repeat constructor; set_solver.
  - by repeat constructor.
  - apply list.Forall_cons. split; [|apply list.Forall_cons; split; [|constructor]]; apply wDyn_typed.
    + apply K_number; [reflexivity|by apply wHalf_scalar].
    + apply (K_ListValue _ ((wField "values", TSlice (TMessage Value_name)) :: wZero)).
      { apply wKnown. reflexivity. }
      apply (W_ListValue _ _ _ (TSlice (TMessage Value_name))); [apply wKnown; reflexivity|].
      apply list.Forall_cons. split; [|apply list.Forall_cons; split; [|constructor]]; apply wDyn_typed.
      * apply K_null.
      * by apply K_string.
Defined.

Lemma wM_fields n sub alt :
  (0 <= n < 2 ^ 64)%Z -> typed (VPtr sub) (TMessage "pkg.M") (wProp "sub" "sub" None) ->
  match alt with
  | None => True
  | Some (f, x) => exists t, (4, f, t) ∈ md_oneofs wDesc /\ typed x t (fi_props f)
  end -> typed_struct (wM n sub alt) "pkg.M".
Proof.
  intros Hn Hs Ha. apply T_struct; [apply wGenerated|].
  change (MessageDesc "pkg.M") with wDesc. cbn [wDesc md_oneofs md_fields].
  apply F_field; [reflexivity|by apply T_scalar, S_uint64|].
  apply F_field; [reflexivity|by apply T_scalar, wHalf_scalar|].
  apply F_field; [reflexivity| |].
  { apply (T_map _ _ _ _ no_props); [reflexivity| | |].
    - repeat constructor; set_solver.
    - by repeat constructor.
    - by repeat constructor. }
  apply F_field; [reflexivity|exact Hs|].
  assert (forall os, typed_fields os 5
    [(wFld "dyn" "dyn" None, VPtr (Some wDynTree));
     (wFld "dur" "dur" None, VPtr (Some (known "Duration"
        [(wField "seconds", VInt64 (-1)); (wField "nanos", VInt32 (-500000000))] wZero)));
     (wFld "box" "box" None, VPtr (Some (known "Int64Value" [(wField "value", VInt64 (-7))] wZero)));
     (wHidden, VBytes None)]
    [(wFld "dyn" "dyn" None, TMessage Value_name); (wFld "dur" "dur" None, TMessage "Duration");
     (wFld "box" "box" None, TMessage "Int64Value"); (wHidden, TBytes)]) as Hrest.
  { intros os. apply F_field; [reflexivity|by apply wDynTree_typed|].
    apply F_field; [reflexivity| |].
    { apply T_msg; [reflexivity|]. apply W_Duration; [apply wKnown; reflexivity|reflexivity]. }
    apply F_field; [reflexivity| |].
    { apply T_msg; [reflexivity|].
      apply (W_wrapper _ _ _ _ TInt64); [reflexivity|apply wKnown; reflexivity|].
      split; [reflexivity|]. left. by apply S_int64. }
    apply (F_hidden _ _ wHidden TBytes); [reflexivity|constructor]. }
  destruct alt as [[f x]|].
  - destruct Ha as (t & Ho & Hx). eapply F_oneof; [reflexivity|exact Ho|exact Hx|apply Hrest].
  - apply F_oneof_nil; [reflexivity|apply Hrest].
Defined.

Definition wTreeText : string :=
  match MarshalToString (wMarshaler "") 0 (Some wTree) with Some (Ok s) => s | _ => "" end.

(** read with the defaults of [UnmarshalString] *)
Lemma jsonpb_roundtrip_witness :
  100 <= String.length wTreeText
  /\ exists v', Unmarshal (MkUnmarshaler false None) "pkg.M" (new_struct "pkg.M") wTreeText = Ok v'
     /\ geq wTree v'.
Proof.
  split; [apply Nat.leb_le; vm_compute; reflexivity|].
  apply (jsonpb_roundtrip (wMarshaler "") (MkUnmarshaler false None) 0).
  - constructor; [reflexivity|reflexivity].
  - apply wM_fields; [lia| |].
    + apply T_msg, wM_fields; [reflexivity|lia|by apply T_msg_nil|done].
    + exists TBytes. split; [set_solver|by constructor].
  - vm_compute. reflexivity.
Defined.

(** a dynamic value that is an infinity is written, and read back as a string *)
Lemma value_infinity :
  MarshalToString (wMarshaler "") 0 (Some (wDyn "NumberValue" (VFloat64 (S754_infinity false))))
    = Some (Ok (quoted "Infinity"))
  /\ Unmarshal (MkUnmarshaler false None) Value_name (new_struct Value_name) (quoted "Infinity")
     = Ok (wDyn "StringValue" (VString "Infinity")).
Proof. split; vm_compute; reflexivity. Qed.

(** ** The streams of a compact message *)

Definition wDefaults : Unmarshaler := MkUnmarshaler false None.

#[local] Existing Instance wEnv.

(** the model of the path [path] decodes contents and keys to the number of their bytes *)
Definition wArchive : GpbEnv := {|
  ProtoMessage := Z;
  proto_Unmarshal_Telemetry _ := Err EOF;
  proto_Marshal_Telemetry _ := Err EOF;
  proto_Unmarshal_Pdt _ := Err EOF;
  protoArchive p :=
    if String.eqb p "path"
    then Some (MkMapping (fun b => (Z.of_nat (length b), false))
                 (Some (fun b => (Z.of_nat (length b), false)))) else None;
  json_Marshal_drawer _ := Err EOF;
  json_Marshal_hexdump _ := Err EOF;
  json_Marshal_msg s := Ok (default [] (ms_Telemetry s));
  json_Encode_event _ t row := Ok (default [] t ++ default [] (rts_Content row));
  MarshalToString_message _ := Err EOF;
  MarshalToString_Telemetry _ := Err EOF;
  template_Execute_msg _ _ := Ok None;
  basePathXlation := None;
|}.

Definition wReflectRow (n : Z) : gval := wM n None None.
Definition wReflectTelemetry (t : Telemetry) : gval := wM (CollectionId t) None None.
Definition wRendered : GpbEnv := rendered wArchive wReflectRow wReflectTelemetry.

Definition wCompact : dataMsgGPB (G := wRendered) :=
  DataMsgGPB (G := wRendered) None "src"
    (MkTelemetry "node" "" "path" 7 0 7 []
       (Some [RowGPB 5 [Byte.x63] [Byte.x61; Byte.x62]; RowGPB 6 [] [Byte.x61]]) 0) None.

Definition wRows : list (gpbDecodeRow Z) := [GpbDecodeRow 5 (Some 1%Z) 2%Z; GpbDecodeRow 6 (Some 0%Z) 1%Z].

Definition wEvents : bytes :=
  match (produce_json (G := wRendered) wCompact dMStreamJSONEvents).2 with
  | Ok (Some b) => b
  | _ => []
  end.

Lemma wTyped n : (0 <= n < 2 ^ 64)%Z -> typed_struct (wReflectRow n) "pkg.M".
Proof. intros Hn. apply wM_fields; [exact Hn|by apply T_msg_nil|done]. Qed.

Lemma wRow_typed row : row ∈ wRows -> row_typed wArchive wReflectRow (fun _ => "pkg.M") row.
Proof.
  intros [->|[->|[]%not_elem_of_nil]%elem_of_cons]%elem_of_cons;
    (split; [apply wTyped; cbn; lia|]); intros pm [= <-]; apply wTyped; lia.
Qed.

(** none of the messages of the rows is refused *)
Lemma wPart n o :
  n ∈ [0%Z; 1%Z; 2%Z] -> part_reads_back wDefaults "pkg.M" (wReflectRow n) o -> is_Some o.
Proof.
  intros Hn. destruct o as [b|]; [done|]. intros [e He]. exfalso. revert He.
  apply elem_of_cons in Hn as [->|[->|[->|[]%not_elem_of_nil]%elem_of_cons]%elem_of_cons];
    vm_compute; discriminate.
Qed.

Lemma wRow_present row r :
  row ∈ wRows -> row_reads_back wArchive wReflectRow wDefaults (fun _ => "pkg.M") row r ->
  is_Some (rts_Content r) /\ is_Some (rts_Keys r).
Proof.
  intros [->|[->|[]%not_elem_of_nil]%elem_of_cons]%elem_of_cons (_ & Hc & Hk);
    cbn [gr_Content gr_Keys] in Hc, Hk; split.
  - apply (wPart 2); [|exact Hc]. by right; right; left.
  - apply (wPart 1); [|exact Hk]. by right; left.
  - apply (wPart 1); [|exact Hc]. by right; left.
  - apply (wPart 0); [|exact Hk]. by left.
Qed.

Lemma wRows_present l rows :
  (forall row, row ∈ l -> row ∈ wRows) ->
  Forall2 (row_reads_back wArchive wReflectRow wDefaults (fun _ => "pkg.M")) l rows ->
  Forall (fun r => is_Some (rts_Content r) /\ is_Some (rts_Keys r)) rows.
Proof.
  intros Hl HF. induction HF as [|row r l rows Hr HF IH]; constructor.
  - apply (wRow_present row); [|exact Hr]. apply Hl. by left.
  - apply IH. intros row' Hin. apply Hl. by right.
Qed.

Lemma render_streams_witness :
  100 <= length wEvents
  /\ exists t rows,
    stream_of wArchive dMStreamJSONEvents "src" t rows (Some wEvents)
    /\ reads_back wDefaults "pkg.M" (wM 7 None None) t
    /\ Forall2 (row_reads_back wArchive wReflectRow wDefaults (fun _ => "pkg.M")) wRows rows
    /\ Forall (fun r => is_Some (rts_Content r) /\ is_Some (rts_Keys r)) rows.
Proof.
  split; [apply Nat.leb_le; vm_compute; reflexivity|].
  destruct (render_streams wArchive wReflectRow wReflectTelemetry wDefaults wCompact
    dMStreamJSONEvents (produce_json (G := wRendered) wCompact dMStreamJSONEvents).1 (Some wEvents)
    "pkg.M" (fun _ => "pkg.M")) as (t & rows & Hs & Hr & Hrows).
  - constructor; [reflexivity|reflexivity].
  - apply wM_fields; [cbn; lia|by apply T_msg_nil|done].
  - vm_compute. reflexivity.
  - exists t, rows. split; [exact Hs|]. split; [exact Hr|].
    assert (Forall2 (row_reads_back wArchive wReflectRow wDefaults (fun _ => "pkg.M")) wRows rows) as HF.
    { eapply (Hrows _ _ wRows); [discriminate|reflexivity|].
      apply list.Forall_forall. exact wRow_typed. }
    split; [exact HF|]. apply (wRows_present wRows); [|exact HF]. intros row Hin. exact Hin.
Defined.

(** ** Documents and panics *)

(** a document of one member that holds another: [q] is a quote *)
Definition wDoc (a k v : string) : string :=
  "{" +:+ quoted a +:+ ": {" +:+ quoted k +:+ ":" +:+ v +:+ "}}".

Definition is_ok {A} (r : res A) : bool := match r with Ok _ => true | _ => false end.
Definition is_panic {A} (r : res A) : bool := match r with Panic => true | _ => false end.

Lemma wCalm : calm_env.
Proof.
  constructor; cbn [MessageDesc wUnmarshal time_ParseDuration]; try (intros; discriminate).
  - intros name f j. unfold wMessageDesc. repeat case_match; discriminate.
  - intros name. unfold wMessageDesc. repeat case_match; cbn; repeat constructor.
  - intros name. unfold wMessageDesc. repeat case_match; cbn; repeat constructor.
  - intros name. unfold wMessageDesc. repeat case_match; constructor.
  - intros name _. unfold wMessageDesc. repeat case_match; discriminate.
  - intros s. by case_match.
  - intros A mp [k x] Hin. cbn in *. by apply elem_of_map_to_list in Hin.
Defined.

Lemma unmarshal_safe_witness :
  is_ok (Unmarshal wDefaults "pkg.M" (new_struct "pkg.M") (wDoc "kv" "2" (quoted "two"))) = true
  /\ calm (Unmarshal wDefaults "pkg.M" (new_struct "pkg.M") (wDoc "kv" "2" (quoted "two"))).
Proof.
  split; [vm_compute; reflexivity|]. apply unmarshal_safe.
  - apply wCalm.
  - intros r turl. discriminate.
  - intros (w & Hw & _). discriminate Hw.
  - intros j rest H. vm_compute in H. injection H as <- _. vm_compute. repeat split; discriminate.
Defined.

(** an empty name for a number panics *)
Lemma unmarshal_empty_key :
  is_panic (Unmarshal wDefaults "pkg.M" (new_struct "pkg.M") (wDoc "kv" "" (quoted "two"))) = true.
Proof. vm_compute. reflexivity. Qed.

(** and so does a null value of a well-known type in an [Any] *)
Definition wAnyEnv : UnmarshalEnv := {|
  MessageDesc name :=
    MsgDesc (MsgInfo (Some name) None) None
      [(wFld "a" "a" None, TString); (wFld "b" "b" None, TBytes)] [] [];
  MessageTypeName name := Some name;
  EnumValueMap _ := ∅;
  Value_field _ := wField "kind";
  ParseFloat32 _ := None;
  ParseFloat64 _ := None;
  time_ParseDuration _ := Err EOF;
  time_Parse _ := Err EOF;
  proto_Marshal _ := Err EOF;
  proto_SetExtension _ _ _ := Err EOF;
  json_range A mp := map_to_list mp;
|}.

Lemma unmarshal_null_value :
  is_panic (@Unmarshal wAnyEnv wDefaults "Any" (@new_struct wAnyEnv "Any")
    ("{" +:+ quoted "@type" +:+ ":" +:+ quoted "x/Duration" +:+ "," +:+ quoted "value" +:+ ":null}"))
  = true.
Proof. vm_compute. reflexivity. Qed.
